(* ===== verification/_CoqProject ===== *)
-Q . S2P
Prelude.v
Table.v
GoTime.v
Base64.v
Models.v
Api.v
Hub.v
HubInv.v
Ext.v
Net.v
Text.v
World.v
Demo.v
Config.v
ConfigSpec.v
Launcher.v
StoreAccounts.v
StoreCircles.v
StorePings.v
StoreWf.v
PgAccounts.v
PgCircles.v
PgPings.v
Querier.v
Token.v
SafetyCode.v
Boxes.v
Password.v
Auth.v
Server.v
Realtime.v
CirclesApi.v
PlacesApi.v
PingsApi.v
ShareApi.v
Columns.v
Static.v
Sqlitedb.v
Handles.v
Doctor.v
Files.v
Publish.v
Command.v
Tray.v
AuthApi.v
Httpx.v
Fcm.v
Push.v
Retention.v
Partitions.v
Ratelimit.v
Router.v
Routes.v
Throttle.v
StoreInv.v
System.v
SystemSpec.v
AuthSpec.v
CirclesSpec.v
RetentionSpec.v
PingsSpec.v
PlacesSpec.v
ShareSpec.v
ColumnsSpec.v
StaticSpec.v
PushSpec.v
PartitionsSpec.v
LatestSpec.v
QuerierSpec.v
PublishSpec.v
HubSys.v
RemovalSpec.v
HubSpec.v
LauncherSpec.v
FilesSpec.v
CommandSpec.v
Lock.v
LockSpec.v
Middleware.v
MiddlewareSpec.v
