(* ===== verification/Prelude.v ===== *)
(** * The Aul server: a verification library

    Aul is a private location-sharing service.  Its server (Go, src/server) relays
    what the clients seal: encrypted positions, places and keys of "circles" of
    people.  This library models the server and its launcher, every Go package of
    src/server, and proves what makes them correct.  It is a shallow embedding:
    each definition bears the name of the function, type or constant it translates.

    ** The program and the files that model it

    A request comes in through the HTTP middleware, is routed to a handler, which
    talks to the store through one interface with two backends, and announces what
    changed to the realtime hub; maintenance runs beside the requests; a launcher
    starts the whole on a desktop.  The files, bottom up:

    - Foundations: Prelude (fixed-width integers, results, lists, tactics, the
      hint database [aul]), Table (SQL tables as lists of rows, with unique
      indexes, CHECKs and foreign keys), GoTime (instants, the calendar, the text
      form of an instant), Base64, Net, Text, Demo (a concrete environment for
      examples).
    - Data: Models (store/models.go, one record a table), Api (the DTOs and
      responses of httpapi and httpx), Ext (what the server calls in third-party
      code, as a class without laws; the configuration record), Columns
      (store/sqlite.go: bind and scan).
    - Semantics of effects: World.  A store statement, a transaction, a hub call
      is one instant of type [M], a state monad over the tables, the hub, the
      clock, the random draws, the log of Argon2id calls and a schedule of engine
      failures; a handler is a
      [prog], a tree of instants, so that concurrent requests interleave between
      them.  [run] executes one program alone; [ok] and [safe] are invariants of
      its instants, the second while others move along a relation (rely and
      guarantee).
    - Store: StoreAccounts, StoreCircles, StorePings (sqlite_queries.go, one
      definition a method), PgAccounts, PgCircles, PgPings (the *.sql.go queries
      of Postgres), Querier (the interface as a type of statements with its two
      interpretations), StoreWf (the schema as an invariant), StoreInv (the
      class [StoreInv I R]: what an invariant must survive, and what the statements
      must do to the facts a handler has read), Sqlitedb and Handles
      (opening, migrating, closing; transactions call by call).
    - Cryptography: Token (SHA-256 and HMAC executable), Password (the PHC format
      around Argon2id), SafetyCode, Boxes.
    - Authentication: Auth (internal/auth, internal/audit).
    - HTTP: Middleware (internal/middleware, the timeout of /v1, and what the
      handlers write), Httpx (JSON plumbing, operational
      endpoints), Server (requireCircleMember, RateLimit), CirclesApi, PlacesApi,
      PingsApi, ShareApi, AuthApi (the handlers, a file or two of httpapi each),
      Static (static.go), Router ([serve], a route with everything in front of its
      handler), Routes (the mount functions' declarations as data), Ratelimit and
      Throttle (the limiters and their wiring).
    - Realtime: Hub (realtime/hub.go: clients are cells of a heap that two
      goroutines point to), Realtime (the endpoint of ws.go), HubSys (the hub, its
      connections and callers as a step relation, with reachability).
    - Push: Fcm (internal/fcm), Push (push.go: senders, pruning, worker pool).
    - Maintenance: Retention (RunOnce on SQLite), Partitions (the Postgres side).
    - System: the threads of the server (requests, maintenance, publications)
      interleaved instant by instant; [reachable] is every state of every schedule.
    - Processes: Config (config.go), Command (the mains and launcher.Run), Publish
      (the operator's subcommands), Launcher (origin, Funnel, environment,
      supervisor), Doctor (preflight and paths), Files (the pepper file against
      power losses), Lock (the pidfile, with racing launchers), Tray (the tray).

    A file XSpec holds the theorems about X and its examples; where a file has few
    theorems they stand at its end.

    ** State and interfaces

    The tables ([DB]) and the hub ([Hub]) are records of the [World]; the handlers
    never touch them but through statements and hub calls.  Invariants of the
    tables are proved once per statement and lifted to every handler and schedule
    by the class [StoreInv] and by [System.reachable_inv]; the hub's by [hub_inv].
    Where a statement keeps an invariant only because of what its handler has
    checked, the class demands it under that check, and the handler's proof carries
    the check over the instants of the others ([System.owned], [System.evolves]).
    Clients of the store are programs over [Querier.stmt], so that exchanging the
    backend is a change of interpretation ([engine]).  The token bucket of the
    limiters is the class [TokenBucket] with [TokenBucketLaws], what other code
    writes in a response the class [Writes] with [WritesLaws].

    ** What the theorems show

    - From an empty database every schedule keeps the schema, and every circle has
      its creator as owner and nobody else: no handler leaves a circle half made or
      removes its owner; ownership cannot be acquired, an invite is not oversold
      (SystemSpec).
    - The hub never panics, its index is exact, an eviction takes effect and is
      exact (HubSys); the hub refines an abstract board (HubSpec); a removal takes
      effect from the request to the last frame (RemovalSpec).
    - Authentication: a route runs for the owner of a live session only, refresh
      tokens are spent once, a locked account is refused before its password is
      looked at, a login that fails does not tell whether the address has an account,
      not even by the Argon2id calls it makes (AuthSpec); hashes verify (Password).
    - Circles: no member, no information; joining is atomic (CirclesSpec).  Places
      and pings: no lost update, batches atomic and idempotent, the cache
      invisible (PlacesSpec, PingsSpec).  Share links: bounded, one device
      (ShareSpec).
    - Store: rows are read back as written (ColumnsSpec), the backends are
      interchangeable, whatever order Postgres scans its rows in, failed statements
      and transactions included (QuerierSpec, with LatestSpec), transactions end
      (Handles).
    - Maintenance keeps exactly what it should (RetentionSpec, PartitionsSpec).
    - Routing: the declarations are the server, without ambiguity (Routes);
      the limiters throttle and their janitor is invisible (Throttle); every
      page the server writes is secured and the client's address cannot be chosen
      (MiddlewareSpec); static files stay in their roots (StaticSpec).
    - Push: the fan-out ends and is exact (PushSpec).  Safety codes are canonical
      (SafetyCode).
    - Processes: a loaded configuration is sound (ConfigSpec), the launcher's
      environment boots (LauncherSpec), the supervisor restarts, one launcher at a
      time serves (CommandSpec, LockSpec), the pepper survives crashes (FilesSpec),
      the preflight tells the truth (Doctor), a published release is served
      (PublishSpec).
    - Defects are lemmas on concrete runs: among them [CirclesSpec.invite_ttl_wraps],
      [HubSys.full_queue_drops_eviction], [HubSys.stale_listing_outlives_eviction],
      [AuthSpec.empty_password_tells_account], [LockSpec.lock_race],
      [FilesSpec.unsynced_pepper_lost], [Sqlitedb.question_mark_drops_foreign_keys],
      [Tray.clean_exit_still_running].

    ** Choices

    Integers are [Z], with the wrap-around of Go's widths written out where a
    computation can reach it ([wrap32], [wrap64], [Duration_mul]).  Instants are
    nanoseconds; the SQLite columns keep milliseconds ([tv]), which the text form is
    proved to order ([GoTime.fmtTime_compare]).  Recursion is structural: over the
    data; over the number of digits, bytes, months or ticks that the code itself
    counts, the ticks of a ticker or a deadline being any number; over the rounds of
    a retry loop of the code.  Only [SafetyCode.group_hex] has fuel, the length of
    its text, of which every round takes four characters, and [Token.cube_root] the
    bits of its result; SHA-256 is checked on the published vectors and the safety
    codes on those of the repository.  A schedule is a list of
    steps or a reflexive-transitive closure, without a bound.  What fails is part of
    the input: engine faults ([w_faults]), random draws ([w_uuid], [w_rand]), failing
    system calls, crashes, panics of a send or of a transaction's body.

    ** Not modelled

    - JSON text: a handler gets the decoded request or its refusal, and answers the
      value that is encoded; the decoder is a parameter of Httpx.
    - Third-party and standard-library code with tables or cryptography of its own:
      Argon2id, the boxes of golang.org/x/crypto, webpush-go, OAuth, the WebSocket
      protocol, URL, e-mail and RFC 3339 parsing, Unicode folding; they are
      parameters, and a theorem that needs something of them says so.  The token
      bucket of golang.org/x/time/rate computes in floating point; its laws here are
      exact.
    - The engines: a statement is what its SQL text means on the tables.  Rows
      without an order come in the order of insertion on SQLite and of a parameter
      on Postgres; the numbers from a sequence are dense on both (Postgres leaves a
      gap after a failed insertion; nothing reads them but as an order).  A
      commit that fails leaves nothing, which is a hypothesis where it matters
      ([Handles.commit_law]).  SQLite and
      Postgres are taken to serialise statements and transactions; Postgres at its
      default isolation level runs single statements so, and the transactions of this
      program as far as they are single instants here.
    - chi's matching (only that it leaves nothing to choose), the ranges and
      conditions of http.ServeContent, goose's migrations as such, the toolkit of the
      tray.
    - internal/testutil (databases for the Go tests) and the clients, which are other
      languages. *)

From Stdlib Require Export ZArith Lia Bool Ascii String.
From stdpp Require Export base decidable countable option list sets gmap fin_maps strings pretty.
From Stdlib Require Export Sorting.Sorted Init.Byte.

#[export] Set Default Goal Selector "!".

(** ** Fixed-width Go integers

    A Go [int32]/[int64] is a [Z] kept in range by the wrap-around of the
    conversion or arithmetic operation that produced it. *)

Definition wrap (w z : Z) : Z := ((z + 2 ^ (w - 1)) mod 2 ^ w - 2 ^ (w - 1))%Z.
Definition wrap32 (z : Z) : Z := wrap 32 z.
Definition wrap64 (z : Z) : Z := wrap 64 z.

Definition in_int (w z : Z) : Prop := (- 2 ^ (w - 1) <= z < 2 ^ (w - 1))%Z.

Lemma wrap_range w z : (0 < w)%Z -> in_int w (wrap w z).
Proof.
  intros Hw. unfold in_int, wrap.
  assert (H2 : (2 ^ w = 2 * 2 ^ (w - 1))%Z).
  { rewrite <- Z.pow_succ_r by lia. f_equal. lia. }
  pose proof (Z.pow_pos_nonneg 2 (w - 1) ltac:(lia) ltac:(lia)) as Hp.
  pose proof (Z.mod_pos_bound (z + 2 ^ (w - 1)) (2 ^ w) ltac:(lia)). lia.
Qed.

Lemma wrap_id w z : (0 < w)%Z -> in_int w z -> wrap w z = z.
Proof.
  intros Hw [Hl Hu]. unfold wrap.
  assert (H2 : (2 ^ w = 2 * 2 ^ (w - 1))%Z).
  { rewrite <- Z.pow_succ_r by lia. f_equal. lia. }
  rewrite Z.mod_small by lia. lia.
Qed.

(** [strconv.Itoa]. *)
Definition itoa (z : Z) : string := pretty z.

Definition empty (s : string) : bool := bool_decide (s = EmptyString).

Lemma empty_true s : empty s = true -> s = EmptyString.
Proof. apply bool_decide_eq_true. Qed.
Lemma empty_false s : empty s = false -> s <> EmptyString.
Proof. apply bool_decide_eq_false. Qed.

(** [s] between double quotes. *)
Definition quoted (s : string) : string :=
  String (ascii_of_nat 34) (s ++ String (ascii_of_nat 34) EmptyString).

Definition newline : string := String (ascii_of_nat 10) EmptyString.

(** [strings.HasPrefix], [strings.Contains], [strings.Join]. *)
Definition HasPrefix (s p : string) : bool := String.prefix p s.
Definition Contains (s sub : string) : bool := bool_decide (String.index 0 sub s <> None).
Definition Join (l : list string) (sep : string) : string := String.concat sep l.

(** ** Results

    A Go function returning [(T, error)] is a [result E T]. *)

Inductive result (E A : Type) : Type :=
| Ok (a : A)
| Err (e : E).
Arguments Ok {E A} a.
Arguments Err {E A} e.

#[export] Instance result_eq_dec {E A} `{EqDecision E, EqDecision A} : EqDecision (result E A).
Proof. solve_decision. Defined.

Definition result_bind {E A B} (m : result E A) (k : A -> result E B) : result E B :=
  match m with Ok a => k a | Err e => Err e end.

(** [guard_res b e k]: the early return [if !b { return e }] before [k]. *)
Definition guard_res {E A} (b : bool) (e : E) (k : result E A) : result E A :=
  if b then k else Err e.

Declare Scope aul_scope.
Delimit Scope aul_scope with aul.

Notation "x '<-?' m ';;' k" := (result_bind m (fun x => k))
  (at level 100, m at next level, right associativity) : aul_scope.

#[export] Instance byte_eq_dec : EqDecision byte := Byte.byte_eq_dec.

(** Go byte slices: [bytes] is the contents; a slice that may be [nil] (a NULL
    column) is an [option bytes]. *)
Abbreviation bytes := (list byte).

(** ** Ordering query results

    [sort_by key l] is a stable ascending sort, SQL's [ORDER BY key]; rows with
    equal keys keep their order (an engine may return them in any order). *)

Fixpoint insert_by {A} (key : A -> Z) (x : A) (l : list A) : list A :=
  match l with
  | [] => [x]
  | y :: l' => if (key x <=? key y)%Z then x :: y :: l' else y :: insert_by key x l'
  end.

Definition sort_by {A} (key : A -> Z) (l : list A) : list A := foldr (insert_by key) [] l.

(** ** Generic lemmas *)

Section sorting.
Context {A : Type} (key : A -> Z).
Implicit Types (l : list A) (x : A).

Lemma insert_by_perm x l : insert_by key x l ≡ₚ x :: l.
Proof.
  induction l as [|y l IH]; simpl; [done|].
  destruct (_ <=? _)%Z; [done|]. rewrite IH. constructor.
Qed.

Lemma sort_by_perm l : sort_by key l ≡ₚ l.
Proof.
  induction l as [|x l IH]; simpl; [done|].
  rewrite insert_by_perm. by rewrite IH.
Qed.

Lemma elem_of_sort_by x l : x ∈ sort_by key l <-> x ∈ l.
Proof. by rewrite sort_by_perm. Qed.

Lemma length_sort_by l : length (sort_by key l) = length l.
Proof. by rewrite sort_by_perm. Qed.

Definition key_le (x y : A) : Prop := (key x <= key y)%Z.

Lemma insert_by_sorted x l :
  StronglySorted key_le l -> StronglySorted key_le (insert_by key x l).
Proof.
  induction 1 as [|y l Hs IH Hy]; simpl; [repeat constructor|].
  destruct (Z.leb_spec (key x) (key y)) as [Hle|Hlt].
  - constructor; [by constructor|]. constructor; [done|].
    eapply Forall_impl; [done|]. unfold key_le. intros; simpl in *; lia.
  - constructor; [done|]. rewrite insert_by_perm. constructor; [|done].
    unfold key_le. lia.
Qed.

Lemma sort_by_sorted l : StronglySorted key_le (sort_by key l).
Proof. induction l; simpl; [constructor|]. by apply insert_by_sorted. Qed.
End sorting.

(** ** Automation

    [aul] collects the preservation lemmas; [case_res] splits the first match
    or conditional of a hypothesis or goal. *)

Create HintDb aul discriminated.

Ltac case_res :=
  match goal with
  | H : context [match ?x with _ => _ end] |- _ => destruct x eqn:?; simplify_eq/=
  | |- context [match ?x with _ => _ end] => destruct x eqn:?; simplify_eq/=
  end.

(** A decidable closed proposition, by evaluating its decision procedure. *)
Ltac decide_compute :=
  match goal with |- ?P => refine (bool_decide_eq_true_1 P _); vm_compute; reflexivity end.
