(* ===== verification/Table.v ===== *)
(** * SQL tables

    A table is the list of its rows in insertion order.  The statements the
    store issues select, update and delete the rows a WHERE clause holds of;
    an INSERT appends.  The lemmas say how each of them acts on the three kinds
    of schema constraint: a unique index ([uniq]), a CHECK of every row, and a
    foreign key into another table ([refs], [refs_opt] for a nullable column). *)

From S2P Require Import Prelude.

Section table.
Context {R : Type}.
Implicit Types (t : list R) (r : R).

Definition update_where (P : R -> Prop) `{forall r, Decision (P r)} (f : R -> R) t : list R :=
  (fun r => if decide (P r) then f r else r) <$> t.

Definition delete_where (P : R -> Prop) `{forall r, Decision (P r)} t : list R :=
  filter (fun r => ~ P r) t.

(** The rows a statement touches: RowsAffected, and what RETURNING yields. *)
Definition count_where (P : R -> Prop) `{forall r, Decision (P r)} t : Z :=
  Z.of_nat (length (filter P t)).

Section index.
Context {K : Type} `{EqDecision K} (key : R -> K).

(** A unique index over the columns [key]. *)
Definition uniq t : Prop := NoDup (key <$> t).

(** Rows whose [key] is NULL are outside the index. *)
Definition refs (ks : list K) t : Prop := Forall (fun r => key r ∈ ks) t.
End index.

Definition refs_opt {K} (key : R -> option K) (ks : list K) t : Prop :=
  Forall (fun r => forall k, key r = Some k -> k ∈ ks) t.

#[global] Instance uniq_decision {K} `{EqDecision K} (key : R -> K) t : Decision (uniq key t).
Proof. unfold uniq. apply _. Defined.

#[global] Instance refs_decision {K} `{EqDecision K} (key : R -> K) ks t : Decision (refs key ks t).
Proof. unfold refs. apply _. Defined.

Definition key_in {K} (o : option K) (ks : list K) : Prop := forall k, o = Some k -> k ∈ ks.

#[global] Instance key_in_decision {K} `{EqDecision K} (o : option K) ks : Decision (key_in o ks).
Proof.
  refine (match o with
          | Some k => match decide (k ∈ ks) with left h => left _ | right h => right _ end
          | None => left _
          end); unfold key_in.
  - by intros ? [= <-].
  - intros Hk. by apply h, Hk.
  - done.
Defined.

#[global] Instance refs_opt_decision {K} `{EqDecision K} (key : R -> option K) ks t :
  Decision (refs_opt key ks t).
Proof. unfold refs_opt. apply Forall_dec. intros r. apply (key_in_decision (key r) ks). Defined.
End table.

(** ** Unique indexes *)
Section uniq_lemmas.
Context {R K : Type} `{EqDecision K} (key : R -> K).
Implicit Types (t : list R) (r : R).

Lemma uniq_insert t r : uniq key t -> key r ∉ key <$> t -> uniq key (t ++ [r]).
Proof.
  unfold uniq. intros Hu Hn. rewrite fmap_app. apply NoDup_app.
  split; [done|]. split; [|apply NoDup_singleton].
  intros k Hk. simpl. rewrite list_elem_of_singleton. by intros ->.
Qed.

Lemma uniq_filter (P : R -> Prop) `{forall r, Decision (P r)} t :
  uniq key t -> uniq key (filter P t).
Proof.
  unfold uniq. intros Hu. eapply sublist_NoDup; [done|].
  apply fmap_sublist, sublist_filter.
Qed.

Lemma uniq_delete (P : R -> Prop) `{forall r, Decision (P r)} t :
  uniq key t -> uniq key (delete_where P t).
Proof. apply uniq_filter. Qed.

Lemma update_where_key (P : R -> Prop) `{forall r, Decision (P r)} f t :
  (forall r, P r -> key (f r) = key r) -> key <$> update_where P f t = key <$> t.
Proof.
  intros Hf. unfold update_where. rewrite <- list_fmap_compose.
  apply list_fmap_ext. intros i r _. simpl. case_decide; auto.
Qed.

Lemma uniq_update (P : R -> Prop) `{forall r, Decision (P r)} f t :
  (forall r, P r -> key (f r) = key r) -> uniq key t -> uniq key (update_where P f t).
Proof. intros Hf. unfold uniq. by rewrite update_where_key. Qed.

Lemma uniq_inj t r1 r2 : uniq key t -> r1 ∈ t -> r2 ∈ t -> key r1 = key r2 -> r1 = r2.
Proof.
  intros Hu (i & Hi)%list_elem_of_lookup (j & Hj)%list_elem_of_lookup Heq.
  assert (i = j) as <- by (eapply NoDup_lookup; [exact Hu| |];
    rewrite list_lookup_fmap; [by rewrite Hi|by rewrite Hj, Heq]).
  congruence.
Qed.

Lemma elem_of_keys t r : r ∈ t -> key r ∈ key <$> t.
Proof. apply list_elem_of_fmap_2. Qed.
End uniq_lemmas.

(** ** CHECKs and foreign keys *)
Section forall_lemmas.
Context {R : Type} (Q : R -> Prop).
Implicit Types (t : list R) (r : R).

Lemma Forall_insert_row t r : Forall Q t -> Q r -> Forall Q (t ++ [r]).
Proof. intros. apply Forall_app. auto. Qed.

Lemma Forall_delete_rows (P : R -> Prop) `{forall r, Decision (P r)} t :
  Forall Q t -> Forall Q (delete_where P t).
Proof.
  intros Ht. apply Forall_forall. intros r Hr. apply list_elem_of_filter in Hr as [_ Hr].
  by eapply Forall_forall in Ht.
Qed.

Lemma Forall_update_rows (P : R -> Prop) `{forall r, Decision (P r)} f t :
  (forall r, P r -> Q r -> Q (f r)) -> Forall Q t -> Forall Q (update_where P f t).
Proof.
  intros Hf Ht. apply Forall_fmap. eapply Forall_impl; [exact Ht|]. intros r Hr. simpl.
  case_decide; auto.
Qed.
End forall_lemmas.

Section refs_lemmas.
Context {R K : Type} `{EqDecision K}.
Implicit Types (t : list R) (ks : list K).

Lemma refs_sub (key : R -> K) ks ks' t : (forall k, k ∈ ks -> k ∈ ks') -> refs key ks t -> refs key ks' t.
Proof. intros Hs Ht. eapply Forall_impl; [exact Ht|]. intros r Hr. by apply Hs. Qed.

Lemma refs_opt_sub (key : R -> option K) ks ks' t :
  (forall k, k ∈ ks -> k ∈ ks') -> refs_opt key ks t -> refs_opt key ks' t.
Proof. intros Hs Ht. eapply Forall_impl; [exact Ht|]. intros r Hr k Hk. by apply Hs, Hr. Qed.

(** ON DELETE CASCADE: the parents other than [id] are still there. *)
Lemma refs_cascade (key : R -> K) id ks ks' t :
  (forall k, k ∈ ks -> k <> id -> k ∈ ks') -> refs key ks t ->
  refs key ks' (delete_where (fun r => key r = id) t).
Proof.
  intros Hs Ht. apply Forall_forall. intros r Hr.
  apply list_elem_of_filter in Hr as [Hne Hr]. eapply Forall_forall in Ht; [|exact Hr]. by apply Hs.
Qed.

Lemma refs_opt_cascade (key : R -> option K) id ks ks' t :
  (forall k, k ∈ ks -> k <> id -> k ∈ ks') -> refs_opt key ks t ->
  refs_opt key ks' (delete_where (fun r => key r = Some id) t).
Proof.
  intros Hs Ht. apply Forall_forall. intros r Hr k Hk.
  apply list_elem_of_filter in Hr as [Hne Hr]. eapply Forall_forall in Ht; [|exact Hr].
  apply Hs; [by apply Ht|]. by intros ->.
Qed.

(** ON DELETE SET NULL. *)
Lemma refs_opt_setnull (key : R -> option K) id f ks ks' t :
  (forall k, k ∈ ks -> k <> id -> k ∈ ks') -> (forall r, key (f r) = None) -> refs_opt key ks t ->
  refs_opt key ks' (update_where (fun r => key r = Some id) f t).
Proof.
  intros Hs Hf Ht. apply Forall_fmap, Forall_forall. intros r Hr k. simpl.
  eapply Forall_forall in Ht; [|exact Hr]. case_decide as Hd; [by rewrite Hf|].
  intros Hk. apply Hs; [by apply Ht|]. congruence.
Qed.
End refs_lemmas.

(** The keys a DELETE leaves. *)
Lemma elem_of_delete_keys {R K} `{EqDecision K} (key : R -> K) (P : R -> Prop) `{forall r, Decision (P r)}
    (t : list R) k :
  (forall r, r ∈ t -> P r -> key r <> k) -> k ∈ key <$> t -> k ∈ key <$> delete_where P t.
Proof.
  intros HP (r & -> & Hr)%list_elem_of_fmap. apply elem_of_keys, list_elem_of_filter.
  split; [|done]. intros Hp. by apply (HP r).
Qed.

(** ** Counts *)
Section counts.
Context {R : Type}.
Implicit Types (t : list R).

Lemma count_where_app (P : R -> Prop) `{forall r, Decision (P r)} t t' :
  count_where P (t ++ t') = (count_where P t + count_where P t')%Z.
Proof. unfold count_where. rewrite filter_app, length_app. lia. Qed.

Lemma count_where_le (P Q : R -> Prop) `{forall r, Decision (P r)} `{forall r, Decision (Q r)} t :
  (forall r, P r -> Q r) -> (count_where P t <= count_where Q t)%Z.
Proof.
  intros HPQ. unfold count_where. apply inj_le. induction t as [|r t IH]; [done|].
  rewrite !filter_cons. repeat case_decide; simpl; try lia. by destruct H2; apply HPQ.
Qed.

Lemma count_where_one (P : R -> Prop) `{forall r, Decision (P r)} r :
  (0 <= count_where P [r] <= 1)%Z.
Proof. unfold count_where. rewrite filter_cons. case_decide; simpl; lia. Qed.

Lemma count_where_pos (P : R -> Prop) `{forall r, Decision (P r)} t :
  (0 < count_where P t)%Z <-> exists r, r ∈ t /\ P r.
Proof.
  unfold count_where. split.
  - intros Hp. destruct (filter P t) as [|r l] eqn:Hf; [simpl in Hp; lia|].
    assert (Hr : r ∈ filter P t) by (rewrite Hf; constructor).
    apply list_elem_of_filter in Hr as [? ?]. eauto.
  - intros (r & Hr & Hp). assert (Hin : r ∈ filter P t) by (by apply list_elem_of_filter).
    destruct (filter P t); [by apply not_elem_of_nil in Hin|]. simpl. lia.
Qed.
End counts.
