(* ===== verification/GoTime.v ===== *)
(** * Time: instants, durations, and the stored text form

    An instant ([time.Time]) is the [Z] number of nanoseconds since the Unix
    epoch, in UTC; a duration ([time.Duration]) is an int64 number of
    nanoseconds.  The SQLite store writes every instant as text of a fixed
    width (store/sqlite.go, [fmtTime]) and lets the engine compare the texts;
    [fmtTime_compare] shows that this order is the order of the instants at
    millisecond precision, which is why the tables of this development hold
    instants truncated by [tv] and compare them as integers. *)

From S2P Require Import Prelude.
Local Open Scope Z_scope.

Abbreviation time := Z.
Abbreviation duration := Z.

Definition Millisecond : duration := 1000000.
Definition Second : duration := 1000 * Millisecond.
Definition Minute : duration := 60 * Second.
Definition Hour : duration := 60 * Minute.
Definition Day : duration := 24 * Hour.

(** [time.Duration(n) * unit]: the int64 product wraps around. *)
Definition Duration_mul (n : Z) (unit : duration) : duration := wrap64 (n * unit).

Definition Add (t : time) (d : duration) : time := t + d.
(** [t.AddDate(0, 0, n)] in UTC, where every day has 24 hours. *)
Definition AddDays (t : time) (n : Z) : time := t + n * Day.
Definition Before (t u : time) : bool := t <? u.
Definition After (t u : time) : bool := u <? t.

(** ** The civil calendar

    Year, month and day of a day number counted from 1970-01-01, in the
    proleptic Gregorian calendar [time.Time.Format] prints.  A year begins in
    March here, so the leap day is the last day of a year; 146097 days make the
    400-year cycle. *)

Definition cycle : Z := 146097.

(** Year of the day [doe] of a cycle, and the first day of a year. *)
Definition year_of_doe (doe : Z) : Z :=
  (doe - doe / 1460 + doe / 36524 - doe / 146096) / 365.

Definition year_start (y : Z) : Z := 365 * y + y / 4 - y / 100.

(** Carry into the next (January-based) year, month and day of the day [doy] of
    a March-based year. *)
Definition civil_of_doy (doy : Z) : Z * Z * Z :=
  let mp := (5 * doy + 2) / 153 in
  let d := doy - (153 * mp + 2) / 5 + 1 in
  let m := if mp <? 10 then mp + 3 else mp - 9 in
  (if m <=? 2 then 1 else 0, m, d).

Definition civil_of_doe (doe : Z) : Z * Z * Z :=
  let yoe := year_of_doe doe in
  let '(c, m, d) := civil_of_doy (doe - year_start yoe) in
  (yoe + c, m, d).

Definition civil_of_days (days : Z) : Z * Z * Z :=
  let z := days + 719468 in
  let '(y, m, d) := civil_of_doe (z mod cycle) in
  (y + 400 * (z / cycle), m, d).

Definition days_of_civil (y m d : Z) : Z :=
  let y' := if m <=? 2 then y - 1 else y in
  let yoe := y' mod 400 in
  let mp := if 2 <? m then m - 3 else m + 9 in
  let doy := (153 * mp + 2) / 5 + d - 1 in
  (y' / 400) * cycle + (year_start yoe + doy) - 719468.

(** ** Text *)

Definition digit (z : Z) : ascii := ascii_of_N (Z.to_N (48 + z)).

(** [z] in decimal, zero-padded to [n] digits. *)
Fixpoint digits (n : nat) (z : Z) : string :=
  match n with
  | O => EmptyString
  | S n' => (digits n' (z / 10) ++ String (digit (z mod 10)) EmptyString)%string
  end.

(** [fmtTime t = t.UTC().Format("2006-01-02T15:04:05.000Z07:00")]. *)
Definition fmtTime (t : time) : string :=
  let '(y, m, d) := civil_of_days (t / Day) in
  let tod := t mod Day in
  (digits 4 y ++ "-" ++ digits 2 m ++ "-" ++ digits 2 d ++ "T" ++
   digits 2 (tod / Hour) ++ ":" ++ digits 2 (tod / Minute mod 60) ++ ":" ++
   digits 2 (tod / Second mod 60) ++ "." ++ digits 3 (tod / Millisecond mod 1000) ++ "Z")%string.

(** What a column holds of an instant: its text form, read back. *)
Definition tv (t : time) : time := t / Millisecond * Millisecond.
Definition tvp (t : option time) : option time := tv <$> t.

(** The current instant as SQLite's [strftime('%Y-%m-%dT%H:%M:%fZ','now')]. *)
Definition sqNow (now : time) : time := tv now.

(** The "no successful login yet" bound 0001-01-01T00:00:00.000Z. *)
Definition sqliteEpoch : time := days_of_civil 1 1 1 * Day.

(** Reading a canonical text back ([parseTime]): the digits of each field. *)
Definition digit_value (c : ascii) : option Z :=
  let n := Z.of_N (N_of_ascii c) in
  if (48 <=? n) && (n <=? 57) then Some (n - 48) else None.

(** Reads [n] digits, the number so far being [acc]. *)
Fixpoint read_digits (n : nat) (acc : Z) (s : string) : option (Z * string) :=
  match n, s with
  | O, _ => Some (acc, s)
  | S n', String c s' =>
      match digit_value c with Some v => read_digits n' (10 * acc + v) s' | None => None end
  | S _, EmptyString => None
  end.

Definition read_char (c : ascii) (s : string) : option string :=
  match s with String c' s' => if ascii_dec c c' then Some s' else None | EmptyString => None end.

Definition read_field (n : nat) (sep : ascii) (s : string) : option (Z * string) :=
  match read_digits n 0 s with
  | Some (v, s') => match read_char sep s' with Some s'' => Some (v, s'') | None => None end
  | None => None
  end.

(** [parseTime] on texts of the stored form. *)
Definition parseTime (s : string) : option time :=
  match read_field 4 "-" s with None => None | Some (y, s) =>
  match read_field 2 "-" s with None => None | Some (m, s) =>
  match read_field 2 "T" s with None => None | Some (d, s) =>
  match read_field 2 ":" s with None => None | Some (hh, s) =>
  match read_field 2 ":" s with None => None | Some (mm, s) =>
  match read_field 2 "." s with None => None | Some (ss, s) =>
  match read_field 3 "Z" s with None => None | Some (ms, s) =>
  match s with
  | EmptyString =>
      Some (days_of_civil y m d * Day + hh * Hour + mm * Minute + ss * Second + ms * Millisecond)
  | String _ _ => None
  end end end end end end end end.

(** ** Correctness of the calendar

    The year of a day of the cycle is monotone in the day, so checking the two
    ends of each of the 400 years fixes it everywhere; month and day are checked
    on the 366 days of a year; the period carries both to all days. *)

Section range_check.
Context (P : Z -> bool).

Fixpoint check_range (n : nat) (a : Z) : bool :=
  match n with
  | O => true
  | S n' => P a && check_range n' (a + 1)
  end.

Lemma check_range_spec n a z :
  check_range n a = true -> a <= z < a + Z.of_nat n -> P z = true.
Proof.
  revert a. induction n as [|n IH]; intros a; simpl check_range; [lia|].
  rewrite andb_true_iff. intros [Ha Hr] Hz.
  destruct (Z.eq_dec z a) as [->|]; [done|]. apply (IH (a + 1)); [done|lia].
Qed.
End range_check.

Definition date_key (c : Z * Z * Z) : Z := let '(y, m, d) := c in (y * 16 + m) * 32 + d.

Lemma year_of_doe_mono a b : 0 <= a -> a <= b -> year_of_doe a <= year_of_doe b.
Proof.
  intros Ha Hab. unfold year_of_doe. apply Z.div_le_mono; [lia|].
  assert (Hstep : forall k, 0 <= k ->
    k - k / 1460 + k / 36524 - k / 146096 <=
    (k + 1) - (k + 1) / 1460 + (k + 1) / 36524 - (k + 1) / 146096).
  { clear. intros k Hk. Z.div_mod_to_equations. lia. }
  replace b with (a + Z.of_nat (Z.to_nat (b - a))) by lia.
  generalize (Z.to_nat (b - a)) as n. intros n. induction n as [|n IH].
  - rewrite Z.add_0_r. lia.
  - etransitivity; [exact IH|]. rewrite Nat2Z.inj_succ, <- Z.add_1_r, Z.add_assoc.
    apply Hstep. lia.
Qed.

(** Day counts at the two ends of each year. *)
Lemma year_ends_ok y : 0 <= y < 400 ->
  year_of_doe (year_start y) = y /\ year_of_doe (Z.min (year_start (y + 1)) cycle - 1) = y.
Proof.
  intros Hy.
  pose proof (check_range_spec (fun y => (year_of_doe (year_start y) =? y) &&
    (year_of_doe (Z.min (year_start (y + 1)) cycle - 1) =? y)) 400 0 y) as H.
  rewrite andb_true_iff, !Z.eqb_eq in H. apply H; [vm_compute; reflexivity|lia].
Qed.

Lemma year_bounds doe : 0 <= doe < cycle ->
  0 <= year_of_doe doe < 400 /\
  year_start (year_of_doe doe) <= doe <= year_start (year_of_doe doe) + 365.
Proof.
  intros Hd. set (y := year_of_doe doe).
  assert (Hy : 0 <= y < 400).
  { pose proof (year_of_doe_mono 0 doe ltac:(lia) ltac:(lia)) as H0.
    pose proof (year_of_doe_mono doe (cycle - 1) ltac:(lia) ltac:(lia)) as H1.
    change (year_of_doe 0) with 0 in H0. change (year_of_doe (cycle - 1)) with 399 in H1.
    unfold y. lia. }
  split; [done|]. destruct (year_ends_ok y Hy) as [Hs He]. split.
  - destruct (Z.le_gt_cases (year_start y) doe) as [|Hlt]; [done|exfalso].
    destruct (Z.eq_dec y 0) as [H0|Hn].
    { rewrite H0 in Hlt. change (year_start 0) with 0 in Hlt. lia. }
    destruct (year_ends_ok (y - 1) ltac:(lia)) as [_ He'].
    replace (y - 1 + 1) with y in He' by lia.
    assert (Hc : year_start y <= cycle).
    { unfold year_start, cycle. Z.div_mod_to_equations. lia. }
    rewrite Z.min_l in He' by done.
    pose proof (year_of_doe_mono doe (year_start y - 1) ltac:(lia) ltac:(lia)) as Hm.
    unfold y in *. lia.
  - destruct (Z.le_gt_cases doe (year_start y + 365)) as [|Hgt]; [done|exfalso].
    assert (Hn : year_start (y + 1) <= year_start y + 366).
    { unfold year_start. Z.div_mod_to_equations. lia. }
    destruct (Z.eq_dec y 399) as [H9|Hn9].
    { rewrite H9 in Hgt. change (year_start 399) with 145731 in Hgt. unfold cycle in Hd. lia. }
    destruct (year_ends_ok (y + 1) ltac:(lia)) as [Hs' _].
    assert (Hnn : 0 <= year_start (y + 1)).
    { unfold year_start. Z.div_mod_to_equations. lia. }
    pose proof (year_of_doe_mono (year_start (y + 1)) doe ltac:(lia) ltac:(lia)) as Hm.
    unfold y in *. lia.
Qed.

(** Month and day of every day of a (March-based) year: their ranges, the order
    of consecutive days, and the day they came from. *)
Definition doy_ok (doy : Z) : bool :=
  let '(c, m, d) := civil_of_doy doy in
  (0 <=? c) && (c <=? 1) && (1 <=? m) && (m <=? 12) && (1 <=? d) && (d <=? 31)
  && (date_key (c, m, d) <? date_key (civil_of_doy (doy + 1)))
  && (date_key (c, m, d) <? date_key (1, 3, 1))
  && (c =? (if m <=? 2 then 1 else 0))
  && ((153 * (if 2 <? m then m - 3 else m + 9) + 2) / 5 + d - 1 =? doy).

Lemma doy_facts doy c m d : civil_of_doy doy = (c, m, d) -> 0 <= doy <= 365 ->
  0 <= c <= 1 /\ 1 <= m <= 12 /\ 1 <= d <= 31 /\
  date_key (c, m, d) < date_key (civil_of_doy (doy + 1)) /\
  date_key (c, m, d) < date_key (1, 3, 1) /\
  c = (if m <=? 2 then 1 else 0) /\
  (153 * (if 2 <? m then m - 3 else m + 9) + 2) / 5 + d - 1 = doy.
Proof.
  intros Hc Hd. pose proof (check_range_spec doy_ok 366 0 doy) as H.
  unfold doy_ok in H. rewrite Hc in H.
  rewrite !andb_true_iff, !Z.leb_le, !Z.ltb_lt, !Z.eqb_eq in H.
  destruct H as [[[[[[[[[? ?] ?] ?] ?] ?] ?] ?] ?] ?]; [vm_compute; reflexivity|lia|].
  repeat split; done.
Qed.

(** Consecutive days of a cycle, the last one being followed by the first day
    of the next cycle. *)
Lemma doe_step doe : 0 <= doe < cycle ->
  date_key (civil_of_doe doe) <
  date_key (if doe + 1 <? cycle then civil_of_doe (doe + 1) else (400, 3, 1)).
Proof.
  intros Hd. destruct (year_bounds doe Hd) as [Hy Hb].
  unfold civil_of_doe at 1. set (y := year_of_doe doe) in *.
  destruct (civil_of_doy (doe - year_start y)) as [[c m] d] eqn:Hc.
  destruct (doy_facts _ _ _ _ Hc ltac:(lia)) as (Hcr & Hm & Hdr & Hnext & Hend & _).
  assert (Hyear : date_key (y + c, m, d) < date_key (y + 1, 3, 1)).
  { unfold date_key in *. lia. }
  destruct (Z.ltb_spec (doe + 1) cycle) as [Hin|Hout].
  - destruct (year_bounds (doe + 1) ltac:(lia)) as [Hy' Hb'].
    unfold civil_of_doe. set (y' := year_of_doe (doe + 1)) in *.
    pose proof (year_of_doe_mono doe (doe + 1) ltac:(lia) ltac:(lia)) as Hmono.
    fold y y' in Hmono.
    destruct (Z.eq_dec y' y) as [Heq|Hne].
    + rewrite Heq. replace (doe + 1 - year_start y) with (doe - year_start y + 1) by lia.
      destruct (civil_of_doy (doe - year_start y + 1)) as [[c' m'] d'].
      unfold date_key in *. lia.
    + destruct (civil_of_doy (doe + 1 - year_start y')) as [[c' m'] d'] eqn:Hc'.
      destruct (doy_facts _ _ _ _ Hc' ltac:(lia)) as (Hcr' & Hm' & Hdr' & _ & _ & Hcm' & _).
      revert Hcm'. unfold date_key in *. destruct (Z.leb_spec m' 2); lia.
  - unfold date_key in *. lia.
Qed.

Lemma div_mod_succ n k : 0 < k ->
  ((n + 1) / k = n / k /\ (n + 1) mod k = n mod k + 1 /\ n mod k + 1 < k) \/
  ((n + 1) / k = n / k + 1 /\ (n + 1) mod k = 0 /\ n mod k + 1 = k).
Proof.
  intros Hk. pose proof (Z.mod_pos_bound n k Hk). pose proof (Z.div_mod n k ltac:(lia)).
  pose proof (Z.mod_pos_bound (n + 1) k Hk). pose proof (Z.div_mod (n + 1) k ltac:(lia)).
  destruct (Z.eq_dec (n mod k + 1) k).
  - right. assert ((n + 1) / k = n / k + 1) by nia. nia.
  - left. assert ((n + 1) / k = n / k) by nia. nia.
Qed.

Lemma date_key_step z : date_key (civil_of_days z) < date_key (civil_of_days (z + 1)).
Proof.
  unfold civil_of_days. set (n := z + 719468).
  replace (z + 1 + 719468) with (n + 1) by lia.
  pose proof (Z.mod_pos_bound n cycle ltac:(unfold cycle; lia)) as Hb.
  pose proof (doe_step _ Hb) as Hs.
  destruct (civil_of_doe (n mod cycle)) as [[y m] d].
  destruct (div_mod_succ n cycle ltac:(unfold cycle; lia)) as [(Hq & Hm & Hlt)|(Hq & Hm & He)];
    rewrite Hq, Hm.
  - rewrite (proj2 (Z.ltb_lt _ _) Hlt) in Hs.
    destruct (civil_of_doe (n mod cycle + 1)) as [[y' m'] d']. unfold date_key in *. lia.
  - rewrite He, Z.ltb_irrefl in Hs. change (civil_of_doe 0) with (0, 3, 1).
    unfold date_key in *. lia.
Qed.

Lemma date_key_mono z1 z2 : z1 < z2 -> date_key (civil_of_days z1) < date_key (civil_of_days z2).
Proof.
  intros Hlt. replace z2 with (z1 + Z.of_nat (S (Z.to_nat (z2 - z1 - 1)))) by lia.
  generalize (Z.to_nat (z2 - z1 - 1)) as k. intros k. induction k as [|k IH].
  - apply date_key_step.
  - etransitivity; [exact IH|].
    replace (z1 + Z.of_nat (S (S k))) with (z1 + Z.of_nat (S k) + 1) by lia.
    apply date_key_step.
Qed.

Lemma date_key_compare z1 z2 :
  (date_key (civil_of_days z1) ?= date_key (civil_of_days z2)) = (z1 ?= z2).
Proof.
  destruct (Z.compare_spec z1 z2) as [->|Hlt|Hlt].
  - apply Z.compare_refl.
  - apply Z.compare_lt_iff. by apply date_key_mono.
  - apply Z.compare_gt_iff. by apply date_key_mono.
Qed.

Lemma civil_ranges z y m d : civil_of_days z = (y, m, d) -> 1 <= m <= 12 /\ 1 <= d <= 31.
Proof.
  unfold civil_of_days, civil_of_doe. set (n := z + 719468).
  pose proof (Z.mod_pos_bound n cycle ltac:(unfold cycle; lia)) as Hb.
  destruct (year_bounds _ Hb) as [Hy Hb'].
  destruct (civil_of_doy _) as [[c m'] d'] eqn:Hc. intros [= _ <- <-].
  destruct (doy_facts _ _ _ _ Hc ltac:(lia)) as (_ & ? & ? & _). lia.
Qed.

(** A day number is recovered from its calendar date. *)
Lemma days_of_civil_of_days z y m d : civil_of_days z = (y, m, d) -> days_of_civil y m d = z.
Proof.
  unfold civil_of_days, civil_of_doe. set (n := z + 719468).
  pose proof (Z.mod_pos_bound n cycle ltac:(unfold cycle; lia)) as Hb.
  destruct (year_bounds _ Hb) as [Hy Hb']. set (yoe := year_of_doe (n mod cycle)) in *.
  destruct (civil_of_doy _) as [[c m'] d'] eqn:Hc. intros [= <- <- <-].
  destruct (doy_facts _ _ _ _ Hc ltac:(lia)) as (_ & _ & _ & _ & _ & Hcm & Hdoy).
  unfold days_of_civil.
  assert (Hy' : (if m' <=? 2 then yoe + c + 400 * (n / cycle) - 1 else yoe + c + 400 * (n / cycle))
                = yoe + (n / cycle) * 400).
  { rewrite Hcm. destruct (m' <=? 2); lia. }
  rewrite Hy', Z.mod_add, Z.div_add, Z.mod_small, Z.div_small by lia.
  rewrite Hdoy. pose proof (Z.div_mod n cycle ltac:(unfold cycle; lia)). lia.
Qed.

(** ** The order of the texts *)

Definition lex (c : comparison) (rest : comparison) : comparison :=
  match c with Eq => rest | _ => c end.

Lemma string_app_cons c (s t : string) : (String c s ++ t = String c (s ++ t))%string.
Proof. done. Qed.

Lemma string_app_nil (t : string) : (EmptyString ++ t = t)%string.
Proof. done. Qed.

Lemma string_app_assoc (s t u : string) : ((s ++ t) ++ u = s ++ (t ++ u))%string.
Proof. induction s as [|c s IH]; [done|]. by rewrite !string_app_cons, IH. Qed.

Lemma compare_prefix p s t : String.compare (p ++ s) (p ++ t) = String.compare s t.
Proof.
  induction p as [|c p IH]; [done|]. rewrite !string_app_cons. simpl.
  unfold Ascii.compare. by rewrite N.compare_refl.
Qed.

Lemma digit_N z : 0 <= z <= 9 -> Z.of_N (N_of_ascii (digit z)) = 48 + z.
Proof. intros Hz. unfold digit. rewrite N_ascii_embedding; lia. Qed.

Lemma lex_Z (k a b x y : Z) : 0 <= x < k -> 0 <= y < k ->
  lex (a ?= b) (x ?= y) = (a * k + x ?= b * k + y).
Proof.
  intros Hx Hy. destruct (Z.compare_spec a b) as [->|Hlt|Hlt]; simpl; symmetry.
  - apply Zcompare_plus_compat.
  - apply Z.compare_lt_iff. nia.
  - apply Z.compare_gt_iff. nia.
Qed.

Lemma digits_compare n a b s t :
  0 <= a < 10 ^ Z.of_nat n -> 0 <= b < 10 ^ Z.of_nat n ->
  String.compare (digits n a ++ s) (digits n b ++ t) = lex (a ?= b) (String.compare s t).
Proof.
  revert a b s t. induction n as [|n IH]; intros a b s t; simpl digits.
  - change (10 ^ Z.of_nat 0) with 1. intros Ha Hb.
    by replace a with 0 by lia; replace b with 0 by lia.
  - rewrite Nat2Z.inj_succ, Z.pow_succ_r by lia. intros Ha Hb.
    rewrite !string_app_assoc, IH by (Z.div_mod_to_equations; lia).
    rewrite !string_app_cons, !string_app_nil. simpl String.compare. unfold Ascii.compare.
    rewrite <- N2Z.inj_compare, !digit_N by (Z.div_mod_to_equations; lia).
    rewrite Zcompare_plus_compat.
    rewrite (Z.div_mod a 10), (Z.div_mod b 10) at 3 by lia.
    rewrite !(Z.mul_comm 10), <- lex_Z by (Z.div_mod_to_equations; lia).
    destruct (a / 10 ?= b / 10); [|done|done]. by destruct (a mod 10 ?= b mod 10).
Qed.

Lemma lex_Z_chain (k a b x y : Z) rest : 0 <= x < k -> 0 <= y < k ->
  lex (a ?= b) (lex (x ?= y) rest) = lex (a * k + x ?= b * k + y) rest.
Proof. intros Hx Hy. rewrite <- lex_Z by done. by destruct (a ?= b). Qed.

(** A year the four-digit field can hold. *)
Definition in_years (t : time) : Prop :=
  let '(y, _, _) := civil_of_days (t / Day) in 0 <= y <= 9999.

(** The stored texts of two instants compare as the instants do, at
    millisecond precision. *)
Lemma fmtTime_compare t u : in_years t -> in_years u ->
  String.compare (fmtTime t) (fmtTime u) = (t / Millisecond ?= u / Millisecond).
Proof.
  unfold in_years, fmtTime. intros Ht Hu.
  destruct (civil_of_days (t / Day)) as [[y m] d] eqn:Hc1.
  destruct (civil_of_days (u / Day)) as [[y' m'] d'] eqn:Hc2.
  destruct (civil_ranges _ _ _ _ Hc1), (civil_ranges _ _ _ _ Hc2).
  pose proof (date_key_compare (t / Day) (u / Day)) as Hkey. rewrite Hc1, Hc2 in Hkey.
  unfold date_key, Day, Hour, Minute, Second, Millisecond in *.
  repeat (rewrite digits_compare by (simpl Z.of_nat; Z.div_mod_to_equations; lia);
          try rewrite compare_prefix).
  rewrite (lex_Z_chain 16), (lex_Z_chain 32), Hkey by lia.
  rewrite (lex_Z_chain 24), (lex_Z_chain 60), (lex_Z_chain 60), (lex_Z_chain 1000)
    by (Z.div_mod_to_equations; lia).
  match goal with |- lex (?a ?= ?b) _ = _ => replace a with (t / 1000000);
    [replace b with (u / 1000000)|] end.
  - change (String.compare "Z" "Z") with Eq. by destruct (t / 1000000 ?= u / 1000000).
  - Z.div_mod_to_equations; lia.
  - Z.div_mod_to_equations; lia.
Qed.

(** ** Reading a text back *)

Lemma digit_value_digit z : 0 <= z <= 9 -> digit_value (digit z) = Some z.
Proof.
  intros Hz. unfold digit_value. rewrite digit_N by done.
  destruct (Z.leb_spec 48 (48 + z)), (Z.leb_spec (48 + z) 57); try lia. simpl. f_equal. lia.
Qed.

Lemma read_digits_digits n k acc z s : 0 <= z < 10 ^ Z.of_nat n ->
  read_digits (n + k) acc (digits n z ++ s) = read_digits k (acc * 10 ^ Z.of_nat n + z) s.
Proof.
  revert k z s. induction n as [|n IH]; intros k z s; simpl digits.
  - change (10 ^ Z.of_nat 0) with 1. intros Hz. rewrite string_app_nil. f_equal. lia.
  - rewrite Nat2Z.inj_succ, Z.pow_succ_r by lia. intros Hz.
    rewrite string_app_assoc, string_app_cons, string_app_nil.
    replace (S n + k)%nat with (n + S k)%nat by lia.
    rewrite IH by (Z.div_mod_to_equations; lia). simpl read_digits.
    rewrite digit_value_digit by (Z.div_mod_to_equations; lia). f_equal.
    pose proof (Z.div_mod z 10 ltac:(lia)). nia.
Qed.

Lemma read_field_digits n sep z s : 0 <= z < 10 ^ Z.of_nat n ->
  read_field n sep (digits n z ++ String sep EmptyString ++ s) = Some (z, s).
Proof.
  intros Hz. unfold read_field. rewrite <- (Nat.add_0_r n) at 1.
  rewrite read_digits_digits by done. simpl read_digits.
  rewrite string_app_cons, string_app_nil. simpl. destruct (ascii_dec sep sep); [|done].
  done.
Qed.

(** Reading the text of an instant gives it back, truncated to milliseconds. *)
Lemma parseTime_fmtTime t : in_years t -> parseTime (fmtTime t) = Some (tv t).
Proof.
  unfold in_years, fmtTime, parseTime. intros Ht.
  destruct (civil_of_days (t / Day)) as [[y m] d] eqn:Hc.
  destruct (civil_ranges _ _ _ _ Hc).
  pose proof (days_of_civil_of_days _ _ _ _ Hc) as Hd.
  unfold tv, Day, Hour, Minute, Second, Millisecond in *.
  rewrite <- (string_app_nil "Z"), string_app_nil at 1.
  change "Z"%string with ("Z" ++ "")%string.
  repeat (rewrite read_field_digits by (simpl Z.of_nat; Z.div_mod_to_equations; lia)).
  rewrite Hd. f_equal. Z.div_mod_to_equations; lia.
Qed.

Lemma tv_le t : tv t <= t.
Proof. unfold tv, Millisecond. Z.div_mod_to_equations; lia. Qed.

Lemma tv_mono t u : t <= u -> tv t <= tv u.
Proof. unfold tv, Millisecond. Z.div_mod_to_equations; lia. Qed.

Lemma tv_idem t : tv (tv t) = tv t.
Proof. unfold tv, Millisecond. Z.div_mod_to_equations; lia. Qed.

Lemma tv_lt t u : tv t < tv u <-> t / Millisecond < u / Millisecond.
Proof. unfold tv, Millisecond. Z.div_mod_to_equations; lia. Qed.
