(* ===== verification/Base64.v ===== *)
(** * Base64 (encoding/base64), as the API uses it

    Ciphertexts, nonces and public keys cross the wire as base64; tokens are
    printed in the raw URL alphabet.  The decoder follows Go's non-strict one:
    line breaks are ignored, the last group may be padded, and the unused bits
    of a short group are not checked. *)

From S2P Require Import Prelude.
Local Open Scope N_scope.

Inductive Encoding := StdEncoding | RawStdEncoding | URLEncoding | RawURLEncoding.

Definition padded (e : Encoding) : bool :=
  match e with StdEncoding | URLEncoding => true | _ => false end.

Definition url_alphabet (e : Encoding) : bool :=
  match e with URLEncoding | RawURLEncoding => true | _ => false end.

Definition ascii_le (a b : ascii) : bool := N_of_ascii a <=? N_of_ascii b.
Definition in_span (lo hi c : ascii) : bool := ascii_le lo c && ascii_le c hi.

(** The six bits a character stands for, and the character of six bits. *)
Definition decode_char (e : Encoding) (c : ascii) : option N :=
  let n := N_of_ascii c in
  if in_span "A" "Z" c then Some (n - 65)
  else if in_span "a" "z" c then Some (n - 71)
  else if in_span "0" "9" c then Some (n + 4)
  else if ascii_dec c (if url_alphabet e then "-" else "+")%char then Some 62
  else if ascii_dec c (if url_alphabet e then "_" else "/")%char then Some 63
  else None.

Definition encode_char (e : Encoding) (k : N) : ascii :=
  if k <? 26 then ascii_of_N (65 + k)
  else if k <? 52 then ascii_of_N (71 + k)
  else if k <? 62 then ascii_of_N (k - 4)
  else if k =? 62 then (if url_alphabet e then "-" else "+")%char
  else (if url_alphabet e then "_" else "/")%char.

Definition byte_of (n : N) : byte :=
  match Byte.of_N (n mod 256) with Some b => b | None => x00 end.

(** ** Encoding *)

Definition sextet1 (a : N) : N := a / 4.
Definition sextet2 (a b : N) : N := (a mod 4) * 16 + b / 16.
Definition sextet3 (b c : N) : N := (b mod 16) * 4 + c / 64.
Definition sextet4 (c : N) : N := c mod 64.

Fixpoint EncodeToString (e : Encoding) (l : bytes) : string :=
  match l with
  | [] => EmptyString
  | [a] =>
      let a := Byte.to_N a in
      String (encode_char e (sextet1 a)) (String (encode_char e (sextet2 a 0))
        (if padded e then "==" else "")%string)
  | [a; b] =>
      let a := Byte.to_N a in let b := Byte.to_N b in
      String (encode_char e (sextet1 a)) (String (encode_char e (sextet2 a b))
        (String (encode_char e (sextet3 b 0)) (if padded e then "=" else "")%string))
  | a :: b :: c :: l' =>
      let a := Byte.to_N a in let b := Byte.to_N b in let c := Byte.to_N c in
      String (encode_char e (sextet1 a)) (String (encode_char e (sextet2 a b))
        (String (encode_char e (sextet3 b c)) (String (encode_char e (sextet4 c))
          (EncodeToString e l'))))
  end.

(** ** Decoding *)

Definition octet1 (p q : N) : byte := byte_of (p * 4 + q / 16).
Definition octet2 (q r : N) : byte := byte_of ((q mod 16) * 16 + r / 4).
Definition octet3 (r s : N) : byte := byte_of ((r mod 4) * 64 + s).

Fixpoint strip_newlines (s : string) : string :=
  match s with
  | EmptyString => EmptyString
  | String c s' =>
      if (N_of_ascii c =? 10) || (N_of_ascii c =? 13) then strip_newlines s'
      else String c (strip_newlines s')
  end.

(** The last group: two or three characters, padded or not. *)
Definition decode_two (e : Encoding) (c1 c2 : ascii) : option bytes :=
  match decode_char e c1, decode_char e c2 with
  | Some p, Some q => Some [octet1 p q]
  | _, _ => None
  end.

Definition decode_three (e : Encoding) (c1 c2 c3 : ascii) : option bytes :=
  match decode_char e c1, decode_char e c2, decode_char e c3 with
  | Some p, Some q, Some r => Some [octet1 p q; octet2 q r]
  | _, _, _ => None
  end.

Fixpoint decode_groups (e : Encoding) (s : string) : option bytes :=
  match s with
  | EmptyString => Some []
  | String c1 (String c2 EmptyString) => if padded e then None else decode_two e c1 c2
  | String c1 (String c2 (String c3 EmptyString)) =>
      if padded e then None else decode_three e c1 c2 c3
  | String c1 (String c2 (String c3 (String c4 s'))) =>
      match decode_char e c1, decode_char e c2, decode_char e c3, decode_char e c4 with
      | Some p, Some q, Some r, Some s =>
          match decode_groups e s' with
          | Some l => Some (octet1 p q :: octet2 q r :: octet3 r s :: l)
          | None => None
          end
      | _, _, _, _ =>
          if padded e then
            match s' with
            | EmptyString =>
                if ascii_dec c4 "=" then
                  if ascii_dec c3 "=" then decode_two e c1 c2 else decode_three e c1 c2 c3
                else None
            | String _ _ => None
            end
          else None
      end
  | String _ EmptyString => None
  end.

Definition DecodeString (e : Encoding) (s : string) : option bytes :=
  decode_groups e (strip_newlines s).

(** ** Round trip *)

Lemma to_N_lt (b : byte) : Byte.to_N b < 256.
Proof. pose proof (Byte.to_N_bounded b). lia. Qed.

Lemma byte_of_to_N (b : byte) : byte_of (Byte.to_N b) = b.
Proof.
  unfold byte_of. rewrite N.mod_small by apply to_N_lt. by rewrite Byte.of_to_N.
Qed.

Lemma decode_encode_char e k : k < 64 -> decode_char e (encode_char e k) = Some k.
Proof.
  intros Hk. destruct k as [|p]; [by destruct e|].
  do 6 (destruct p as [p|p|]; try (by destruct e); try lia).
Qed.

Lemma encode_char_not_newline e k : k < 64 ->
  (N_of_ascii (encode_char e k) =? 10) || (N_of_ascii (encode_char e k) =? 13) = false.
Proof.
  intros Hk. destruct k as [|p]; [by destruct e|].
  do 6 (destruct p as [p|p|]; try (by destruct e); try lia).
Qed.

Section sextets.
Context (a b c : N) (Ha : a < 256) (Hb : b < 256) (Hc : c < 256).

Lemma sextet_bounds :
  sextet1 a < 64 /\ sextet2 a b < 64 /\ sextet3 b c < 64 /\ sextet4 c < 64.
Proof using Ha Hb Hc.
  unfold sextet1, sextet2, sextet3, sextet4.
  pose proof (N.mod_lt a 4 ltac:(lia)). pose proof (N.mod_lt b 16 ltac:(lia)).
  pose proof (N.mod_lt c 64 ltac:(lia)).
  assert (a / 4 < 64) by (apply N.Div0.div_lt_upper_bound; lia).
  assert (b / 16 < 16) by (apply N.Div0.div_lt_upper_bound; lia).
  assert (c / 64 < 4) by (apply N.Div0.div_lt_upper_bound; lia). lia.
Qed.

Lemma octet_sextet :
  octet1 (sextet1 a) (sextet2 a b) = byte_of a /\
  octet2 (sextet2 a b) (sextet3 b c) = byte_of b /\
  octet3 (sextet3 b c) (sextet4 c) = byte_of c.
Proof using Ha Hb Hc.
  unfold octet1, octet2, octet3, sextet1, sextet2, sextet3, sextet4.
  repeat split; f_equal; apply N2Z.inj; rewrite ?N2Z.inj_add, ?N2Z.inj_mul, ?N2Z.inj_div,
    ?N2Z.inj_mod, ?N2Z.inj_add, ?N2Z.inj_mul, ?N2Z.inj_div, ?N2Z.inj_mod; simpl Z.of_N;
    Z.div_mod_to_equations; lia.
Qed.
End sextets.

Lemma triple_ind (P : bytes -> Prop) :
  P [] -> (forall a, P [a]) -> (forall a b, P [a; b]) ->
  (forall a b c l, P l -> P (a :: b :: c :: l)) -> forall l, P l.
Proof.
  intros H0 H1 H2 H3. fix IH 1. intros [|a [|b [|c l]]]; [done|done|done|].
  apply H3, IH.
Qed.

Lemma strip_cons c s :
  (N_of_ascii c =? 10) || (N_of_ascii c =? 13) = false ->
  strip_newlines (String c s) = String c (strip_newlines s).
Proof. simpl. by intros ->. Qed.

Lemma decode_char_pad e : decode_char e "=" = None.
Proof. by destruct e. Qed.

Lemma strip_encode e l : strip_newlines (EncodeToString e l) = EncodeToString e l.
Proof.
  induction l as [|a|a b|a b c l IH] using triple_ind; [done| | |].
  - destruct (sextet_bounds _ 0 0 (to_N_lt a)) as (?&?&?&?); [lia|lia|].
    cbn -[strip_newlines]. rewrite !strip_cons by (by apply encode_char_not_newline).
    by destruct e.
  - destruct (sextet_bounds _ _ 0 (to_N_lt a) (to_N_lt b)) as (?&?&?&?); [lia|].
    cbn -[strip_newlines]. rewrite !strip_cons by (by apply encode_char_not_newline).
    by destruct e.
  - destruct (sextet_bounds _ _ _ (to_N_lt a) (to_N_lt b) (to_N_lt c)) as (?&?&?&?).
    cbn -[strip_newlines]. rewrite !strip_cons by (by apply encode_char_not_newline).
    by rewrite IH.
Qed.

Lemma decode_groups_encode e l : decode_groups e (EncodeToString e l) = Some l.
Proof.
  induction l as [|a|a b|a b c l IH] using triple_ind; [done| | |].
  - destruct (sextet_bounds _ 0 0 (to_N_lt a)) as (?&?&_&_); [lia|lia|].
    destruct (octet_sextet _ 0 0 (to_N_lt a)) as (Ho&_&_); [lia|lia|].
    assert (Hd : decode_two e (encode_char e (sextet1 (Byte.to_N a)))
                              (encode_char e (sextet2 (Byte.to_N a) 0)) = Some [a]).
    { unfold decode_two. rewrite !decode_encode_char by done. by rewrite Ho, byte_of_to_N. }
    cbn [EncodeToString]. destruct (padded e) eqn:Hp; cbn [decode_groups]; rewrite Hp;
      rewrite ?decode_encode_char, ?decode_char_pad by done; exact Hd.
  - destruct (sextet_bounds _ _ 0 (to_N_lt a) (to_N_lt b)) as (?&?&?&_); [lia|].
    destruct (octet_sextet _ _ 0 (to_N_lt a) (to_N_lt b)) as (Ho&Ho2&_); [lia|].
    assert (Hd : decode_three e (encode_char e (sextet1 (Byte.to_N a)))
                                (encode_char e (sextet2 (Byte.to_N a) (Byte.to_N b)))
                                (encode_char e (sextet3 (Byte.to_N b) 0)) = Some [a; b]).
    { unfold decode_three. rewrite !decode_encode_char by done.
      by rewrite Ho, Ho2, !byte_of_to_N. }
    cbn [EncodeToString]. destruct (padded e) eqn:Hp; cbn [decode_groups]; rewrite Hp;
      [|exact Hd].
    rewrite !decode_encode_char, decode_char_pad by done.
    destruct (ascii_dec "=" "=") as [_|]; [|done].
    destruct (ascii_dec _ "=") as [Heq|_]; [|exact Hd].
    pose proof (decode_encode_char e (sextet3 (Byte.to_N b) 0)) as Hc.
    rewrite Heq, decode_char_pad in Hc. by discriminate Hc.
  - destruct (sextet_bounds _ _ _ (to_N_lt a) (to_N_lt b) (to_N_lt c)) as (?&?&?&?).
    destruct (octet_sextet _ _ _ (to_N_lt a) (to_N_lt b) (to_N_lt c)) as (Ho&Ho2&Ho3).
    cbn [EncodeToString]. cbn [decode_groups]. rewrite !decode_encode_char by done.
    by rewrite IH, Ho, Ho2, Ho3, !byte_of_to_N.
Qed.
