(* ===== verification/Models.v ===== *)
(** * The data model (store/models.go, migrations_sqlite/00001_schema.sql)

    One record per table row, with a setter for each column some statement
    updates, and the database as the record of its tables.  A [uuid] is the
    number of its 128 bits, so that the order of canonical texts is the order
    of numbers; BLOB columns are [bytes], NULLable ones [option]. *)

From S2P Require Import Prelude GoTime.
Local Open Scope Z_scope.

Abbreviation uuid := N.

(** The errors a store call or a service returns to its caller. *)
Inductive error :=
| ErrNoRows                (** sql.ErrNoRows *)
| ErrConstraint            (** a PRIMARY KEY, UNIQUE, CHECK or FOREIGN KEY violation *)
| ErrDriver                (** the engine, the disk or the context failed the statement *)
| ErrRandom                (** crypto/rand could not be read *)
| ErrEmptyPassword
| ErrInvalidHash
| ErrIncompatibleVersion
| ErrInvalidEmail
| ErrWeakPassword
| ErrPasswordTooLong
| ErrInvalidPlatform
| ErrPubkey                (** validatePubkey *)
| ErrEmailTaken
| ErrInvalidCredentials
| ErrRefreshInvalid
| ErrRefreshReused
| ErrUnauthorized
| ErrDeviceNotFound
| LockedError (RetryAfter : duration) (Reason : string)
| ItemError (index : Z) (msg : string).

#[export] Instance error_eq_dec : EqDecision error.
Proof. solve_decision. Defined.

(** [store.IsNotFound]. *)
Definition IsNotFound (e : error) : bool := match e with ErrNoRows => true | _ => false end.

(** The details an audit event may carry. *)
Inductive AuditDetail :=
| DetailEmail (email : string)
| DetailRemoved (target : uuid)
| DetailEpoch (epoch : Z)
| DetailCount (count : Z).

#[export] Instance AuditDetail_eq_dec : EqDecision AuditDetail.
Proof. solve_decision. Defined.

(** ** Rows *)

Record User := mkUser {
  User_ID : uuid;
  User_Email : string;
  User_PassHash : string;
  User_CreatedAt : time;
  User_UpdatedAt : time
}.

#[export] Instance User_eq_dec : EqDecision User.
Proof. solve_decision. Defined.

Definition User_set_PassHash (v : string) (r : User) : User :=
  mkUser (User_ID r) (User_Email r) v (User_CreatedAt r) (User_UpdatedAt r).

Definition User_set_UpdatedAt (v : time) (r : User) : User :=
  mkUser (User_ID r) (User_Email r) (User_PassHash r) (User_CreatedAt r) v.

Record Device := mkDevice {
  Device_ID : uuid;
  Device_UserID : uuid;
  Device_Platform : string;
  Device_DisplayName : option string;
  Device_Pubkey : option bytes;
  Device_PushToken : option string;
  Device_CreatedAt : time;
  Device_LastSeen : option time
}.

#[export] Instance Device_eq_dec : EqDecision Device.
Proof. solve_decision. Defined.

Definition Device_set_Pubkey (v : option bytes) (r : Device) : Device :=
  mkDevice (Device_ID r) (Device_UserID r) (Device_Platform r) (Device_DisplayName r) v (Device_PushToken r) (Device_CreatedAt r) (Device_LastSeen r).

Definition Device_set_PushToken (v : option string) (r : Device) : Device :=
  mkDevice (Device_ID r) (Device_UserID r) (Device_Platform r) (Device_DisplayName r) (Device_Pubkey r) v (Device_CreatedAt r) (Device_LastSeen r).

Definition Device_set_LastSeen (v : option time) (r : Device) : Device :=
  mkDevice (Device_ID r) (Device_UserID r) (Device_Platform r) (Device_DisplayName r) (Device_Pubkey r) (Device_PushToken r) (Device_CreatedAt r) v.

Record Session := mkSession {
  Session_ID : uuid;
  Session_UserID : uuid;
  Session_DeviceID : uuid;
  Session_AccessTokenHash : string;
  Session_RefreshTokenHash : string;
  Session_PrevRefreshHash : option string;
  Session_AccessExpiresAt : time;
  Session_RefreshExpiresAt : time;
  Session_RevokedAt : option time;
  Session_CreatedAt : time;
  Session_RotatedAt : time
}.

#[export] Instance Session_eq_dec : EqDecision Session.
Proof. solve_decision. Defined.

Definition Session_set_AccessTokenHash (v : string) (r : Session) : Session :=
  mkSession (Session_ID r) (Session_UserID r) (Session_DeviceID r) v (Session_RefreshTokenHash r) (Session_PrevRefreshHash r) (Session_AccessExpiresAt r) (Session_RefreshExpiresAt r) (Session_RevokedAt r) (Session_CreatedAt r) (Session_RotatedAt r).

Definition Session_set_RefreshTokenHash (v : string) (r : Session) : Session :=
  mkSession (Session_ID r) (Session_UserID r) (Session_DeviceID r) (Session_AccessTokenHash r) v (Session_PrevRefreshHash r) (Session_AccessExpiresAt r) (Session_RefreshExpiresAt r) (Session_RevokedAt r) (Session_CreatedAt r) (Session_RotatedAt r).

Definition Session_set_PrevRefreshHash (v : option string) (r : Session) : Session :=
  mkSession (Session_ID r) (Session_UserID r) (Session_DeviceID r) (Session_AccessTokenHash r) (Session_RefreshTokenHash r) v (Session_AccessExpiresAt r) (Session_RefreshExpiresAt r) (Session_RevokedAt r) (Session_CreatedAt r) (Session_RotatedAt r).

Definition Session_set_AccessExpiresAt (v : time) (r : Session) : Session :=
  mkSession (Session_ID r) (Session_UserID r) (Session_DeviceID r) (Session_AccessTokenHash r) (Session_RefreshTokenHash r) (Session_PrevRefreshHash r) v (Session_RefreshExpiresAt r) (Session_RevokedAt r) (Session_CreatedAt r) (Session_RotatedAt r).

Definition Session_set_RefreshExpiresAt (v : time) (r : Session) : Session :=
  mkSession (Session_ID r) (Session_UserID r) (Session_DeviceID r) (Session_AccessTokenHash r) (Session_RefreshTokenHash r) (Session_PrevRefreshHash r) (Session_AccessExpiresAt r) v (Session_RevokedAt r) (Session_CreatedAt r) (Session_RotatedAt r).

Definition Session_set_RevokedAt (v : option time) (r : Session) : Session :=
  mkSession (Session_ID r) (Session_UserID r) (Session_DeviceID r) (Session_AccessTokenHash r) (Session_RefreshTokenHash r) (Session_PrevRefreshHash r) (Session_AccessExpiresAt r) (Session_RefreshExpiresAt r) v (Session_CreatedAt r) (Session_RotatedAt r).

Definition Session_set_RotatedAt (v : time) (r : Session) : Session :=
  mkSession (Session_ID r) (Session_UserID r) (Session_DeviceID r) (Session_AccessTokenHash r) (Session_RefreshTokenHash r) (Session_PrevRefreshHash r) (Session_AccessExpiresAt r) (Session_RefreshExpiresAt r) (Session_RevokedAt r) (Session_CreatedAt r) v.

Record Circle := mkCircle {
  Circle_ID : uuid;
  Circle_NameEnc : option bytes;
  Circle_RetentionDays : Z;
  Circle_KeyEpoch : Z;
  Circle_CreatedBy : uuid;
  Circle_CreatedAt : time
}.

#[export] Instance Circle_eq_dec : EqDecision Circle.
Proof. solve_decision. Defined.

Definition Circle_set_NameEnc (v : option bytes) (r : Circle) : Circle :=
  mkCircle (Circle_ID r) v (Circle_RetentionDays r) (Circle_KeyEpoch r) (Circle_CreatedBy r) (Circle_CreatedAt r).

Definition Circle_set_RetentionDays (v : Z) (r : Circle) : Circle :=
  mkCircle (Circle_ID r) (Circle_NameEnc r) v (Circle_KeyEpoch r) (Circle_CreatedBy r) (Circle_CreatedAt r).

Definition Circle_set_KeyEpoch (v : Z) (r : Circle) : Circle :=
  mkCircle (Circle_ID r) (Circle_NameEnc r) (Circle_RetentionDays r) v (Circle_CreatedBy r) (Circle_CreatedAt r).

Record CircleMember := mkCircleMember {
  CircleMember_CircleID : uuid;
  CircleMember_UserID : uuid;
  CircleMember_Role : string;
  CircleMember_PrecisionMode : string;
  CircleMember_JoinedAt : time;
  CircleMember_ProfileEnc : option bytes
}.

#[export] Instance CircleMember_eq_dec : EqDecision CircleMember.
Proof. solve_decision. Defined.

Definition CircleMember_set_Role (v : string) (r : CircleMember) : CircleMember :=
  mkCircleMember (CircleMember_CircleID r) (CircleMember_UserID r) v (CircleMember_PrecisionMode r) (CircleMember_JoinedAt r) (CircleMember_ProfileEnc r).

Definition CircleMember_set_PrecisionMode (v : string) (r : CircleMember) : CircleMember :=
  mkCircleMember (CircleMember_CircleID r) (CircleMember_UserID r) (CircleMember_Role r) v (CircleMember_JoinedAt r) (CircleMember_ProfileEnc r).

Definition CircleMember_set_ProfileEnc (v : option bytes) (r : CircleMember) : CircleMember :=
  mkCircleMember (CircleMember_CircleID r) (CircleMember_UserID r) (CircleMember_Role r) (CircleMember_PrecisionMode r) (CircleMember_JoinedAt r) v.

Record Invite := mkInvite {
  Invite_ID : uuid;
  Invite_CircleID : uuid;
  Invite_CreatedBy : uuid;
  Invite_Role : string;
  Invite_MaxUses : Z;
  Invite_Uses : Z;
  Invite_ExpiresAt : time;
  Invite_Status : string;
  Invite_CreatedAt : time
}.

#[export] Instance Invite_eq_dec : EqDecision Invite.
Proof. solve_decision. Defined.

Definition Invite_set_Uses (v : Z) (r : Invite) : Invite :=
  mkInvite (Invite_ID r) (Invite_CircleID r) (Invite_CreatedBy r) (Invite_Role r) (Invite_MaxUses r) v (Invite_ExpiresAt r) (Invite_Status r) (Invite_CreatedAt r).

Definition Invite_set_Status (v : string) (r : Invite) : Invite :=
  mkInvite (Invite_ID r) (Invite_CircleID r) (Invite_CreatedBy r) (Invite_Role r) (Invite_MaxUses r) (Invite_Uses r) (Invite_ExpiresAt r) v (Invite_CreatedAt r).

Record PlacesEnc := mkPlacesEnc {
  PlacesEnc_ID : uuid;
  PlacesEnc_CircleID : uuid;
  PlacesEnc_Ciphertext : bytes;
  PlacesEnc_Version : Z;
  PlacesEnc_Deleted : bool;
  PlacesEnc_UpdatedBy : option uuid;
  PlacesEnc_UpdatedAt : time;
  PlacesEnc_CreatedAt : time;
  PlacesEnc_CreatedBy : option uuid
}.

#[export] Instance PlacesEnc_eq_dec : EqDecision PlacesEnc.
Proof. solve_decision. Defined.

Definition PlacesEnc_set_Ciphertext (v : bytes) (r : PlacesEnc) : PlacesEnc :=
  mkPlacesEnc (PlacesEnc_ID r) (PlacesEnc_CircleID r) v (PlacesEnc_Version r) (PlacesEnc_Deleted r) (PlacesEnc_UpdatedBy r) (PlacesEnc_UpdatedAt r) (PlacesEnc_CreatedAt r) (PlacesEnc_CreatedBy r).

Definition PlacesEnc_set_Version (v : Z) (r : PlacesEnc) : PlacesEnc :=
  mkPlacesEnc (PlacesEnc_ID r) (PlacesEnc_CircleID r) (PlacesEnc_Ciphertext r) v (PlacesEnc_Deleted r) (PlacesEnc_UpdatedBy r) (PlacesEnc_UpdatedAt r) (PlacesEnc_CreatedAt r) (PlacesEnc_CreatedBy r).

Definition PlacesEnc_set_Deleted (v : bool) (r : PlacesEnc) : PlacesEnc :=
  mkPlacesEnc (PlacesEnc_ID r) (PlacesEnc_CircleID r) (PlacesEnc_Ciphertext r) (PlacesEnc_Version r) v (PlacesEnc_UpdatedBy r) (PlacesEnc_UpdatedAt r) (PlacesEnc_CreatedAt r) (PlacesEnc_CreatedBy r).

Definition PlacesEnc_set_UpdatedBy (v : option uuid) (r : PlacesEnc) : PlacesEnc :=
  mkPlacesEnc (PlacesEnc_ID r) (PlacesEnc_CircleID r) (PlacesEnc_Ciphertext r) (PlacesEnc_Version r) (PlacesEnc_Deleted r) v (PlacesEnc_UpdatedAt r) (PlacesEnc_CreatedAt r) (PlacesEnc_CreatedBy r).

Definition PlacesEnc_set_UpdatedAt (v : time) (r : PlacesEnc) : PlacesEnc :=
  mkPlacesEnc (PlacesEnc_ID r) (PlacesEnc_CircleID r) (PlacesEnc_Ciphertext r) (PlacesEnc_Version r) (PlacesEnc_Deleted r) (PlacesEnc_UpdatedBy r) v (PlacesEnc_CreatedAt r) (PlacesEnc_CreatedBy r).

Record KeyEnvelope := mkKeyEnvelope {
  KeyEnvelope_ID : uuid;
  KeyEnvelope_CircleID : uuid;
  KeyEnvelope_RecipientDeviceID : uuid;
  KeyEnvelope_SenderDeviceID : option uuid;
  KeyEnvelope_Ciphertext : bytes;
  KeyEnvelope_KeyEpoch : Z;
  KeyEnvelope_CreatedAt : time;
  KeyEnvelope_ConsumedAt : option time
}.

#[export] Instance KeyEnvelope_eq_dec : EqDecision KeyEnvelope.
Proof. solve_decision. Defined.

Definition KeyEnvelope_set_SenderDeviceID (v : option uuid) (r : KeyEnvelope) : KeyEnvelope :=
  mkKeyEnvelope (KeyEnvelope_ID r) (KeyEnvelope_CircleID r) (KeyEnvelope_RecipientDeviceID r) v (KeyEnvelope_Ciphertext r) (KeyEnvelope_KeyEpoch r) (KeyEnvelope_CreatedAt r) (KeyEnvelope_ConsumedAt r).

Definition KeyEnvelope_set_Ciphertext (v : bytes) (r : KeyEnvelope) : KeyEnvelope :=
  mkKeyEnvelope (KeyEnvelope_ID r) (KeyEnvelope_CircleID r) (KeyEnvelope_RecipientDeviceID r) (KeyEnvelope_SenderDeviceID r) v (KeyEnvelope_KeyEpoch r) (KeyEnvelope_CreatedAt r) (KeyEnvelope_ConsumedAt r).

Definition KeyEnvelope_set_CreatedAt (v : time) (r : KeyEnvelope) : KeyEnvelope :=
  mkKeyEnvelope (KeyEnvelope_ID r) (KeyEnvelope_CircleID r) (KeyEnvelope_RecipientDeviceID r) (KeyEnvelope_SenderDeviceID r) (KeyEnvelope_Ciphertext r) (KeyEnvelope_KeyEpoch r) v (KeyEnvelope_ConsumedAt r).

Definition KeyEnvelope_set_ConsumedAt (v : option time) (r : KeyEnvelope) : KeyEnvelope :=
  mkKeyEnvelope (KeyEnvelope_ID r) (KeyEnvelope_CircleID r) (KeyEnvelope_RecipientDeviceID r) (KeyEnvelope_SenderDeviceID r) (KeyEnvelope_Ciphertext r) (KeyEnvelope_KeyEpoch r) (KeyEnvelope_CreatedAt r) v.

Record SosEvent := mkSosEvent {
  SosEvent_ID : uuid;
  SosEvent_CircleID : uuid;
  SosEvent_DeviceID : option uuid;
  SosEvent_Ciphertext : bytes;
  SosEvent_CreatedAt : time;
  SosEvent_ResolvedAt : option time;
  SosEvent_ResolvedBy : option uuid
}.

#[export] Instance SosEvent_eq_dec : EqDecision SosEvent.
Proof. solve_decision. Defined.

Definition SosEvent_set_DeviceID (v : option uuid) (r : SosEvent) : SosEvent :=
  mkSosEvent (SosEvent_ID r) (SosEvent_CircleID r) v (SosEvent_Ciphertext r) (SosEvent_CreatedAt r) (SosEvent_ResolvedAt r) (SosEvent_ResolvedBy r).

Definition SosEvent_set_ResolvedAt (v : option time) (r : SosEvent) : SosEvent :=
  mkSosEvent (SosEvent_ID r) (SosEvent_CircleID r) (SosEvent_DeviceID r) (SosEvent_Ciphertext r) (SosEvent_CreatedAt r) v (SosEvent_ResolvedBy r).

Definition SosEvent_set_ResolvedBy (v : option uuid) (r : SosEvent) : SosEvent :=
  mkSosEvent (SosEvent_ID r) (SosEvent_CircleID r) (SosEvent_DeviceID r) (SosEvent_Ciphertext r) (SosEvent_CreatedAt r) (SosEvent_ResolvedAt r) v.

Record PushSubscription := mkPushSubscription {
  PushSubscription_ID : uuid;
  PushSubscription_UserID : uuid;
  PushSubscription_DeviceID : option uuid;
  PushSubscription_Endpoint : string;
  PushSubscription_P256dh : option string;
  PushSubscription_Auth : option string;
  PushSubscription_CreatedAt : time;
  PushSubscription_Kind : string
}.

#[export] Instance PushSubscription_eq_dec : EqDecision PushSubscription.
Proof. solve_decision. Defined.

Definition PushSubscription_set_UserID (v : uuid) (r : PushSubscription) : PushSubscription :=
  mkPushSubscription (PushSubscription_ID r) v (PushSubscription_DeviceID r) (PushSubscription_Endpoint r) (PushSubscription_P256dh r) (PushSubscription_Auth r) (PushSubscription_CreatedAt r) (PushSubscription_Kind r).

Definition PushSubscription_set_P256dh (v : option string) (r : PushSubscription) : PushSubscription :=
  mkPushSubscription (PushSubscription_ID r) (PushSubscription_UserID r) (PushSubscription_DeviceID r) (PushSubscription_Endpoint r) v (PushSubscription_Auth r) (PushSubscription_CreatedAt r) (PushSubscription_Kind r).

Definition PushSubscription_set_Auth (v : option string) (r : PushSubscription) : PushSubscription :=
  mkPushSubscription (PushSubscription_ID r) (PushSubscription_UserID r) (PushSubscription_DeviceID r) (PushSubscription_Endpoint r) (PushSubscription_P256dh r) v (PushSubscription_CreatedAt r) (PushSubscription_Kind r).

Definition PushSubscription_set_Kind (v : string) (r : PushSubscription) : PushSubscription :=
  mkPushSubscription (PushSubscription_ID r) (PushSubscription_UserID r) (PushSubscription_DeviceID r) (PushSubscription_Endpoint r) (PushSubscription_P256dh r) (PushSubscription_Auth r) (PushSubscription_CreatedAt r) v.

Record AppVersion := mkAppVersion {
  AppVersion_ID : uuid;
  AppVersion_Platform : string;
  AppVersion_VersionCode : Z;
  AppVersion_VersionName : string;
  AppVersion_ApkUrl : option string;
  AppVersion_Sha256 : option string;
  AppVersion_Changelog : option string;
  AppVersion_MinSupported : Z;
  AppVersion_IsActive : bool;
  AppVersion_CreatedAt : time
}.

#[export] Instance AppVersion_eq_dec : EqDecision AppVersion.
Proof. solve_decision. Defined.

Definition AppVersion_set_VersionName (v : string) (r : AppVersion) : AppVersion :=
  mkAppVersion (AppVersion_ID r) (AppVersion_Platform r) (AppVersion_VersionCode r) v (AppVersion_ApkUrl r) (AppVersion_Sha256 r) (AppVersion_Changelog r) (AppVersion_MinSupported r) (AppVersion_IsActive r) (AppVersion_CreatedAt r).

Definition AppVersion_set_ApkUrl (v : option string) (r : AppVersion) : AppVersion :=
  mkAppVersion (AppVersion_ID r) (AppVersion_Platform r) (AppVersion_VersionCode r) (AppVersion_VersionName r) v (AppVersion_Sha256 r) (AppVersion_Changelog r) (AppVersion_MinSupported r) (AppVersion_IsActive r) (AppVersion_CreatedAt r).

Definition AppVersion_set_Sha256 (v : option string) (r : AppVersion) : AppVersion :=
  mkAppVersion (AppVersion_ID r) (AppVersion_Platform r) (AppVersion_VersionCode r) (AppVersion_VersionName r) (AppVersion_ApkUrl r) v (AppVersion_Changelog r) (AppVersion_MinSupported r) (AppVersion_IsActive r) (AppVersion_CreatedAt r).

Definition AppVersion_set_Changelog (v : option string) (r : AppVersion) : AppVersion :=
  mkAppVersion (AppVersion_ID r) (AppVersion_Platform r) (AppVersion_VersionCode r) (AppVersion_VersionName r) (AppVersion_ApkUrl r) (AppVersion_Sha256 r) v (AppVersion_MinSupported r) (AppVersion_IsActive r) (AppVersion_CreatedAt r).

Definition AppVersion_set_MinSupported (v : Z) (r : AppVersion) : AppVersion :=
  mkAppVersion (AppVersion_ID r) (AppVersion_Platform r) (AppVersion_VersionCode r) (AppVersion_VersionName r) (AppVersion_ApkUrl r) (AppVersion_Sha256 r) (AppVersion_Changelog r) v (AppVersion_IsActive r) (AppVersion_CreatedAt r).

Definition AppVersion_set_IsActive (v : bool) (r : AppVersion) : AppVersion :=
  mkAppVersion (AppVersion_ID r) (AppVersion_Platform r) (AppVersion_VersionCode r) (AppVersion_VersionName r) (AppVersion_ApkUrl r) (AppVersion_Sha256 r) (AppVersion_Changelog r) (AppVersion_MinSupported r) v (AppVersion_CreatedAt r).

Record AuditLog := mkAuditLog {
  AuditLog_ID : Z;
  AuditLog_Ts : time;
  AuditLog_Event : string;
  AuditLog_ActorUserID : option uuid;
  AuditLog_ActorDeviceID : option uuid;
  AuditLog_CircleID : option uuid;
  AuditLog_Ip : option string;
  AuditLog_Detail : option AuditDetail
}.

#[export] Instance AuditLog_eq_dec : EqDecision AuditLog.
Proof. solve_decision. Defined.

Definition AuditLog_set_Ip (v : option string) (r : AuditLog) : AuditLog :=
  mkAuditLog (AuditLog_ID r) (AuditLog_Ts r) (AuditLog_Event r) (AuditLog_ActorUserID r) (AuditLog_ActorDeviceID r) (AuditLog_CircleID r) v (AuditLog_Detail r).

Record LoginAttempt := mkLoginAttempt {
  LoginAttempt_ID : Z;
  LoginAttempt_Email : option string;
  LoginAttempt_Ip : option string;
  LoginAttempt_Success : bool;
  LoginAttempt_CreatedAt : time
}.

#[export] Instance LoginAttempt_eq_dec : EqDecision LoginAttempt.
Proof. solve_decision. Defined.

Record Ping := mkPing {
  Ping_ID : uuid;
  Ping_CircleID : uuid;
  Ping_DeviceID : uuid;
  Ping_ClientID : string;
  Ping_Nonce : bytes;
  Ping_Ciphertext : bytes;
  Ping_CapturedAt : time;
  Ping_ReceivedAt : time;
  Ping_ExpiresAt : option time
}.

#[export] Instance Ping_eq_dec : EqDecision Ping.
Proof. solve_decision. Defined.

Record ShareSession := mkShareSession {
  ShareSession_ID : uuid;
  ShareSession_UserID : uuid;
  ShareSession_CreatedAt : time;
  ShareSession_ExpiresAt : time;
  ShareSession_RevokedAt : option time;
  ShareSession_ViewerTokenHash : option bytes;
  ShareSession_ViewerBoundAt : option time
}.

#[export] Instance ShareSession_eq_dec : EqDecision ShareSession.
Proof. solve_decision. Defined.

Definition ShareSession_set_RevokedAt (v : option time) (r : ShareSession) : ShareSession :=
  mkShareSession (ShareSession_ID r) (ShareSession_UserID r) (ShareSession_CreatedAt r) (ShareSession_ExpiresAt r) v (ShareSession_ViewerTokenHash r) (ShareSession_ViewerBoundAt r).

Definition ShareSession_set_ViewerTokenHash (v : option bytes) (r : ShareSession) : ShareSession :=
  mkShareSession (ShareSession_ID r) (ShareSession_UserID r) (ShareSession_CreatedAt r) (ShareSession_ExpiresAt r) (ShareSession_RevokedAt r) v (ShareSession_ViewerBoundAt r).

Definition ShareSession_set_ViewerBoundAt (v : option time) (r : ShareSession) : ShareSession :=
  mkShareSession (ShareSession_ID r) (ShareSession_UserID r) (ShareSession_CreatedAt r) (ShareSession_ExpiresAt r) (ShareSession_RevokedAt r) (ShareSession_ViewerTokenHash r) v.

Record SharePosition := mkSharePosition {
  SharePosition_SessionID : uuid;
  SharePosition_Nonce : bytes;
  SharePosition_Ciphertext : bytes;
  SharePosition_CapturedAt : time;
  SharePosition_UpdatedAt : time
}.

#[export] Instance SharePosition_eq_dec : EqDecision SharePosition.
Proof. solve_decision. Defined.

Definition SharePosition_set_Nonce (v : bytes) (r : SharePosition) : SharePosition :=
  mkSharePosition (SharePosition_SessionID r) v (SharePosition_Ciphertext r) (SharePosition_CapturedAt r) (SharePosition_UpdatedAt r).

Definition SharePosition_set_Ciphertext (v : bytes) (r : SharePosition) : SharePosition :=
  mkSharePosition (SharePosition_SessionID r) (SharePosition_Nonce r) v (SharePosition_CapturedAt r) (SharePosition_UpdatedAt r).

Definition SharePosition_set_CapturedAt (v : time) (r : SharePosition) : SharePosition :=
  mkSharePosition (SharePosition_SessionID r) (SharePosition_Nonce r) (SharePosition_Ciphertext r) v (SharePosition_UpdatedAt r).

Definition SharePosition_set_UpdatedAt (v : time) (r : SharePosition) : SharePosition :=
  mkSharePosition (SharePosition_SessionID r) (SharePosition_Nonce r) (SharePosition_Ciphertext r) (SharePosition_CapturedAt r) v.

Record NotificationMute := mkNotificationMute {
  NotificationMute_UserID : uuid;
  NotificationMute_CircleID : uuid;
  NotificationMute_MutedUserID : option uuid;
  NotificationMute_CreatedAt : time
}.

#[export] Instance NotificationMute_eq_dec : EqDecision NotificationMute.
Proof. solve_decision. Defined.

(** ** The database

    The rows of every table of the schema, in insertion order, with the next
    AUTOINCREMENT key of the two log tables. *)
Record DB := mkDB {
  users : list User;
  devices : list Device;
  sessions : list Session;
  circles : list Circle;
  circle_members : list CircleMember;
  invites : list Invite;
  places_enc : list PlacesEnc;
  key_envelopes : list KeyEnvelope;
  sos_events : list SosEvent;
  push_subscriptions : list PushSubscription;
  app_versions : list AppVersion;
  audit_log : list AuditLog;
  login_attempts : list LoginAttempt;
  pings : list Ping;
  share_sessions : list ShareSession;
  share_positions : list SharePosition;
  notification_mutes : list NotificationMute;
  audit_log_seq : Z;
  login_attempts_seq : Z
}.

Definition set_users (v : list User) (db : DB) : DB :=
  mkDB v (devices db) (sessions db) (circles db) (circle_members db) (invites db) (places_enc db) (key_envelopes db) (sos_events db) (push_subscriptions db) (app_versions db) (audit_log db) (login_attempts db) (pings db) (share_sessions db) (share_positions db) (notification_mutes db) (audit_log_seq db) (login_attempts_seq db).

Definition set_devices (v : list Device) (db : DB) : DB :=
  mkDB (users db) v (sessions db) (circles db) (circle_members db) (invites db) (places_enc db) (key_envelopes db) (sos_events db) (push_subscriptions db) (app_versions db) (audit_log db) (login_attempts db) (pings db) (share_sessions db) (share_positions db) (notification_mutes db) (audit_log_seq db) (login_attempts_seq db).

Definition set_sessions (v : list Session) (db : DB) : DB :=
  mkDB (users db) (devices db) v (circles db) (circle_members db) (invites db) (places_enc db) (key_envelopes db) (sos_events db) (push_subscriptions db) (app_versions db) (audit_log db) (login_attempts db) (pings db) (share_sessions db) (share_positions db) (notification_mutes db) (audit_log_seq db) (login_attempts_seq db).

Definition set_circles (v : list Circle) (db : DB) : DB :=
  mkDB (users db) (devices db) (sessions db) v (circle_members db) (invites db) (places_enc db) (key_envelopes db) (sos_events db) (push_subscriptions db) (app_versions db) (audit_log db) (login_attempts db) (pings db) (share_sessions db) (share_positions db) (notification_mutes db) (audit_log_seq db) (login_attempts_seq db).

Definition set_circle_members (v : list CircleMember) (db : DB) : DB :=
  mkDB (users db) (devices db) (sessions db) (circles db) v (invites db) (places_enc db) (key_envelopes db) (sos_events db) (push_subscriptions db) (app_versions db) (audit_log db) (login_attempts db) (pings db) (share_sessions db) (share_positions db) (notification_mutes db) (audit_log_seq db) (login_attempts_seq db).

Definition set_invites (v : list Invite) (db : DB) : DB :=
  mkDB (users db) (devices db) (sessions db) (circles db) (circle_members db) v (places_enc db) (key_envelopes db) (sos_events db) (push_subscriptions db) (app_versions db) (audit_log db) (login_attempts db) (pings db) (share_sessions db) (share_positions db) (notification_mutes db) (audit_log_seq db) (login_attempts_seq db).

Definition set_places_enc (v : list PlacesEnc) (db : DB) : DB :=
  mkDB (users db) (devices db) (sessions db) (circles db) (circle_members db) (invites db) v (key_envelopes db) (sos_events db) (push_subscriptions db) (app_versions db) (audit_log db) (login_attempts db) (pings db) (share_sessions db) (share_positions db) (notification_mutes db) (audit_log_seq db) (login_attempts_seq db).

Definition set_key_envelopes (v : list KeyEnvelope) (db : DB) : DB :=
  mkDB (users db) (devices db) (sessions db) (circles db) (circle_members db) (invites db) (places_enc db) v (sos_events db) (push_subscriptions db) (app_versions db) (audit_log db) (login_attempts db) (pings db) (share_sessions db) (share_positions db) (notification_mutes db) (audit_log_seq db) (login_attempts_seq db).

Definition set_sos_events (v : list SosEvent) (db : DB) : DB :=
  mkDB (users db) (devices db) (sessions db) (circles db) (circle_members db) (invites db) (places_enc db) (key_envelopes db) v (push_subscriptions db) (app_versions db) (audit_log db) (login_attempts db) (pings db) (share_sessions db) (share_positions db) (notification_mutes db) (audit_log_seq db) (login_attempts_seq db).

Definition set_push_subscriptions (v : list PushSubscription) (db : DB) : DB :=
  mkDB (users db) (devices db) (sessions db) (circles db) (circle_members db) (invites db) (places_enc db) (key_envelopes db) (sos_events db) v (app_versions db) (audit_log db) (login_attempts db) (pings db) (share_sessions db) (share_positions db) (notification_mutes db) (audit_log_seq db) (login_attempts_seq db).

Definition set_app_versions (v : list AppVersion) (db : DB) : DB :=
  mkDB (users db) (devices db) (sessions db) (circles db) (circle_members db) (invites db) (places_enc db) (key_envelopes db) (sos_events db) (push_subscriptions db) v (audit_log db) (login_attempts db) (pings db) (share_sessions db) (share_positions db) (notification_mutes db) (audit_log_seq db) (login_attempts_seq db).

Definition set_audit_log (v : list AuditLog) (db : DB) : DB :=
  mkDB (users db) (devices db) (sessions db) (circles db) (circle_members db) (invites db) (places_enc db) (key_envelopes db) (sos_events db) (push_subscriptions db) (app_versions db) v (login_attempts db) (pings db) (share_sessions db) (share_positions db) (notification_mutes db) (audit_log_seq db) (login_attempts_seq db).

Definition set_login_attempts (v : list LoginAttempt) (db : DB) : DB :=
  mkDB (users db) (devices db) (sessions db) (circles db) (circle_members db) (invites db) (places_enc db) (key_envelopes db) (sos_events db) (push_subscriptions db) (app_versions db) (audit_log db) v (pings db) (share_sessions db) (share_positions db) (notification_mutes db) (audit_log_seq db) (login_attempts_seq db).

Definition set_pings (v : list Ping) (db : DB) : DB :=
  mkDB (users db) (devices db) (sessions db) (circles db) (circle_members db) (invites db) (places_enc db) (key_envelopes db) (sos_events db) (push_subscriptions db) (app_versions db) (audit_log db) (login_attempts db) v (share_sessions db) (share_positions db) (notification_mutes db) (audit_log_seq db) (login_attempts_seq db).

Definition set_share_sessions (v : list ShareSession) (db : DB) : DB :=
  mkDB (users db) (devices db) (sessions db) (circles db) (circle_members db) (invites db) (places_enc db) (key_envelopes db) (sos_events db) (push_subscriptions db) (app_versions db) (audit_log db) (login_attempts db) (pings db) v (share_positions db) (notification_mutes db) (audit_log_seq db) (login_attempts_seq db).

Definition set_share_positions (v : list SharePosition) (db : DB) : DB :=
  mkDB (users db) (devices db) (sessions db) (circles db) (circle_members db) (invites db) (places_enc db) (key_envelopes db) (sos_events db) (push_subscriptions db) (app_versions db) (audit_log db) (login_attempts db) (pings db) (share_sessions db) v (notification_mutes db) (audit_log_seq db) (login_attempts_seq db).

Definition set_notification_mutes (v : list NotificationMute) (db : DB) : DB :=
  mkDB (users db) (devices db) (sessions db) (circles db) (circle_members db) (invites db) (places_enc db) (key_envelopes db) (sos_events db) (push_subscriptions db) (app_versions db) (audit_log db) (login_attempts db) (pings db) (share_sessions db) (share_positions db) v (audit_log_seq db) (login_attempts_seq db).

Definition set_audit_log_seq (v : Z) (db : DB) : DB :=
  mkDB (users db) (devices db) (sessions db) (circles db) (circle_members db) (invites db) (places_enc db) (key_envelopes db) (sos_events db) (push_subscriptions db) (app_versions db) (audit_log db) (login_attempts db) (pings db) (share_sessions db) (share_positions db) (notification_mutes db) v (login_attempts_seq db).

Definition set_login_attempts_seq (v : Z) (db : DB) : DB :=
  mkDB (users db) (devices db) (sessions db) (circles db) (circle_members db) (invites db) (places_enc db) (key_envelopes db) (sos_events db) (push_subscriptions db) (app_versions db) (audit_log db) (login_attempts db) (pings db) (share_sessions db) (share_positions db) (notification_mutes db) (audit_log_seq db) v.

Definition empty_db : DB :=
  mkDB [] [] [] [] [] [] [] [] [] [] [] [] [] [] [] [] [] 1 1.
