(* ===== verification/Api.v ===== *)
(** * What crosses the wire (internal/httpapi, internal/httpx)

    The DTOs the handlers render rows into, the responses they answer with, and
    the payloads of realtime events.  JSON text is not modelled: a request body
    is the decoded request value (or its absence, when [httpx.DecodeJSON]
    fails), a response body the value [httpx.WriteJSON] is given. *)

From S2P Require Import Prelude GoTime Base64 Models.
Local Open Scope Z_scope.

(** ** Limits (httpapi/server.go) *)

Definition maxBlobBytes : Z := 4096.
Definition maxNonceBytes : Z := 40.
Definition maxBatchPings : Z := 100.
Definition maxKeyEnvelopes : Z := 200.
Definition maxProfileBytes : Z := 128 * 1024.
Definition pingFutureSkew : duration := 5 * Minute.

(** [len(b)] of a slice or string. *)
Definition len {A} (l : list A) : Z := Z.of_nat (length l).
Definition str_len (s : string) : Z := Z.of_nat (String.length s).

Definition encodeBlob (b : bytes) : string := EncodeToString StdEncoding b.

(** [decodeBlob]: base64 in the standard, raw standard or URL alphabet, with a
    ceiling on the decoded size.  The error is the message of the 400. *)
Definition decodeBlob (field s : string) (maxBytes : Z) : result string bytes :=
  if decide (s = EmptyString) then Err (field ++ " is required")%string else
  let size_checks b :=
    if len b =? 0 then Err (field ++ " must not be empty")%string
    else if maxBytes <? len b then Err (field ++ " exceeds " ++ itoa maxBytes ++ " bytes")%string
    else Ok b in
  match DecodeString StdEncoding s with
  | Some b => size_checks b
  | None =>
      match DecodeString RawStdEncoding s with
      | Some b2 => size_checks b2
      | None =>
          match DecodeString URLEncoding s with
          | Some b3 => size_checks b3
          | None => Err (field ++ " must be base64")%string
          end
      end
  end.

(** ** DTOs *)

Record circleDTO := mk_circleDTO {
  circleDTO_ID : uuid; circleDTO_NameEnc : option string; circleDTO_RetentionDays : Z;
  circleDTO_KeyEpoch : Z; circleDTO_Role : string; circleDTO_PrecisionMode : string;
  circleDTO_CreatedAt : time }.

Record memberDTO := mk_memberDTO {
  memberDTO_UserID : uuid; memberDTO_Email : string; memberDTO_Role : string;
  memberDTO_PrecisionMode : string; memberDTO_JoinedAt : time;
  memberDTO_ProfileEnc : option string }.

Record inviteDTO := mk_inviteDTO {
  inviteDTO_ID : uuid; inviteDTO_CircleID : uuid; inviteDTO_Role : string;
  inviteDTO_MaxUses : Z; inviteDTO_Uses : Z; inviteDTO_ExpiresAt : time;
  inviteDTO_Status : string }.

Record pingDTO := mk_pingDTO {
  pingDTO_ID : uuid; pingDTO_CircleID : uuid; pingDTO_DeviceID : uuid;
  pingDTO_Nonce : string; pingDTO_Ciphertext : string; pingDTO_CapturedAt : time }.

Record placeDTO := mk_placeDTO {
  placeDTO_ID : uuid; placeDTO_Ciphertext : string; placeDTO_Version : Z;
  placeDTO_UpdatedAt : time; placeDTO_CreatedBy : option uuid }.

Record sosDTO := mk_sosDTO {
  sosDTO_ID : uuid; sosDTO_CircleID : uuid; sosDTO_DeviceID : option uuid;
  sosDTO_Ciphertext : string; sosDTO_CreatedAt : time; sosDTO_ResolvedAt : option time }.

Record mutesDTO := mk_mutesDTO { CircleMuted : bool; MutedUserIDs : list uuid }.

Record circleDeviceDTO := mk_circleDeviceDTO {
  circleDeviceDTO_ID : uuid; circleDeviceDTO_UserID : uuid;
  circleDeviceDTO_Platform : string; circleDeviceDTO_PubkeyB64 : option string }.

Record keyEnvelopeDTO := mk_keyEnvelopeDTO {
  keyEnvelopeDTO_ID : uuid; keyEnvelopeDTO_CircleID : uuid;
  keyEnvelopeDTO_SenderDeviceID : option uuid; keyEnvelopeDTO_Ciphertext : string;
  keyEnvelopeDTO_KeyEpoch : Z; keyEnvelopeDTO_CreatedAt : time }.

Record shareSessionDTO := mk_shareSessionDTO {
  shareSessionDTO_ID : uuid; shareSessionDTO_CreatedAt : time;
  shareSessionDTO_ExpiresAt : time; shareSessionDTO_ViewerBound : bool;
  shareSessionDTO_Revoked : bool }.

Record sharePositionDTO := mk_sharePositionDTO {
  sharePositionDTO_Nonce : string; sharePositionDTO_Ciphertext : string;
  sharePositionDTO_CapturedAt : time }.

Record userDTO := mk_userDTO { userDTO_ID : uuid; userDTO_Email : string }.

Record deviceDTO := mk_deviceDTO {
  deviceDTO_ID : uuid; deviceDTO_Platform : string; deviceDTO_DisplayName : option string;
  deviceDTO_HasPubkey : bool; deviceDTO_LastSeen : option time }.

Record authResp := mk_authResp {
  authResp_AccessToken : string; authResp_RefreshToken : string;
  authResp_AccessExpiresAt : time; authResp_RefreshExpiresAt : time;
  authResp_User : option userDTO; authResp_Device : option deviceDTO }.

Record sessionDTO := mk_sessionDTO {
  sessionDTO_ID : uuid; sessionDTO_DeviceID : uuid; sessionDTO_Platform : string;
  sessionDTO_DisplayName : option string; sessionDTO_Current : bool;
  sessionDTO_RotatedAt : time; sessionDTO_RefreshUntil : time }.

Record auditDTO := mk_auditDTO { auditDTO_Event : string; auditDTO_At : time }.

(** A nil or empty blob renders as null. *)
Definition nameEncPtr (b : option bytes) : option string :=
  match b with
  | Some (x :: l) => Some (encodeBlob (x :: l))
  | _ => None
  end.

Definition inviteToDTO (inv : Invite) : inviteDTO :=
  mk_inviteDTO (Invite_ID inv) (Invite_CircleID inv) (Invite_Role inv) (Invite_MaxUses inv)
    (Invite_Uses inv) (Invite_ExpiresAt inv) (Invite_Status inv).

Definition pingToDTO (row : Ping) : pingDTO :=
  mk_pingDTO (Ping_ID row) (Ping_CircleID row) (Ping_DeviceID row) (encodeBlob (Ping_Nonce row))
    (encodeBlob (Ping_Ciphertext row)) (Ping_CapturedAt row).

Definition placeToDTO (p : PlacesEnc) : placeDTO :=
  mk_placeDTO (PlacesEnc_ID p) (encodeBlob (PlacesEnc_Ciphertext p)) (PlacesEnc_Version p)
    (PlacesEnc_UpdatedAt p) (PlacesEnc_CreatedBy p).

Definition sosToDTO (ev : SosEvent) : sosDTO :=
  mk_sosDTO (SosEvent_ID ev) (SosEvent_CircleID ev) (SosEvent_DeviceID ev)
    (encodeBlob (SosEvent_Ciphertext ev)) (SosEvent_CreatedAt ev) (SosEvent_ResolvedAt ev).

Definition deviceToDTO (d : Device) : deviceDTO :=
  mk_deviceDTO (Device_ID d) (Device_Platform d) (Device_DisplayName d)
    (match Device_Pubkey d with Some (_ :: _) => true | _ => false end) (Device_LastSeen d).

(** [mutesFromRows]: the NULL row is the whole-circle mute. *)
Fixpoint mutesFromRows (rows : list (option uuid)) : mutesDTO :=
  match rows with
  | [] => mk_mutesDTO false []
  | None :: rest => mk_mutesDTO true (MutedUserIDs (mutesFromRows rest))
  | Some id :: rest =>
      let out := mutesFromRows rest in mk_mutesDTO (CircleMuted out) (id :: MutedUserIDs out)
  end.

(** ** Responses (httpx/httpx.go) *)

Inductive ErrorCode :=
| CodeBadRequest | CodeValidation | CodeUnauthorized | CodeForbidden | CodeNotFound | CodeGone
| CodeConflict | CodeRateLimited | CodePayloadTooBig | CodeLocked | CodeInternal.

(** A bearer cookie a response sets: the access, the refresh or a share cookie. *)
Record cookie := mk_cookie {
  cookie_Name : string; cookie_Value : string; cookie_Path : string; cookie_Secure : bool;
  cookie_Expires : option time; cookie_MaxAge : Z }.

Inductive body :=
| BError (code : ErrorCode) (message : string)
| BStatus (status : string)
| BCircles (l : list circleDTO) | BCircle (c : circleDTO)
| BMembers (l : list memberDTO)
| BPrecision (mode : string) | BKeyEpoch (epoch : Z)
| BInvite (i : inviteDTO) | BInvites (l : list inviteDTO)
| BInviteInfo (circle_id : uuid) (role : string) (expires_at : time) (valid : bool)
| BJoined (circle_id : uuid) (role : option string) (status : string)
| BPlaces (l : list placeDTO) | BPlace (p : placeDTO)
| BSosList (l : list sosDTO) | BSos (s : sosDTO)
| BMutes (m : mutesDTO)
| BBatch (accepted stored duplicate : Z) | BPings (l : list pingDTO)
| BDevicesOf (l : list circleDeviceDTO)
| BDelivered (count : Z) | BEnvelopes (l : list keyEnvelopeDTO)
| BShare (id : uuid) (expires_at : time) | BShares (l : list shareSessionDTO)
| BSharePosition (expires_at : time) (position : option sharePositionDTO)
| BAuth (a : authResp)
| BUser (u : userDTO) | BDevices (l : list deviceDTO)
| BSessions (l : list sessionDTO) | BAudit (l : list auditDTO)
| BVersion (v : AppVersion) | BNotified (sent failed : Z).

(** A response: status, body, the cookies it sets, and its Retry-After. *)
Record response := mk_response {
  resp_status : Z; resp_body : body; resp_cookies : list cookie; resp_retry : option Z }.

Definition WriteJSON (status : Z) (b : body) : response := mk_response status b [] None.
Definition WriteError (status : Z) (code : ErrorCode) (message : string) : response :=
  WriteJSON status (BError code message).

Definition BadRequest (msg : string) : response := WriteError 400 CodeBadRequest msg.
Definition Unauthorized (msg : string) : response := WriteError 401 CodeUnauthorized msg.
Definition Forbidden (msg : string) : response := WriteError 403 CodeForbidden msg.
Definition NotFound (msg : string) : response := WriteError 404 CodeNotFound msg.
Definition Gone (msg : string) : response := WriteError 410 CodeGone msg.
Definition Conflict (msg : string) : response := WriteError 409 CodeConflict msg.
(** The error is logged; the client sees a generic message. *)
Definition Internal (e : error) : response :=
  WriteError 500 CodeInternal "internal server error".

(** ** Realtime events (realtime/hub.go) *)

Inductive EventType :=
| EventPing | EventSOS | EventSOSResolved | EventPlaceUpdated | EventKeyEnvelope
| EventPrecisionMode | EventMemberChanged.

Inductive Payload :=
| PayloadPing (p : pingDTO)
| PayloadSOS (s : sosDTO)
| PayloadSOSResolved (id : uuid).

Record Event := mkEvent {
  Event_Type : EventType; Event_CircleID : uuid; Event_Payload : option Payload }.

(** ** The blob codec *)

Lemma decodeBlob_bounds field s maxBytes b :
  decodeBlob field s maxBytes = Ok b -> 0 < len b <= maxBytes.
Proof.
  unfold decodeBlob, len. intros H.
  repeat (case_match; simplify_eq/=);
    repeat match goal with
    | H : (_ =? _) = false |- _ => apply Z.eqb_neq in H
    | H : (_ <? _) = false |- _ => apply Z.ltb_ge in H
    end; lia.
Qed.

Lemma decodeBlob_encodeBlob field b maxBytes :
  0 < len b <= maxBytes -> decodeBlob field (encodeBlob b) maxBytes = Ok b.
Proof.
  unfold decodeBlob, encodeBlob, DecodeString. intros Hb.
  rewrite decide_False; [|destruct b as [|x [|y [|z b]]]; unfold len in Hb; simpl in *; [lia|done..]].
  rewrite strip_encode, decode_groups_encode.
  rewrite (proj2 (Z.eqb_neq _ _)) by lia. rewrite (proj2 (Z.ltb_ge _ _)) by lia. done.
Qed.
