(* ===== verification/Hub.v ===== *)
(** * The realtime hub (internal/realtime/hub.go)

    Clients are shared objects: the hub's maps hold pointers to them, and the
    transport goroutine holds another.  A client is a cell of [h_heap], a
    pointer its key.  The buffered channels are queues; [select] with a default
    case never blocks.  Sending on or closing a closed channel panics, and the
    loop has no recover: [h_panicked] records it. *)

From S2P Require Import Prelude GoTime Models Api.
Local Open Scope Z_scope.

Abbreviation ptr := N.

Definition defaultMaxConnsPerUser : Z := 10.
Definition defaultMaxConnsTotal : Z := 10000.
Definition broadcastBuffer : nat := 256.
Definition evictBuffer : nat := 64.

(** What the hub writes to a socket's channel. *)
Inductive frame :=
| FrameEvent (ev : Event)
| FrameUnsubscribed (circle_id : uuid).

Record Client := mkClient {
  Client_ID : uuid;
  Client_UserID : uuid;
  Client_circles : gset uuid;
  Client_send : list frame;      (** frames buffered, oldest first *)
  Client_cap : nat;              (** capacity of the channel *)
  Client_closed : bool
}.

Record evictReq := mkEvictReq {
  evict_circleID : uuid; evict_userID : uuid; evict_allUsers : bool }.

Record Stats := mkStats { Stats_Clients : Z; Stats_Circles : Z }.

Record Hub := mkHub {
  h_heap : gmap ptr Client;
  h_clients : gset ptr;
  h_circles : gmap uuid (gset ptr);
  h_broadcast : list Event;
  h_evict : list evictReq;
  h_running : bool;              (** the Run loop has not returned *)
  h_panicked : bool;
  h_totalConns : Z;
  h_perUser : gmap uuid Z;
  h_maxPerUser : Z;
  h_maxTotal : Z
}.

Definition set_heap (v : gmap ptr Client) (h : Hub) : Hub :=
  mkHub v (h_clients h) (h_circles h) (h_broadcast h) (h_evict h) (h_running h) (h_panicked h)
    (h_totalConns h) (h_perUser h) (h_maxPerUser h) (h_maxTotal h).
Definition set_clients (v : gset ptr) (h : Hub) : Hub :=
  mkHub (h_heap h) v (h_circles h) (h_broadcast h) (h_evict h) (h_running h) (h_panicked h)
    (h_totalConns h) (h_perUser h) (h_maxPerUser h) (h_maxTotal h).
Definition set_subs (v : gmap uuid (gset ptr)) (h : Hub) : Hub :=
  mkHub (h_heap h) (h_clients h) v (h_broadcast h) (h_evict h) (h_running h) (h_panicked h)
    (h_totalConns h) (h_perUser h) (h_maxPerUser h) (h_maxTotal h).
Definition set_broadcast (v : list Event) (h : Hub) : Hub :=
  mkHub (h_heap h) (h_clients h) (h_circles h) v (h_evict h) (h_running h) (h_panicked h)
    (h_totalConns h) (h_perUser h) (h_maxPerUser h) (h_maxTotal h).
Definition set_evict (v : list evictReq) (h : Hub) : Hub :=
  mkHub (h_heap h) (h_clients h) (h_circles h) (h_broadcast h) v (h_running h) (h_panicked h)
    (h_totalConns h) (h_perUser h) (h_maxPerUser h) (h_maxTotal h).
Definition set_running (v : bool) (h : Hub) : Hub :=
  mkHub (h_heap h) (h_clients h) (h_circles h) (h_broadcast h) (h_evict h) v (h_panicked h)
    (h_totalConns h) (h_perUser h) (h_maxPerUser h) (h_maxTotal h).
Definition set_panicked (h : Hub) : Hub :=
  mkHub (h_heap h) (h_clients h) (h_circles h) (h_broadcast h) (h_evict h) (h_running h) true
    (h_totalConns h) (h_perUser h) (h_maxPerUser h) (h_maxTotal h).
Definition set_conns (total : Z) (per : gmap uuid Z) (h : Hub) : Hub :=
  mkHub (h_heap h) (h_clients h) (h_circles h) (h_broadcast h) (h_evict h) (h_running h)
    (h_panicked h) total per (h_maxPerUser h) (h_maxTotal h).
Definition set_limits (per total : Z) (h : Hub) : Hub :=
  mkHub (h_heap h) (h_clients h) (h_circles h) (h_broadcast h) (h_evict h) (h_running h)
    (h_panicked h) (h_totalConns h) (h_perUser h) per total.

Definition Client_set_circles (v : gset uuid) (c : Client) : Client :=
  mkClient (Client_ID c) (Client_UserID c) v (Client_send c) (Client_cap c) (Client_closed c).
Definition Client_set_send (v : list frame) (c : Client) : Client :=
  mkClient (Client_ID c) (Client_UserID c) (Client_circles c) v (Client_cap c) (Client_closed c).
Definition Client_close (c : Client) : Client :=
  mkClient (Client_ID c) (Client_UserID c) (Client_circles c) (Client_send c) (Client_cap c) true.

(** ** Construction *)

Definition NewClient (id userID : uuid) (circles : list uuid) (buffer : Z) : Client :=
  mkClient id userID (list_to_set circles) [] (Z.to_nat (if buffer <=? 0 then 64 else buffer)) false.

Definition Subscribed (c : Client) (circleID : uuid) : bool :=
  bool_decide (circleID ∈ Client_circles c).

Definition NewHub : Hub :=
  mkHub ∅ ∅ ∅ [] [] true false 0 ∅ defaultMaxConnsPerUser defaultMaxConnsTotal.

Definition SetConnLimits (perUser total : Z) (h : Hub) : Hub :=
  set_limits (if 0 <? perUser then perUser else h_maxPerUser h)
             (if 0 <? total then total else h_maxTotal h) h.

(** ** Admission control *)

Definition per_user (h : Hub) (u : uuid) : Z := default 0 (h_perUser h !! u).

Definition Admit_conn (userID : uuid) (h : Hub) : bool * Hub :=
  if (h_maxTotal h <=? h_totalConns h) || (h_maxPerUser h <=? per_user h userID)
  then (false, h)
  else (true, set_conns (h_totalConns h + 1)
                (<[userID := per_user h userID + 1]> (h_perUser h)) h).

Definition Release (userID : uuid) (h : Hub) : Hub :=
  let total := if 0 <? h_totalConns h then h_totalConns h - 1 else h_totalConns h in
  let per :=
    if 0 <? per_user h userID then
      let n := per_user h userID - 1 in
      if n =? 0 then delete userID (h_perUser h) else <[userID := n]> (h_perUser h)
    else h_perUser h in
  set_conns total per h.

(** ** Channels *)

(** [select { case c.send <- f: default: }]: whether the frame was taken. *)
Definition try_send (p : ptr) (f : frame) (h : Hub) : bool * Hub :=
  match h_heap h !! p with
  | Some c =>
      if Client_closed c then (true, set_panicked h)
      else if (length (Client_send c) <? Client_cap c)%nat
      then (true, set_heap (<[p := Client_set_send (Client_send c ++ [f]) c]> (h_heap h)) h)
      else (false, h)
  | None => (true, set_panicked h)
  end.

(** [close(c.send)]. *)
Definition close_send (p : ptr) (h : Hub) : Hub :=
  match h_heap h !! p with
  | Some c =>
      if Client_closed c then set_panicked h
      else set_heap (<[p := Client_close c]> (h_heap h)) h
  | None => set_panicked h
  end.

(** The transport goroutine takes the oldest frame. *)
Definition drain (p : ptr) (h : Hub) : option frame * Hub :=
  match h_heap h !! p with
  | Some c =>
      match Client_send c with
      | f :: rest => (Some f, set_heap (<[p := Client_set_send rest c]> (h_heap h)) h)
      | [] => (None, h)
      end
  | None => (None, h)
  end.

(** ** The loop's operations *)

(** [h.circles] after [p] joined, or left, the set of one circle. *)
Definition join (p : ptr) (circleID : uuid) (m : gmap uuid (gset ptr)) : gmap uuid (gset ptr) :=
  <[circleID := {[p]} ∪ default ∅ (m !! circleID)]> m.

Definition part (p : ptr) (circleID : uuid) (m : gmap uuid (gset ptr)) : gmap uuid (gset ptr) :=
  match m !! circleID with
  | Some set =>
      let set' := set ∖ {[p]} in
      if decide (set' = ∅) then delete circleID m else <[circleID := set']> m
  | None => m
  end.

Definition circles_of (p : ptr) (h : Hub) : list uuid :=
  match h_heap h !! p with Some c => elements (Client_circles c) | None => [] end.

Definition addClient (p : ptr) (h : Hub) : Hub :=
  set_subs (foldr (join p) (h_circles h) (circles_of p h))
    (set_clients ({[p]} ∪ h_clients h) h).

Definition removeClient (p : ptr) (h : Hub) : Hub :=
  if decide (p ∈ h_clients h) then
    close_send p
      (set_subs (foldr (part p) (h_circles h) (circles_of p h))
        (set_clients (h_clients h ∖ {[p]}) h))
  else h.

Definition dispatch_one (ev : Event) (h : Hub) (p : ptr) : Hub :=
  let '(taken, h') := try_send p (FrameEvent ev) h in
  if taken then h' else removeClient p h'.

Definition dispatch (ev : Event) (h : Hub) : Hub :=
  foldl (dispatch_one ev) h (elements (default ∅ (h_circles h !! Event_CircleID ev))).

Definition evict_one (req : evictReq) (h : Hub) (p : ptr) : Hub :=
  match h_heap h !! p with
  | Some c =>
      if negb (evict_allUsers req) && negb (Client_UserID c =? evict_userID req)%N then h
      else
        let h1 := set_heap (<[p := Client_set_circles
                                     (Client_circles c ∖ {[evict_circleID req]}) c]> (h_heap h)) h in
        let h2 := set_subs (<[evict_circleID req :=
                      default ∅ (h_circles h1 !! evict_circleID req) ∖ {[p]}]> (h_circles h1)) h1 in
        snd (try_send p (FrameUnsubscribed (evict_circleID req)) h2)
  | None => set_panicked h
  end.

Definition doEvict (req : evictReq) (h : Hub) : Hub :=
  let set := default ∅ (h_circles h !! evict_circleID req) in
  if decide (set = ∅) then h else
  let h' := foldl (evict_one req) h (elements set) in
  if decide (default ∅ (h_circles h' !! evict_circleID req) = ∅)
  then set_subs (delete (evict_circleID req) (h_circles h')) h' else h'.

(** [case <-ctx.Done()]. *)
Definition shutdown (h : Hub) : Hub :=
  set_running false
    (set_subs ∅ (set_clients ∅ (foldl (fun h p => close_send p h) h (elements (h_clients h))))).

(** ** The API the handlers call *)

Definition EvictUser (circleID userID : uuid) (h : Hub) : Hub :=
  if (length (h_evict h) <? evictBuffer)%nat
  then set_evict (h_evict h ++ [mkEvictReq circleID userID false]) h else h.

Definition EvictCircle (circleID : uuid) (h : Hub) : Hub :=
  if (length (h_evict h) <? evictBuffer)%nat
  then set_evict (h_evict h ++ [mkEvictReq circleID 0%N true]) h else h.

Definition Publish (ev : Event) (h : Hub) : Hub :=
  if (length (h_broadcast h) <? broadcastBuffer)%nat
  then set_broadcast (h_broadcast h ++ [ev]) h else h.

(** One iteration of the loop: [select] takes any ready case.  Register and
    Unregister meet a sender of an unbuffered channel, so they are enabled only
    while the loop runs. *)
Inductive hub_case :=
| CaseDone | CaseRegister (p : ptr) | CaseUnregister (p : ptr)
| CaseBroadcast | CaseEvict | CaseStats.

Definition select_case (k : hub_case) (h : Hub) : option Hub :=
  if negb (h_running h) || h_panicked h then None else
  match k with
  | CaseDone => Some (shutdown h)
  | CaseRegister p => Some (addClient p h)
  | CaseUnregister p => Some (removeClient p h)
  | CaseBroadcast =>
      match h_broadcast h with
      | ev :: rest => Some (dispatch ev (set_broadcast rest h))
      | [] => None
      end
  | CaseEvict =>
      match h_evict h with
      | req :: rest => Some (doEvict req (set_evict rest h))
      | [] => None
      end
  | CaseStats => Some h
  end.

Definition Snapshot (h : Hub) : Stats :=
  mkStats (Z.of_nat (size (h_clients h))) (Z.of_nat (size (h_circles h))).
