(* ===== verification/HubInv.v ===== *)
(** * The hub keeps its index exact and never panics

    [hub_inv] ties the two views of a subscription together: a client's own set
    of circles and the hub's per-circle index.  Every operation of the loop
    preserves it; [subs] and the client cells are what each operation is
    specified by, so that clients of these lemmas need not unfold the folds. *)

From S2P Require Import Prelude GoTime Models Api Hub.

Definition subs_of (m : gmap uuid (gset ptr)) (cid : uuid) : gset ptr := default ∅ (m !! cid).
Definition subs (h : Hub) (cid : uuid) : gset ptr := subs_of (h_circles h) cid.

(** [p] is a live client whose own set contains [cid]. *)
Definition subscribed (h : Hub) (p : ptr) (cid : uuid) : Prop :=
  p ∈ h_clients h /\ exists c, h_heap h !! p = Some c /\ cid ∈ Client_circles c.

#[export] Instance subscribed_dec h p cid : Decision (subscribed h p cid).
Proof.
  refine (cast_if (decide (p ∈ h_clients h /\
    cid ∈ from_option Client_circles ∅ (h_heap h !! p)))); unfold subscribed;
  destruct (h_heap h !! p) as [c|]; simpl in *; naive_solver set_solver.
Defined.

Record hub_core (h : Hub) : Prop := {
  hc_open : forall p, p ∈ h_clients h -> exists c, h_heap h !! p = Some c /\ Client_closed c = false;
  hc_index : forall cid p, p ∈ subs h cid <-> subscribed h p cid;
  hc_cap : forall p c, h_heap h !! p = Some c -> length (Client_send c) <= Client_cap c;
  hc_panic : h_panicked h = false
}.

Definition index_tight (h : Hub) : Prop := forall cid set, h_circles h !! cid = Some set -> set <> ∅.

Definition hub_inv (h : Hub) : Prop := hub_core h /\ index_tight h.

(** ** The index operations *)

Lemma subs_of_join p c m cid :
  subs_of (join p c m) cid = if decide (cid = c) then {[p]} ∪ subs_of m cid else subs_of m cid.
Proof.
  unfold subs_of, join. case_decide as Hc.
  - subst c. by rewrite lookup_insert_eq.
  - by rewrite lookup_insert_ne.
Qed.

Lemma subs_of_part p c m cid :
  subs_of (part p c m) cid = if decide (cid = c) then subs_of m cid ∖ {[p]} else subs_of m cid.
Proof.
  unfold subs_of, part. case_decide as Hc; [subst c|].
  - destruct (m !! cid) as [s|] eqn:Hm; simpl; [|rewrite Hm; set_solver].
    destruct (decide _) as [He|_]; [by rewrite lookup_delete_eq, He|by rewrite lookup_insert_eq].
  - destruct (m !! c) as [s|] eqn:Hm; [|done].
    case_decide; [by rewrite lookup_delete_ne|by rewrite lookup_insert_ne].
Qed.

Lemma subs_of_join_all p l m cid :
  subs_of (foldr (join p) m l) cid = if decide (cid ∈ l) then {[p]} ∪ subs_of m cid else subs_of m cid.
Proof.
  induction l as [|c l IH]; simpl; [done|].
  rewrite subs_of_join, IH. repeat case_decide; set_solver.
Qed.

Lemma subs_of_part_all p l m cid :
  subs_of (foldr (part p) m l) cid = if decide (cid ∈ l) then subs_of m cid ∖ {[p]} else subs_of m cid.
Proof.
  induction l as [|c l IH]; simpl; [done|].
  rewrite subs_of_part, IH. repeat case_decide; set_solver.
Qed.

Definition map_tight (m : gmap uuid (gset ptr)) : Prop := forall cid set, m !! cid = Some set -> set <> ∅.

Lemma map_tight_join p c m : map_tight m -> map_tight (join p c m).
Proof.
  intros Hm cid set. unfold join. rewrite lookup_insert. case_decide; [|by apply Hm].
  intros [= <-]. set_solver.
Qed.

Lemma map_tight_part p c m : map_tight m -> map_tight (part p c m).
Proof.
  intros Hm cid set. unfold part. destruct (m !! c) as [s|]; [|by apply Hm].
  case_decide.
  - rewrite lookup_delete. case_decide; [done|by apply Hm].
  - rewrite lookup_insert. case_decide; [by intros [= <-]|by apply Hm].
Qed.

Lemma map_tight_foldr (f : uuid -> gmap uuid (gset ptr) -> gmap uuid (gset ptr)) l m :
  (forall c m, map_tight m -> map_tight (f c m)) -> map_tight m -> map_tight (foldr f m l).
Proof. intros Hf Hm. induction l; simpl; auto. Qed.

(** ** Sending and closing *)

Lemma circles_of_subscribed h p cid :
  p ∈ h_clients h -> (cid ∈ circles_of p h <-> subscribed h p cid).
Proof.
  intros Hp. unfold circles_of, subscribed. destruct (h_heap h !! p) as [c|].
  - rewrite elem_of_elements. naive_solver.
  - split; [by intros ?%not_elem_of_nil|]. intros (_ & c & ? & _). done.
Qed.

Lemma subscribed_heap_update h p c c' q cid :
  h_heap h !! p = Some c -> Client_circles c' = Client_circles c ->
  subscribed (set_heap (<[p := c']> (h_heap h)) h) q cid <-> subscribed h q cid.
Proof.
  intros Hp Hc. unfold subscribed. simpl. destruct (decide (q = p)) as [->|Hne].
  - rewrite lookup_insert_eq, Hp. naive_solver (by rewrite ?Hc in *).
  - by rewrite lookup_insert_ne.
Qed.

Lemma subscribed_cell h p c cid :
  h_heap h !! p = Some c -> subscribed h p cid <-> p ∈ h_clients h /\ cid ∈ Client_circles c.
Proof. intros Hp. unfold subscribed. rewrite Hp. naive_solver. Qed.

Lemma try_send_core p f h taken h' :
  hub_core h -> p ∈ h_clients h -> try_send p f h = (taken, h') ->
  hub_core h' /\ h_clients h' = h_clients h /\ h_circles h' = h_circles h /\
  (taken = false -> h' = h).
Proof.
  intros [Ho Hi Hcap Hpan] Hp. unfold try_send.
  destruct (Ho p Hp) as (c & Hc & Hopen). rewrite Hc, Hopen.
  destruct (Nat.ltb_spec (length (Client_send c)) (Client_cap c)); intros [= <- <-]; [|done].
  split; [|done]. split; simpl; [| | |done].
  - intros q Hq. destruct (decide (q = p)) as [->|]; [rewrite lookup_insert_eq; eauto|].
    rewrite lookup_insert_ne by done. auto.
  - intros cid q. rewrite subscribed_heap_update by done. apply Hi.
  - intros q c'. destruct (decide (q = p)) as [->|].
    + rewrite lookup_insert_eq. intros [= <-]. simpl. rewrite length_app. simpl. lia.
    + rewrite lookup_insert_ne by done. apply Hcap.
Qed.

(** ** Register and Unregister *)

Lemma addClient_core p c h :
  hub_core h -> h_heap h !! p = Some c -> Client_closed c = false -> hub_core (addClient p h).
Proof.
  intros [Ho Hi Hcap Hpan] Hp Hc. split; simpl; [| |done|done].
  - intros q. rewrite elem_of_union, elem_of_singleton. intros [->|?]; eauto.
  - intros cid q. unfold subs, subscribed. simpl. rewrite subs_of_join_all.
    unfold circles_of. rewrite Hp. specialize (Hi cid q). unfold subs, subscribed in Hi.
    case_decide as Hin; rewrite elem_of_elements in Hin; rewrite !elem_of_union, ?elem_of_singleton, Hi;
      naive_solver.
Qed.

Lemma addClient_tight p h : index_tight h -> index_tight (addClient p h).
Proof. intros Ht. apply map_tight_foldr; [intros; by apply map_tight_join|exact Ht]. Qed.

Lemma removeClient_in p c h :
  p ∈ h_clients h -> h_heap h !! p = Some c -> Client_closed c = false ->
  removeClient p h =
    set_heap (<[p := Client_close c]> (h_heap h))
      (set_subs (foldr (part p) (h_circles h) (circles_of p h))
        (set_clients (h_clients h ∖ {[p]}) h)).
Proof.
  intros Hp Hc Ho. unfold removeClient. rewrite decide_True by done.
  unfold close_send. simpl. by rewrite Hc, Ho.
Qed.

Lemma removeClient_core p h : hub_core h -> hub_core (removeClient p h).
Proof.
  intros [Ho Hi Hcap Hpan]. destruct (decide (p ∈ h_clients h)) as [Hp|Hp].
  2:{ unfold removeClient. by rewrite decide_False. }
  destruct (Ho p Hp) as (c & Hc & Hopen). rewrite (removeClient_in p c) by done.
  split; simpl; [| | |done].
  - intros q. rewrite elem_of_difference, elem_of_singleton. intros [Hq Hne].
    rewrite lookup_insert_ne by done. auto.
  - intros cid q. unfold subs, subscribed. simpl. rewrite subs_of_part_all.
    pose proof (circles_of_subscribed h p cid Hp) as Hcirc.
    specialize (Hi cid q) as Hiq. unfold subs, subscribed in *.
    destruct (decide (q = p)) as [->|Hne].
    + rewrite elem_of_difference, elem_of_singleton.
      case_decide as Hin; [set_solver|]. split; [|naive_solver]. intros Hs.
      exfalso. apply Hin, Hcirc. by apply Hiq.
    + rewrite lookup_insert_ne, elem_of_difference, elem_of_singleton by done.
      case_decide; [rewrite elem_of_difference, elem_of_singleton|]; naive_solver.
  - intros q c'. destruct (decide (q = p)) as [->|].
    + rewrite lookup_insert_eq. intros [= <-]. simpl. eauto.
    + rewrite lookup_insert_ne by done. apply Hcap.
Qed.

Lemma removeClient_tight p h : index_tight h -> index_tight (removeClient p h).
Proof.
  intros Ht. unfold removeClient, close_send. case_decide; [|done]. simpl.
  destruct (h_heap h !! p) as [c|]; [destruct (Client_closed c)|];
    (apply map_tight_foldr; [intros; by apply map_tight_part|exact Ht]).
Qed.

Lemma removeClient_clients p h : h_clients (removeClient p h) = h_clients h ∖ {[p]}.
Proof.
  unfold removeClient, close_send. case_decide; simpl; [|set_solver].
  by destruct (h_heap h !! p) as [c|]; [destruct (Client_closed c)|].
Qed.

Lemma removeClient_inv p h : hub_inv h -> hub_inv (removeClient p h).
Proof. intros [Hc Ht]. split; [by apply removeClient_core|by apply removeClient_tight]. Qed.

(** ** Eviction *)

Definition user_of (h : Hub) (p : ptr) : option uuid := Client_UserID <$> h_heap h !! p.

(** The clients a request evicts: everyone, or one user's. *)
Definition evicts (h : Hub) (req : evictReq) (p : ptr) : Prop :=
  evict_allUsers req = true \/ user_of h p = Some (evict_userID req).

#[export] Instance evicts_dec h req p : Decision (evicts h req p).
Proof. unfold evicts. apply _. Defined.

Lemma try_send_user p f h q : user_of (snd (try_send p f h)) q = user_of h q.
Proof.
  unfold try_send, user_of. destruct (h_heap h !! p) as [c|] eqn:Hp; [|done].
  destruct (Client_closed c); [done|]. destruct (_ <? _)%nat; [|done]. simpl.
  destruct (decide (q = p)) as [->|]; [by rewrite lookup_insert_eq, Hp|by rewrite lookup_insert_ne].
Qed.

(** Forget one subscription in both views. *)
Definition unsubscribe (cid : uuid) (p : ptr) (c : Client) (h : Hub) : Hub :=
  set_subs (<[cid := subs h cid ∖ {[p]}]> (h_circles h))
    (set_heap (<[p := Client_set_circles (Client_circles c ∖ {[cid]}) c]> (h_heap h)) h).

Lemma subs_unsubscribe cid p c h cid' :
  subs (unsubscribe cid p c h) cid' = if decide (cid' = cid) then subs h cid ∖ {[p]} else subs h cid'.
Proof.
  unfold subs at 1, subs_of. simpl. case_decide as Hd.
  - subst cid'. by rewrite lookup_insert_eq.
  - by rewrite lookup_insert_ne.
Qed.

Lemma unsubscribe_core cid p c h :
  hub_core h -> p ∈ h_clients h -> h_heap h !! p = Some c -> hub_core (unsubscribe cid p c h).
Proof.
  intros [Ho Hi Hcap Hpan] Hp Hc. split; [| | |done].
  - intros q Hq. simpl in *. destruct (decide (q = p)) as [->|].
    + rewrite lookup_insert_eq. destruct (Ho p Hp) as (c' & ? & ?). simplify_eq. eauto.
    + rewrite lookup_insert_ne by done. auto.
  - intros cid' q. rewrite subs_unsubscribe. destruct (decide (q = p)) as [->|Hne].
    + rewrite (subscribed_cell _ p (Client_set_circles (Client_circles c ∖ {[cid]}) c))
        by (simpl; apply lookup_insert_eq).
      specialize (Hi cid' p). rewrite (subscribed_cell h p c) in Hi by done. simpl.
      case_decide; [subst|]; rewrite !elem_of_difference, !elem_of_singleton; tauto.
    + specialize (Hi cid' q). unfold subscribed in *. simpl. rewrite lookup_insert_ne by done.
      case_decide; [subst; rewrite elem_of_difference, elem_of_singleton|]; tauto.
  - intros q c'. simpl. destruct (decide (q = p)) as [->|].
    + rewrite lookup_insert_eq. intros [= <-]. simpl. eauto.
    + rewrite lookup_insert_ne by done. apply Hcap.
Qed.

Record evict_spec (req : evictReq) (l : list ptr) (h h' : Hub) : Prop := {
  es_core : hub_core h';
  es_clients : h_clients h' = h_clients h;
  es_user : forall q, user_of h' q = user_of h q;
  es_subs : forall cid q, q ∈ subs h' cid <->
    q ∈ subs h cid /\ ~ (cid = evict_circleID req /\ q ∈ l /\ evicts h req q);
  es_dom : forall cid, cid <> evict_circleID req -> h_circles h' !! cid = h_circles h !! cid
}.

Lemma evict_one_spec req h p :
  hub_core h -> p ∈ h_clients h -> evict_spec req [p] h (evict_one req h p).
Proof.
  intros Hcore Hp. pose proof Hcore as [Ho Hi Hcap Hpan].
  destruct (Ho p Hp) as (c & Hc & Hopen). unfold evict_one. rewrite Hc.
  assert (Hev : evicts h req p <-> evict_allUsers req = true \/ Client_UserID c = evict_userID req).
  { unfold evicts, user_of. rewrite Hc. simpl. clear. intuition congruence. }
  destruct (negb _ && _) eqn:Hskip.
  - apply andb_true_iff in Hskip as [Ha%negb_true_iff Hu%negb_true_iff].
    apply N.eqb_neq in Hu. split; [done|done|done| |done].
    intros cid q. split; [|tauto]. intros Hq. split; [done|].
    intros (_ & ->%list_elem_of_singleton & [He|He]%Hev); congruence.
  - assert (He : evicts h req p).
    { apply Hev. apply andb_false_iff in Hskip as [H%negb_false_iff|H%negb_false_iff]; [by left|].
      right. by apply N.eqb_eq. }
    pose proof (unsubscribe_core (evict_circleID req) p c h Hcore Hp Hc) as Hcore2.
    change (set_subs _ _) with (unsubscribe (evict_circleID req) p c h).
    set (h2 := unsubscribe (evict_circleID req) p c h) in *.
    destruct (try_send p (FrameUnsubscribed (evict_circleID req)) h2) as [taken h'] eqn:Hs.
    destruct (try_send_core _ _ _ _ _ Hcore2 (ltac:(done) : p ∈ h_clients h2) Hs)
      as (Hcore' & Hcl & Hcirc & _).
    split; simpl; [done|done| | |].
    + intros q. pose proof (try_send_user p (FrameUnsubscribed (evict_circleID req)) h2 q) as Hq.
      rewrite Hs in Hq. simpl in Hq. rewrite Hq. unfold user_of, h2. simpl.
      destruct (decide (q = p)) as [->|]; [by rewrite lookup_insert_eq, Hc|by rewrite lookup_insert_ne].
    + intros cid q. unfold subs at 1. rewrite Hcirc. fold (subs h2 cid). unfold h2.
      rewrite subs_unsubscribe, list_elem_of_singleton. case_decide as Hcid; [subst cid|tauto].
      rewrite elem_of_difference, elem_of_singleton. split; [tauto|].
      intros [? Hn]. split; [done|]. intros ->. by apply Hn.
    + intros cid Hne. rewrite Hcirc. simpl. by rewrite lookup_insert_ne.
Qed.

Lemma evict_fold_spec req l h :
  hub_core h -> (forall p, p ∈ l -> p ∈ h_clients h) -> evict_spec req l h (foldl (evict_one req) h l).
Proof.
  revert h. induction l as [|p l IH]; intros h Hc Hl; simpl.
  - split; [done|done|done| |done]. intros cid q. rewrite elem_of_nil. tauto.
  - destruct (evict_one_spec req h p Hc) as [Hc1 Hcl1 Hu1 Hs1 Hd1]; [apply Hl; set_solver|].
    destruct (IH (evict_one req h p) Hc1) as [Hc2 Hcl2 Hu2 Hs2 Hd2].
    { intros q Hq. rewrite Hcl1. apply Hl. set_solver. }
    split; [done|by rewrite Hcl2| | |].
    + intros q. by rewrite Hu2.
    + intros cid q. rewrite Hs2, Hs1, !elem_of_cons, elem_of_nil.
      unfold evicts. rewrite Hu1. clear. tauto.
    + intros cid Hne. by rewrite Hd2, Hd1.
Qed.

Lemma doEvict_spec req h :
  hub_core h -> evict_spec req (elements (subs h (evict_circleID req))) h (doEvict req h).
Proof.
  intros Hc. pose proof (hc_index h Hc) as Hi. unfold doEvict. fold (subs_of (h_circles h) (evict_circleID req)).
  fold (subs h (evict_circleID req)). case_decide as He.
  - rewrite He. split; [done|done|done| |done]. intros cid q. rewrite elements_empty, elem_of_nil. tauto.
  - set (l := elements _).
    destruct (evict_fold_spec req l h Hc) as [Hc' Hcl Hu Hs Hd].
    { intros p Hp. apply elem_of_elements, Hi in Hp. apply Hp. }
    set (h' := foldl _ _ _) in *. fold (subs_of (h_circles h') (evict_circleID req)).
    fold (subs h' (evict_circleID req)). case_decide as He'; [|done].
    assert (Hsame : forall cid,
      subs (set_subs (delete (evict_circleID req) (h_circles h')) h') cid = subs h' cid).
    { intros cid. destruct (decide (cid = evict_circleID req)) as [->|Hne].
      - rewrite He'. unfold subs, subs_of. simpl. by rewrite lookup_delete_eq.
      - unfold subs, subs_of. simpl. by rewrite lookup_delete_ne. }
    split; [|done|done| |].
    + destruct Hc' as [Ho' Hi' Hcap' Hp']. split; [done| |done|done].
      intros cid q. rewrite Hsame. apply Hi'.
    + intros cid q. rewrite Hsame. apply Hs.
    + intros cid Hne. simpl. rewrite lookup_delete_ne by done. by apply Hd.
Qed.

Lemma doEvict_tight req h : hub_core h -> index_tight h -> index_tight (doEvict req h).
Proof.
  intros Hc Ht. pose proof (hc_index h Hc) as Hi. unfold doEvict. case_decide as He; [done|].
  set (l := elements _).
  destruct (evict_fold_spec req l h Hc) as [Hc' Hcl Hu Hs Hd].
  { intros p Hp. apply elem_of_elements, Hi in Hp. apply Hp. }
  set (h' := foldl _ _ _) in *. intros cid set. case_decide as He'.
  - simpl. rewrite lookup_delete. case_decide; [done|]. rewrite Hd by done. apply Ht.
  - destruct (decide (cid = evict_circleID req)) as [->|Hne].
    + intros Hl. rewrite Hl in He'. by simpl in He'.
    + rewrite Hd by done. apply Ht.
Qed.

Lemma doEvict_inv req h : hub_inv h -> hub_inv (doEvict req h).
Proof.
  intros [Hc Ht]. split; [by apply (doEvict_spec req h Hc)|by apply doEvict_tight].
Qed.

(** ** Dispatch *)

(** What one event does to one subscribed cell: appended while there is room,
    the client dropped when there is none. *)
Definition delivered (ev : Event) (c : Client) : Client :=
  if (length (Client_send c) <? Client_cap c)%nat
  then Client_set_send (Client_send c ++ [FrameEvent ev]) c else Client_close c.

Definition has_room (c : Client) : bool := (length (Client_send c) <? Client_cap c)%nat.

Lemma dispatch_one_inv ev h p : hub_inv h -> p ∈ h_clients h -> hub_inv (dispatch_one ev h p).
Proof.
  intros [Hc Ht] Hp. unfold dispatch_one.
  destruct (try_send p (FrameEvent ev) h) as [taken h'] eqn:Hs.
  destruct (try_send_core _ _ _ _ _ Hc Hp Hs) as (Hc' & Hcl & Hcirc & Hsame).
  destruct taken.
  - split; [done|]. unfold index_tight. by rewrite Hcirc.
  - rewrite Hsame by done. by apply removeClient_inv.
Qed.

Lemma dispatch_one_cell ev h p c :
  hub_core h -> p ∈ h_clients h -> h_heap h !! p = Some c ->
  h_heap (dispatch_one ev h p) = <[p := delivered ev c]> (h_heap h) /\
  h_clients (dispatch_one ev h p) = if has_room c then h_clients h else h_clients h ∖ {[p]}.
Proof.
  intros Hcore Hp Hc. destruct (hc_open h Hcore p Hp) as (c' & Hc' & Ho). simplify_eq.
  unfold dispatch_one, try_send, delivered, has_room. rewrite Hc, Ho.
  destruct (_ <? _)%nat; [done|]. by rewrite (removeClient_in p c).
Qed.

Lemma dispatch_fold ev l h :
  hub_inv h -> NoDup l -> (forall p, p ∈ l -> p ∈ h_clients h) ->
  let h' := foldl (dispatch_one ev) h l in
  hub_inv h' /\
  (forall p, p ∉ l -> h_heap h' !! p = h_heap h !! p) /\
  (forall p c, p ∈ l -> h_heap h !! p = Some c -> h_heap h' !! p = Some (delivered ev c)) /\
  (forall p, p ∈ h_clients h' <->
     p ∈ h_clients h /\ (p ∈ l -> exists c, h_heap h !! p = Some c /\ has_room c = true)).
Proof.
  revert h. induction l as [|p l IH]; intros h Hinv Hnd Hl; simpl.
  { split; [done|]. split; [done|]. split; [by intros ? ? ?%not_elem_of_nil|].
    intros q. rewrite elem_of_nil. tauto. }
  apply NoDup_cons in Hnd as [Hpl Hnd].
  assert (Hp : p ∈ h_clients h) by (apply Hl; set_solver).
  destruct (hc_open h (proj1 Hinv) p Hp) as (c & Hc & Ho).
  destruct (dispatch_one_cell ev h p c (proj1 Hinv) Hp Hc) as [Hheap Hcl].
  pose proof (dispatch_one_inv ev h p Hinv Hp) as Hinv1.
  destruct (IH (dispatch_one ev h p) Hinv1 Hnd) as (Hi2 & Hout & Hin & Hcl2).
  { intros q Hq. rewrite Hcl. assert (q ∈ h_clients h) by (apply Hl; set_solver).
    destruct (has_room c); [done|]. apply elem_of_difference. split; [done|].
    rewrite elem_of_singleton. by intros ->. }
  split; [done|]. rewrite Hheap in Hout, Hin, Hcl2. split; [|split].
  - intros q. rewrite elem_of_cons. intros Hq. rewrite Hout by tauto.
    rewrite lookup_insert_ne; [done|]. intros ->. tauto.
  - intros q c'. rewrite elem_of_cons. intros [->|Hq] Hc'.
    + rewrite Hout, lookup_insert_eq by done. congruence.
    + apply Hin; [done|]. rewrite lookup_insert_ne; [done|]. by intros ->.
  - intros q. rewrite Hcl2, Hcl. destruct (decide (q = p)) as [->|Hne].
    + rewrite lookup_insert_eq, elem_of_cons. destruct (has_room c) eqn:Hr.
      * split; [intros [? _]; split; [done|]; intros _; by exists c|]. intros [? _]. by split.
      * rewrite elem_of_difference, elem_of_singleton. split; [tauto|].
        intros [_ H]. destruct (H (or_introl eq_refl)) as (? & ? & ?). congruence.
    + rewrite lookup_insert_ne, elem_of_cons by done.
      destruct (has_room c); [|rewrite elem_of_difference, elem_of_singleton]; tauto.
Qed.

Lemma dispatch_inv ev h : hub_inv h -> hub_inv (dispatch ev h).
Proof.
  intros Hinv. apply dispatch_fold; [done|apply NoDup_elements|].
  intros p Hp. apply elem_of_elements, (hc_index h (proj1 Hinv)) in Hp. apply Hp.
Qed.

(** ** Shutdown *)

Lemma close_fold l h :
  NoDup l -> (forall p, p ∈ l -> exists c, h_heap h !! p = Some c /\ Client_closed c = false) ->
  (forall p c, h_heap h !! p = Some c -> length (Client_send c) <= Client_cap c) ->
  let h' := foldl (fun h p => close_send p h) h l in
  h_panicked h' = h_panicked h /\
  (forall p c, h_heap h' !! p = Some c -> length (Client_send c) <= Client_cap c) /\
  (forall p c, p ∈ l -> h_heap h !! p = Some c -> h_heap h' !! p = Some (Client_close c)) /\
  (forall p, p ∉ l -> h_heap h' !! p = h_heap h !! p).
Proof.
  revert h. induction l as [|p l IH]; intros h Hnd Hl Hcap; simpl.
  { split; [done|]. split; [done|]. split; [by intros ? ? ?%not_elem_of_nil|done]. }
  apply NoDup_cons in Hnd as [Hpl Hnd].
  destruct (Hl p ltac:(set_solver)) as (c & Hc & Ho).
  assert (close_send p h = set_heap (<[p := Client_close c]> (h_heap h)) h) as ->.
  { unfold close_send. by rewrite Hc, Ho. }
  destruct (IH (set_heap (<[p := Client_close c]> (h_heap h)) h) Hnd) as (Hp & Hcap' & Hin & Hout).
  - intros q Hq. simpl. rewrite lookup_insert_ne by (by intros ->). apply Hl. set_solver.
  - intros q c'. simpl. rewrite lookup_insert. case_decide; [|apply Hcap].
    subst q. intros [= <-]. simpl. by apply (Hcap p).
  - split; [done|]. split; [done|]. simpl in *. split.
    + intros q c'. rewrite elem_of_cons. intros [->|Hq] Hc'.
      * rewrite Hout, lookup_insert_eq by done. congruence.
      * apply Hin; [done|]. rewrite lookup_insert_ne; [done|]. by intros ->.
    + intros q. rewrite elem_of_cons. intros Hq. rewrite Hout by tauto.
      rewrite lookup_insert_ne; [done|]. intros ->. tauto.
Qed.

Lemma shutdown_inv h : hub_inv h -> hub_inv (shutdown h).
Proof.
  intros [[Ho Hi Hcap Hpan] Ht]. unfold shutdown.
  destruct (close_fold (elements (h_clients h)) h) as (Hp & Hcap' & _ & _); [apply NoDup_elements| |done|].
  { intros p Hp. apply Ho, elem_of_elements, Hp. }
  split; [split; simpl|].
  - intros p ?%elem_of_empty. done.
  - intros cid p. unfold subs, subs_of, subscribed. simpl. rewrite lookup_empty. simpl.
    split; [by intros ?%elem_of_empty|]. by intros (?%elem_of_empty & _).
  - done.
  - by rewrite Hp.
  - intros cid s. simpl. by rewrite lookup_empty.
Qed.

(** ** One iteration of the loop *)

Lemma hub_inv_ext h h' :
  h_heap h' = h_heap h -> h_clients h' = h_clients h -> h_circles h' = h_circles h ->
  h_panicked h' = h_panicked h -> hub_inv h -> hub_inv h'.
Proof.
  intros H1 H2 H3 H4 [[Ho Hi Hcap Hp] Ht].
  unfold hub_inv, index_tight. rewrite H3. split; [|done].
  split; unfold subs, subscribed in *; rewrite ?H1, ?H2, ?H3, ?H4; done.
Qed.

(** A registered pointer is one of a fresh, open channel. *)
Definition registrable (h : Hub) (p : ptr) : Prop :=
  exists c, h_heap h !! p = Some c /\ Client_closed c = false.

Lemma select_case_inv k h h' :
  hub_inv h -> (forall p, k = CaseRegister p -> registrable h p) ->
  select_case k h = Some h' -> hub_inv h'.
Proof.
  intros Hinv Hreg. unfold select_case. destruct (_ || _); [done|]. destruct k; simpl.
  - intros [= <-]. by apply shutdown_inv.
  - intros [= <-]. destruct (Hreg p eq_refl) as (c & ? & ?). destruct Hinv.
    split; [by eapply addClient_core|by apply addClient_tight].
  - intros [= <-]. by apply removeClient_inv.
  - destruct (h_broadcast h) as [|ev rest]; intros [= <-]. apply dispatch_inv.
    by eapply hub_inv_ext, Hinv.
  - destruct (h_evict h) as [|req rest]; intros [= <-]. apply doEvict_inv.
    by eapply hub_inv_ext, Hinv.
  - by intros [= <-].
Qed.

Lemma NewHub_inv : hub_inv NewHub.
Proof.
  split; [split; simpl|].
  - by intros p ?%elem_of_empty.
  - intros cid p. unfold subs, subs_of, subscribed. simpl. rewrite lookup_empty. simpl.
    split; [by intros ?%elem_of_empty|]. by intros (?%elem_of_empty & _).
  - intros p c. simpl. by rewrite lookup_empty.
  - done.
  - intros cid s. simpl. by rewrite lookup_empty.
Qed.

(** ** What an operation may do to a cell

    The frames of one circle still queued for a client. *)
Definition is_event_of (cid : uuid) (f : frame) : Prop :=
  match f with FrameEvent ev => Event_CircleID ev = cid | FrameUnsubscribed _ => False end.

#[export] Instance is_event_of_dec cid f : Decision (is_event_of cid f).
Proof. destruct f; simpl; apply _. Defined.

Definition events_of (cid : uuid) (c : Client) : list frame := filter (is_event_of cid) (Client_send c).

(** [c'] is a later state of [c] in which nothing of [cid] was added. *)
Record cell_le (cid : uuid) (c c' : Client) : Prop := {
  cl_user : Client_UserID c' = Client_UserID c;
  cl_circles : Client_circles c' ⊆ Client_circles c;
  cl_events : cid ∉ Client_circles c -> events_of cid c' `suffix_of` events_of cid c
}.

#[export] Instance cell_le_preorder cid : PreOrder (cell_le cid).
Proof.
  split.
  - intros c. split; [done|done|]. intros _. done.
  - intros c1 c2 c3 [Hu1 Hc1 He1] [Hu2 Hc2 He2]. split; [congruence|set_solver|].
    intros Hn. etrans; [apply He2; set_solver|by apply He1].
Qed.

Definition heap_le (cid : uuid) (h h' : Hub) : Prop :=
  forall p c, h_heap h !! p = Some c -> exists c', h_heap h' !! p = Some c' /\ cell_le cid c c'.

#[export] Instance heap_le_preorder cid : PreOrder (heap_le cid).
Proof.
  split.
  - intros h p c Hc. by exists c.
  - intros h1 h2 h3 H12 H23 p c Hc. destruct (H12 p c Hc) as (c2 & Hc2 & ?).
    destruct (H23 p c2 Hc2) as (c3 & ? & ?). exists c3. split; [done|by etrans].
Qed.

Lemma heap_le_foldl {X} cid (f : Hub -> X -> Hub) l h :
  (forall h x, heap_le cid h (f h x)) -> heap_le cid h (foldl f h l).
Proof. intros Hf. revert h. induction l as [|x l IH]; intros h; simpl; [done|]. etrans; [apply Hf|done]. Qed.

Lemma heap_le_insert cid p c c' h :
  h_heap h !! p = Some c -> cell_le cid c c' -> heap_le cid h (set_heap (<[p := c']> (h_heap h)) h).
Proof.
  intros Hp Hle q d Hq. simpl. rewrite lookup_insert. case_decide; [|by exists d].
  subst q. simplify_eq. by exists c'.
Qed.

Lemma heap_le_ext cid h h' h'' : h_heap h'' = h_heap h' -> heap_le cid h h' -> heap_le cid h h''.
Proof. intros He Hle p c Hp. rewrite He. by apply Hle. Qed.

Lemma heap_le_same cid h h' : h_heap h' = h_heap h -> heap_le cid h h'.
Proof. intros He p c Hp. exists c. by rewrite He. Qed.

Ltac heap_same := solve [apply heap_le_same; done].

Lemma cell_le_close cid c : cell_le cid c (Client_close c).
Proof. by split. Qed.

Lemma cell_le_send cid c f : ~ is_event_of cid f -> cell_le cid c (Client_set_send (Client_send c ++ [f]) c).
Proof.
  intros Hf. split; [done|done|]. intros _. unfold events_of. simpl.
  rewrite filter_app, filter_cons_False, filter_nil, app_nil_r; done.
Qed.

Lemma cell_le_drain cid c f rest :
  Client_send c = f :: rest -> cell_le cid c (Client_set_send rest c).
Proof.
  intros Hs. split; [done|done|]. intros _. unfold events_of. rewrite Hs. simpl.
  rewrite filter_cons. case_decide; [by apply suffix_cons_r|done].
Qed.

Lemma close_send_le cid p h : heap_le cid h (close_send p h).
Proof.
  unfold close_send. destruct (h_heap h !! p) as [c|] eqn:Hp; [|heap_same].
  destruct (Client_closed c); [heap_same|]. by eapply heap_le_insert, cell_le_close.
Qed.

Lemma try_send_unsub_le cid p circle h : heap_le cid h (snd (try_send p (FrameUnsubscribed circle) h)).
Proof.
  unfold try_send. destruct (h_heap h !! p) as [c|] eqn:Hp; [|heap_same].
  destruct (Client_closed c); [heap_same|]. destruct (_ <? _)%nat; [|heap_same].
  eapply heap_le_insert; [done|]. apply cell_le_send. by intros [].
Qed.

Lemma drain_le cid p h : heap_le cid h (snd (drain p h)).
Proof.
  unfold drain. destruct (h_heap h !! p) as [c|] eqn:Hp; [|heap_same].
  destruct (Client_send c) as [|f rest] eqn:Hs; [heap_same|]. by eapply heap_le_insert, cell_le_drain.
Qed.

Lemma evict_one_le cid req h p : heap_le cid h (evict_one req h p).
Proof.
  unfold evict_one. destruct (h_heap h !! p) as [c|] eqn:Hp; [|heap_same].
  destruct (_ && _); [done|]. etrans; [|apply try_send_unsub_le].
  apply (heap_le_ext cid h (set_heap (<[p := Client_set_circles
    (Client_circles c ∖ {[evict_circleID req]}) c]> (h_heap h)) h)); [done|].
  eapply heap_le_insert; [done|]. split; simpl; [done|set_solver|done].
Qed.

Lemma doEvict_le cid req h : heap_le cid h (doEvict req h).
Proof.
  unfold doEvict. case_decide; [done|]. set (l := elements _).
  pose proof (heap_le_foldl cid (evict_one req) l h (fun h p => evict_one_le cid req h p)) as Hle.
  case_decide; [|done]. by eapply heap_le_ext, Hle.
Qed.

Lemma removeClient_le cid p h : heap_le cid h (removeClient p h).
Proof.
  unfold removeClient. case_decide; [|done].
  intros q c Hq. by apply (close_send_le cid p).
Qed.

Lemma dispatch_le cid ev h : hub_inv h -> heap_le cid h (dispatch ev h).
Proof.
  intros Hinv p c Hc. unfold dispatch. pose proof (hc_index h (proj1 Hinv)) as Hi.
  destruct (dispatch_fold ev (elements (subs h (Event_CircleID ev))) h Hinv) as (_ & Hout & Hin & _).
  { apply NoDup_elements. }
  { intros q Hq. apply elem_of_elements, Hi in Hq. apply Hq. }
  fold (subs_of (h_circles h) (Event_CircleID ev)). fold (subs h (Event_CircleID ev)).
  destruct (decide (p ∈ elements (subs h (Event_CircleID ev)))) as [Hp|Hp].
  - rewrite (Hin p c Hp Hc). exists (delivered ev c). split; [done|].
    apply elem_of_elements, Hi in Hp. rewrite (subscribed_cell h p c) in Hp by done.
    unfold delivered. destruct (_ <? _)%nat; [|apply cell_le_close].
    split; simpl; [done|done|]. intros Hn. unfold events_of. simpl. rewrite filter_app.
    rewrite filter_cons_False, filter_nil, app_nil_r; [done|]. simpl. intros <-. tauto.
  - rewrite Hout by done. by exists c.
Qed.

Lemma shutdown_le cid h : heap_le cid h (shutdown h).
Proof.
  unfold shutdown. intros p c Hp. simpl.
  by apply (heap_le_foldl cid (fun h p => close_send p h) _ h (fun h p => close_send_le cid p h)).
Qed.

Lemma select_case_le cid k h h' : hub_inv h -> select_case k h = Some h' -> heap_le cid h h'.
Proof.
  intros Hinv. unfold select_case. destruct (_ || _); [done|]. destruct k; simpl.
  - intros [= <-]. apply shutdown_le.
  - intros [= <-]. by intros q c Hq; exists c.
  - intros [= <-]. apply removeClient_le.
  - destruct (h_broadcast h) as [|ev rest]; intros [= <-].
    apply (dispatch_le cid ev (set_broadcast rest h)). by eapply hub_inv_ext, Hinv.
  - destruct (h_evict h) as [|req rest]; intros [= <-]. apply (doEvict_le cid req (set_evict rest h)).
  - by intros [= <-].
Qed.

(** ** The admission counters are not the loop's *)
Definition same_conns (h h' : Hub) : Prop :=
  h_totalConns h' = h_totalConns h /\ h_perUser h' = h_perUser h /\
  h_maxPerUser h' = h_maxPerUser h /\ h_maxTotal h' = h_maxTotal h.

#[export] Instance same_conns_preorder : PreOrder same_conns.
Proof. split; [by intros h; split|]. intros h1 h2 h3. unfold same_conns. intuition congruence. Qed.

Lemma same_conns_foldl {X} (f : Hub -> X -> Hub) l h :
  (forall h x, same_conns h (f h x)) -> same_conns h (foldl f h l).
Proof. intros Hf. revert h. induction l as [|x l IH]; intros h; simpl; [done|]. etrans; [apply Hf|done]. Qed.

Lemma close_send_conns p h : same_conns h (close_send p h).
Proof. unfold close_send. by repeat case_match. Qed.

Lemma try_send_conns p f h : same_conns h (snd (try_send p f h)).
Proof. unfold try_send. by repeat case_match. Qed.

Lemma removeClient_conns p h : same_conns h (removeClient p h).
Proof. unfold removeClient. case_decide; [|done]. etrans; [|apply close_send_conns]. done. Qed.

Lemma dispatch_one_conns ev h p : same_conns h (dispatch_one ev h p).
Proof.
  unfold dispatch_one. pose proof (try_send_conns p (FrameEvent ev) h) as Hs.
  destruct (try_send _ _ _) as [taken h']. destruct taken; [done|].
  etrans; [exact Hs|]. apply removeClient_conns.
Qed.

Lemma evict_one_conns req h p : same_conns h (evict_one req h p).
Proof.
  unfold evict_one. destruct (h_heap h !! p) as [c|]; [|done]. destruct (_ && _); [done|].
  etrans; [|apply try_send_conns]. done.
Qed.

Lemma select_case_conns k h h' : select_case k h = Some h' -> same_conns h h'.
Proof.
  unfold select_case. destruct (_ || _); [done|]. destruct k; simpl.
  - intros [= <-]. unfold shutdown. etrans; [by apply (same_conns_foldl _ (elements (h_clients h)) h (fun h p => close_send_conns p h))|]. done.
  - by intros [= <-].
  - intros [= <-]. apply removeClient_conns.
  - destruct (h_broadcast h) as [|ev rest]; intros [= <-].
    transitivity (set_broadcast rest h); [done|]. apply same_conns_foldl. intros. apply dispatch_one_conns.
  - destruct (h_evict h) as [|req rest]; intros [= <-].
    transitivity (set_evict rest h); [done|]. unfold doEvict. case_decide; [done|].
    match goal with |- context [foldl (evict_one req) ?h ?l] =>
      transitivity (foldl (evict_one req) h l) end; [apply same_conns_foldl; intros; apply evict_one_conns|].
    by case_decide.
  - by intros [= <-].
Qed.

(** ** The loop leaves alone what is not registered *)

Definition frame_ok (k : hub_case) (h h' : Hub) : Prop :=
  (forall p, p ∉ h_clients h -> h_heap h' !! p = h_heap h !! p) /\
  (forall p, p ∈ h_clients h' -> p ∈ h_clients h \/ k = CaseRegister p).

Lemma evict_one_frame req h p q : q <> p -> h_heap (evict_one req h p) !! q = h_heap h !! q.
Proof.
  intros Hne. unfold evict_one, try_send. destruct (h_heap h !! p) as [c|] eqn:Hp; [|done].
  destruct (_ && _); [done|]. simpl. rewrite lookup_insert_eq. simpl.
  destruct (Client_closed c); simpl; [by rewrite lookup_insert_ne|].
  destruct (_ <? _)%nat; simpl; by rewrite !lookup_insert_ne.
Qed.

Lemma evict_fold_frame req l h q : q ∉ l -> h_heap (foldl (evict_one req) h l) !! q = h_heap h !! q.
Proof.
  revert h. induction l as [|p l IH]; intros h; simpl; [done|].
  rewrite elem_of_cons. intros Hq. rewrite IH by tauto. apply evict_one_frame. tauto.
Qed.

Lemma select_case_frame k h h' : hub_inv h -> select_case k h = Some h' -> frame_ok k h h'.
Proof.
  intros Hinv. pose proof (hc_index h (proj1 Hinv)) as Hi.
  unfold select_case. destruct (_ || _); [done|]. destruct k; simpl.
  - intros [= <-]. unfold shutdown. split; simpl; [|set_solver].
    destruct (close_fold (elements (h_clients h)) h) as (_ & _ & _ & Hout);
      [apply NoDup_elements| |apply Hinv|].
    { intros p Hp. apply (hc_open h (proj1 Hinv)), elem_of_elements, Hp. }
    intros p Hp. apply Hout. by rewrite elem_of_elements.
  - intros [= <-]. split; simpl; [done|]. intros q. rewrite elem_of_union, elem_of_singleton.
    intros [->|?]; auto.
  - intros [= <-]. split; [|rewrite removeClient_clients; set_solver].
    intros q Hq. destruct (decide (p ∈ h_clients h)) as [Hp|Hp].
    + destruct (hc_open h (proj1 Hinv) p Hp) as (c & ? & ?). rewrite (removeClient_in p c) by done.
      simpl. rewrite lookup_insert_ne; [done|]. by intros ->.
    + unfold removeClient. by rewrite decide_False.
  - destruct (h_broadcast h) as [|ev rest]; intros [= <-].
    set (h0 := set_broadcast rest h). assert (Hinv0 : hub_inv h0) by by eapply hub_inv_ext, Hinv.
    pose proof (hc_index h0 (proj1 Hinv0)) as Hi0.
    destruct (dispatch_fold ev (elements (subs h0 (Event_CircleID ev))) h0 Hinv0) as (_ & Hout & _ & Hcl).
    { apply NoDup_elements. }
    { intros q Hq. apply elem_of_elements, Hi0 in Hq. apply Hq. }
    split.
    + intros q Hq. apply Hout. rewrite elem_of_elements. intros Hs. apply Hq. by apply Hi0 in Hs as [??].
    + intros q Hq. left. by apply Hcl in Hq as [??].
  - destruct (h_evict h) as [|req rest]; intros [= <-].
    set (h0 := set_evict rest h). assert (Hinv0 : hub_inv h0) by by eapply hub_inv_ext, Hinv.
    pose proof (hc_index h0 (proj1 Hinv0)) as Hi0. split.
    + intros q Hq. unfold doEvict. case_decide; [done|].
      assert (Hout : h_heap (foldl (evict_one req) h0 (elements (subs h0 (evict_circleID req)))) !! q
        = h_heap h0 !! q).
      { apply evict_fold_frame. rewrite elem_of_elements. intros Hs. apply Hq. by apply Hi0 in Hs as [??]. }
      by case_decide.
    + intros q. rewrite (es_clients _ _ _ _ (doEvict_spec req h0 (proj1 Hinv0))). by left.
  - intros [= <-]. split; [done|]. by left.
Qed.
