(* ===== verification/Ext.v ===== *)
(** * Code outside the repository, and the server's configuration

    [Ext] holds what the server calls in third-party packages, and the
    functions of the standard library whose tables or grammars are out of scope
    (Unicode case folding and spaces, RFC 5322 addresses, RFC 3339 times of any
    zone, durations, URLs, JSON).  Nothing is assumed about them except where a theorem says so. *)

From S2P Require Import Prelude GoTime Models.
Local Open Scope Z_scope.

(** What the server reads of a parsed URL. *)
Record URL := mkURL { url_Scheme : string; url_Host : string }.

#[export] Instance URL_eq_dec : EqDecision URL.
Proof. solve_decision. Defined.

(** The fields of a Google service-account key the server checks. *)
Record serviceAccount := mk_serviceAccount {
  sa_Type : string; sa_ProjectID : string; sa_ClientEmail : string; sa_PrivateKey : string }.

Class Ext := {
  uuid_Parse : string -> option uuid;                  (** google/uuid *)
  mail_ParseAddress : string -> option string;         (** net/mail: the bare address *)
  time_Parse_RFC3339 : string -> option time;
  time_ParseDuration : string -> option duration;
  url_Parse : string -> option URL;                    (** net/url *)
  url_String : URL -> string;                          (** of a URL with a scheme and a host only *)
  json_serviceAccount : bytes -> option serviceAccount;  (** encoding/json *)
  unicode_ToLower : string -> string;                  (** strings.ToLower off ASCII *)
  unicode_TrimSpace : string -> string;                (** strings.TrimSpace off ASCII *)
  argon2_IDKey : bytes -> bytes -> Z -> Z -> Z -> Z -> bytes
    (** x/crypto/argon2: password, salt, iterations, memory, parallelism, key length *)
}.

(** config.Config. *)
Record Config := mkConfig {
  cfg_Env : string;
  cfg_HTTPAddr : string;
  cfg_PublicOrigin : option URL;
  cfg_DatabaseURL : string;
  cfg_DBBackend : string;
  cfg_SessionPepper : bytes;
  cfg_SecureCookies : bool;
  cfg_TrustedServerMode : bool;
  cfg_MetricsEnabled : bool;
  cfg_RetentionFeaturesEnabled : bool;
  cfg_RunMigrations : bool;
  cfg_TrustProxyHeaders : bool;
  cfg_DevStaticDir : string;
  cfg_TilesOrigin : string;
  cfg_IPLogRetentionDays : Z;
  cfg_DefaultRetentionDays : Z;
  cfg_MaxRetentionDays : Z;
  cfg_PingRetentionHours : Z;
  cfg_VAPIDPublicKey : string;
  cfg_VAPIDPrivateKey : string;
  cfg_VAPIDSubject : string;
  cfg_FCMServiceAccountFile : string;
  cfg_FCMProjectID : string;
  cfg_FCMCredentialsJSON : bytes;
  cfg_AccessTTL : duration;
  cfg_RefreshTTL : duration;
  cfg_BodyLimitBytes : Z;
  cfg_RequestTimeout : duration;
  cfg_ShutdownTimeout : duration;
  cfg_AuthRatePerMin : Z;
  cfg_InvitesRatePerHr : Z;
  cfg_PingRatePerMin : Z
}.

(** ** strings, unicode/utf8 *)

Definition is_ascii (s : string) : bool :=
  forallb (fun c => (N_of_ascii c <? 128)%N) (String.list_ascii_of_string s).

Definition lower_char (c : ascii) : ascii :=
  let n := N_of_ascii c in if ((65 <=? n) && (n <=? 90))%N then ascii_of_N (n + 32) else c.

Definition is_space (c : ascii) : bool :=
  let n := N_of_ascii c in (((9 <=? n) && (n <=? 13)) || (n =? 32))%N.

Fixpoint drop_space (l : list ascii) : list ascii :=
  match l with c :: l' => if is_space c then drop_space l' else l | [] => [] end.

Definition ToLower `{Ext} (s : string) : string :=
  if is_ascii s
  then String.string_of_list_ascii (lower_char <$> String.list_ascii_of_string s)
  else unicode_ToLower s.

Definition TrimSpace `{Ext} (s : string) : string :=
  if is_ascii s
  then String.string_of_list_ascii (rev (drop_space (rev (drop_space (String.list_ascii_of_string s)))))
  else unicode_TrimSpace s.

(** [utf8.ValidString]: one to four bytes, no overlong form, no surrogate. *)
Definition cont (b : Z) : bool := (0x80 <=? b) && (b <=? 0xBF).

Fixpoint utf8_valid (l : list Z) : bool :=
  match l with
  | [] => true
  | a :: l1 =>
      if a <? 0x80 then utf8_valid l1 else
      match l1 with
      | [] => false
      | b :: l2 =>
          if (0xC2 <=? a) && (a <=? 0xDF) then cont b && utf8_valid l2 else
          match l2 with
          | [] => false
          | c :: l3 =>
              if (0xE0 <=? a) && (a <=? 0xEF) then
                (if a =? 0xE0 then (0xA0 <=? b) && (b <=? 0xBF)
                 else if a =? 0xED then (0x80 <=? b) && (b <=? 0x9F) else cont b)
                && cont c && utf8_valid l3
              else
                match l3 with
                | [] => false
                | d :: l4 =>
                    if (0xF0 <=? a) && (a <=? 0xF4) then
                      (if a =? 0xF0 then (0x90 <=? b) && (b <=? 0xBF)
                       else if a =? 0xF4 then (0x80 <=? b) && (b <=? 0x8F) else cont b)
                      && cont c && cont d && utf8_valid l4
                    else false
                end
          end
      end
  end.

Definition ValidString (s : string) : bool :=
  utf8_valid ((fun c => Z.of_N (N_of_ascii c)) <$> String.list_ascii_of_string s).

Example utf8_examples :
  ValidString "password" = true /\
  utf8_valid [0xD0; 0xBF] = true /\ utf8_valid [0xC0; 0x80] = false /\ utf8_valid [0xED; 0xA0; 0x80] = false.
Proof. vm_compute. auto. Qed.
