(* ===== verification/Net.v ===== *)
(** * Addresses (net, net/url), as the server uses them *)

From S2P Require Import Prelude Ext.
Local Open Scope Z_scope.
Local Open Scope string_scope.

(** What precedes and follows the first, and the last, [c]. *)
Fixpoint cut (c : ascii) (s : string) : option (string * string) :=
  match s with
  | EmptyString => None
  | String c' s' =>
      if decide (c' = c) then Some ("", s') else
      match cut c s' with Some (a, b) => Some (String c' a, b) | None => None end
  end.

Fixpoint cut_last (c : ascii) (s : string) : option (string * string) :=
  match s with
  | EmptyString => None
  | String c' s' =>
      match cut_last c s' with
      | Some (a, b) => Some (String c' a, b)
      | None => if decide (c' = c) then Some ("", s') else None
      end
  end.

Definition has_char (c : ascii) (s : string) : bool := bool_decide (cut c s <> None).

(** [net.SplitHostPort]: None for its errors. *)
Definition SplitHostPort (hostport : string) : option (string * string) :=
  match cut_last ":" hostport with
  | None => None
  | Some (before, port) =>
      match hostport with
      | String "[" rest =>
          match cut "]" rest with
          | None => None
          | Some (host, after) =>
              match after with
              | String ":" port' =>
                  if has_char ":" port' || has_char "[" host || has_char "[" after || has_char "]" after
                  then None else Some (host, port')
              | _ => None
              end
          end
      | _ => if has_char ":" before || has_char "[" hostport || has_char "]" hostport then None else Some (before, port)
      end
  end.

Example split_host_port :
  SplitHostPort "203.0.113.9:5555" = Some ("203.0.113.9", "5555") /\
  SplitHostPort "[2001:db8::1]:443" = Some ("2001:db8::1", "443") /\
  SplitHostPort "2001:db8::1" = None /\ SplitHostPort "localhost" = None.
Proof. vm_compute. auto. Qed.

Definition is_digit (c : ascii) : bool := let n := N_of_ascii c in ((48 <=? n) && (n <=? 57))%N.

Fixpoint all_chars (p : ascii -> bool) (s : string) : bool :=
  match s with EmptyString => true | String c s' => p c && all_chars p s' end.

(** [URL.Port]. *)
Definition URL_Port (u : URL) : string :=
  match cut_last ":" (url_Host u) with
  | Some (_, port) => if all_chars is_digit port then port else ""
  | None => ""
  end.

Definition TrimSuffix (s suffix : string) : string :=
  let n := (String.length s - String.length suffix)%nat in
  if bool_decide (s = String.substring 0 n s ++ suffix) then String.substring 0 n s else s.

(** [strings.TrimPrefix]. *)
Definition TrimPrefix (s p : string) : string :=
  if HasPrefix s p then String.substring (String.length p) (String.length s - String.length p) s else s.

(** [strings.Split(s, sep)] of a one-byte separator. *)
Fixpoint split_on (sep : ascii) (s : string) : list string :=
  match s with
  | EmptyString => [EmptyString]
  | String c s' =>
      if ascii_dec c sep then EmptyString :: split_on sep s' else
      match split_on sep s' with
      | p :: ps => String c p :: ps
      | [] => [String c EmptyString]
      end
  end.
