(* ===== verification/Text.v ===== *)
(** * Texts that trimming and cutting leave alone

    A text of graphic characters (ASCII without blanks and controls) is its own
    trimming, whatever its neighbours; the decimal form of a number and Base64
    are such texts. *)

From S2P Require Import Prelude GoTime Base64 Ext Net.
Local Open Scope string_scope.
Local Open Scope Z_scope.

Definition graphic (c : ascii) : bool := let n := N_of_ascii c in ((33 <=? n) && (n <=? 126))%N.

Lemma all_chars_app p a b : all_chars p (a ++ b) = all_chars p a && all_chars p b.
Proof. induction a as [|c a IH]; [done|]. rewrite string_app_cons. cbn. by rewrite IH, andb_assoc. Qed.

Lemma list_ascii_app a b :
  String.list_ascii_of_string (a ++ b) = (String.list_ascii_of_string a ++ String.list_ascii_of_string b)%list.
Proof. induction a as [|c a IH]; [done|]. rewrite string_app_cons. cbn. by rewrite IH. Qed.

Lemma is_ascii_app a b : is_ascii (a ++ b) = is_ascii a && is_ascii b.
Proof. unfold is_ascii. by rewrite list_ascii_app, forallb_app. Qed.

Lemma graphic_ascii s : all_chars graphic s = true -> is_ascii s = true.
Proof.
  induction s as [|c s IH]; [done|]. cbn. intros [Hc Hs]%andb_true_iff. apply andb_true_iff. split; [|by apply IH].
  unfold graphic in Hc. apply andb_true_iff in Hc as [_ Hc%N.leb_le]. apply N.ltb_lt. lia.
Qed.

Lemma graphic_space c : graphic c = true -> is_space c = false.
Proof.
  unfold graphic, is_space. intros [H1%N.leb_le H2%N.leb_le]%andb_true_iff.
  apply orb_false_iff; split; [apply andb_false_iff; right; apply N.leb_gt; lia|apply N.eqb_neq; lia].
Qed.

(** ** Trimming *)

(** The text does not begin with a blank. *)
Definition clear (l : list ascii) : Prop := match l with [] => True | c :: _ => is_space c = false end.

Lemma drop_space_clear l : clear l -> drop_space l = l.
Proof. destruct l as [|c l]; [done|]. cbn. by intros ->. Qed.

Lemma clear_app l k : clear l -> l <> [] -> clear (l ++ k).
Proof. by destruct l. Qed.

Lemma graphic_clear s : all_chars graphic s = true -> clear (String.list_ascii_of_string s).
Proof. destruct s as [|c s]; [done|]. intros [Hc _]%andb_true_iff. by apply graphic_space. Qed.

Lemma graphic_rev_clear s : all_chars graphic s = true -> clear (rev (String.list_ascii_of_string s)).
Proof.
  intros Hs. destruct (rev _) as [|c l] eqn:Hr; [done|]. apply graphic_space.
  assert (Hin : c ∈ String.list_ascii_of_string s) by (apply list_elem_of_In, in_rev; rewrite Hr; by left).
  clear Hr. induction s as [|d s IH]; [by apply not_elem_of_nil in Hin|].
  apply andb_true_iff in Hs as [Hd Hs]. apply elem_of_cons in Hin as [->|Hin]; [done|by apply IH].
Qed.

Section trim.
Context `{Ext}.

Lemma TrimSpace_id s : is_ascii s = true -> clear (String.list_ascii_of_string s) ->
  clear (rev (String.list_ascii_of_string s)) -> TrimSpace s = s.
Proof.
  intros Ha Hl Hr. unfold TrimSpace. rewrite Ha, (drop_space_clear (String.list_ascii_of_string s)), drop_space_clear by done.
  by rewrite rev_involutive, String.string_of_list_ascii_of_string.
Qed.

Lemma TrimSpace_graphic s : all_chars graphic s = true -> TrimSpace s = s.
Proof. intros Hs. apply TrimSpace_id; [by apply graphic_ascii|by apply graphic_clear|by apply graphic_rev_clear]. Qed.

(** Any ASCII text between two graphic ones. *)
Lemma TrimSpace_between a s b : is_ascii s = true -> all_chars graphic a = true -> all_chars graphic b = true ->
  a <> "" -> b <> "" -> TrimSpace (a ++ s ++ b) = a ++ s ++ b.
Proof.
  intros Hs Ha Hb Hna Hnb. apply TrimSpace_id.
  - rewrite !is_ascii_app, Hs, !graphic_ascii by done. done.
  - rewrite list_ascii_app. apply clear_app; [by apply graphic_clear|by destruct a].
  - rewrite !list_ascii_app, !rev_app_distr, <- app_assoc. apply clear_app; [by apply graphic_rev_clear|].
    destruct b as [|c b]; [done|]. cbn. by intros [_ ?]%app_eq_nil.
Qed.
End trim.

(** ** Numbers *)

Lemma graphic_pretty_char d : (d < 10)%N -> graphic (pretty_N_char d) = true.
Proof.
  intros Hd. assert (d = 0 \/ d = 1 \/ d = 2 \/ d = 3 \/ d = 4 \/ d = 5 \/ d = 6 \/ d = 7 \/ d = 8 \/ d = 9)%N
    as H by lia. by repeat destruct H as [->|H]; [..|subst].
Qed.

Lemma graphic_pretty_go x s : all_chars graphic s = true -> all_chars graphic (pretty_N_go x s) = true.
Proof.
  revert s. induction (N.lt_wf_0 x) as [x _ IH]; intros s Hs.
  destruct (decide (x = 0)%N) as [->|Hx]; [by rewrite pretty_N_go_0|].
  rewrite pretty_N_go_step by lia. apply IH; [apply N.div_lt; lia|]. cbn.
  by rewrite graphic_pretty_char by (apply N.mod_lt; lia).
Qed.

Lemma itoa_graphic z : all_chars graphic (itoa z) = true.
Proof.
  unfold itoa. destruct z as [|p|p]; [done| |].
  all: unfold pretty, pretty_Z, pretty, pretty_positive, pretty, pretty_N; rewrite decide_False by done.
  - by apply graphic_pretty_go.
  - rewrite all_chars_app. by apply graphic_pretty_go.
Qed.

Lemma digit_value_char d : (d < 10)%N -> digit_value (pretty_N_char d) = Some (Z.of_N d).
Proof.
  intros Hd. assert (d = 0 \/ d = 1 \/ d = 2 \/ d = 3 \/ d = 4 \/ d = 5 \/ d = 6 \/ d = 7 \/ d = 8 \/ d = 9)%N
    as H by lia. by repeat destruct H as [->|H]; [..|subst].
Qed.

Lemma pretty_N_go_app x s1 s2 : (pretty_N_go x s1 ++ s2 = pretty_N_go x (s1 ++ s2))%string.
Proof.
  revert s1. induction (N.lt_wf_0 x) as [x _ IH]; intros s1.
  destruct (decide (x = 0)%N) as [->|Hx]; [by rewrite !pretty_N_go_0|].
  rewrite !(pretty_N_go_step x) by lia. rewrite IH by (apply N.div_lt; lia). done.
Qed.

Lemma pretty_N_go_digit x s : (0 < x)%N -> exists c s', pretty_N_go x s = String c s' /\
  exists v, digit_value c = Some v.
Proof.
  revert s. induction (N.lt_wf_0 x) as [x _ IH]; intros s Hx. rewrite pretty_N_go_step by done.
  destruct (decide (x / 10 = 0)%N) as [->|Hd].
  - rewrite pretty_N_go_0. eexists _, _. split; [done|]. eexists. apply digit_value_char, N.mod_lt. lia.
  - apply IH; [by apply N.div_lt|by apply N.neq_0_lt_0].
Qed.

Lemma itoa_pos z : 0 < z -> itoa z = pretty_N_go (Z.to_N z) "".
Proof.
  intros Hz. destruct z as [|p|p]; [lia| |lia].
  unfold itoa, pretty, pretty_Z, pretty, pretty_positive, pretty, pretty_N. by rewrite decide_False.
Qed.

(** ** Base64 *)

Lemma encode_char_graphic e k : (k < 64)%N -> graphic (encode_char e k) = true.
Proof.
  intros Hk. destruct k as [|p]; [by destruct e|].
  do 6 (destruct p as [p|p|]; try (by destruct e); try lia).
Qed.

Lemma EncodeToString_graphic e l : all_chars graphic (EncodeToString e l) = true.
Proof.
  induction l as [| a | a b | a b c l IH] using triple_ind; [done|..].
  - destruct (sextet_bounds _ 0 0 (to_N_lt a)) as (?&?&?&?); [lia|lia|].
    cbn [EncodeToString all_chars]. rewrite !encode_char_graphic by done. by destruct e.
  - destruct (sextet_bounds _ _ 0 (to_N_lt a) (to_N_lt b)) as (?&?&?&?); [lia|].
    cbn [EncodeToString all_chars]. rewrite !encode_char_graphic by done. by destruct e.
  - destruct (sextet_bounds _ _ _ (to_N_lt a) (to_N_lt b) (to_N_lt c)) as (?&?&?&?).
    cbn [EncodeToString all_chars]. rewrite !encode_char_graphic by done. by rewrite IH.
Qed.

Lemma EncodeToString_length e l : (4 * length l <= 3 * String.length (EncodeToString e l))%nat.
Proof.
  induction l as [| a | a b | a b c l IH] using triple_ind; [done|..].
  - destruct e; cbn; lia.
  - destruct e; cbn; lia.
  - cbn [EncodeToString String.length length]. lia.
Qed.

(** ** Cutting *)

Lemma cut_app c a b : cut c a = None -> cut c (a ++ String c b) = Some (a, b).
Proof.
  induction a as [|d a IH]; rewrite ?string_app_nil, ?string_app_cons; cbn [cut]; [by rewrite decide_True|].
  destruct (decide (d = c)); [done|]. destruct (cut c a) as [[? ?]|]; [done|]. intros _. by rewrite IH.
Qed.

Lemma cut_Some c s a b : cut c s = Some (a, b) -> s = a ++ String c b.
Proof.
  revert a. induction s as [|d s IH]; intros a; [done|]. cbn [cut]. case_decide as Hd.
  - intros [= <- <-]. by subst.
  - destruct (cut c s) as [[a' b']|]; [|done]. intros [= <- <-]. rewrite string_app_cons. f_equal. by apply IH.
Qed.

(** ** Splitting *)

Fixpoint no_char (c : ascii) (s : string) : bool :=
  match s with
  | EmptyString => true
  | String c' s' => if ascii_dec c' c then false else no_char c s'
  end.

Lemma no_char_app c s t : no_char c (s ++ t) = no_char c s && no_char c t.
Proof.
  induction s as [|c' s IH]; [done|]. rewrite string_app_cons. simpl. by destruct (ascii_dec c' c).
Qed.

Lemma split_on_app c s t : no_char c s = true -> split_on c (s ++ String c t) = s :: split_on c t.
Proof.
  induction s as [|c' s IH]; [rewrite string_app_nil; simpl|rewrite string_app_cons; simpl].
  - by destruct (ascii_dec c c).
  - destruct (ascii_dec c' c); [done|]. intros Hs. by rewrite IH.
Qed.

Lemma split_on_last c s : no_char c s = true -> split_on c s = [s].
Proof.
  induction s as [|c' s IH]; simpl; [done|]. destruct (ascii_dec c' c); [done|]. intros Hs. by rewrite IH.
Qed.

Lemma split_on_nonempty c s : split_on c s <> [].
Proof. destruct s as [|d s]; cbn; [done|]. destruct (ascii_dec d c); [done|]. by destruct (split_on c s). Qed.

(** The last part is what follows the last separator. *)
Lemma split_on_tail c s t : no_char c t = true -> exists p ps, split_on c (s ++ String c t) = p :: ps ++ [t].
Proof.
  intros Ht. induction s as [|d s (p & ps & IH)]; [rewrite string_app_nil|rewrite string_app_cons]; cbn [split_on].
  - destruct (ascii_dec c c); [|done]. rewrite split_on_last by done. by exists "", [].
  - rewrite IH. destruct (ascii_dec d c); [by exists "", (p :: ps)|by exists (String d p), ps].
Qed.

Lemma split_on_no_char c s : Forall (fun e => no_char c e = true) (split_on c s).
Proof.
  induction s as [|d s IH]; cbn [split_on]; [by constructor|]. destruct (ascii_dec d c) as [|Hd]; [by constructor|].
  destruct (split_on c s) as [|p ps]; [repeat constructor; cbn; by destruct (ascii_dec d c)|].
  inversion IH; subst. constructor; [|done]. cbn. by destruct (ascii_dec d c).
Qed.

(** Splitting undoes joining. *)
Lemma split_on_Join c l : l <> [] -> Forall (fun e => no_char c e = true) l -> split_on c (Join l (String c "")) = l.
Proof.
  intros Hne Hl. induction Hl as [|e l He Hl IH]; [done|]. destruct l as [|e' l]; [by apply split_on_last|].
  unfold Join in *. cbn [String.concat] in *. rewrite string_app_cons, string_app_nil, split_on_app by done. by rewrite IH.
Qed.

(** ** Prefixes *)

Lemma HasPrefix_app p s : HasPrefix (p ++ s) p = true.
Proof.
  induction p as [|c p IH]; [by destruct s|]. rewrite string_app_cons. cbn. destruct (ascii_dec c c); [apply IH|done].
Qed.

Lemma length_app_string a b : String.length (a ++ b) = (String.length a + String.length b)%nat.
Proof. induction a as [|c a IH]; [done|]. rewrite string_app_cons. cbn. by rewrite IH. Qed.

Lemma substring_all s : String.substring 0 (String.length s) s = s.
Proof. induction s as [|c s IH]; [done|]. cbn. by rewrite IH. Qed.

Lemma TrimPrefix_app p s : TrimPrefix (p ++ s) p = s.
Proof.
  unfold TrimPrefix. rewrite HasPrefix_app, length_app_string.
  replace (String.length p + String.length s - String.length p)%nat with (String.length s) by lia.
  induction p as [|c p IH]; [apply substring_all|by rewrite string_app_cons].
Qed.

Lemma HasPrefix_TrimPrefix s p : HasPrefix s p = true -> s = p ++ TrimPrefix s p.
Proof.
  unfold TrimPrefix. intros Hp. rewrite Hp. revert s Hp. induction p as [|c p IH]; intros s Hp.
  - rewrite string_app_nil. cbn [String.length]. by rewrite Nat.sub_0_r, substring_all.
  - destruct s as [|d s]; [done|]. cbn in Hp. destruct (ascii_dec c d) as [<-|]; [|done].
    rewrite string_app_cons. cbn. f_equal. by apply IH.
Qed.
