(* ===== verification/World.v ===== *)
(** * The server's world, statements, transactions and handlers

    A store statement, a transaction and a hub call each happen at one instant
    ([M]): the engine serialises writers, the hub's API takes a channel slot or
    a mutex.  A handler is a program ([prog]) of such instants with pure code in
    between, so that the instants of concurrent requests interleave freely; [run]
    executes one program alone.

    What the environment decides is explicit: the clock, the random source
    ([w_uuid], [w_rand], drawn in order) and, per statement, whether the engine
    fails it ([w_faults], no failure once the list is exhausted).  [w_kdf] records
    what nobody reads but everybody who can time an answer sees: the computations
    of Argon2id that were made. *)

From S2P Require Import Prelude GoTime Models Api Hub.

(** The arguments of a call of [argon2.IDKey] that fix what it costs. *)
Record kdf_call := mkIDKey { ik_time : Z; ik_memory : Z; ik_threads : Z; ik_keyLen : Z }.

Record World := mkWorld {
  w_db : DB;
  w_hub : Hub;
  w_now : time;
  w_uuid : nat -> uuid;
  w_rand : nat -> option bytes;
  w_draws : nat;
  w_faults : list bool;
  w_kdf : list kdf_call
}.

Definition set_db (v : DB) (w : World) : World :=
  mkWorld v (w_hub w) (w_now w) (w_uuid w) (w_rand w) (w_draws w) (w_faults w) (w_kdf w).
Definition set_hub (v : Hub) (w : World) : World :=
  mkWorld (w_db w) v (w_now w) (w_uuid w) (w_rand w) (w_draws w) (w_faults w) (w_kdf w).
Definition set_now (v : time) (w : World) : World :=
  mkWorld (w_db w) (w_hub w) v (w_uuid w) (w_rand w) (w_draws w) (w_faults w) (w_kdf w).
Definition set_draws (v : nat) (w : World) : World :=
  mkWorld (w_db w) (w_hub w) (w_now w) (w_uuid w) (w_rand w) v (w_faults w) (w_kdf w).
Definition set_faults (v : list bool) (w : World) : World :=
  mkWorld (w_db w) (w_hub w) (w_now w) (w_uuid w) (w_rand w) (w_draws w) v (w_kdf w).
Definition set_kdf (v : list kdf_call) (w : World) : World :=
  mkWorld (w_db w) (w_hub w) (w_now w) (w_uuid w) (w_rand w) (w_draws w) (w_faults w) v.

(** ** Statements *)

Definition M (A : Type) : Type := World -> result error A * World.

Definition ret {A} (a : A) : M A := fun w => (Ok a, w).
Definition fail {A} (e : error) : M A := fun w => (Err e, w).

Definition M_bind {A B} (m : M A) (k : A -> M B) : M B :=
  fun w => match m w with
           | (Ok a, w') => k a w'
           | (Err e, w') => (Err e, w')
           end.

Notation "'let!' x ':=' m 'in' k" := (M_bind m (fun x => k))
  (at level 200, x pattern, right associativity) : aul_scope.

(** Whether the engine fails the next statement. *)
Definition next_fault (w : World) : bool * World :=
  match w_faults w with
  | [] => (false, w)
  | b :: rest => (b, set_faults rest w)
  end.

(** One statement: an error leaves the tables as they were. *)
Definition sql {A} (f : time -> DB -> result error (A * DB)) : M A :=
  fun w =>
    let '(failed, w1) := next_fault w in
    if failed : bool then (Err ErrDriver, w1) else
    match f (w_now w1) (w_db w1) with
    | Ok (a, db') => (Ok a, set_db db' w1)
    | Err e => (Err e, w1)
    end.

(** A SELECT. *)
Definition query {A} (f : time -> DB -> result error A) : M A :=
  sql (fun now db => match f now db with Ok a => Ok (a, db) | Err e => Err e end).

(** A constraint the engine checks. *)
Definition require {A} (P : Prop) `{Decision P} (k : result error A) : result error A :=
  guard_res (bool_decide P) ErrConstraint k.

(** [QueryRow().Scan()]: the first row, or sql.ErrNoRows. *)
Definition one {R} (l : list R) : result error R :=
  match l with r :: _ => Ok r | [] => Err ErrNoRows end.

(** [uuid.New], and [rand.Read] into a slice of [n] bytes. *)
Definition uuid_New : M uuid := fun w => (Ok (w_uuid w (w_draws w)), set_draws (S (w_draws w)) w).
Definition rand_Read (n : nat) : M bytes :=
  fun w => (match w_rand w (w_draws w) with
            | Some b => Ok (firstn n (b ++ repeat Byte.x00 n))
            | None => Err ErrRandom
            end, set_draws (S (w_draws w)) w).

Definition time_Now : M time := fun w => (Ok (w_now w), w).

(** [Store.WithTx]: begin, the body, commit; any error rolls the tables back.  That a
    failed COMMIT leaves nothing is the engine's contract ([Handles.transactions_end]
    names it).  Every body under src/ returns the error of a statement that fails,
    so that none goes on in a transaction Postgres has aborted
    ([Querier.pg_tx], [QuerierSpec.gives_up]). *)
Definition WithTx {A} (fn : M A) : M A :=
  fun w =>
    let '(failed, w1) := next_fault w in
    if failed : bool then (Err ErrDriver, w1) else
    match fn w1 with
    | (Ok a, w2) =>
        let '(failed', w3) := next_fault w2 in
        if failed' : bool then (Err ErrDriver, set_db (w_db w) w3) else (Ok a, w3)
    | (Err e, w2) => (Err e, set_db (w_db w) w2)
    end.

(** A hub call. *)
Definition hub (f : Hub -> Hub) : M unit := fun w => (Ok tt, set_hub (f (w_hub w)) w).

(** [_ = m]: the error is discarded. *)
Definition ignore {A} (m : M A) : M unit := fun w => (Ok tt, snd (m w)).

(** [if err := m; err != nil { slog.Error(...) }]. *)
Definition try_ {A} (m : M A) : M (result error A) := fun w => let '(r, w') := m w in (Ok r, w').

(** ** Programs *)

Inductive prog (A : Type) : Type :=
| Ret (a : A)
| Act {X : Type} (op : World -> X * World) (k : X -> prog A).
Arguments Ret {A} a.
Arguments Act {A X} op k.

Fixpoint run {A} (p : prog A) (w : World) : A * World :=
  match p with
  | Ret a => (a, w)
  | Act op k => let '(x, w') := op w in run (k x) w'
  end.

Fixpoint prog_bind {A B} (p : prog A) (f : A -> prog B) : prog B :=
  match p with
  | Ret a => f a
  | Act op k => Act op (fun x => prog_bind (k x) f)
  end.

(** [x, err := m; if err != nil { return h(err) }]. *)
Definition attempt {A X} (m : M X) (h : error -> prog A) (k : X -> prog A) : prog A :=
  Act m (fun r => match r with Ok x => k x | Err e => h e end).

Notation "'try!' x ':=' m 'catch' h 'in' k" := (attempt m h (fun x => k))
  (at level 200, x pattern, right associativity) : aul_scope.

(** [if !b { return r }]. *)
Definition check {A} (b : bool) (r : A) (k : prog A) : prog A := if b then k else Ret r.

(** A call whose error is discarded. *)
Definition do_ {A X} (m : M X) (k : prog A) : prog A := Act m (fun _ => k).

Notation "'do!' m ';;' k" := (do_ m k) (at level 200, m at level 99, right associativity) : aul_scope.

(** A pure step that may answer early: [if err != nil { return h(err) }]. *)
Definition decode {A E X} (r : result E X) (h : E -> prog A) (k : X -> prog A) : prog A :=
  match r with Ok x => k x | Err e => h e end.

Notation "'let?' x ':=' r 'catch' h 'in' k" := (decode r h (fun x => k))
  (at level 200, x pattern, right associativity) : aul_scope.

(** ** Invariants of worlds

    [pres I m]: the instant [m] preserves [I].  [ok I p]: every instant of [p]
    preserves [I], in whatever [I]-world it happens, so that programs that are
    [ok] keep [I] under any interleaving. *)
Section invariants.
Context (I : World -> Prop).

Definition pres {X} (op : World -> X * World) : Prop := forall w, I w -> I (snd (op w)).

Fixpoint ok {A} (p : prog A) : Prop :=
  match p with
  | Ret _ => True
  | Act op k => forall w, I w -> I (snd (op w)) /\ ok (k (fst (op w)))
  end.

Lemma run_ok {A} (p : prog A) w : ok p -> I w -> I (snd (run p w)).
Proof.
  revert w. induction p as [a|X op k IH]; intros w; simpl; [done|].
  intros Hok Hw. destruct (Hok w Hw) as [Hw' Hk]. destruct (op w) as [x w']; simpl in *. by apply IH.
Qed.

Lemma ok_bind {A B} (p : prog A) (f : A -> prog B) :
  ok p -> (forall a, ok (f a)) -> ok (prog_bind p f).
Proof.
  intros Hp Hf. induction p as [a|X op k IH]; simpl; [done|].
  intros w Hw. destruct (Hp w Hw). split; [done|]. by apply IH.
Qed.

Lemma ok_attempt {A X} (m : M X) (h : error -> prog A) k :
  pres m -> (forall e, ok (h e)) -> (forall x, ok (k x)) -> ok (attempt m h k).
Proof.
  intros Hm Hh Hk w Hw. split; [by apply Hm|]. by destruct (fst (m w)).
Qed.

Lemma ok_do {A X} (m : M X) (k : prog A) : pres m -> ok k -> ok (do_ m k).
Proof. intros Hm Hk w Hw. split; [by apply Hm|done]. Qed.

Lemma ok_check {A} b (r : A) k : ok k -> ok (check b r k).
Proof. by destruct b. Qed.

Lemma ok_decode {A E X} (r : result E X) (h : E -> prog A) k :
  (forall e, ok (h e)) -> (forall x, ok (k x)) -> ok (decode r h k).
Proof. intros Hh Hk. destruct r; simpl; auto. Qed.

Lemma pres_bind {A B} (m : M A) (k : A -> M B) : pres m -> (forall a, pres (k a)) -> pres (M_bind m k).
Proof.
  intros Hm Hk w Hw. unfold M_bind. specialize (Hm w Hw). destruct (m w) as [[a|e] w']; [|done].
  by apply Hk.
Qed.

Lemma pres_ret {A} (a : A) : pres (ret a).
Proof. by intros w Hw. Qed.

Lemma pres_fail {A} e : pres (@fail A e).
Proof. by intros w Hw. Qed.

Lemma pres_ignore {A} (m : M A) : pres m -> pres (ignore m).
Proof. intros Hm w Hw. by apply Hm. Qed.

Lemma pres_try {A} (m : M A) : pres m -> pres (try_ m).
Proof. intros Hm w Hw. unfold try_. specialize (Hm w Hw). by destruct (m w). Qed.
End invariants.

(** ** Rely and guarantee

    [keeps I R m]: the instant [m] preserves [I] and steps along [R].  [safe I R w0 p]:
    every instant of [p], which has last looked at the world [w0], does so in
    whatever [I]-world the others' steps along [R] have led to, so that what [p] has
    read in [w0] may be used as far as [R] keeps it true. *)
Section rely.
Context (I : World -> Prop) (R : World -> World -> Prop).

Definition keeps {X} (op : World -> X * World) : Prop := forall w, I w -> I (snd (op w)) /\ R w (snd (op w)).

Fixpoint safe {A} (w0 : World) (p : prog A) : Prop :=
  match p with
  | Ret _ => True
  | Act op k => forall w, R w0 w -> I w ->
      I (snd (op w)) /\ R w (snd (op w)) /\ safe (snd (op w)) (k (fst (op w)))
  end.

Lemma safe_act {A X} (m : World -> X * World) (k : X -> prog A) w0 :
  keeps m -> (forall x w, safe w (k x)) -> safe w0 (Act m k).
Proof. intros Hm Hk w _ Hw. destruct (Hm w Hw). auto. Qed.

Lemma safe_attempt {A X} (m : M X) (h : error -> prog A) k w0 :
  keeps m -> (forall e w, safe w (h e)) -> (forall x w, safe w (k x)) -> safe w0 (attempt m h k).
Proof. intros Hm Hh Hk. apply safe_act; [done|]. intros [x|e] w; auto. Qed.

Lemma safe_do {A X} (m : M X) (k : prog A) w0 : keeps m -> (forall w, safe w k) -> safe w0 (do_ m k).
Proof. intros Hm Hk. apply safe_act; auto. Qed.

(** The continuation may use what the answer says of the world it was read in. *)
Lemma safe_read {A X} (m : M X) (h : error -> prog A) k w0 :
  keeps m ->
  (forall w e w', I w -> m w = (Err e, w') -> safe w' (h e)) ->
  (forall w x w', I w -> m w = (Ok x, w') -> safe w' (k x)) -> safe w0 (attempt m h k).
Proof.
  intros Hm Hh Hk w _ Hw. destruct (Hm w Hw) as [Hi Hr]. split; [done|]. split; [done|].
  destruct (m w) as [[x|e] w'] eqn:He; simpl; eauto.
Qed.

(** An instant that is only taken where something known makes it harmless. *)
Lemma safe_given {A X} (m : M X) (h : error -> prog A) k w0 :
  (forall w, R w0 w -> I w -> I (snd (m w)) /\ R w (snd (m w))) ->
  (forall e w, safe w (h e)) -> (forall x w, safe w (k x)) -> safe w0 (attempt m h k).
Proof.
  intros Hm Hh Hk w H0 Hw. destruct (Hm w H0 Hw) as [Hi Hr]. split; [done|]. split; [done|].
  destruct (fst (m w)); auto.
Qed.

Lemma safe_check {A} b (r : A) k w0 : safe w0 k -> safe w0 (check b r k).
Proof. by destruct b. Qed.

Lemma safe_decode {A E X} (r : result E X) (h : E -> prog A) k w0 :
  (forall e, safe w0 (h e)) -> (forall x, safe w0 (k x)) -> safe w0 (decode r h k).
Proof. intros Hh Hk. destruct r; simpl; auto. Qed.

Lemma safe_bind {A B} (p : prog A) (f : A -> prog B) w0 :
  safe w0 p -> (forall a w, safe w (f a)) -> safe w0 (prog_bind p f).
Proof.
  intros Hp Hf. revert w0 Hp. induction p as [a|X op k IH]; intros w0 Hp; simpl; [auto|].
  intros w H0 Hw. destruct (Hp w H0 Hw) as (? & ? & ?). split_and!; auto.
Qed.

Context `{!PreOrder R}.

(** What is known of an older world is known of a later one. *)
Lemma safe_later {A} (p : prog A) w0 w1 : R w0 w1 -> safe w0 p -> safe w1 p.
Proof. intros H01. destruct p; simpl; [done|]. intros Hp w H1. apply Hp. by etrans. Qed.

Lemma keeps_bind {A B} (m : M A) (k : A -> M B) : keeps m -> (forall a, keeps (k a)) -> keeps (M_bind m k).
Proof.
  intros Hm Hk w Hw. unfold M_bind. destruct (Hm w Hw) as [Hi Hr]. destruct (m w) as [[a|e] w']; [|done].
  destruct (Hk a w' Hi). split; [done|]. by etrans.
Qed.

Lemma keeps_ret {A} (a : A) : keeps (ret a).
Proof. by intros w Hw. Qed.

Lemma keeps_fail {A} e : keeps (@fail A e).
Proof. by intros w Hw. Qed.

Lemma keeps_ignore {A} (m : M A) : keeps m -> keeps (ignore m).
Proof. intros Hm w Hw. by apply Hm. Qed.

Lemma keeps_try {A} (m : M A) : keeps m -> keeps (try_ m).
Proof. intros Hm w Hw. unfold try_. specialize (Hm w Hw). by destruct (m w). Qed.
End rely.

(** An invariant of the tables. *)
Definition on_db (J : DB -> Prop) (w : World) : Prop := J (w_db w).

Section db_invariants.
Context (J : DB -> Prop).

Lemma next_fault_db w b w' : next_fault w = (b, w') -> w_db w' = w_db w.
Proof. unfold next_fault. by repeat case_match; intros [= <- <-]. Qed.

Lemma pres_sql {A} (f : time -> DB -> result error (A * DB)) :
  (forall now db a db', J db -> f now db = Ok (a, db') -> J db') -> pres (on_db J) (sql f).
Proof.
  intros Hf w Hw. unfold sql. destruct (next_fault w) as [b w1] eqn:Hn.
  apply next_fault_db in Hn. unfold on_db in *. destruct b; simpl; [by rewrite Hn|].
  destruct (f _ _) as [[a db']|e] eqn:Hfe; simpl; [|by rewrite Hn].
  eapply Hf, Hfe. by rewrite Hn.
Qed.

Lemma pres_query {A} (f : time -> DB -> result error A) : pres (on_db J) (query f).
Proof. apply pres_sql. intros now db a db' Hdb. destruct (f now db); intros ?; by simplify_eq. Qed.

Lemma pres_uuid : pres (on_db J) uuid_New.
Proof. by intros w Hw. Qed.

Lemma pres_rand n : pres (on_db J) (rand_Read n).
Proof. by intros w Hw. Qed.

Lemma pres_now : pres (on_db J) time_Now.
Proof. by intros w Hw. Qed.

Lemma pres_hub f : pres (on_db J) (hub f).
Proof. by intros w Hw. Qed.

(** A transaction's body need only preserve the invariant when it succeeds. *)
Lemma pres_tx {A} (fn : M A) :
  (forall w a w', on_db J w -> fn w = (Ok a, w') -> on_db J w') -> pres (on_db J) (WithTx fn).
Proof.
  intros Hf w Hw. unfold WithTx. destruct (next_fault w) as [b w1] eqn:Hn.
  apply next_fault_db in Hn. unfold on_db in *. destruct b; simpl; [by rewrite Hn|].
  destruct (fn w1) as [[a|e] w2] eqn:Hfn; [|done].
  destruct (next_fault w2) as [b2 w3] eqn:Hn2. apply next_fault_db in Hn2.
  destruct b2; simpl; [done|]. rewrite Hn2. eapply Hf, Hfn. by rewrite Hn.
Qed.
End db_invariants.

Lemma pres_tx_body (J : DB -> Prop) {A} (fn : M A) : pres (on_db J) fn -> pres (on_db J) (WithTx fn).
Proof. intros Hf. apply pres_tx. intros w a w' Hw Hfn. specialize (Hf w Hw). by rewrite Hfn in Hf. Qed.

#[export] Hint Resolve pres_ret pres_fail pres_ignore pres_try pres_query pres_uuid pres_rand pres_now
  pres_hub : aul.

(** Splits a program, or a compound statement, into its instants. *)
Ltac ok_step :=
  lazymatch goal with
  | |- ok _ (Ret _) => exact Logic.I
  | |- ok _ (attempt _ _ _) => apply ok_attempt; [|intros ?|intros ?]
  | |- ok _ (do_ _ _) => apply ok_do
  | |- ok _ (check _ _ _) => apply ok_check
  | |- ok _ (decode _ _ _) => apply ok_decode; [intros ?|intros ?]
  | |- ok _ (prog_bind _ _) => apply ok_bind; [|intros ?]
  | |- ok _ (match ?x with _ => _ end) => destruct x
  | |- ok _ (let _ := _ in _) => cbv zeta
  | |- ok _ _ => first [exact Logic.I | solve [auto with aul]]
  | |- pres _ (M_bind _ _) => apply pres_bind; [|intros ?]
  | |- pres _ (ignore _) => apply pres_ignore
  | |- pres _ (try_ _) => apply pres_try
  | |- pres _ (WithTx _) => apply pres_tx_body
  | |- pres _ (match ?x with _ => _ end) => destruct x
  | |- pres _ _ => first [solve [auto with aul] | apply pres_query]
  end.

Ltac solve_ok := repeat ok_step.

(** ** Transactions *)

(** The tables after an error are the tables before. *)
Lemma WithTx_rollback {A} (fn : M A) w e w' : WithTx fn w = (Err e, w') -> w_db w' = w_db w.
Proof.
  unfold WithTx. destruct (next_fault w) as [b w1] eqn:Hn. apply next_fault_db in Hn.
  destruct b; [intros [= <- <-]; done|]. destruct (fn w1) as [[a|e'] w2]; [|by intros [= <- <-]].
  destruct (next_fault w2) as [b2 w3]. by destruct b2; intros [= <- <-].
Qed.

Lemma sql_error {A} (f : time -> DB -> result error (A * DB)) w e w' :
  sql f w = (Err e, w') -> w_db w' = w_db w.
Proof.
  unfold sql. destruct (next_fault w) as [b w1] eqn:Hn. apply next_fault_db in Hn.
  destruct b; [by intros [= <- <-]|]. destruct (f _ _) as [[a db]|e']; intros ?; by simplify_eq.
Qed.

(** Without injected failures a statement is its effect on the tables. *)
Lemma sql_nofault {A} (f : time -> DB -> result error (A * DB)) w :
  w_faults w = [] ->
  sql f w = match f (w_now w) (w_db w) with
            | Ok (a, db') => (Ok a, set_db db' w)
            | Err e => (Err e, w)
            end.
Proof. intros Hf. unfold sql, next_fault. by rewrite Hf. Qed.

Lemma WithTx_nofault {A} (fn : M A) w :
  w_faults w = [] -> (forall r w', fn w = (r, w') -> w_faults w' = []) ->
  WithTx fn w = match fn w with
                | (Ok a, w2) => (Ok a, w2)
                | (Err e, w2) => (Err e, set_db (w_db w) w2)
                end.
Proof.
  intros Hf Hk. unfold WithTx, next_fault. rewrite Hf.
  destruct (fn w) as [[a|e] w2] eqn:Hfn; [|done]. by rewrite (Hk _ _ eq_refl).
Qed.

(** ** Inversion: what a success says *)

Lemma next_fault_same w b w1 :
  next_fault w = (b, w1) -> w_db w1 = w_db w /\ w_now w1 = w_now w /\ w_hub w1 = w_hub w.
Proof. unfold next_fault. by repeat case_match; intros [= <- <-]. Qed.

Lemma sql_Ok {A} (f : time -> DB -> result error (A * DB)) w a w' :
  sql f w = (Ok a, w') ->
  f (w_now w) (w_db w) = Ok (a, w_db w') /\ w_now w' = w_now w /\ w_hub w' = w_hub w.
Proof.
  unfold sql. destruct (next_fault w) as [b w1] eqn:Hn. apply next_fault_same in Hn as (<- & <- & <-).
  destruct b; [done|]. destruct (f _ _) as [[a' db]|e]; intros ?; by simplify_eq.
Qed.

Lemma query_Ok {A} (f : time -> DB -> result error A) w a w' :
  query f w = (Ok a, w') ->
  f (w_now w) (w_db w) = Ok a /\ w_db w' = w_db w /\ w_now w' = w_now w /\ w_hub w' = w_hub w.
Proof. intros (Hf & Hw)%sql_Ok. destruct (f _ _) as [a'|e]; by simplify_eq. Qed.

Lemma bind_Ok {A B} (m : M A) (k : A -> M B) w b w' :
  M_bind m k w = (Ok b, w') -> exists a w1, m w = (Ok a, w1) /\ k a w1 = (Ok b, w').
Proof. unfold M_bind. destruct (m w) as [[a|e] w1]; [eauto|done]. Qed.

Lemma WithTx_Ok {A} (fn : M A) w a w' :
  WithTx fn w = (Ok a, w') ->
  exists w1 w2, w_db w1 = w_db w /\ w_now w1 = w_now w /\ fn w1 = (Ok a, w2) /\ w_db w' = w_db w2.
Proof.
  unfold WithTx. destruct (next_fault w) as [b w1] eqn:Hn. apply next_fault_same in Hn as (Hd & Ht & _).
  destruct b; [done|]. destruct (fn w1) as [[a'|e] w2] eqn:Hfn; [|done].
  destruct (next_fault w2) as [b2 w3] eqn:Hn2. apply next_fault_same in Hn2 as (Hd2 & _).
  destruct b2; intros ?; simplify_eq. by exists w1, w2.
Qed.

(** Takes apart the success of a compound statement. *)
Ltac inv_ok :=
  repeat match goal with
  | H : M_bind uuid_New _ _ = (Ok _, _) |- _ => cbn [M_bind uuid_New] in H; unfold M_bind, uuid_New in H; cbn in H
  | H : M_bind _ _ _ = (Ok _, _) |- _ => apply bind_Ok in H as (? & ? & ? & ?)
  | H : WithTx _ _ = (Ok _, _) |- _ => apply WithTx_Ok in H as (? & ? & ? & ? & ? & ?)
  | H : sql _ _ = (Ok _, _) |- _ => apply sql_Ok in H as (? & ? & ?)
  | H : ret _ _ = (Ok _, _) |- _ => injection H as ? ?; subst
  end.

(** ** Runs *)

Lemma run_attempt {A X} (m : M X) (h : error -> prog A) k w :
  run (attempt m h k) w = match m w with (Ok x, w') => run (k x) w' | (Err e, w') => run (h e) w' end.
Proof. unfold attempt. simpl. by destruct (m w) as [[x|e] w']. Qed.

Lemma run_do {A X} (m : M X) (k : prog A) w : run (do_ m k) w = run k (snd (m w)).
Proof. unfold do_. simpl. by destruct (m w). Qed.

Lemma run_bind {A B} (p : prog A) (f : A -> prog B) w :
  run (prog_bind p f) w = run (f (fst (run p w))) (snd (run p w)).
Proof.
  revert w. induction p as [a|X op k IH]; intros w; simpl; [done|].
  destruct (op w) as [x w']. apply IH.
Qed.

Lemma query_nofault {A} (f : time -> DB -> result error A) w :
  w_faults w = [] -> query f w = (f (w_now w) (w_db w), w).
Proof.
  intros Hf. unfold query. rewrite sql_nofault by done.
  destruct (f _ _); [|done]. by destruct w.
Qed.

(** A statement takes the next verdict of the engine and nothing else. *)
Lemma sql_faults {A} (f : time -> DB -> result error (A * DB)) w :
  w_faults w = [] -> w_faults (snd (sql f w)) = [].
Proof. intros Hf. rewrite sql_nofault by done. by destruct (f _ _) as [[a db]|e]. Qed.

Lemma query_now {A} (f : time -> DB -> result error A) w :
  w_now (snd (query f w)) = w_now w /\ w_db (snd (query f w)) = w_db w.
Proof.
  unfold query, sql. destruct (next_fault w) as [b w1] eqn:Hn. apply next_fault_same in Hn as (<- & <- & _).
  destruct b; [done|]. by destruct (f _ _).
Qed.

(** A query of a table leaves the world as it is; the first matching row, if any. *)
Lemma set_db_id w : set_db (w_db w) w = w.
Proof. by destruct w. Qed.

(** ** What a statement leaves alone, whatever it answers *)

(** Same hub, same clock, and no failure scheduled where none was. *)
Definition calm (w w' : World) : Prop :=
  w_hub w' = w_hub w /\ w_now w' = w_now w /\ (w_faults w = [] -> w_faults w' = []).

#[export] Instance calm_preorder : PreOrder calm.
Proof. split; [by intros w|]. intros w1 w2 w3 (Hh & Hn & Hf) (Hh' & Hn' & Hf'). repeat split; [congruence..|auto]. Qed.

Lemma next_fault_calm w b w1 : next_fault w = (b, w1) -> calm w w1 /\ w_db w1 = w_db w.
Proof. unfold next_fault. repeat case_match; intros [= <- <-]; repeat split; try done. intros Hf. congruence. Qed.

(** Every outcome of a statement: a failure changes nothing. *)
Lemma sql_cases {A} (f : time -> DB -> result error (A * DB)) w r w' :
  sql f w = (r, w') -> calm w w' /\
  match r with
  | Ok a => f (w_now w) (w_db w) = Ok (a, w_db w')
  | Err e => w_db w' = w_db w /\ (e = ErrDriver \/ f (w_now w) (w_db w) = Err e)
  end.
Proof.
  unfold sql. destruct (next_fault w) as [b w1] eqn:Hn. apply next_fault_calm in Hn as [Hc Hd].
  pose proof Hc as (_ & Hnow & _). rewrite Hnow, Hd. destruct b; [intros [= <- <-]; auto|].
  destruct (f _ _) as [[a db]|e]; intros [= <- <-]; auto.
Qed.

Lemma query_cases {A} (f : time -> DB -> result error A) w r w' :
  query f w = (r, w') -> calm w w' /\ w_db w' = w_db w /\
  match r with
  | Ok a => f (w_now w) (w_db w) = Ok a
  | Err e => e = ErrDriver \/ f (w_now w) (w_db w) = Err e
  end.
Proof.
  intros (Hc & Hr)%sql_cases. split; [done|]. destruct (f _ _) as [a'|e'], r as [a|e]; naive_solver.
Qed.

(** Every outcome of a transaction. *)
Lemma WithTx_cases {A} (fn : M A) w r w' :
  (forall w1 r1 w2, fn w1 = (r1, w2) -> calm w1 w2) -> WithTx fn w = (r, w') -> calm w w' /\
  match r with
  | Ok a => exists w1 w2, calm w w1 /\ w_db w1 = w_db w /\ fn w1 = (Ok a, w2) /\ w_db w' = w_db w2
  | Err e => w_db w' = w_db w
  end.
Proof.
  intros Hfn. unfold WithTx. destruct (next_fault w) as [b w1] eqn:Hn.
  apply next_fault_calm in Hn as [Hc Hd]. destruct b; [intros [= <- <-]; auto|].
  destruct (fn w1) as [[a|e] w2] eqn:Hf; pose proof (Hfn _ _ _ Hf) as Hc2.
  - destruct (next_fault w2) as [b2 w3] eqn:Hn2. apply next_fault_calm in Hn2 as [Hc3 Hd3].
    assert (calm w w3) by (by etrans; [|etrans]). destruct b2; intros [= <- <-]; [done|].
    split; [done|]. by exists w1, w2.
  - intros [= <- <-]. split; [|done]. by etrans.
Qed.
