(* ===== verification/Demo.v ===== *)
(** * A concrete environment, for examples

    Executable stand-ins for the code outside the repository, a configuration and
    an empty world.  No theorem depends on them; the examples evaluate in them. *)

From S2P Require Import Prelude GoTime Models Api Ext Net Text Hub World.
Local Open Scope Z_scope.

Definition hex_value (c : ascii) : option N :=
  let n := N_of_ascii c in
  if ((48 <=? n) && (n <=? 57))%N then Some (n - 48)%N
  else if ((97 <=? n) && (n <=? 102))%N then Some (n - 87)%N else None.

Fixpoint read_hex (acc : N) (l : list ascii) : option N :=
  match l with
  | [] => Some acc
  | c :: l' => match hex_value c with Some d => read_hex (acc * 16 + d)%N l' | None => None end
  end.

(** The canonical form of a UUID. *)
Definition demo_uuid_Parse (s : string) : option uuid :=
  let l := List.filter (fun c => negb (N_of_ascii c =? 45)%N) (String.list_ascii_of_string s) in
  if bool_decide (length l = 32)%nat then read_hex 0 l else None.

(** Durations of the form 15m. *)
Definition demo_ParseDuration (s : string) : option duration :=
  match read_digits (String.length s - 1) 0 s with
  | Some (n, unit) => if bool_decide (unit = "m"%string) then Some (n * Minute) else None
  | None => None
  end.

(** URLs of the form scheme://host, no path, no blanks. *)
Definition demo_url_Parse (s : string) : option URL :=
  if negb (all_chars graphic s) then None else
  match cut ":" s with
  | Some (scheme, rest) =>
      let host := String.substring 2 (String.length rest) rest in
      Some (if bool_decide (rest = "//" ++ host)%string then mkURL scheme host else mkURL "" "")
  | None => Some (mkURL "" "")
  end.

(** Argon2id's stand-in: the password and the salt, padded or cut to the key's length. *)
#[export] Instance demo_ext : Ext := {|
  uuid_Parse := demo_uuid_Parse;
  mail_ParseAddress s := Some s;
  time_Parse_RFC3339 := parseTime;
  time_ParseDuration := demo_ParseDuration;
  url_Parse := demo_url_Parse;
  url_String u := (url_Scheme u ++ "://" ++ url_Host u)%string;
  json_serviceAccount b := Some (mk_serviceAccount "service_account" (string_of_list_byte b) "c" "k");
  unicode_ToLower s := s;
  unicode_TrimSpace s := s;
  argon2_IDKey pw salt _ _ _ n := firstn (Z.to_nat n) (pw ++ salt ++ repeat Byte.x00 (Z.to_nat n)) |}.

Definition demo_cfg : Config :=
  mkConfig "production" ":8080" (Some (mkURL "https" "aul.example.com")) "sqlite:aul.db" "sqlite"
    (list_byte_of_string "pepper") true false false true true true "" "" 0 30 90 6 "" "" "" "" "" []
    (15 * Minute) (30 * Day) (2 ^ 20) (30 * Second) (20 * Second) 10 20 120.

(** 2024-01-01T00:00:00Z; ids 1, 2, 3, ...; tokens of one repeated byte. *)
Definition demo_now : time := 1704067200 * Second.

Definition demo_byte (n : nat) : byte := default Byte.x00 (Byte.of_N (N.of_nat n)).

Definition demo_world : World :=
  mkWorld empty_db NewHub demo_now (fun n => N.of_nat (S n)) (fun n => Some (repeat (demo_byte n) 32)) 0 [] [].

(** The text of the id [n], for small [n]. *)
Definition demo_id (n : nat) : string :=
  ("00000000-0000-0000-0000-0000000000" ++ (if (n <? 10)%nat then "0" ++ itoa (Z.of_nat n) else itoa (Z.of_nat n)))%string.
