(* ===== verification/ConfigSpec.v ===== *)
(** * A configuration that loads is usable

    [LoadFrom] only answers [Ok] when nothing was logged; [logs] lets each
    setting be reasoned about on its own. *)

From S2P Require Import Prelude GoTime Base64 Models Api Ext World Demo Config.
Local Open Scope string_scope.
Local Open Scope Z_scope.
Local Open Scope aul_scope.

(** What the server relies on. *)
Record config_ok (c : Config) : Prop := {
  ok_env : cfg_Env c = EnvProduction \/ cfg_Env c = EnvDevelopment;
  ok_origin : exists u, cfg_PublicOrigin c = Some u /\ url_Scheme u <> "" /\ url_Host u <> "" /\
    (cfg_Env c = EnvProduction -> url_Scheme u = "https") /\
    (cfg_SecureCookies c = true -> url_Scheme u = "https");
  ok_database : cfg_DatabaseURL c <> "" /\ (cfg_DBBackend c = BackendPostgres \/ cfg_DBBackend c = BackendSQLite);
  ok_pepper : 16 <= len (cfg_SessionPepper c);
  ok_ip_log : 0 <= cfg_IPLogRetentionDays c <= 3650;
  ok_retention : 1 <= cfg_DefaultRetentionDays c <= cfg_MaxRetentionDays c /\ cfg_MaxRetentionDays c <= 3650;
  ok_ping_hours : 1 <= cfg_PingRetentionHours c <= 168;
  ok_lifetimes : 0 < cfg_AccessTTL c /\ 0 < cfg_RefreshTTL c /\ 0 < cfg_RequestTimeout c /\ 0 < cfg_ShutdownTimeout c;
  ok_limits : 1024 <= cfg_BodyLimitBytes c <= 2 ^ 26 /\ 1 <= cfg_AuthRatePerMin c <= 100000 /\
    1 <= cfg_InvitesRatePerHr c <= 100000 /\ 1 <= cfg_PingRatePerMin c <= 100000;
  ok_push : if PushEnabled c
    then vapidKeyLen (cfg_VAPIDPublicKey c) = Some 65 /\ vapidKeyLen (cfg_VAPIDPrivateKey c) = Some 32 /\
      (HasPrefix (cfg_VAPIDSubject c) "mailto:" = true \/ HasPrefix (cfg_VAPIDSubject c) "https:" = true)
    else cfg_VAPIDPublicKey c = "" /\ cfg_VAPIDPrivateKey c = "";
  ok_fcm : FCMEnabled c = true -> cfg_FCMProjectID c <> "" /\ cfg_FCMServiceAccountFile c <> ""
}.

(** A production environment, and one with three mistakes. *)
Definition env_of (l : list (string * string)) (key : string) : string :=
  match filter (fun kv => kv.1 = key) l with kv :: _ => kv.2 | [] => "" end.

Definition base_prod : list (string * string) :=
  [("AUL_ENV", "production"); ("PUBLIC_ORIGIN", "https://aul.example.com");
   ("DATABASE_URL", "postgres://u:p@db:5432/aul"); ("SESSION_HASH_PEPPER", "a-sufficiently-long-pepper-value")].

Definition no_file (path : string) : result string bytes := Err "no such file".

Example three_mistakes :
  LoadFrom (env_of [("PUBLIC_ORIGIN", "http://aul.example.com"); ("DATABASE_URL", "aul.db"); ("SESSION_HASH_PEPPER", "short");
    ("PING_RETENTION_HOURS", "169"); ("SECURE_COOKIES", "false")]) no_file =
  Err ("invalid configuration:" ++ newline ++ "  - PUBLIC_ORIGIN must use https in production" ++
    newline ++ "  - SESSION_HASH_PEPPER must be at least 16 bytes of entropy" ++
    newline ++ "  - PING_RETENTION_HOURS must be between 1 and 168").
Proof. vm_compute. reflexivity. Qed.

Lemma len_bytes s : len (list_byte_of_string s) = str_len s.
Proof.
  unfold len, str_len, list_byte_of_string. rewrite List.length_map. f_equal.
  induction s as [|c s IH]; [done|]. cbn. by rewrite IH.
Qed.

(** ** The log *)

(** A getter appends to the log and does not look at it. *)
Definition logs {A} (m : W A) : Prop := forall errs, m errs = (fst (m []), (errs ++ snd (m []))%list).

Lemma logs_pure {A} (a : A) : logs (pure a).
Proof. intros errs. unfold pure. cbn. by rewrite app_nil_r. Qed.

Lemma logs_fail msg : logs (fail_ msg).
Proof. by intros errs. Qed.

Lemma logs_bind {A B} (m : W A) (k : A -> W B) : logs m -> (forall a, logs (k a)) -> logs (W_bind m k).
Proof.
  intros Hm Hk errs. unfold W_bind. rewrite (Hm errs). destruct (m []) as [a l]. cbn [fst snd].
  rewrite (Hk a (errs ++ l)%list), (Hk a l). destruct (k a []) as [b l']. cbn. by rewrite app_assoc.
Qed.

(** Nothing logged by the whole: nothing logged by the parts. *)
Lemma quiet_bind {A B} (m : W A) (k : A -> W B) b : logs m -> (forall a, logs (k a)) -> W_bind m k [] = (b, []) ->
  exists a, m [] = (a, []) /\ k a [] = (b, []).
Proof.
  intros Hm Hk. unfold W_bind. destruct (m []) as [a l]. rewrite (Hk a l). destruct (k a []) as [b' l'] eqn:Hka. cbn.
  intros [= -> Hl]. apply app_eq_nil in Hl as [-> ->]. by exists a.
Qed.

Lemma quiet_fail_if b msg a : fail_if b msg [] = (a, []) -> b = false.
Proof. by destruct b. Qed.

Ltac head_of t := lazymatch t with ?f _ => head_of f | _ => t end.

Ltac logs_step :=
  lazymatch goal with
  | |- logs (pure _) => apply logs_pure
  | |- logs (fail_ _) => apply logs_fail
  | |- logs (fail_if ?b _) => destruct b; cbn [fail_if]
  | |- logs (W_bind _ _) => apply logs_bind; [|intros ?]
  | |- logs (let _ := _ in _) => cbv zeta
  | |- logs (match ?x with _ => _ end) => destruct x
  | |- logs ?m => let f := head_of m in unfold f
  end.

(** Splits a quiet run into its quiet parts. *)
Ltac quiet_step H :=
  let x := fresh "v" in let Hx := fresh "Hv" in
  apply quiet_bind in H as (x & Hx & H); [|repeat logs_step|intros ?; repeat logs_step].

Tactic Notation "quiet" hyp(H) "as" simple_intropattern(x) ident(Hx) :=
  apply quiet_bind in H as (x & Hx & H); [|repeat logs_step|intros ?; repeat logs_step].

Section sound.
Context `{Ext} (getenv : string -> string) (readFile : string -> result string bytes).

Lemma getInt_quiet key def lo hi n : lo <= def <= hi -> getInt getenv key def lo hi [] = (n, []) -> lo <= n <= hi.
Proof.
  intros Hd. unfold getInt. destruct (empty _); [by intros [= <-]|]. destruct (Atoi _) as [v|]; [|done].
  destruct ((v <? lo) || (hi <? v)) eqn:Hb; [done|]. intros [= <-]. apply orb_false_iff in Hb as [?%Z.ltb_ge ?%Z.ltb_ge]. lia.
Qed.

Lemma getDuration_quiet key def d : 0 < def -> getDuration getenv key def [] = (d, []) -> 0 < d.
Proof.
  intros Hd. unfold getDuration. destruct (empty _); [by intros [= <-]|]. destruct (time_ParseDuration _) as [v|]; [|done].
  destruct (v <=? 0) eqn:Hb; [done|]. intros [= <-]. by apply Z.leb_gt in Hb.
Qed.

Lemma load_env_quiet v : load_env getenv [] = (v, []) -> v = EnvProduction \/ v = EnvDevelopment.
Proof. unfold load_env. repeat case_bool_decide; [intros [= <-]; auto..|done]. Qed.

Lemma load_origin_quiet dev o : load_origin getenv dev [] = (o, []) ->
  exists u, o = Some u /\ url_Scheme u <> "" /\ url_Host u <> "" /\ (dev = false -> url_Scheme u = "https").
Proof.
  unfold load_origin. intros Hl. quiet_step Hl. destruct (empty v) eqn:Hev.
  - exfalso. apply empty_true in Hev as ->. destruct (empty _) eqn:Hr; [by destruct dev|]. injection Hv as Hv.
    by apply empty_false in Hr.
  - destruct (url_Parse v) as [u|]; [|done]. destruct (empty (url_Scheme u) || _) eqn:Hb; [done|].
    apply orb_false_iff in Hb as [Hs%empty_false Hh%empty_false]. quiet_step Hl. apply quiet_fail_if in Hv0.
    injection Hl as <-. exists u. repeat (split; [done|]). intros ->. cbn in Hv0.
    apply negb_false_iff, bool_decide_eq_true in Hv0. done.
Qed.

Lemma load_pepper_quiet dev p : load_pepper getenv dev [] = (p, []) -> 16 <= str_len p.
Proof.
  unfold load_pepper. destruct (empty _ && dev); [by intros [= <-]|]. destruct (empty _) eqn:He; [done|]. intros Hl.
  quiet_step Hl. apply quiet_fail_if, Z.ltb_ge in Hv. by injection Hl as <-.
Qed.

Lemma load_backend_quiet url b : load_backend getenv url [] = (b, []) -> b = BackendPostgres \/ b = BackendSQLite.
Proof.
  unfold load_backend, detectDBBackend.
  repeat match goal with |- context [if ?x then _ else _] => destruct x end; try done; intros [= <-]; auto.
Qed.

Lemma loadVAPID_quiet o pub priv subj : loadVAPID getenv o [] = ((pub, priv, subj), []) ->
  (pub = "" /\ priv = "") \/
  (pub <> "" /\ priv <> "" /\ vapidKeyLen pub = Some 65 /\ vapidKeyLen priv = Some 32 /\
   (HasPrefix subj "mailto:" = true \/ HasPrefix subj "https:" = true)).
Proof.
  unfold loadVAPID. set (p := TrimSpace (getenv "VAPID_PUBLIC_KEY")). set (q := TrimSpace (getenv "VAPID_PRIVATE_KEY")).
  cbv zeta. destruct (empty p) eqn:Hp, (empty q) eqn:Hq; cbn [andb negb].
  { intros [= <- <- _]. left. by split; apply empty_true. }
  1, 2: intros Hl; by quiet_step Hl.
  intros Hl. quiet_step Hl.
  quiet_step Hl. quiet_step Hl. quiet_step Hl. injection Hl as <- <- <-.
  apply quiet_fail_if, negb_false_iff, bool_decide_eq_true in Hv0. apply quiet_fail_if, negb_false_iff, bool_decide_eq_true in Hv1.
  right. split; [by apply empty_false|]. split; [by apply empty_false|]. split; [done|]. split; [done|].
  match type of Hv2 with (if empty ?s then _ else _) _ = _ => destruct (empty s); [done|] end.
  apply quiet_fail_if, andb_false_iff in Hv2 as [?%negb_false_iff|?%negb_false_iff]; auto.
Qed.

Lemma loadFCM_quiet file project json : loadFCM getenv readFile [] = ((file, project, json), []) ->
  0 < len json -> project <> "" /\ file <> "".
Proof.
  unfold loadFCM. destruct (empty _) eqn:Hp; [by intros [= _ _ <-]|]. apply empty_false in Hp.
  destruct (readFile _) as [raw|e]; [|done]. destruct (json_serviceAccount raw) as [sa|]; [|done].
  destruct (negb _); [done|]. destruct (empty (sa_ProjectID sa)) eqn:Hpr; [done|]. apply empty_false in Hpr.
  destruct (empty _); [done|]. destruct (empty _); [done|]. by intros [= <- <- <-].
Qed.
End sound.

(** C33: a configuration the server boots with is one it can rely on, whatever the
    environment: the origin is an absolute URL, over https in production and
    whenever cookies are secure; the pepper has at least 16 bytes; every number
    is in its documented range and every lifetime positive; push is either off
    or configured with keys of the right lengths and a contact URI. *)
Theorem LoadFrom_sound `{Ext} getenv readFile c : LoadFrom getenv readFile = Ok c -> config_ok c.
Proof.
  unfold LoadFrom. destruct (load getenv readFile []) as [c0 errs] eqn:Hl. destruct errs; [|done]. intros [= ->].
  unfold load in Hl. quiet Hl as env Henv. quiet Hl as origin Horigin. quiet Hl as u0 Hurl. quiet Hl as backend Hback.
  quiet Hl as pepper Hpepper. quiet Hl as ipLog Hip. quiet Hl as defR Hdef. quiet Hl as maxR Hmax. quiet Hl as u1 Hle.
  quiet Hl as hours Hhours. quiet Hl as [[vpub vpriv] vsubj] Hvapid. quiet Hl as [[file project] json] Hfcm.
  quiet Hl as access Ha. quiet Hl as refresh Hrf. quiet Hl as request Hrq. quiet Hl as shutdown Hsd.
  quiet Hl as body Hbody. quiet Hl as authRate Har. quiet Hl as invRate Hir. quiet Hl as pingRate Hpr.
  quiet Hl as u2 Hcookie. injection Hl as <-.
  apply load_env_quiet in Henv. apply load_origin_quiet in Horigin as (u & -> & Hs & Hh & Hdev).
  apply quiet_fail_if, empty_false in Hurl. apply load_backend_quiet in Hback. apply load_pepper_quiet in Hpepper.
  apply getInt_quiet in Hip; [|lia]. apply getInt_quiet in Hdef; [|lia]. apply getInt_quiet in Hmax; [|lia].
  apply quiet_fail_if, Z.ltb_ge in Hle. apply getInt_quiet in Hhours; [|lia].
  apply getDuration_quiet in Ha, Hrf, Hrq, Hsd; [|done..].
  apply getInt_quiet in Hbody, Har, Hir, Hpr; [|lia..].
  apply quiet_fail_if in Hcookie. unfold cookieSecureButInsecureOrigin in Hcookie.
  cbn [cfg_SecureCookies cfg_PublicOrigin] in Hcookie.
  split; cbn; try done; try lia.
  - exists u. split; [done|]. split; [done|]. split; [done|]. split.
    + intros ->. by apply Hdev.
    + intros Hsec. rewrite Hsec in Hcookie. cbn in Hcookie. by apply negb_false_iff, bool_decide_eq_true in Hcookie.
  - by rewrite len_bytes.
  - apply loadVAPID_quiet in Hvapid as [[-> ->]|(Hp & Hq & Hk)]; [done|]. unfold PushEnabled. cbn.
    unfold empty. rewrite !bool_decide_eq_false_2 by done. done.
  - unfold FCMEnabled. cbn. intros Hj%Z.ltb_lt. by eapply loadFCM_quiet.
Qed.

Lemma LoadFrom_sound_witness : exists c, LoadFrom (env_of base_prod) no_file = Ok c /\ config_ok c.
Proof.
  destruct (LoadFrom (env_of base_prod) no_file) as [c|e] eqn:Hl; [|vm_compute in Hl; discriminate Hl].
  exists c. split; [reflexivity|]. exact (@LoadFrom_sound demo_ext _ _ _ Hl).
Defined.
