(* ===== verification/Launcher.v ===== *)
(** * The launcher (internal/launcher)

    The desktop launcher works out the public origin, provisions the session
    pepper, composes the environment of the server process and keeps it running.
    What it asks of the machine is a parameter: the parsed answers of the
    tailscale commands, the contents of its files, and, for the supervisor, what
    becomes of each child. *)

From S2P Require Import Prelude GoTime Base64 Models Api Ext Net Config.
Local Open Scope string_scope.
Local Open Scope Z_scope.

(** ** env.go *)

Fixpoint insert_string (x : string) (l : list string) : list string :=
  match l with
  | [] => [x]
  | y :: l' => match String.compare x y with Gt => y :: insert_string x l' | _ => x :: l end
  end.

(** [sort.Strings]. *)
Definition sort_strings (l : list string) : list string := foldr insert_string [] l.

(** [strings.Cut(kv, "=")] names an overridden key. *)
Definition overridden (overrides : gmap string string) (kv : string) : bool :=
  match cut "=" kv with
  | Some (key, _) => bool_decide (is_Some (overrides !! key))
  | None => false
  end.

Definition mergeEnv (base : list string) (overrides : gmap string string) : list string :=
  (List.filter (fun kv => negb (overridden overrides kv)) base ++
   ((fun k => (k ++ "=" ++ default "" (overrides !! k))%string) <$> sort_strings (elements (dom overrides))))%list.

Fixpoint firstNonEmpty `{Ext} (vals : list string) : string :=
  match vals with
  | [] => ""
  | v :: rest => let t := TrimSpace v in if empty t then firstNonEmpty rest else t
  end.

(** ** origin.go *)

Record resolved := mk_resolved {
  re_Origin : string; re_Env : string; re_SecureCookies : bool; re_BindPort : Z; re_Source : string }.

Record funnelResult := mk_funnelResult { fu_Origin : string; fu_BindPort : string }.

Definition sourceFlag : string := "flag".
Definition sourceFunnel : string := "funnel".
Definition sourceLocalhost : string := "localhost".

Definition classifyOrigin (scheme : string) : string * bool :=
  if bool_decide (scheme = "https") then ("production", true) else ("development", false).

Definition originString `{Ext} (u : URL) : string := url_String (mkURL (url_Scheme u) (url_Host u)).

(** [detect] is what [FunnelOrigin] answers; the error is the invalid origin. *)
Definition resolveOrigin `{Ext} (opt_Origin : string) (opt_Port : Z) (detect : option funnelResult) : result string resolved :=
  if negb (empty opt_Origin) then
    match url_Parse opt_Origin with
    | Some u =>
        if empty (url_Host u) || negb (bool_decide (url_Scheme u = "http") || bool_decide (url_Scheme u = "https"))
        then Err opt_Origin else
        let '(env, secure) := classifyOrigin (url_Scheme u) in
        Ok (mk_resolved (originString u) env secure opt_Port sourceFlag)
    | None => Err opt_Origin
    end
  else
    match detect with
    | Some fr =>
        let '(env, secure) := classifyOrigin "https" in
        let port := if empty (fu_BindPort fr) then opt_Port else default opt_Port (Atoi (fu_BindPort fr)) in
        Ok (mk_resolved (fu_Origin fr) env secure port sourceFunnel)
    | None =>
        let '(env, secure) := classifyOrigin "http" in
        Ok (mk_resolved ("http://localhost:" ++ itoa opt_Port) env secure opt_Port sourceLocalhost)
    end.

(** The environment of the child: the operator's, with the resolved values on top. *)
Definition composeEnv (base : list string) (res : resolved) (pepper dbPath : string) : list string :=
  mergeEnv base
    (<["PUBLIC_ORIGIN" := re_Origin res]>
      (<["AUL_ENV" := re_Env res]>
        (<["SECURE_COOKIES" := if re_SecureCookies res then "true" else "false"]>
          (<["DATABASE_URL" := "sqlite:" ++ dbPath]>
            (<["SESSION_HASH_PEPPER" := pepper]>
              (<["RUN_MIGRATIONS" := "true"]>
                (<["HTTP_ADDR" := "127.0.0.1:" ++ itoa (re_BindPort res)]> ∅))))))).

(** ** funnel.go *)

(** The maps of a serve configuration, in the order they are iterated. *)
Inductive serveConfig := mk_serveConfig {
  sc_TCP : list (string * bool);
  sc_Web : list (string * list (string * string));
  sc_AllowFunnel : list (string * bool);
  sc_Foreground : list (string * option serveConfig) }.

Fixpoint assoc {A} (key : string) (l : list (string * A)) : option A :=
  match l with [] => None | (k, v) :: l' => if decide (k = key) then Some v else assoc key l' end.

(** [strings.EqualFold] of ASCII texts. *)
Definition EqualFold (a b : string) : bool := bool_decide (lower_ascii a = lower_ascii b).

Definition firstProxy (handlers : list (string * string)) : string :=
  match List.filter (fun p => negb (empty (default "" (assoc p handlers)))) (sort_strings (fst <$> handlers)) with
  | p :: _ => default "" (assoc p handlers)
  | [] => ""
  end.

(** Whether one HostPort is a live public Funnel of this node. *)
Definition live_funnel (sc : serveConfig) (magic hp : string) : option string :=
  match SplitHostPort hp with
  | None => None
  | Some (host, port) =>
      if negb (EqualFold (TrimSuffix host ".") magic) then None
      else if negb (default false (assoc port (sc_TCP sc))) then None else
      match assoc hp (sc_Web sc) with
      | Some (h :: handlers) => Some (firstProxy (h :: handlers))
      | _ => None
      end
  end.

Fixpoint first_live (sc : serveConfig) (magic : string) (allow : list (string * bool)) : option (string * string) :=
  match allow with
  | [] => None
  | (hp, allowed) :: rest =>
      if allowed : bool then
        match live_funnel sc magic hp with Some proxy => Some (hp, proxy) | None => first_live sc magic rest end
      else first_live sc magic rest
  end.

Definition first_session (search : serveConfig -> option (string * string)) :
    list (string * option serveConfig) -> option (string * string) :=
  fix sessions l :=
    match l with
    | [] => None
    | (_, Some fg) :: rest => match search fg with Some found => Some found | None => sessions rest end
    | (_, None) :: rest => sessions rest
    end.

Fixpoint funnelHostPort (sc : serveConfig) (magic : string) : option (string * string) :=
  match first_live sc magic (sc_AllowFunnel sc) with
  | Some found => Some found
  | None => first_session (fun fg => funnelHostPort fg magic) (sc_Foreground sc)
  end.

Definition funnelOrigin (hostPort : string) : option string :=
  match SplitHostPort hostPort with
  | None => None
  | Some (host, port) =>
      let origin := "https://" ++ TrimSuffix host "." in
      Some (if bool_decide (port = "443") then origin else origin ++ ":" ++ port)
  end.

Definition proxyPort `{Ext} (proxy : string) : string :=
  match url_Parse proxy with Some u => URL_Port u | None => "" end.

Record tsStatus := mk_tsStatus { ts_BackendState : string; ts_DNSName : string }.

(** What the command line and the two commands of tailscale answer to a probe,
    [tsJSON]'s error text when one fails. *)
Record tailscale := mk_tailscale {
  tl_installed : bool;
  tl_status : result string tsStatus;
  tl_serve : result string serveConfig
}.

(** The Funnel found, or the reason there is none.  The text of an error of
    [funnelOrigin], which cannot happen here, is cut short. *)
Definition FunnelOrigin `{Ext} (ts : tailscale) : result string funnelResult :=
  if negb (tl_installed ts) then Err "tailscale CLI not found on PATH" else
  match tl_status ts with
  | Err e => Err ("tailscale status failed: " ++ e)
  | Ok st =>
      if negb (bool_decide (ts_BackendState st = "Running"))
      then Err ("tailscale backend is " ++ quoted (ts_BackendState st) ++ ", not Running") else
      let magic := TrimSuffix (ts_DNSName st) "." in
      if empty magic then Err "tailscale reports no MagicDNS name for this node" else
      match tl_serve ts with
      | Err e => Err ("tailscale serve status failed: " ++ e)
      | Ok sc =>
          match funnelHostPort sc magic with
          | None => Err "no public Funnel is configured for this node"
          | Some (hp, proxy) =>
              match funnelOrigin hp with
              | Some origin => Ok (mk_funnelResult origin (proxyPort proxy))
              | None => Err ("funnel host:port " ++ quoted hp)
              end
          end
      end
  end.

(** [detectFunnel]. *)
Definition detectFunnel `{Ext} (ts : tailscale) : option funnelResult :=
  match FunnelOrigin ts with Ok fr => Some fr | Err _ => None end.

(** ** pepper.go *)

Definition minPepperBytes : Z := 16.

(** The pepper and the file it leaves: [file] is its contents, None when absent;
    [random] the 32 bytes of the random source.  Reading and publishing the file
    are assumed to succeed (an error is returned and nothing is written). *)
Definition provisionPepper `{Ext} (file : option string) (random : bytes) : result string string * option string :=
  match file with
  | Some raw =>
      let pepper := TrimSpace raw in
      (if str_len pepper <? minPepperBytes then Err "too short" else Ok pepper, file)
  | None =>
      let pepper := EncodeToString StdEncoding random in (Ok pepper, Some pepper)
  end.

(** ** supervise.go *)

Record supervisor := mk_supervisor {
  su_minBackoff : duration; su_maxBackoff : duration; su_stableRun : duration; su_stopGrace : duration }.

(** What becomes of one attempt to run the child. *)
Inductive attempt_outcome :=
| StartFailed (slept : bool)          (** could not start; whether the sleep ran out before a shutdown *)
| Cancelled                           (** our own shutdown, while the child runs *)
| ExitedCancelled                     (** the child exited, the context is already cancelled *)
| ExitedCleanly                       (** exit status 0 *)
| Crashed (ran : duration) (slept : bool).

Definition nextBackoff (cur ceil : duration) : duration :=
  let next := Duration_mul cur 2 in if ceil <? next then ceil else next.

Inductive run_result := CtxErr | CleanExit.

(** The loop of [run] over the attempts that happen: the result if it returned,
    the sleeps in order, and the backoff it would use next. *)
Fixpoint supervise (s : supervisor) (backoff : duration) (attempts : list attempt_outcome) :
    option run_result * list duration * duration :=
  match attempts with
  | [] => (None, [], backoff)
  | Cancelled :: _ | ExitedCancelled :: _ => (Some CtxErr, [], backoff)
  | ExitedCleanly :: _ => (Some CleanExit, [], backoff)
  | StartFailed slept :: rest =>
      if negb slept then (Some CtxErr, [backoff], backoff) else
      let '(r, sleeps, b) := supervise s (nextBackoff backoff (su_maxBackoff s)) rest in (r, backoff :: sleeps, b)
  | Crashed ran slept :: rest =>
      let backoff := if su_stableRun s <=? ran then su_minBackoff s else backoff in
      if negb slept then (Some CtxErr, [backoff], backoff) else
      let '(r, sleeps, b) := supervise s (nextBackoff backoff (su_maxBackoff s)) rest in (r, backoff :: sleeps, b)
  end.

Definition run_supervisor (s : supervisor) (attempts : list attempt_outcome) := supervise s (su_minBackoff s) attempts.

(** ** launcher.go *)

(** The supervisor [Run] builds. *)
Definition Run_supervisor : supervisor :=
  mk_supervisor (500 * Millisecond) (30 * Second) (60 * Second) (5 * Second).

Record Options := mk_Options { op_Origin : string; op_Port : Z; op_ReadyTimeout : duration }.

Definition withDefaults (o : Options) : Options :=
  mk_Options (op_Origin o) (if op_Port o =? 0 then 8080 else op_Port o)
    (if op_ReadyTimeout o =? 0 then 60 * Second else op_ReadyTimeout o).

(** What [warnIfOriginChanged] writes to origin.pinned, and whether it warns. *)
Definition warnIfOriginChanged `{Ext} (pinned : option string) (res : resolved) : bool * option string :=
  if negb (bool_decide (re_Source res = sourceFunnel)) then (false, pinned) else
  let cur := re_Origin res in
  match pinned with
  | Some prev =>
      let p := TrimSpace prev in
      if bool_decide (p = cur) then (false, pinned) else (negb (empty p), Some (cur ++ newline))
  | None => (false, Some (cur ++ newline))
  end.

(** The environment [Run] gives the server, from the options, the probe of the
    Funnel, the pepper file and the operator's environment. *)
Definition Run_env `{Ext} (o : Options) (detect : option funnelResult) (pepperFile : option string) (random : bytes)
    (base : list string) (dbPath : string) : result string (list string) :=
  let o := withDefaults o in
  match fst (provisionPepper pepperFile random) with
  | Err e => Err e
  | Ok pepper =>
      match resolveOrigin (op_Origin o) (op_Port o) detect with
      | Err e => Err e
      | Ok res => Ok (composeEnv base res pepper dbPath)
      end
  end.

(** The status label. *)
Definition modeLabel (res : resolved) : string :=
  if bool_decide (re_Source res = sourceFlag) then re_Env res ++ " (explicit origin)"
  else if bool_decide (re_Source res = sourceFunnel) then re_Env res ++ " (Tailscale Funnel)"
  else if bool_decide (re_Source res = sourceLocalhost) then re_Env res ++ " (local)"
  else re_Env res.

(** ** readyz.go *)

(** [waitReady]: a probe at once and one after each tick until the deadline;
    [probes] are their answers in order, [ticks] the ticks before the deadline. *)
Fixpoint waitReady (ticks : nat) (probes : nat -> bool) : bool :=
  if probes O then true else
  match ticks with O => false | S t => waitReady t (fun n => probes (S n)) end.
