(* ===== verification/StoreAccounts.v ===== *)
(** * SQLite statements: accounts (store/sqlite_queries.go)

    Users, devices, sessions, login attempts, the audit log, push subscriptions
    and app versions.  Each definition is one method of [sqliteQueries]: the rows
    the WHERE clause selects, the columns it sets, what RETURNING yields, the
    constraints of the schema it can violate, and the foreign-key actions it
    sets off. *)

From S2P Require Import Prelude Table GoTime Models Api Hub World.
Local Open Scope Z_scope.
Local Open Scope aul_scope.

(** COLLATE NOCASE compares with ASCII letters folded. *)
Definition ascii_lower (c : ascii) : ascii :=
  let n := N_of_ascii c in if ((65 <=? n) && (n <=? 90))%N then ascii_of_N (n + 32) else c.

Fixpoint nocase (s : string) : string :=
  match s with
  | EmptyString => EmptyString
  | String c s' => String (ascii_lower c) (nocase s')
  end.

Definition user_email (u : User) : string := nocase (User_Email u).

(** The rows of a JOIN: the pairs its ON and WHERE clauses hold of. *)
Definition sql_join {A B} (P : A -> B -> Prop) `{forall a b, Decision (P a b)}
    (l1 : list A) (l2 : list B) : list (A * B) :=
  flat_map (fun a => (fun b => (a, b)) <$> filter (P a) l2) l1.

Lemma one_Ok {R} (P : R -> Prop) `{forall r, Decision (P r)} (l : list R) r :
  one (filter P l) = Ok r -> P r /\ r ∈ l.
Proof.
  intros Ho. apply (list_elem_of_filter P l r). destruct (filter P l); [done|]. simplify_eq/=. constructor.
Qed.

Lemma one_Err {R} (P : R -> Prop) `{forall r, Decision (P r)} (l : list R) e :
  one (filter P l) = Err e -> e = ErrNoRows /\ forall r, r ∈ l -> ~ P r.
Proof.
  intros Ho. destruct (filter P l) eqn:Hf; [|done]. simplify_eq/=. split; [done|]. intros r Hr Hp.
  assert (Hin : r ∈ filter P l) by (by apply list_elem_of_filter). rewrite Hf in Hin.
  by apply not_elem_of_nil in Hin.
Qed.

(** ** users.sql *)

Definition CreateUser (Email PassHash : string) : M User :=
  let! id := uuid_New in
  sql (fun now db =>
    let r := mkUser id Email PassHash (sqNow now) (sqNow now) in
    require (id ∉ User_ID <$> users db)
      (require (nocase Email ∉ user_email <$> users db)
        (Ok (r, set_users (users db ++ [r]) db)))).

Definition EmailExists (email : string) : M bool :=
  query (fun now db => Ok (bool_decide (nocase email ∈ user_email <$> users db))).

Definition GetUserByEmail (email : string) : M User :=
  query (fun now db => one (filter (fun u => user_email u = nocase email) (users db))).

Definition GetUserByID (id : uuid) : M User :=
  query (fun now db => one (filter (fun u => User_ID u = id) (users db))).

Definition UpdateUserPassword (ID : uuid) (PassHash : string) : M unit :=
  sql (fun now db => Ok (tt, set_users
    (update_where (fun u => User_ID u = ID)
      (fun u => User_set_UpdatedAt (sqNow now) (User_set_PassHash PassHash u)) (users db)) db)).

(** ** devices.sql *)

Definition platforms : list string := ["android"; "ios"; "web"; "web-mobile"]%string.

Definition CreateDevice (UserID : uuid) (Platform : string) (DisplayName : option string)
    (Pubkey : option bytes) : M Device :=
  let! id := uuid_New in
  sql (fun now db =>
    let r := mkDevice id UserID Platform DisplayName Pubkey None (sqNow now) None in
    require (Platform ∈ platforms)
      (require (id ∉ Device_ID <$> devices db)
        (require (UserID ∈ User_ID <$> users db)
          (Ok (r, set_devices (devices db ++ [r]) db))))).

(** ON DELETE actions of the tables that reference [devices]. *)
Definition cascade_device (id : uuid) (db : DB) : DB :=
  set_sessions (delete_where (fun s => Session_DeviceID s = id) (sessions db))
    (set_pings (delete_where (fun p => Ping_DeviceID p = id) (pings db))
      (set_push_subscriptions
        (delete_where (fun p => PushSubscription_DeviceID p = Some id) (push_subscriptions db))
        (set_sos_events
          (update_where (fun e => SosEvent_DeviceID e = Some id) (SosEvent_set_DeviceID None) (sos_events db))
          (set_key_envelopes
            (update_where (fun e => KeyEnvelope_SenderDeviceID e = Some id)
              (KeyEnvelope_set_SenderDeviceID None)
              (delete_where (fun e => KeyEnvelope_RecipientDeviceID e = id) (key_envelopes db)))
            db)))).

Definition DeleteDevice (ID UserID : uuid) : M unit :=
  sql (fun now db =>
    if decide (Exists (fun d => Device_ID d = ID /\ Device_UserID d = UserID) (devices db)) then
      Ok (tt, cascade_device ID
        (set_devices (delete_where (fun d => Device_ID d = ID /\ Device_UserID d = UserID) (devices db)) db))
    else Ok (tt, db)).

Definition GetDevice (id : uuid) : M Device :=
  query (fun now db => one (filter (fun d => Device_ID d = id) (devices db))).

Definition GetDeviceForUser (ID UserID : uuid) : M Device :=
  query (fun now db => one (filter (fun d => Device_ID d = ID /\ Device_UserID d = UserID) (devices db))).

Definition ListCircleDevices (circleID : uuid) : M (list Device) :=
  query (fun now db => Ok (sort_by Device_CreatedAt
    (fst <$> sql_join (fun d cm => CircleMember_UserID cm = Device_UserID d /\ CircleMember_CircleID cm = circleID)
      (devices db) (circle_members db)))).

Definition ListDevicesForUser (userID : uuid) : M (list Device) :=
  query (fun now db => Ok (sort_by Device_CreatedAt (filter (fun d => Device_UserID d = userID) (devices db)))).

Definition SetDevicePubkey (ID : uuid) (Pubkey : option bytes) : M unit :=
  sql (fun now db => Ok (tt, set_devices
    (update_where (fun d => Device_ID d = ID) (Device_set_Pubkey Pubkey) (devices db)) db)).

Definition SetDevicePushToken (ID : uuid) (PushToken : option string) : M unit :=
  sql (fun now db => Ok (tt, set_devices
    (update_where (fun d => Device_ID d = ID) (Device_set_PushToken PushToken) (devices db)) db)).

Definition TouchDevice (id : uuid) : M unit :=
  sql (fun now db => Ok (tt, set_devices
    (update_where (fun d => Device_ID d = id) (Device_set_LastSeen (Some (sqNow now))) (devices db)) db)).

(** ** sessions.sql *)

Definition CreateSession (UserID DeviceID : uuid) (AccessTokenHash RefreshTokenHash : string)
    (AccessExpiresAt RefreshExpiresAt : time) : M Session :=
  let! id := uuid_New in
  sql (fun now db =>
    let r := mkSession id UserID DeviceID AccessTokenHash RefreshTokenHash None
      (tv AccessExpiresAt) (tv RefreshExpiresAt) None (sqNow now) (sqNow now) in
    require (id ∉ Session_ID <$> sessions db)
      (require (AccessTokenHash ∉ Session_AccessTokenHash <$> sessions db)
        (require (RefreshTokenHash ∉ Session_RefreshTokenHash <$> sessions db)
          (require (UserID ∈ User_ID <$> users db)
            (require (DeviceID ∈ Device_ID <$> devices db)
              (Ok (r, set_sessions (sessions db ++ [r]) db))))))).

Definition before_opt (t : option time) (cutoff : time) : Prop :=
  match t with Some t => t < cutoff | None => False end.

#[export] Instance before_opt_decision t cutoff : Decision (before_opt t cutoff).
Proof. destruct t; simpl; apply _. Defined.

Definition DeleteExpiredSessions : M Z :=
  sql (fun now db =>
    let cutoff := tv (Add now (- (24 * Hour))) in
    let P s := Session_RefreshExpiresAt s < cutoff \/ before_opt (Session_RevokedAt s) cutoff in
    Ok (count_where P (sessions db), set_sessions (delete_where P (sessions db)) db)).

Definition GetSessionByAccessHash (accessTokenHash : string) : M Session :=
  query (fun now db => one (filter (fun s =>
    Session_AccessTokenHash s = accessTokenHash /\ Session_RevokedAt s = None /\
    Session_AccessExpiresAt s > tv now) (sessions db))).

(** A NULL parameter equals no row's column. *)
Definition GetSessionByPrevRefreshHash (prevRefreshHash : option string) : M Session :=
  query (fun now db => one (filter (fun s =>
    prevRefreshHash <> None /\ Session_PrevRefreshHash s = prevRefreshHash /\ Session_RevokedAt s = None)
    (sessions db))).

Definition GetSessionByRefreshHash (refreshTokenHash : string) : M Session :=
  query (fun now db => one (filter (fun s =>
    Session_RefreshTokenHash s = refreshTokenHash /\ Session_RevokedAt s = None /\
    Session_RefreshExpiresAt s > tv now) (sessions db))).

(** The session with its device's platform and display name. *)
Definition ListActiveSessionsForUser (userID : uuid) : M (list (Session * Device)) :=
  query (fun now db => Ok (sort_by (fun sd => - Session_RotatedAt sd.1)
    (sql_join (fun s d => Device_ID d = Session_DeviceID s /\ Session_UserID s = userID /\
        Session_RevokedAt s = None /\ Session_RefreshExpiresAt s > tv now)
      (sessions db) (devices db)))).

Definition revoke_where (P : Session -> Prop) `{forall s, Decision (P s)} : M unit :=
  sql (fun now db => Ok (tt, set_sessions
    (update_where (fun s => P s /\ Session_RevokedAt s = None)
      (Session_set_RevokedAt (Some (sqNow now))) (sessions db)) db)).

Definition RevokeSession (id : uuid) : M unit := revoke_where (fun s => Session_ID s = id).
Definition RevokeSessionsForDevice (deviceID : uuid) : M unit :=
  revoke_where (fun s => Session_DeviceID s = deviceID).
Definition RevokeSessionsForUser (userID : uuid) : M unit :=
  revoke_where (fun s => Session_UserID s = userID).

(** The row [RotateSession] leaves. *)
Definition rotated (AccessTokenHash RefreshTokenHash OldRefreshHash : string)
    (AccessExpiresAt RefreshExpiresAt now : time) (s : Session) : Session :=
  Session_set_RotatedAt (sqNow now)
    (Session_set_RefreshExpiresAt (tv RefreshExpiresAt)
      (Session_set_AccessExpiresAt (tv AccessExpiresAt)
        (Session_set_PrevRefreshHash (Some OldRefreshHash)
          (Session_set_RefreshTokenHash RefreshTokenHash
            (Session_set_AccessTokenHash AccessTokenHash s))))).

Definition RotateSession (ID : uuid) (AccessTokenHash RefreshTokenHash OldRefreshHash : string)
    (AccessExpiresAt RefreshExpiresAt : time) : M Session :=
  sql (fun now db =>
    let P s := Session_ID s = ID /\ Session_RefreshTokenHash s = OldRefreshHash /\ Session_RevokedAt s = None in
    let f := rotated AccessTokenHash RefreshTokenHash OldRefreshHash AccessExpiresAt RefreshExpiresAt now in
    let others := filter (fun s => ~ P s) (sessions db) in
    r <-? one (filter P (sessions db)) ;;
    require (AccessTokenHash ∉ Session_AccessTokenHash <$> others)
      (require (RefreshTokenHash ∉ Session_RefreshTokenHash <$> others)
        (Ok (f r, set_sessions (update_where P f (sessions db)) db)))).

(** ** misc.sql: login attempts *)

Definition RecordLoginAttempt (Email Ip : option string) (Success : bool) : M unit :=
  sql (fun now db =>
    Ok (tt, set_login_attempts_seq (login_attempts_seq db + 1)
      (set_login_attempts
        (login_attempts db ++ [mkLoginAttempt (login_attempts_seq db) Email Ip Success (sqNow now)]) db))).

Definition attempt_of (email : option string) (la : LoginAttempt) : Prop :=
  email <> None /\ (nocase <$> LoginAttempt_Email la) = (nocase <$> email).

#[export] Instance attempt_of_decision email la : Decision (attempt_of email la).
Proof. unfold attempt_of. apply _. Defined.

(** [SELECT max(...)]: NULL of no rows. *)
Fixpoint sql_max (l : list Z) : option Z :=
  match l with
  | [] => None
  | x :: l' => Some (match sql_max l' with Some m => Z.max x m | None => x end)
  end.

(** The window is whole seconds: [float64] carries it to nanoseconds exactly. *)
Definition CountRecentFailuresByEmail (Email : option string) (Window : duration) : M Z :=
  query (fun now db =>
    let cutoff := tv (Add now (- Window)) in
    let last_ok := default sqliteEpoch (sql_max (LoginAttempt_CreatedAt <$>
      filter (fun la => attempt_of Email la /\ LoginAttempt_Success la = true) (login_attempts db))) in
    Ok (count_where (fun la => attempt_of Email la /\ LoginAttempt_Success la = false /\
      LoginAttempt_CreatedAt la > cutoff /\ LoginAttempt_CreatedAt la > last_ok) (login_attempts db))).

Definition CountRecentFailuresByIP (Ip : option string) (Window : duration) : M Z :=
  query (fun now db =>
    let cutoff := tv (Add now (- Window)) in
    Ok (count_where (fun la => Ip <> None /\ LoginAttempt_Ip la = Ip /\ LoginAttempt_Success la = false /\
      LoginAttempt_CreatedAt la > cutoff) (login_attempts db))).

Definition PruneLoginAttempts (keepDays : Z) : M Z :=
  sql (fun now db =>
    let P la := LoginAttempt_CreatedAt la < tv (AddDays now (- keepDays)) in
    Ok (count_where P (login_attempts db), set_login_attempts (delete_where P (login_attempts db)) db)).

(** ** misc.sql: audit *)

Definition WriteAudit (Event : string) (ActorUserID ActorDeviceID CircleID : option uuid)
    (Ip : option string) (Detail : option AuditDetail) : M unit :=
  sql (fun now db =>
    Ok (tt, set_audit_log_seq (audit_log_seq db + 1)
      (set_audit_log (audit_log db ++
        [mkAuditLog (audit_log_seq db) (sqNow now) Event ActorUserID ActorDeviceID CircleID Ip Detail]) db))).

Definition ListAuditForUser (ActorUserID : option uuid) (Limit : Z) : M (list AuditLog) :=
  query (fun now db => Ok (firstn (Z.to_nat Limit) (sort_by (fun a => - AuditLog_Ts a)
    (filter (fun a => ActorUserID <> None /\ AuditLog_ActorUserID a = ActorUserID) (audit_log db))))).

Definition PruneAuditIPs (keepDays : Z) : M Z :=
  sql (fun now db =>
    let P a := AuditLog_Ip a <> None /\ AuditLog_Ts a < tv (AddDays now (- keepDays)) in
    Ok (count_where P (audit_log db), set_audit_log (update_where P (AuditLog_set_Ip None) (audit_log db)) db)).

(** ** misc.sql: push subscriptions and app versions *)

(** The CHECKs of [push_subscriptions]: a web push row has both keys, an FCM row neither. *)
Definition push_shape (Kind : string) (P256dh Auth : option string) : Prop :=
  (Kind = "webpush"%string /\ P256dh <> None /\ Auth <> None) \/
  (Kind = "fcm"%string /\ P256dh = None /\ Auth = None).

#[export] Instance push_shape_decision Kind P256dh Auth : Decision (push_shape Kind P256dh Auth).
Proof. unfold push_shape. apply _. Defined.

Definition UpsertPushSubscription (UserID : uuid) (DeviceID : option uuid) (Endpoint : string)
    (P256dh Auth : option string) (Kind : string) : M PushSubscription :=
  let! id := uuid_New in
  sql (fun now db =>
    require (push_shape Kind P256dh Auth)
      (require (UserID ∈ User_ID <$> users db)
        (match filter (fun p => PushSubscription_Endpoint p = Endpoint) (push_subscriptions db) with
         | old :: _ =>
             let f p := PushSubscription_set_Kind Kind (PushSubscription_set_UserID UserID
               (PushSubscription_set_Auth Auth (PushSubscription_set_P256dh P256dh p))) in
             Ok (f old, set_push_subscriptions
               (update_where (fun p => PushSubscription_Endpoint p = Endpoint) f (push_subscriptions db)) db)
         | [] =>
             let r := mkPushSubscription id UserID DeviceID Endpoint P256dh Auth (sqNow now) Kind in
             require (id ∉ PushSubscription_ID <$> push_subscriptions db)
               (require (key_in DeviceID (Device_ID <$> devices db))
                 (Ok (r, set_push_subscriptions (push_subscriptions db ++ [r]) db)))
         end))).

Definition DeletePushSubscription (Endpoint : string) (UserID : uuid) : M unit :=
  sql (fun now db => Ok (tt, set_push_subscriptions
    (delete_where (fun p => PushSubscription_Endpoint p = Endpoint /\ PushSubscription_UserID p = UserID)
      (push_subscriptions db)) db)).

Definition DeletePushSubscriptionByID (id : uuid) : M unit :=
  sql (fun now db => Ok (tt, set_push_subscriptions
    (delete_where (fun p => PushSubscription_ID p = id) (push_subscriptions db)) db)).

(** The mutes that silence [sender]'s notifications in a circle for [user]. *)
Definition silences (user circle sender : uuid) (m : NotificationMute) : Prop :=
  NotificationMute_UserID m = user /\ NotificationMute_CircleID m = circle /\
  (NotificationMute_MutedUserID m = None \/ NotificationMute_MutedUserID m = Some sender).

#[export] Instance silences_decision user circle sender m : Decision (silences user circle sender m).
Proof. unfold silences. apply _. Defined.

Definition ListCirclePushSubscriptions (CircleID SenderUserID : uuid) : M (list PushSubscription) :=
  query (fun now db => Ok (sort_by PushSubscription_CreatedAt (fst <$> sql_join
    (fun ps cm => CircleMember_UserID cm = PushSubscription_UserID ps /\ CircleMember_CircleID cm = CircleID /\
      PushSubscription_UserID ps <> SenderUserID /\
      ~ Exists (silences (PushSubscription_UserID ps) CircleID SenderUserID) (notification_mutes db))
    (push_subscriptions db) (circle_members db)))).

Definition app_platforms : list string := ["android"; "ios"]%string.

Definition LatestActiveVersion (platform : string) : M AppVersion :=
  query (fun now db => one (sort_by (fun v => - AppVersion_VersionCode v)
    (filter (fun v => AppVersion_Platform v = platform /\ AppVersion_IsActive v = true) (app_versions db)))).

Definition UpsertAppVersion (Platform : string) (VersionCode : Z) (VersionName : string)
    (ApkUrl Sha256 Changelog : option string) (MinSupported : Z) : M AppVersion :=
  let! id := uuid_New in
  sql (fun now db =>
    let same v := AppVersion_Platform v = Platform /\ AppVersion_VersionCode v = VersionCode in
    require (Platform ∈ app_platforms)
      (match filter same (app_versions db) with
       | old :: _ =>
           let f v := AppVersion_set_IsActive true (AppVersion_set_MinSupported MinSupported
             (AppVersion_set_Changelog Changelog (AppVersion_set_Sha256 Sha256
               (AppVersion_set_ApkUrl ApkUrl (AppVersion_set_VersionName VersionName v))))) in
           Ok (f old, set_app_versions (update_where same f (app_versions db)) db)
       | [] =>
           let r := mkAppVersion id Platform VersionCode VersionName ApkUrl Sha256 Changelog MinSupported
             true (sqNow now) in
           require (id ∉ AppVersion_ID <$> app_versions db)
             (Ok (r, set_app_versions (app_versions db ++ [r]) db))
       end)).
