(* ===== verification/StoreCircles.v ===== *)
(** * SQLite statements: circles (store/sqlite_queries.go)

    Circles, members, invites, places, SOS events, key envelopes and mutes, one
    definition per method, with the constraints and foreign-key actions of the
    schema. *)

From S2P Require Import Prelude Table GoTime Models Api Hub World StoreAccounts.
Local Open Scope Z_scope.
Local Open Scope aul_scope.

(** ** circles.sql *)

Definition roles : list string := ["owner"; "member"; "guardian"]%string.
Definition precision_modes : list string := ["precise"; "city"; "paused"]%string.

Definition member_key (m : CircleMember) : uuid * uuid := (CircleMember_CircleID m, CircleMember_UserID m).

Definition is_member (CircleID UserID : uuid) (m : CircleMember) : Prop :=
  CircleMember_CircleID m = CircleID /\ CircleMember_UserID m = UserID.

#[export] Instance is_member_decision c u m : Decision (is_member c u m).
Proof. unfold is_member. apply _. Defined.

Definition AddMember (CircleID UserID : uuid) (Role : string) : M CircleMember :=
  sql (fun now db =>
    require (Role ∈ roles)
      (match filter (is_member CircleID UserID) (circle_members db) with
       | old :: _ =>
           Ok (CircleMember_set_Role Role old,
               set_circle_members (update_where (is_member CircleID UserID) (CircleMember_set_Role Role)
                 (circle_members db)) db)
       | [] =>
           let r := mkCircleMember CircleID UserID Role "precise" (sqNow now) None in
           require (CircleID ∈ Circle_ID <$> circles db)
             (require (UserID ∈ User_ID <$> users db)
               (Ok (r, set_circle_members (circle_members db ++ [r]) db)))
       end)).

Definition AllCircleRetention : M (list (uuid * Z)) :=
  query (fun now db => Ok ((fun c => (Circle_ID c, Circle_RetentionDays c)) <$> circles db)).

(** [UPDATE circles SET ... WHERE id = ? RETURNING]. *)
Definition update_circle (id : uuid) (f : Circle -> Circle) : M Circle :=
  sql (fun now db =>
    r <-? one (filter (fun c => Circle_ID c = id) (circles db)) ;;
    Ok (f r, set_circles (update_where (fun c => Circle_ID c = id) f (circles db)) db)).

Definition BumpCircleKeyEpoch (id : uuid) : M Circle :=
  update_circle id (fun c => Circle_set_KeyEpoch (Circle_KeyEpoch c + 1) c).

Definition CountOwners (circleID : uuid) : M Z :=
  query (fun now db => Ok (count_where
    (fun m => CircleMember_CircleID m = circleID /\ CircleMember_Role m = "owner"%string) (circle_members db))).

Definition retention_ok (days : Z) : Prop := 1 <= days <= 3650.

#[export] Instance retention_ok_decision d : Decision (retention_ok d).
Proof. unfold retention_ok. apply _. Defined.

Definition CreateCircle (NameEnc : option bytes) (RetentionDays : Z) (CreatedBy : uuid) : M Circle :=
  let! id := uuid_New in
  sql (fun now db =>
    let r := mkCircle id NameEnc RetentionDays 1 CreatedBy (sqNow now) in
    require (retention_ok RetentionDays)
      (require (id ∉ Circle_ID <$> circles db)
        (require (CreatedBy ∈ User_ID <$> users db)
          (Ok (r, set_circles (circles db ++ [r]) db))))).

(** ON DELETE CASCADE of the tables that reference [circles]. *)
Definition cascade_circle (id : uuid) (db : DB) : DB :=
  set_circle_members (delete_where (fun r => CircleMember_CircleID r = id) (circle_members db))
    (set_invites (delete_where (fun r => Invite_CircleID r = id) (invites db))
      (set_places_enc (delete_where (fun r => PlacesEnc_CircleID r = id) (places_enc db))
        (set_key_envelopes (delete_where (fun r => KeyEnvelope_CircleID r = id) (key_envelopes db))
          (set_sos_events (delete_where (fun r => SosEvent_CircleID r = id) (sos_events db))
            (set_pings (delete_where (fun r => Ping_CircleID r = id) (pings db))
              (set_notification_mutes
                (delete_where (fun r => NotificationMute_CircleID r = id) (notification_mutes db))
                db)))))).

Definition DeleteCircle (id : uuid) : M unit :=
  sql (fun now db => Ok (tt, cascade_circle id
    (set_circles (delete_where (fun c => Circle_ID c = id) (circles db)) db))).

Definition GetCircle (id : uuid) : M Circle :=
  query (fun now db => one (filter (fun c => Circle_ID c = id) (circles db))).

Definition GetMembership (CircleID UserID : uuid) : M CircleMember :=
  query (fun now db => one (filter (is_member CircleID UserID) (circle_members db))).

(** The circle with the member row's role and precision. *)
Definition ListCirclesForUser (userID : uuid) : M (list (Circle * CircleMember)) :=
  query (fun now db => Ok (sort_by (fun cm => Circle_CreatedAt cm.1)
    (sql_join (fun c m => CircleMember_CircleID m = Circle_ID c /\ CircleMember_UserID m = userID)
      (circles db) (circle_members db)))).

Definition ListMembers (circleID : uuid) : M (list (CircleMember * User)) :=
  query (fun now db => Ok (sort_by (fun mu => CircleMember_JoinedAt mu.1)
    (sql_join (fun m u => User_ID u = CircleMember_UserID m /\ CircleMember_CircleID m = circleID)
      (circle_members db) (users db)))).

Definition RemoveMember (CircleID UserID : uuid) : M unit :=
  sql (fun now db => Ok (tt,
    set_circle_members (delete_where (is_member CircleID UserID) (circle_members db)) db)).

Definition SetMemberProfile (CircleID UserID : uuid) (ProfileEnc : option bytes) : M unit :=
  sql (fun now db => Ok (tt, set_circle_members
    (update_where (is_member CircleID UserID) (CircleMember_set_ProfileEnc ProfileEnc) (circle_members db)) db)).

(** [UPDATE circle_members SET ... RETURNING]; [ok] is the column's CHECK. *)
Definition update_member (CircleID UserID : uuid) (ok : Prop) `{Decision ok}
    (f : CircleMember -> CircleMember) : M CircleMember :=
  sql (fun now db =>
    r <-? one (filter (is_member CircleID UserID) (circle_members db)) ;;
    require ok
      (Ok (f r, set_circle_members (update_where (is_member CircleID UserID) f (circle_members db)) db))).

Definition SetMemberRole (CircleID UserID : uuid) (Role : string) : M CircleMember :=
  update_member CircleID UserID (Role ∈ roles) (CircleMember_set_Role Role).

Definition SetPrecisionMode (CircleID UserID : uuid) (PrecisionMode : string) : M CircleMember :=
  update_member CircleID UserID (PrecisionMode ∈ precision_modes) (CircleMember_set_PrecisionMode PrecisionMode).

Definition UpdateCircleName (ID : uuid) (NameEnc : option bytes) : M Circle :=
  update_circle ID (Circle_set_NameEnc NameEnc).

Definition UpdateCircleRetention (ID : uuid) (RetentionDays : Z) : M Circle :=
  sql (fun now db =>
    r <-? one (filter (fun c => Circle_ID c = ID) (circles db)) ;;
    require (retention_ok RetentionDays)
      (Ok (Circle_set_RetentionDays RetentionDays r,
        set_circles (update_where (fun c => Circle_ID c = ID) (Circle_set_RetentionDays RetentionDays)
          (circles db)) db))).

Definition CountMembersIn (CircleID : uuid) (UserIds : list uuid) : M Z :=
  if decide (UserIds = []) then ret 0 else
  query (fun now db => Ok (count_where
    (fun m => CircleMember_CircleID m = CircleID /\ CircleMember_UserID m ∈ UserIds) (circle_members db))).

(** ** invites.sql *)

Definition invite_roles : list string := ["member"; "guardian"]%string.
Definition invite_statuses : list string := ["active"; "revoked"]%string.

(** The invite may be used at [now]. *)
Definition invite_live (now : time) (i : Invite) : Prop :=
  Invite_Status i = "active"%string /\ Invite_ExpiresAt i > tv now /\ Invite_Uses i < Invite_MaxUses i.

#[export] Instance invite_live_decision now i : Decision (invite_live now i).
Proof. unfold invite_live. apply _. Defined.

Definition ConsumeInvite (id : uuid) : M Invite :=
  sql (fun now db =>
    let P i := Invite_ID i = id /\ invite_live now i in
    let f i := Invite_set_Uses (Invite_Uses i + 1) i in
    r <-? one (filter P (invites db)) ;;
    Ok (f r, set_invites (update_where P f (invites db)) db)).

Definition CountRecentInvitesByUser (createdBy : uuid) : M Z :=
  query (fun now db => Ok (count_where
    (fun i => Invite_CreatedBy i = createdBy /\ Invite_CreatedAt i > tv (Add now (- Hour))) (invites db))).

Definition CreateInvite (CircleID CreatedBy : uuid) (Role : string) (MaxUses : Z) (ExpiresAt : time) : M Invite :=
  let! id := uuid_New in
  sql (fun now db =>
    let r := mkInvite id CircleID CreatedBy Role MaxUses 0 (tv ExpiresAt) "active" (sqNow now) in
    require (Role ∈ invite_roles)
      (require (1 <= MaxUses <= 1000)
        (require (id ∉ Invite_ID <$> invites db)
          (require (CircleID ∈ Circle_ID <$> circles db)
            (require (CreatedBy ∈ User_ID <$> users db)
              (Ok (r, set_invites (invites db ++ [r]) db))))))).

Definition GetInvite (id : uuid) : M Invite :=
  query (fun now db => one (filter (fun i => Invite_ID i = id) (invites db))).

Definition ListInvitesForCircle (circleID : uuid) : M (list Invite) :=
  query (fun now db => Ok (sort_by (fun i => - Invite_CreatedAt i)
    (filter (fun i => Invite_CircleID i = circleID /\ Invite_Status i = "active"%string /\
      Invite_ExpiresAt i > tv now) (invites db)))).

Definition RevokeInvite (ID CircleID : uuid) : M unit :=
  sql (fun now db => Ok (tt, set_invites
    (update_where (fun i => Invite_ID i = ID /\ Invite_CircleID i = CircleID) (Invite_set_Status "revoked")
      (invites db)) db)).

(** ** key_envelopes.sql *)

Definition envelope_key (e : KeyEnvelope) : uuid * uuid * Z :=
  (KeyEnvelope_CircleID e, KeyEnvelope_RecipientDeviceID e, KeyEnvelope_KeyEpoch e).

(** The stored envelope after an upsert of the same recipient and epoch. *)
Definition reissue (Ciphertext : bytes) (Sender : option uuid) (now : time) (e : KeyEnvelope) : KeyEnvelope :=
  KeyEnvelope_set_ConsumedAt None (KeyEnvelope_set_CreatedAt (sqNow now)
    (KeyEnvelope_set_SenderDeviceID Sender (KeyEnvelope_set_Ciphertext Ciphertext e))).

Definition CreateKeyEnvelope (CircleID RecipientDeviceID : uuid) (SenderDeviceID : option uuid)
    (Ciphertext : bytes) (KeyEpoch : Z) : M KeyEnvelope :=
  let! id := uuid_New in
  sql (fun now db =>
    let same e := envelope_key e = (CircleID, RecipientDeviceID, KeyEpoch) in
    require (key_in SenderDeviceID (Device_ID <$> devices db))
      (match filter same (key_envelopes db) with
       | old :: _ =>
           let f := reissue Ciphertext SenderDeviceID now in
           Ok (f old, set_key_envelopes (update_where same f (key_envelopes db)) db)
       | [] =>
           let r := mkKeyEnvelope id CircleID RecipientDeviceID SenderDeviceID Ciphertext KeyEpoch
             (sqNow now) None in
           require (id ∉ KeyEnvelope_ID <$> key_envelopes db)
             (require (CircleID ∈ Circle_ID <$> circles db)
               (require (RecipientDeviceID ∈ Device_ID <$> devices db)
                 (Ok (r, set_key_envelopes (key_envelopes db ++ [r]) db))))
       end)).

Definition MarkEnvelopeConsumed (ID RecipientDeviceID : uuid) : M unit :=
  sql (fun now db => Ok (tt, set_key_envelopes
    (update_where (fun e => KeyEnvelope_ID e = ID /\ KeyEnvelope_RecipientDeviceID e = RecipientDeviceID /\
        KeyEnvelope_ConsumedAt e = None)
      (KeyEnvelope_set_ConsumedAt (Some (sqNow now))) (key_envelopes db)) db)).

Definition PendingEnvelopesForDevice (recipientDeviceID : uuid) : M (list KeyEnvelope) :=
  query (fun now db => Ok (firstn 500 (sort_by KeyEnvelope_CreatedAt
    (filter (fun e => KeyEnvelope_RecipientDeviceID e = recipientDeviceID /\ KeyEnvelope_ConsumedAt e = None)
      (key_envelopes db))))).

Definition PruneKeyEnvelopes : M Z :=
  sql (fun now db =>
    let P e := before_opt (KeyEnvelope_ConsumedAt e) (tv (AddDays now (-7))) \/
      (KeyEnvelope_ConsumedAt e = None /\ KeyEnvelope_CreatedAt e < tv (AddDays now (-30))) in
    Ok (count_where P (key_envelopes db), set_key_envelopes (delete_where P (key_envelopes db)) db)).

(** ** sos.sql *)

Definition CreateSOS (CircleID : uuid) (DeviceID : option uuid) (Ciphertext : bytes) : M SosEvent :=
  let! id := uuid_New in
  sql (fun now db =>
    let r := mkSosEvent id CircleID DeviceID Ciphertext (sqNow now) None None in
    require (id ∉ SosEvent_ID <$> sos_events db)
      (require (CircleID ∈ Circle_ID <$> circles db)
        (require (key_in DeviceID (Device_ID <$> devices db))
          (Ok (r, set_sos_events (sos_events db ++ [r]) db))))).

Definition GetSOS (id : uuid) : M SosEvent :=
  query (fun now db => one (filter (fun e => SosEvent_ID e = id) (sos_events db))).

Definition ListActiveSOS (circleID : uuid) : M (list SosEvent) :=
  query (fun now db => Ok (sort_by (fun e => - SosEvent_CreatedAt e)
    (filter (fun e => SosEvent_CircleID e = circleID /\ SosEvent_ResolvedAt e = None) (sos_events db)))).

(** A NULL cutoff, like a NULL column, is before nothing. *)
Definition resolved_before (cutoff : option time) (e : SosEvent) : Prop :=
  match cutoff with Some t => before_opt (SosEvent_ResolvedAt e) t | None => False end.

#[export] Instance resolved_before_decision cutoff e : Decision (resolved_before cutoff e).
Proof. destruct cutoff; simpl; apply _. Defined.

Definition PruneResolvedSOS (resolvedAt : option time) : M Z :=
  sql (fun now db =>
    let P := resolved_before (tvp resolvedAt) in
    Ok (count_where P (sos_events db), set_sos_events (delete_where P (sos_events db)) db)).

Definition ResolveSOS (ID : uuid) (ResolvedBy : option uuid) (CircleID : uuid) : M SosEvent :=
  sql (fun now db =>
    let P e := SosEvent_ID e = ID /\ SosEvent_CircleID e = CircleID /\ SosEvent_ResolvedAt e = None in
    let f e := SosEvent_set_ResolvedBy ResolvedBy (SosEvent_set_ResolvedAt (Some (sqNow now)) e) in
    r <-? one (filter P (sos_events db)) ;;
    require (key_in ResolvedBy (User_ID <$> users db))
      (Ok (f r, set_sos_events (update_where P f (sos_events db)) db))).

(** ** places.sql *)

Definition CreatePlace (CircleID : uuid) (Ciphertext : bytes) (AuthorID : option uuid) : M PlacesEnc :=
  let! id := uuid_New in
  sql (fun now db =>
    let r := mkPlacesEnc id CircleID Ciphertext 1 false AuthorID (sqNow now) (sqNow now) AuthorID in
    require (id ∉ PlacesEnc_ID <$> places_enc db)
      (require (CircleID ∈ Circle_ID <$> circles db)
        (require (key_in AuthorID (User_ID <$> users db))
          (Ok (r, set_places_enc (places_enc db ++ [r]) db))))).

Definition ListPlaces (circleID : uuid) : M (list PlacesEnc) :=
  query (fun now db => Ok (sort_by PlacesEnc_CreatedAt
    (filter (fun p => PlacesEnc_CircleID p = circleID /\ PlacesEnc_Deleted p = false) (places_enc db)))).

Definition PrunePlaceTombstones (updatedAt : time) : M Z :=
  sql (fun now db =>
    let P p := PlacesEnc_Deleted p = true /\ PlacesEnc_UpdatedAt p < tv updatedAt in
    Ok (count_where P (places_enc db), set_places_enc (delete_where P (places_enc db)) db)).

(** [UPDATE places_enc SET ..., version = version + 1, updated_by, updated_at ... RETURNING]. *)
Definition touch_place (P : PlacesEnc -> Prop) `{forall p, Decision (P p)} (UpdatedBy : option uuid)
    (g : PlacesEnc -> PlacesEnc) : M PlacesEnc :=
  sql (fun now db =>
    let f p := PlacesEnc_set_UpdatedAt (sqNow now) (PlacesEnc_set_UpdatedBy UpdatedBy
      (PlacesEnc_set_Version (PlacesEnc_Version p + 1) (g p))) in
    r <-? one (filter P (places_enc db)) ;;
    require (key_in UpdatedBy (User_ID <$> users db))
      (Ok (f r, set_places_enc (update_where P f (places_enc db)) db))).

Definition SoftDeletePlace (ID CircleID : uuid) (UpdatedBy : option uuid) : M PlacesEnc :=
  touch_place (fun p => PlacesEnc_ID p = ID /\ PlacesEnc_CircleID p = CircleID /\ PlacesEnc_Deleted p = false)
    UpdatedBy (PlacesEnc_set_Deleted true).

Definition UpdatePlace (ID : uuid) (Ciphertext : bytes) (UpdatedBy : option uuid) (CircleID : uuid)
    (Version : Z) : M PlacesEnc :=
  touch_place (fun p => PlacesEnc_ID p = ID /\ PlacesEnc_CircleID p = CircleID /\
      PlacesEnc_Version p = Version /\ PlacesEnc_Deleted p = false)
    UpdatedBy (PlacesEnc_set_Ciphertext Ciphertext).

(** ** mutes.sql *)

Definition mute_key (m : NotificationMute) : uuid * uuid * option uuid :=
  (NotificationMute_UserID m, NotificationMute_CircleID m, NotificationMute_MutedUserID m).

Definition mutes_of (UserID CircleID : uuid) (m : NotificationMute) : Prop :=
  NotificationMute_UserID m = UserID /\ NotificationMute_CircleID m = CircleID.

#[export] Instance mutes_of_decision u c m : Decision (mutes_of u c m).
Proof. unfold mutes_of. apply _. Defined.

Definition ListMutes (UserID CircleID : uuid) : M (list (option uuid)) :=
  query (fun now db => Ok (NotificationMute_MutedUserID <$>
    sort_by NotificationMute_CreatedAt (filter (mutes_of UserID CircleID) (notification_mutes db)))).

Definition DeleteMutes (UserID CircleID : uuid) : M unit :=
  sql (fun now db => Ok (tt,
    set_notification_mutes (delete_where (mutes_of UserID CircleID) (notification_mutes db)) db)).

(** The two partial unique indexes are one index that tells NULLs apart. *)
Definition InsertMute (UserID CircleID : uuid) (MutedUserID : option uuid) : M unit :=
  sql (fun now db =>
    let r := mkNotificationMute UserID CircleID MutedUserID (sqNow now) in
    if decide (mute_key r ∈ mute_key <$> notification_mutes db) then Ok (tt, db) else
    require (UserID ∈ User_ID <$> users db)
      (require (CircleID ∈ Circle_ID <$> circles db)
        (require (key_in MutedUserID (User_ID <$> users db))
          (Ok (tt, set_notification_mutes (notification_mutes db ++ [r]) db))))).
