(* ===== verification/StorePings.v ===== *)
(** * SQLite statements: pings and live shares (store/sqlite_queries.go, store/store.go)

    The location store: pings, their retention, and live-share sessions with
    their single latest position. *)

From S2P Require Import Prelude Table GoTime Models Api Hub World StoreAccounts.
Local Open Scope Z_scope.
Local Open Scope aul_scope.

(** ** pings.sql *)

Definition ping_key (p : Ping) : uuid * string * time := (Ping_DeviceID p, Ping_ClientID p, Ping_CapturedAt p).

Definition CountPingsForCircle (circleID : uuid) : M Z :=
  query (fun now db => Ok (count_where (fun p => Ping_CircleID p = circleID) (pings db))).

(** ON CONFLICT DO NOTHING RETURNING: a duplicate yields no row. *)
Definition InsertPing (CircleID DeviceID : uuid) (ClientID : string) (Nonce Ciphertext : bytes)
    (CapturedAt : time) (ExpiresAt : option time) : M Ping :=
  let! id := uuid_New in
  sql (fun now db =>
    let r := mkPing id CircleID DeviceID ClientID Nonce Ciphertext (tv CapturedAt) (sqNow now) (tvp ExpiresAt) in
    if decide (ping_key r ∈ ping_key <$> pings db) then Err ErrNoRows else
    require (id ∉ Ping_ID <$> pings db)
      (require (CircleID ∈ Circle_ID <$> circles db)
        (require (DeviceID ∈ Device_ID <$> devices db)
          (Ok (r, set_pings (pings db ++ [r]) db))))).

(** The first row of each device, in the order of [l]: [rn = 1]. *)
Fixpoint first_per_device (seen : list uuid) (l : list Ping) : list Ping :=
  match l with
  | [] => []
  | p :: l' =>
      if decide (Ping_DeviceID p ∈ seen) then first_per_device seen l'
      else p :: first_per_device (Ping_DeviceID p :: seen) l'
  end.

Definition LatestPingsForCircle (circleID : uuid) : M (list Ping) :=
  query (fun now db => Ok (sort_by (fun p => Z.of_N (Ping_DeviceID p))
    (first_per_device [] (sort_by (fun p => - Ping_CapturedAt p)
      (filter (fun p => Ping_CircleID p = circleID) (pings db)))))).

(** Some ping of the same device in the same circle was captured later. *)
Definition superseded (l : list Ping) (p : Ping) : Prop :=
  Exists (fun newer => Ping_CircleID newer = Ping_CircleID p /\ Ping_DeviceID newer = Ping_DeviceID p /\
    Ping_CapturedAt newer > Ping_CapturedAt p) l.

#[export] Instance superseded_decision l p : Decision (superseded l p).
Proof. unfold superseded. apply _. Defined.

Definition DeleteExpiredPingsForCircle (CircleID : uuid) (RetentionDays : Z) : M Z :=
  sql (fun now db =>
    let cutoff := tv (AddDays now (- RetentionDays)) in
    let P p := Ping_CircleID p = CircleID /\ Ping_CapturedAt p < cutoff /\ superseded (pings db) p in
    Ok (count_where P (pings db), set_pings (delete_where P (pings db)) db)).

Definition PruneStalePings (keepHours : Z) : M Z :=
  sql (fun now db =>
    let cutoff := tv (Add now (Duration_mul (- keepHours) Hour)) in
    let P p := Ping_CapturedAt p < cutoff /\ superseded (pings db) p in
    Ok (count_where P (pings db), set_pings (delete_where P (pings db)) db)).

(** A no-op on SQLite: the table is not partitioned. *)
Definition EnsurePingPartitions (FromTs ToTs : time) : M unit := ret tt.

(** [Store.PruneAllPingsBefore]: the newest ping of a device too. *)
Definition PruneAllPingsBefore (cutoff : time) : M Z :=
  sql (fun now db =>
    let P p := Ping_CapturedAt p < tv cutoff in
    Ok (count_where P (pings db), set_pings (delete_where P (pings db)) db)).

(** ** share.sql *)

(** [UPDATE share_sessions SET ... RETURNING]. *)
Definition update_share (P : ShareSession -> Prop) `{forall s, Decision (P s)}
    (f : time -> ShareSession -> ShareSession) : M ShareSession :=
  sql (fun now db =>
    r <-? one (filter P (share_sessions db)) ;;
    Ok (f now r, set_share_sessions (update_where P (f now) (share_sessions db)) db)).

Definition BindShareViewer (ID : uuid) (ViewerTokenHash : option bytes) : M ShareSession :=
  update_share (fun s => ShareSession_ID s = ID /\ ShareSession_ViewerTokenHash s = None)
    (fun now s => ShareSession_set_ViewerBoundAt (Some (sqNow now))
      (ShareSession_set_ViewerTokenHash ViewerTokenHash s)).

Definition CreateShareSession (UserID : uuid) (ExpiresAt : time) : M ShareSession :=
  let! id := uuid_New in
  sql (fun now db =>
    let r := mkShareSession id UserID (sqNow now) (tv ExpiresAt) None None None in
    require (id ∉ ShareSession_ID <$> share_sessions db)
      (require (UserID ∈ User_ID <$> users db)
        (Ok (r, set_share_sessions (share_sessions db ++ [r]) db)))).

Definition GetSharePosition (sessionID : uuid) : M SharePosition :=
  query (fun now db => one (filter (fun p => SharePosition_SessionID p = sessionID) (share_positions db))).

Definition GetShareSession (id : uuid) : M ShareSession :=
  query (fun now db => one (filter (fun s => ShareSession_ID s = id) (share_sessions db))).

Definition GetShareSessionForOwner (ID UserID : uuid) : M ShareSession :=
  query (fun now db => one (filter (fun s => ShareSession_ID s = ID /\ ShareSession_UserID s = UserID)
    (share_sessions db))).

Definition ListShareSessionsForUser (userID : uuid) : M (list ShareSession) :=
  query (fun now db => Ok (sort_by (fun s => - ShareSession_CreatedAt s)
    (filter (fun s => ShareSession_UserID s = userID /\ ShareSession_ExpiresAt s > tv now) (share_sessions db)))).

(** The positions of deleted sessions go with them (ON DELETE CASCADE). *)
Definition PruneShareSessions (graceHours : Z) : M Z :=
  sql (fun now db =>
    let cutoff := tv (Add now (Duration_mul (- graceHours) Hour)) in
    let P s := ShareSession_ExpiresAt s < cutoff \/ before_opt (ShareSession_RevokedAt s) cutoff in
    let gone := ShareSession_ID <$> filter P (share_sessions db) in
    Ok (count_where P (share_sessions db),
      set_share_positions (delete_where (fun p => SharePosition_SessionID p ∈ gone) (share_positions db))
        (set_share_sessions (delete_where P (share_sessions db)) db))).

Definition RevokeShareSession (ID UserID : uuid) : M ShareSession :=
  update_share (fun s => ShareSession_ID s = ID /\ ShareSession_UserID s = UserID)
    (fun now s => ShareSession_set_RevokedAt
      (match ShareSession_RevokedAt s with Some t => Some t | None => Some (sqNow now) end) s).

Definition UpsertSharePosition (SessionID : uuid) (Nonce Ciphertext : bytes) (CapturedAt : time) : M unit :=
  sql (fun now db =>
    let same p := SharePosition_SessionID p = SessionID in
    if decide (SessionID ∈ SharePosition_SessionID <$> share_positions db) then
      Ok (tt, set_share_positions (update_where same
        (fun p => SharePosition_set_UpdatedAt (sqNow now) (SharePosition_set_CapturedAt (tv CapturedAt)
          (SharePosition_set_Ciphertext Ciphertext (SharePosition_set_Nonce Nonce p))))
        (share_positions db)) db)
    else
      require (SessionID ∈ ShareSession_ID <$> share_sessions db)
        (Ok (tt, set_share_positions
          (share_positions db ++ [mkSharePosition SessionID Nonce Ciphertext (tv CapturedAt) (sqNow now)]) db))).
