(* ===== verification/StoreWf.v ===== *)
(** * The schema's constraints are an invariant of the statements

    [wf_db] is the schema of migrations_sqlite/00001_schema.sql as a property of
    the tables: primary keys and unique indexes, CHECKs, and foreign keys, plus
    the AUTOINCREMENT counters.  The statements check only what they can violate
    and run the foreign-key actions they set off; [wf_db] is preserved because
    that is enough. *)

From S2P Require Import Prelude Table GoTime Models Api Hub World StoreAccounts StoreCircles StorePings.
Local Open Scope Z_scope.
Local Open Scope aul_scope.

Definition version_key (v : AppVersion) : string * Z := (AppVersion_Platform v, AppVersion_VersionCode v).

Definition push_ok (p : PushSubscription) : Prop :=
  push_shape (PushSubscription_Kind p) (PushSubscription_P256dh p) (PushSubscription_Auth p).

Definition member_ok (m : CircleMember) : Prop :=
  CircleMember_Role m ∈ roles /\ CircleMember_PrecisionMode m ∈ precision_modes.

Definition invite_ok (i : Invite) : Prop :=
  Invite_Role i ∈ invite_roles /\ 1 <= Invite_MaxUses i <= 1000 /\ Invite_Status i ∈ invite_statuses.

Record wf_accounts (db : DB) : Prop := {
  wf_users_id : uniq User_ID (users db);
  wf_users_email : uniq user_email (users db);
  wf_devices_id : uniq Device_ID (devices db);
  wf_devices_check : Forall (fun d => Device_Platform d ∈ platforms) (devices db);
  wf_devices_user : refs Device_UserID (User_ID <$> users db) (devices db);
  wf_sessions_id : uniq Session_ID (sessions db);
  wf_sessions_access : uniq Session_AccessTokenHash (sessions db);
  wf_sessions_refresh : uniq Session_RefreshTokenHash (sessions db);
  wf_sessions_user : refs Session_UserID (User_ID <$> users db) (sessions db);
  wf_sessions_device : refs Session_DeviceID (Device_ID <$> devices db) (sessions db);
  wf_push_id : uniq PushSubscription_ID (push_subscriptions db);
  wf_push_endpoint : uniq PushSubscription_Endpoint (push_subscriptions db);
  wf_push_check : Forall push_ok (push_subscriptions db);
  wf_push_user : refs PushSubscription_UserID (User_ID <$> users db) (push_subscriptions db);
  wf_push_device : refs_opt PushSubscription_DeviceID (Device_ID <$> devices db) (push_subscriptions db);
  wf_versions_id : uniq AppVersion_ID (app_versions db);
  wf_versions_key : uniq version_key (app_versions db);
  wf_versions_check : Forall (fun v => AppVersion_Platform v ∈ app_platforms) (app_versions db);
  wf_audit_id : uniq AuditLog_ID (audit_log db);
  wf_audit_seq : Forall (fun a => AuditLog_ID a < audit_log_seq db) (audit_log db);
  wf_attempts_id : uniq LoginAttempt_ID (login_attempts db);
  wf_attempts_seq : Forall (fun a => LoginAttempt_ID a < login_attempts_seq db) (login_attempts db)
}.

Record wf_circles (db : DB) : Prop := {
  wf_circles_id : uniq Circle_ID (circles db);
  wf_circles_check : Forall (fun c => retention_ok (Circle_RetentionDays c)) (circles db);
  wf_circles_user : refs Circle_CreatedBy (User_ID <$> users db) (circles db);
  wf_members_key : uniq member_key (circle_members db);
  wf_members_check : Forall member_ok (circle_members db);
  wf_members_circle : refs CircleMember_CircleID (Circle_ID <$> circles db) (circle_members db);
  wf_members_user : refs CircleMember_UserID (User_ID <$> users db) (circle_members db);
  wf_invites_id : uniq Invite_ID (invites db);
  wf_invites_check : Forall invite_ok (invites db);
  wf_invites_circle : refs Invite_CircleID (Circle_ID <$> circles db) (invites db);
  wf_invites_user : refs Invite_CreatedBy (User_ID <$> users db) (invites db);
  wf_places_id : uniq PlacesEnc_ID (places_enc db);
  wf_places_circle : refs PlacesEnc_CircleID (Circle_ID <$> circles db) (places_enc db);
  wf_places_updater : refs_opt PlacesEnc_UpdatedBy (User_ID <$> users db) (places_enc db);
  wf_places_author : refs_opt PlacesEnc_CreatedBy (User_ID <$> users db) (places_enc db);
  wf_envelopes_id : uniq KeyEnvelope_ID (key_envelopes db);
  wf_envelopes_key : uniq envelope_key (key_envelopes db);
  wf_envelopes_circle : refs KeyEnvelope_CircleID (Circle_ID <$> circles db) (key_envelopes db);
  wf_envelopes_device : refs KeyEnvelope_RecipientDeviceID (Device_ID <$> devices db) (key_envelopes db);
  wf_envelopes_sender : refs_opt KeyEnvelope_SenderDeviceID (Device_ID <$> devices db) (key_envelopes db);
  wf_sos_id : uniq SosEvent_ID (sos_events db);
  wf_sos_circle : refs SosEvent_CircleID (Circle_ID <$> circles db) (sos_events db);
  wf_sos_device : refs_opt SosEvent_DeviceID (Device_ID <$> devices db) (sos_events db);
  wf_sos_user : refs_opt SosEvent_ResolvedBy (User_ID <$> users db) (sos_events db);
  wf_mutes_key : uniq mute_key (notification_mutes db);
  wf_mutes_user : refs NotificationMute_UserID (User_ID <$> users db) (notification_mutes db);
  wf_mutes_circle : refs NotificationMute_CircleID (Circle_ID <$> circles db) (notification_mutes db);
  wf_mutes_muted : refs_opt NotificationMute_MutedUserID (User_ID <$> users db) (notification_mutes db)
}.

Record wf_pings (db : DB) : Prop := {
  wf_pings_id : uniq Ping_ID (pings db);
  wf_pings_key : uniq ping_key (pings db);
  wf_pings_circle : refs Ping_CircleID (Circle_ID <$> circles db) (pings db);
  wf_pings_device : refs Ping_DeviceID (Device_ID <$> devices db) (pings db);
  wf_shares_id : uniq ShareSession_ID (share_sessions db);
  wf_shares_user : refs ShareSession_UserID (User_ID <$> users db) (share_sessions db);
  wf_positions_id : uniq SharePosition_SessionID (share_positions db);
  wf_positions_session : refs SharePosition_SessionID (ShareSession_ID <$> share_sessions db) (share_positions db)
}.

Record wf_db (db : DB) : Prop := {
  wf_db_accounts : wf_accounts db;
  wf_db_circles : wf_circles db;
  wf_db_pings : wf_pings db
}.

Lemma empty_wf : wf_db empty_db.
Proof. split; split; simpl; constructor. Qed.

(** ** Automation *)

(** Takes apart the constraints a successful statement has checked. *)
Ltac inv_stmt :=
  unfold require, guard_res, result_bind, one in *;
  repeat match goal with
  | H : Ok _ = Ok _ |- _ => injection H as ?; subst
  | H : Err _ = Ok _ |- _ => discriminate H
  | H : context [if bool_decide ?P then _ else _] |- _ => destruct (bool_decide_reflect P)
  | H : (if ?b then _ else _) = Ok _ |- _ => destruct b eqn:?
  | H : match ?x with _ => _ end = Ok _ |- _ => destruct x eqn:?
  end.

Lemma app_keys {R K} (key : R -> K) (l1 l2 : list R) k : k ∈ key <$> l1 -> k ∈ key <$> (l1 ++ l2).
Proof. intros Hk. rewrite fmap_app. by apply elem_of_app; left. Qed.

Lemma insert_new_key {R} (key : R -> Z) (l : list R) n r :
  Forall (fun a => key a < n) l -> key r = n -> key r ∉ key <$> l.
Proof. intros Hl Hr (a & Ha & Hin)%list_elem_of_fmap. eapply Forall_forall in Hl; [|exact Hin]. simpl in *. lia. Qed.

Lemma seq_grow {R} (key : R -> Z) (l : list R) n r :
  Forall (fun a => key a < n) l -> key r = n -> Forall (fun a => key a < n + 1) (l ++ [r]).
Proof.
  intros Hl Hr. apply Forall_insert_row; [|lia]. eapply Forall_impl; [exact Hl|]. simpl. lia.
Qed.

(** An upsert that found no row may insert one. *)
Lemma no_row_key {R K} `{EqDecision K} (key : R -> K) (P : R -> Prop) `{forall r, Decision (P r)} l k :
  filter P l = [] -> (forall r, key r = k -> P r) -> k ∉ key <$> l.
Proof.
  intros Hl HP (r & Hk & Hr)%list_elem_of_fmap.
  assert (r ∈ filter P l) as Hin by (apply list_elem_of_filter; auto).
  rewrite Hl in Hin. by apply not_elem_of_nil in Hin.
Qed.

Ltac wf_field :=
  simpl; rewrite ?update_where_key by (intros; reflexivity);
  first
    [ assumption
    | apply uniq_insert; [assumption|simpl; assumption]
    | apply uniq_insert; [assumption|eapply insert_new_key; [eassumption|reflexivity]]
    | apply uniq_delete; assumption
    | apply uniq_update; [intros; reflexivity|assumption]
    | eapply seq_grow; [eassumption|reflexivity]
    | eapply refs_sub; [intros ?; apply app_keys|assumption]
    | eapply refs_opt_sub; [intros ?; apply app_keys|assumption]
    | apply Forall_insert_row; [assumption|solve [assumption|done|set_solver]]
    | apply Forall_delete_rows; assumption
    | apply Forall_update_rows; [solve [intros ? ? ?; assumption|intros ? ? ? ?; simpl in *; eauto]|assumption]
    | idtac ].

(** One statement: the constraints of untouched tables are those before it. *)
Ltac wf_stmt :=
  intros [[] [] []]; split; split; wf_field.

Ltac pres_stmt := apply pres_sql; intros ? ? ? ? Hwf Hf; inv_stmt; revert Hwf; try wf_stmt.

Abbreviation wf_pres := (pres (on_db wf_db)).

(** ** Accounts *)

Lemma wf_CreateUser Email PassHash : wf_pres (CreateUser Email PassHash).
Proof. apply pres_bind; [auto with aul|]. intros id. pres_stmt. Qed.

Lemma wf_UpdateUserPassword ID PassHash : wf_pres (UpdateUserPassword ID PassHash).
Proof. pres_stmt. Qed.

Lemma wf_CreateDevice UserID Platform DisplayName Pubkey :
  wf_pres (CreateDevice UserID Platform DisplayName Pubkey).
Proof. apply pres_bind; [auto with aul|]. intros id. pres_stmt. Qed.

Lemma wf_SetDevicePubkey ID k : wf_pres (SetDevicePubkey ID k).
Proof. pres_stmt. Qed.

Lemma wf_SetDevicePushToken ID k : wf_pres (SetDevicePushToken ID k).
Proof. pres_stmt. Qed.

Lemma wf_TouchDevice ID : wf_pres (TouchDevice ID).
Proof. pres_stmt. Qed.

Lemma wf_CreateSession u d a r ae re : wf_pres (CreateSession u d a r ae re).
Proof. apply pres_bind; [auto with aul|]. intros id. pres_stmt. Qed.

Lemma wf_DeleteExpiredSessions : wf_pres DeleteExpiredSessions.
Proof. pres_stmt. Qed.

Lemma wf_revoke_where (P : Session -> Prop) `{forall s, Decision (P s)} : wf_pres (revoke_where P).
Proof. pres_stmt. Qed.

Lemma wf_RecordLoginAttempt e i s : wf_pres (RecordLoginAttempt e i s).
Proof. pres_stmt. Qed.

Lemma wf_PruneLoginAttempts n : wf_pres (PruneLoginAttempts n).
Proof. pres_stmt. Qed.

Lemma wf_WriteAudit e u d c i t : wf_pres (WriteAudit e u d c i t).
Proof. pres_stmt. Qed.

Lemma wf_PruneAuditIPs n : wf_pres (PruneAuditIPs n).
Proof. pres_stmt. Qed.

Lemma wf_DeletePushSubscription e u : wf_pres (DeletePushSubscription e u).
Proof. pres_stmt. Qed.

Lemma wf_DeletePushSubscriptionByID i : wf_pres (DeletePushSubscriptionByID i).
Proof. pres_stmt. Qed.

(** ** Circles *)

Lemma member_ok_role r m : r ∈ roles -> member_ok m -> member_ok (CircleMember_set_Role r m).
Proof. intros Hr [? ?]. by split. Qed.

Lemma wf_AddMember c u r : wf_pres (AddMember c u r).
Proof.
  pres_stmt.
  all: try (apply Forall_update_rows; [intros; by apply member_ok_role|assumption]).
  - apply uniq_insert; [assumption|].
    apply (no_row_key _ (is_member c u)); [done|]. by intros ? [= <- <-].
  - apply Forall_insert_row; [assumption|]. split; [done|]. simpl. left.
Qed.

Lemma wf_BumpCircleKeyEpoch c : wf_pres (BumpCircleKeyEpoch c).
Proof. pres_stmt. Qed.

Lemma wf_UpdateCircleName c n : wf_pres (UpdateCircleName c n).
Proof. pres_stmt. Qed.

Lemma wf_UpdateCircleRetention c n : wf_pres (UpdateCircleRetention c n).
Proof. pres_stmt. Qed.

Lemma wf_CreateCircle n d u : wf_pres (CreateCircle n d u).
Proof. apply pres_bind; [auto with aul|]. intros id. pres_stmt. Qed.

Lemma wf_RemoveMember c u : wf_pres (RemoveMember c u).
Proof. pres_stmt. Qed.

Lemma wf_SetMemberProfile c u p : wf_pres (SetMemberProfile c u p).
Proof. pres_stmt. Qed.

Lemma wf_SetPrecisionMode c u p : wf_pres (SetPrecisionMode c u p).
Proof. pres_stmt. apply Forall_update_rows; [intros ? ? []; by split|assumption]. Qed.

Lemma wf_SetMemberRole c u p : wf_pres (SetMemberRole c u p).
Proof. pres_stmt. apply Forall_update_rows; [intros; by apply member_ok_role|assumption]. Qed.

Lemma wf_ConsumeInvite i : wf_pres (ConsumeInvite i).
Proof. pres_stmt. Qed.

Lemma wf_CreateInvite c u r m e : wf_pres (CreateInvite c u r m e).
Proof.
  apply pres_bind; [auto with aul|]. intros id. pres_stmt.
  apply Forall_insert_row; [assumption|]. split_and!; simpl; [done|lia..|left].
Qed.

Lemma wf_RevokeInvite i c : wf_pres (RevokeInvite i c).
Proof.
  pres_stmt. apply Forall_update_rows; [|assumption].
  intros ? _ (? & ? & _). split_and!; simpl; [done|lia..|right; left].
Qed.

Lemma wf_CreateKeyEnvelope c r s t k : wf_pres (CreateKeyEnvelope c r s t k).
Proof.
  apply pres_bind; [auto with aul|]. intros id. pres_stmt.
  apply uniq_insert; [assumption|]. by eapply no_row_key.
Qed.

Lemma wf_MarkEnvelopeConsumed i r : wf_pres (MarkEnvelopeConsumed i r).
Proof. pres_stmt. Qed.

Lemma wf_PruneKeyEnvelopes : wf_pres PruneKeyEnvelopes.
Proof. pres_stmt. Qed.

Lemma wf_CreateSOS c d t : wf_pres (CreateSOS c d t).
Proof. apply pres_bind; [auto with aul|]. intros id. pres_stmt. Qed.

Lemma wf_PruneResolvedSOS t : wf_pres (PruneResolvedSOS t).
Proof. pres_stmt. Qed.

Lemma wf_ResolveSOS i u c : wf_pres (ResolveSOS i u c).
Proof. pres_stmt. Qed.

Lemma wf_CreatePlace c t a : wf_pres (CreatePlace c t a).
Proof. apply pres_bind; [auto with aul|]. intros id. pres_stmt. Qed.

Lemma wf_PrunePlaceTombstones t : wf_pres (PrunePlaceTombstones t).
Proof. pres_stmt. Qed.

Lemma wf_SoftDeletePlace i c u : wf_pres (SoftDeletePlace i c u).
Proof. pres_stmt. Qed.

Lemma wf_UpdatePlace i t u c v : wf_pres (UpdatePlace i t u c v).
Proof. pres_stmt. Qed.

Lemma wf_DeleteMutes u c : wf_pres (DeleteMutes u c).
Proof. pres_stmt. Qed.

Lemma wf_InsertMute u c m : wf_pres (InsertMute u c m).
Proof. pres_stmt. Qed.

(** ** Pings and shares *)

Lemma wf_InsertPing c d i n t p e : wf_pres (InsertPing c d i n t p e).
Proof. apply pres_bind; [auto with aul|]. intros id. pres_stmt. Qed.

Lemma wf_DeleteExpiredPingsForCircle c d : wf_pres (DeleteExpiredPingsForCircle c d).
Proof. pres_stmt. Qed.

Lemma wf_PruneStalePings h : wf_pres (PruneStalePings h).
Proof. pres_stmt. Qed.

Lemma wf_PruneAllPingsBefore t : wf_pres (PruneAllPingsBefore t).
Proof. pres_stmt. Qed.

Lemma wf_BindShareViewer i t : wf_pres (BindShareViewer i t).
Proof. pres_stmt. Qed.

Lemma wf_CreateShareSession u e : wf_pres (CreateShareSession u e).
Proof. apply pres_bind; [auto with aul|]. intros id. pres_stmt. Qed.

Lemma wf_RevokeShareSession i u : wf_pres (RevokeShareSession i u).
Proof. pres_stmt. Qed.

Lemma wf_UpsertSharePosition i n c t : wf_pres (UpsertSharePosition i n c t).
Proof. pres_stmt. Qed.

(** ** Statements whose uniqueness needs the rows themselves *)

(** Changing one row's key to one no other row has keeps the index. *)
Lemma uniq_update_one {R K} `{EqDecision K} (key : R -> K) (P : R -> Prop) `{forall r, Decision (P r)} f k t :
  uniq key t -> (forall r, P r -> key (f r) = k) -> k ∉ key <$> filter (fun r => ~ P r) t ->
  (forall r1 r2, r1 ∈ t -> r2 ∈ t -> P r1 -> P r2 -> key r1 = key r2) ->
  uniq key (update_where P f t).
Proof.
  unfold uniq, update_where. intros Hu Hf Hk Hone. induction t as [|r t IH]; simpl; [constructor|].
  simpl in Hu. apply NoDup_cons in Hu as [Hr Hu]. rewrite filter_cons in Hk. apply NoDup_cons. split.
  - intros (r' & Hr' & Hin)%list_elem_of_fmap. apply list_elem_of_fmap in Hin as (r0 & -> & Hin).
    destruct (decide (P r)) as [Hp|Hp], (decide (P r0)) as [Hp0|Hp0].
    + apply Hr. rewrite (Hone r r0) by (assumption || by constructor). by apply elem_of_keys.
    + rewrite decide_False in Hk by tauto. apply Hk. rewrite <- (Hf r Hp), Hr'.
      apply elem_of_keys, list_elem_of_filter. by split.
    + rewrite decide_True in Hk by done. apply Hk. simpl. rewrite Hr', (Hf r0 Hp0). left.
    + apply Hr. rewrite Hr'. by apply elem_of_keys.
  - apply IH; [done| |intros; apply Hone; by try constructor].
    case_decide; [|done]. simpl in Hk. by apply not_elem_of_cons in Hk as [_ ?].
Qed.

Lemma wf_RotateSession i a r o ae re : wf_pres (RotateSession i a r o ae re).
Proof.
  pres_stmt.
  - eapply (uniq_update_one _ _ _ a); [assumption|done|done|].
    intros r1 r2 H1 H2 [E1 _] [E2 _]. f_equal. by eapply (uniq_inj Session_ID); [| | |congruence].
  - eapply (uniq_update_one _ _ _ r); [assumption|done|done|].
    intros r1 r2 H1 H2 [E1 _] [E2 _]. f_equal. by eapply (uniq_inj Session_ID); [| | |congruence].
Qed.

Lemma wf_UpsertPushSubscription u d e p a k : wf_pres (UpsertPushSubscription u d e p a k).
Proof.
  apply pres_bind; [auto with aul|]. intros id. pres_stmt.
  apply uniq_insert; [assumption|]. by eapply no_row_key.
Qed.

Lemma wf_UpsertAppVersion p c n u s l m : wf_pres (UpsertAppVersion p c n u s l m).
Proof.
  apply pres_bind; [auto with aul|]. intros id. pres_stmt.
  apply uniq_insert; [assumption|]. eapply no_row_key; [done|]. by intros ? [= <- <-].
Qed.

(** ** Statements that delete a referenced row

    [Hk]: the keys other than the deleted one are still there. *)

Ltac cascade :=
  first [ eapply refs_cascade; [eassumption|assumption]
        | eapply refs_opt_cascade; [eassumption|assumption]
        | eapply refs_opt_setnull; [eassumption|intros; reflexivity|assumption] ].

Lemma wf_DeleteCircle id : wf_pres (DeleteCircle id).
Proof.
  pres_stmt.
  all: match goal with |- context [circles ?db] =>
    assert (Hk : forall k, k ∈ Circle_ID <$> circles db -> k <> id ->
        k ∈ Circle_ID <$> delete_where (fun c => Circle_ID c = id) (circles db))
      by (intros k Hin Hne; apply elem_of_delete_keys; [intros r _ Hr; congruence|done]) end.
  all: cascade.
Qed.

Lemma wf_DeleteDevice id u : wf_pres (DeleteDevice id u).
Proof.
  pres_stmt.
  all: repeat match goal with
    | |- uniq _ (update_where _ _ _) => apply uniq_update; [intros; reflexivity|]
    | |- uniq _ (delete_where _ _) => apply uniq_delete; assumption
    | |- refs _ (Circle_ID <$> _) (update_where _ _ _) =>
        apply Forall_update_rows; [intros ? ? ?; assumption|apply Forall_delete_rows; assumption]
    | |- refs _ _ (update_where _ _ _) => apply Forall_update_rows; [intros ? ? ?; assumption|]
    end.
  all: try match goal with |- context [devices ?db] =>
    assert (Hk : forall k, k ∈ Device_ID <$> devices db -> k <> id ->
        k ∈ Device_ID <$> delete_where (fun d => Device_ID d = id /\ Device_UserID d = u) (devices db))
      by (intros k Hin Hne; apply elem_of_delete_keys; [intros r _ [Hr _]; congruence|done]) end.
  all: try cascade.
  match goal with |- context [devices ?db] =>
    apply (refs_opt_setnull _ _ _ (Device_ID <$> devices db)) end;
    [|intros; reflexivity|apply Forall_delete_rows; assumption].
  intros k Hin Hne. apply elem_of_delete_keys; [|done]. intros r _ [Hr _]. congruence.
Qed.

Lemma wf_PruneShareSessions g : wf_pres (PruneShareSessions g).
Proof.
  pres_stmt. apply Forall_forall. intros p [Hp Hin]%list_elem_of_filter.
  match goal with H : refs SharePosition_SessionID _ _ |- _ => eapply Forall_forall in H as Hs; [|exact Hin] end.
  apply list_elem_of_fmap in Hs as (s & Hs & Hss). rewrite Hs.
  apply elem_of_keys, list_elem_of_filter. split; [|done]. intros HP. apply Hp. rewrite Hs.
  apply elem_of_keys, list_elem_of_filter. by split.
Qed.

#[export] Hint Resolve wf_CreateUser wf_UpdateUserPassword wf_CreateDevice wf_SetDevicePubkey
  wf_SetDevicePushToken wf_TouchDevice wf_CreateSession wf_DeleteExpiredSessions wf_revoke_where
  wf_RecordLoginAttempt wf_PruneLoginAttempts wf_WriteAudit wf_PruneAuditIPs wf_DeletePushSubscription
  wf_DeletePushSubscriptionByID wf_AddMember wf_BumpCircleKeyEpoch wf_UpdateCircleName
  wf_UpdateCircleRetention wf_CreateCircle wf_RemoveMember wf_SetMemberProfile wf_SetPrecisionMode
  wf_SetMemberRole wf_ConsumeInvite wf_CreateInvite wf_RevokeInvite wf_CreateKeyEnvelope
  wf_MarkEnvelopeConsumed wf_PruneKeyEnvelopes wf_CreateSOS wf_PruneResolvedSOS wf_ResolveSOS
  wf_CreatePlace wf_PrunePlaceTombstones wf_SoftDeletePlace wf_UpdatePlace wf_DeleteMutes wf_InsertMute
  wf_InsertPing wf_DeleteExpiredPingsForCircle wf_PruneStalePings wf_PruneAllPingsBefore
  wf_BindShareViewer wf_CreateShareSession wf_RevokeShareSession wf_UpsertSharePosition
  wf_RotateSession wf_UpsertPushSubscription wf_UpsertAppVersion wf_DeleteCircle wf_DeleteDevice
  wf_PruneShareSessions : aul.
