(* ===== verification/PgAccounts.v ===== *)
(** * Postgres statements: accounts (store/users.sql.go, devices.sql.go, sessions.sql.go, misc.sql.go)

    The queries sqlc generated for pgx, one definition per method of [*Queries],
    as the texts of their SQL say; the constraints, CHECKs and foreign-key
    actions are those of db/migrations, which the SQLite schema repeats (the
    definitions of [StoreAccounts] that state them are shared).  A timestamptz
    holds microseconds; the session's time zone is UTC, so that a day has 24
    hours.  citext compares emails folded by the locale of the database, a
    parameter; so is the order in which the executor comes to the rows of a SELECT
    ([scan]), which an ORDER BY leaves open among equal keys. *)

From S2P Require Import Prelude Table GoTime Models Api Hub World StoreAccounts.
Local Open Scope Z_scope.
Local Open Scope aul_scope.

Definition Microsecond : duration := 1000.

(** What a timestamptz holds of an instant, of a nullable one, and now(). *)
Definition pgts (t : time) : time := t / Microsecond * Microsecond.
Definition pgtsp (t : option time) : option time := pgts <$> t.
Definition pgNow (now : time) : time := pgts now.

Section accounts.
Context (citext : string -> string) (scan : forall R : Type, list R -> list R).

Definition user_email (u : User) : string := citext (User_Email u).

(** A comparison with NULL holds of no row. *)
Definition attempt_of (email : option string) (la : LoginAttempt) : Prop :=
  email <> None /\ (citext <$> LoginAttempt_Email la) = (citext <$> email).

#[export] Instance attempt_of_decision email la : Decision (attempt_of email la).
Proof. unfold attempt_of. apply _. Defined.

(** ** users.sql *)

Definition CreateUser (Email PassHash : string) : M User :=
  let! id := uuid_New in
  sql (fun now db =>
    let r := mkUser id Email PassHash (pgNow now) (pgNow now) in
    require (id ∉ User_ID <$> users db)
      (require (citext Email ∉ user_email <$> users db)
        (Ok (r, set_users (users db ++ [r]) db)))).

Definition EmailExists (email : string) : M bool :=
  query (fun now db => Ok (bool_decide (citext email ∈ user_email <$> users db))).

Definition GetUserByEmail (email : string) : M User :=
  query (fun now db => one (filter (fun u => user_email u = citext email) (users db))).

Definition GetUserByID (id : uuid) : M User :=
  query (fun now db => one (filter (fun u => User_ID u = id) (users db))).

Definition UpdateUserPassword (ID : uuid) (PassHash : string) : M unit :=
  sql (fun now db => Ok (tt, set_users
    (update_where (fun u => User_ID u = ID)
      (fun u => User_set_UpdatedAt (pgNow now) (User_set_PassHash PassHash u)) (users db)) db)).

(** ** devices.sql *)

Definition CreateDevice (UserID : uuid) (Platform : string) (DisplayName : option string)
    (Pubkey : option bytes) : M Device :=
  let! id := uuid_New in
  sql (fun now db =>
    let r := mkDevice id UserID Platform DisplayName Pubkey None (pgNow now) None in
    require (Platform ∈ platforms)
      (require (id ∉ Device_ID <$> devices db)
        (require (UserID ∈ User_ID <$> users db)
          (Ok (r, set_devices (devices db ++ [r]) db))))).

Definition DeleteDevice (ID UserID : uuid) : M unit :=
  sql (fun now db =>
    if decide (Exists (fun d => Device_ID d = ID /\ Device_UserID d = UserID) (devices db)) then
      Ok (tt, cascade_device ID
        (set_devices (delete_where (fun d => Device_ID d = ID /\ Device_UserID d = UserID) (devices db)) db))
    else Ok (tt, db)).

Definition GetDevice (id : uuid) : M Device :=
  query (fun now db => one (filter (fun d => Device_ID d = id) (devices db))).

Definition GetDeviceForUser (ID UserID : uuid) : M Device :=
  query (fun now db => one (filter (fun d => Device_ID d = ID /\ Device_UserID d = UserID) (devices db))).

Definition ListCircleDevices (circleID : uuid) : M (list Device) :=
  query (fun now db => Ok (sort_by Device_CreatedAt (scan _
    (fst <$> sql_join (fun d cm => CircleMember_UserID cm = Device_UserID d /\ CircleMember_CircleID cm = circleID)
      (devices db) (circle_members db))))).

Definition ListDevicesForUser (userID : uuid) : M (list Device) :=
  query (fun now db => Ok (sort_by Device_CreatedAt (scan _ (filter (fun d => Device_UserID d = userID) (devices db))))).

Definition SetDevicePubkey (ID : uuid) (Pubkey : option bytes) : M unit :=
  sql (fun now db => Ok (tt, set_devices
    (update_where (fun d => Device_ID d = ID) (Device_set_Pubkey Pubkey) (devices db)) db)).

Definition SetDevicePushToken (ID : uuid) (PushToken : option string) : M unit :=
  sql (fun now db => Ok (tt, set_devices
    (update_where (fun d => Device_ID d = ID) (Device_set_PushToken PushToken) (devices db)) db)).

Definition TouchDevice (id : uuid) : M unit :=
  sql (fun now db => Ok (tt, set_devices
    (update_where (fun d => Device_ID d = id) (Device_set_LastSeen (Some (pgNow now))) (devices db)) db)).

(** ** sessions.sql *)

Definition CreateSession (UserID DeviceID : uuid) (AccessTokenHash RefreshTokenHash : string)
    (AccessExpiresAt RefreshExpiresAt : time) : M Session :=
  let! id := uuid_New in
  sql (fun now db =>
    let r := mkSession id UserID DeviceID AccessTokenHash RefreshTokenHash None
      (pgts AccessExpiresAt) (pgts RefreshExpiresAt) None (pgNow now) (pgNow now) in
    require (id ∉ Session_ID <$> sessions db)
      (require (AccessTokenHash ∉ Session_AccessTokenHash <$> sessions db)
        (require (RefreshTokenHash ∉ Session_RefreshTokenHash <$> sessions db)
          (require (UserID ∈ User_ID <$> users db)
            (require (DeviceID ∈ Device_ID <$> devices db)
              (Ok (r, set_sessions (sessions db ++ [r]) db))))))).

Definition DeleteExpiredSessions : M Z :=
  sql (fun now db =>
    let cutoff := AddDays (pgNow now) (- 1) in
    let P s := Session_RefreshExpiresAt s < cutoff \/ before_opt (Session_RevokedAt s) cutoff in
    Ok (count_where P (sessions db), set_sessions (delete_where P (sessions db)) db)).

Definition GetSessionByAccessHash (accessTokenHash : string) : M Session :=
  query (fun now db => one (filter (fun s =>
    Session_AccessTokenHash s = accessTokenHash /\ Session_RevokedAt s = None /\
    Session_AccessExpiresAt s > pgNow now) (sessions db))).

(** A NULL parameter equals no row's column. *)
Definition GetSessionByPrevRefreshHash (prevRefreshHash : option string) : M Session :=
  query (fun now db => one (scan _ (filter (fun s =>
    prevRefreshHash <> None /\ Session_PrevRefreshHash s = prevRefreshHash /\ Session_RevokedAt s = None)
    (sessions db)))).

Definition GetSessionByRefreshHash (refreshTokenHash : string) : M Session :=
  query (fun now db => one (filter (fun s =>
    Session_RefreshTokenHash s = refreshTokenHash /\ Session_RevokedAt s = None /\
    Session_RefreshExpiresAt s > pgNow now) (sessions db))).

(** The session with its device's platform and display name. *)
Definition ListActiveSessionsForUser (userID : uuid) : M (list (Session * Device)) :=
  query (fun now db => Ok (sort_by (fun sd => - Session_RotatedAt sd.1) (scan _
    (sql_join (fun s d => Device_ID d = Session_DeviceID s /\ Session_UserID s = userID /\
        Session_RevokedAt s = None /\ Session_RefreshExpiresAt s > pgNow now)
      (sessions db) (devices db))))).

Definition RevokeSession (id : uuid) : M unit :=
  sql (fun now db => Ok (tt, set_sessions
    (update_where (fun s => Session_ID s = id /\ Session_RevokedAt s = None)
      (Session_set_RevokedAt (Some (pgNow now))) (sessions db)) db)).

Definition RevokeSessionsForDevice (deviceID : uuid) : M unit :=
  sql (fun now db => Ok (tt, set_sessions
    (update_where (fun s => Session_DeviceID s = deviceID /\ Session_RevokedAt s = None)
      (Session_set_RevokedAt (Some (pgNow now))) (sessions db)) db)).

Definition RevokeSessionsForUser (userID : uuid) : M unit :=
  sql (fun now db => Ok (tt, set_sessions
    (update_where (fun s => Session_UserID s = userID /\ Session_RevokedAt s = None)
      (Session_set_RevokedAt (Some (pgNow now))) (sessions db)) db)).

Definition RotateSession (ID : uuid) (AccessTokenHash RefreshTokenHash OldRefreshHash : string)
    (AccessExpiresAt RefreshExpiresAt : time) : M Session :=
  sql (fun now db =>
    let P s := Session_ID s = ID /\ Session_RefreshTokenHash s = OldRefreshHash /\ Session_RevokedAt s = None in
    let f s := Session_set_RotatedAt (pgNow now) (Session_set_RefreshExpiresAt (pgts RefreshExpiresAt)
      (Session_set_AccessExpiresAt (pgts AccessExpiresAt) (Session_set_PrevRefreshHash (Some OldRefreshHash)
        (Session_set_RefreshTokenHash RefreshTokenHash (Session_set_AccessTokenHash AccessTokenHash s))))) in
    let others := filter (fun s => ~ P s) (sessions db) in
    r <-? one (filter P (sessions db)) ;;
    require (AccessTokenHash ∉ Session_AccessTokenHash <$> others)
      (require (RefreshTokenHash ∉ Session_RefreshTokenHash <$> others)
        (Ok (f r, set_sessions (update_where P f (sessions db)) db)))).

(** ** misc.sql: login attempts *)

Definition RecordLoginAttempt (Email Ip : option string) (Success : bool) : M unit :=
  sql (fun now db =>
    Ok (tt, set_login_attempts_seq (login_attempts_seq db + 1)
      (set_login_attempts
        (login_attempts db ++ [mkLoginAttempt (login_attempts_seq db) Email Ip Success (pgNow now)]) db))).

(** make_interval(secs): the window is whole seconds, which a double carries
    exactly; the fallback of COALESCE is 'epoch'. *)
Definition CountRecentFailuresByEmail (Email : option string) (Window : duration) : M Z :=
  query (fun now db =>
    let last_ok := default 0 (sql_max (LoginAttempt_CreatedAt <$>
      filter (fun la => attempt_of Email la /\ LoginAttempt_Success la = true) (login_attempts db))) in
    Ok (count_where (fun la => attempt_of Email la /\ LoginAttempt_Success la = false /\
      LoginAttempt_CreatedAt la > Add (pgNow now) (- Window) /\ LoginAttempt_CreatedAt la > last_ok) (login_attempts db))).

Definition CountRecentFailuresByIP (Ip : option string) (Window : duration) : M Z :=
  query (fun now db =>
    Ok (count_where (fun la => Ip <> None /\ LoginAttempt_Ip la = Ip /\ LoginAttempt_Success la = false /\
      LoginAttempt_CreatedAt la > Add (pgNow now) (- Window)) (login_attempts db))).

Definition PruneLoginAttempts (keepDays : Z) : M Z :=
  sql (fun now db =>
    let P la := LoginAttempt_CreatedAt la < (AddDays (pgNow now) (- keepDays)) in
    Ok (count_where P (login_attempts db), set_login_attempts (delete_where P (login_attempts db)) db)).

(** ** misc.sql: audit *)

Definition WriteAudit (Event : string) (ActorUserID ActorDeviceID CircleID : option uuid)
    (Ip : option string) (Detail : option AuditDetail) : M unit :=
  sql (fun now db =>
    Ok (tt, set_audit_log_seq (audit_log_seq db + 1)
      (set_audit_log (audit_log db ++
        [mkAuditLog (audit_log_seq db) (pgNow now) Event ActorUserID ActorDeviceID CircleID Ip Detail]) db))).

Definition ListAuditForUser (ActorUserID : option uuid) (Limit : Z) : M (list AuditLog) :=
  query (fun now db => Ok (firstn (Z.to_nat Limit) (sort_by (fun a => - AuditLog_Ts a)
    (scan _ (filter (fun a => ActorUserID <> None /\ AuditLog_ActorUserID a = ActorUserID) (audit_log db)))))).

Definition PruneAuditIPs (keepDays : Z) : M Z :=
  sql (fun now db =>
    let P a := AuditLog_Ip a <> None /\ AuditLog_Ts a < (AddDays (pgNow now) (- keepDays)) in
    Ok (count_where P (audit_log db), set_audit_log (update_where P (AuditLog_set_Ip None) (audit_log db)) db)).

(** ** misc.sql: push subscriptions and app versions *)

Definition UpsertPushSubscription (UserID : uuid) (DeviceID : option uuid) (Endpoint : string)
    (P256dh Auth : option string) (Kind : string) : M PushSubscription :=
  let! id := uuid_New in
  sql (fun now db =>
    require (push_shape Kind P256dh Auth)
      (require (UserID ∈ User_ID <$> users db)
        (match filter (fun p => PushSubscription_Endpoint p = Endpoint) (push_subscriptions db) with
         | old :: _ =>
             let f p := PushSubscription_set_Kind Kind (PushSubscription_set_UserID UserID
               (PushSubscription_set_Auth Auth (PushSubscription_set_P256dh P256dh p))) in
             Ok (f old, set_push_subscriptions
               (update_where (fun p => PushSubscription_Endpoint p = Endpoint) f (push_subscriptions db)) db)
         | [] =>
             let r := mkPushSubscription id UserID DeviceID Endpoint P256dh Auth (pgNow now) Kind in
             require (id ∉ PushSubscription_ID <$> push_subscriptions db)
               (require (key_in DeviceID (Device_ID <$> devices db))
                 (Ok (r, set_push_subscriptions (push_subscriptions db ++ [r]) db)))
         end))).

Definition DeletePushSubscription (Endpoint : string) (UserID : uuid) : M unit :=
  sql (fun now db => Ok (tt, set_push_subscriptions
    (delete_where (fun p => PushSubscription_Endpoint p = Endpoint /\ PushSubscription_UserID p = UserID)
      (push_subscriptions db)) db)).

Definition DeletePushSubscriptionByID (id : uuid) : M unit :=
  sql (fun now db => Ok (tt, set_push_subscriptions
    (delete_where (fun p => PushSubscription_ID p = id) (push_subscriptions db)) db)).

Definition ListCirclePushSubscriptions (CircleID SenderUserID : uuid) : M (list PushSubscription) :=
  query (fun now db => Ok (sort_by PushSubscription_CreatedAt (scan _ (fst <$> sql_join
    (fun ps cm => CircleMember_UserID cm = PushSubscription_UserID ps /\ CircleMember_CircleID cm = CircleID /\
      PushSubscription_UserID ps <> SenderUserID /\
      ~ Exists (silences (PushSubscription_UserID ps) CircleID SenderUserID) (notification_mutes db))
    (push_subscriptions db) (circle_members db))))).

Definition LatestActiveVersion (platform : string) : M AppVersion :=
  query (fun now db => one (sort_by (fun v => - AppVersion_VersionCode v)
    (scan _ (filter (fun v => AppVersion_Platform v = platform /\ AppVersion_IsActive v = true) (app_versions db))))).

Definition UpsertAppVersion (Platform : string) (VersionCode : Z) (VersionName : string)
    (ApkUrl Sha256 Changelog : option string) (MinSupported : Z) : M AppVersion :=
  let! id := uuid_New in
  sql (fun now db =>
    let same v := AppVersion_Platform v = Platform /\ AppVersion_VersionCode v = VersionCode in
    require (Platform ∈ app_platforms)
      (match filter same (app_versions db) with
       | old :: _ =>
           let f v := AppVersion_set_IsActive true (AppVersion_set_MinSupported MinSupported
             (AppVersion_set_Changelog Changelog (AppVersion_set_Sha256 Sha256
               (AppVersion_set_ApkUrl ApkUrl (AppVersion_set_VersionName VersionName v))))) in
           Ok (f old, set_app_versions (update_where same f (app_versions db)) db)
       | [] =>
           let r := mkAppVersion id Platform VersionCode VersionName ApkUrl Sha256 Changelog MinSupported
             true (pgNow now) in
           require (id ∉ AppVersion_ID <$> app_versions db)
             (Ok (r, set_app_versions (app_versions db ++ [r]) db))
       end)).
End accounts.
