(* ===== verification/PgCircles.v ===== *)
(** * Postgres statements: circles (store/circles.sql.go, invites.sql.go, places.sql.go, sos.sql.go,
    key_envelopes.sql.go, mutes.sql.go)

    The queries sqlc generated for pgx, as [PgAccounts] models them. *)

From S2P Require Import Prelude Table GoTime Models Api Hub World StoreAccounts StoreCircles PgAccounts.
Local Open Scope Z_scope.
Local Open Scope aul_scope.

Section circles.
Context (scan : forall R : Type, list R -> list R).

(** ** circles.sql *)

Definition AddMember (CircleID UserID : uuid) (Role : string) : M CircleMember :=
  sql (fun now db =>
    require (Role ∈ roles)
      (match filter (is_member CircleID UserID) (circle_members db) with
       | old :: _ =>
           Ok (CircleMember_set_Role Role old,
               set_circle_members (update_where (is_member CircleID UserID) (CircleMember_set_Role Role)
                 (circle_members db)) db)
       | [] =>
           let r := mkCircleMember CircleID UserID Role "precise" (pgNow now) None in
           require (CircleID ∈ Circle_ID <$> circles db)
             (require (UserID ∈ User_ID <$> users db)
               (Ok (r, set_circle_members (circle_members db ++ [r]) db)))
       end)).

Definition AllCircleRetention : M (list (uuid * Z)) :=
  query (fun now db => Ok (scan _ ((fun c => (Circle_ID c, Circle_RetentionDays c)) <$> circles db))).

(** [UPDATE circles SET ... WHERE id = $1 RETURNING]. *)
Definition update_circle_returning (id : uuid) (f : Circle -> Circle) : M Circle :=
  sql (fun now db =>
    r <-? one (filter (fun c => Circle_ID c = id) (circles db)) ;;
    Ok (f r, set_circles (update_where (fun c => Circle_ID c = id) f (circles db)) db)).

(** An int column past its range is an error. *)
Definition BumpCircleKeyEpoch (id : uuid) : M Circle :=
  sql (fun now db =>
    let f c := Circle_set_KeyEpoch (Circle_KeyEpoch c + 1) c in
    r <-? one (filter (fun c => Circle_ID c = id) (circles db)) ;;
    require (in_int 32 (Circle_KeyEpoch r + 1))
      (Ok (f r, set_circles (update_where (fun c => Circle_ID c = id) f (circles db)) db))).

Definition CountOwners (circleID : uuid) : M Z :=
  query (fun now db => Ok (count_where
    (fun m => CircleMember_CircleID m = circleID /\ CircleMember_Role m = "owner"%string) (circle_members db))).

Definition CreateCircle (NameEnc : option bytes) (RetentionDays : Z) (CreatedBy : uuid) : M Circle :=
  let! id := uuid_New in
  sql (fun now db =>
    let r := mkCircle id NameEnc RetentionDays 1 CreatedBy (pgNow now) in
    require (retention_ok RetentionDays)
      (require (id ∉ Circle_ID <$> circles db)
        (require (CreatedBy ∈ User_ID <$> users db)
          (Ok (r, set_circles (circles db ++ [r]) db))))).

Definition DeleteCircle (id : uuid) : M unit :=
  sql (fun now db => Ok (tt, cascade_circle id
    (set_circles (delete_where (fun c => Circle_ID c = id) (circles db)) db))).

Definition GetCircle (id : uuid) : M Circle :=
  query (fun now db => one (filter (fun c => Circle_ID c = id) (circles db))).

Definition GetMembership (CircleID UserID : uuid) : M CircleMember :=
  query (fun now db => one (filter (is_member CircleID UserID) (circle_members db))).

(** The circle with the member row's role and precision. *)
Definition ListCirclesForUser (userID : uuid) : M (list (Circle * CircleMember)) :=
  query (fun now db => Ok (sort_by (fun cm => Circle_CreatedAt cm.1) (scan _
    (sql_join (fun c m => CircleMember_CircleID m = Circle_ID c /\ CircleMember_UserID m = userID)
      (circles db) (circle_members db))))).

Definition ListMembers (circleID : uuid) : M (list (CircleMember * User)) :=
  query (fun now db => Ok (sort_by (fun mu => CircleMember_JoinedAt mu.1) (scan _
    (sql_join (fun m u => User_ID u = CircleMember_UserID m /\ CircleMember_CircleID m = circleID)
      (circle_members db) (users db))))).

Definition RemoveMember (CircleID UserID : uuid) : M unit :=
  sql (fun now db => Ok (tt,
    set_circle_members (delete_where (is_member CircleID UserID) (circle_members db)) db)).

Definition SetMemberProfile (CircleID UserID : uuid) (ProfileEnc : option bytes) : M unit :=
  sql (fun now db => Ok (tt, set_circle_members
    (update_where (is_member CircleID UserID) (CircleMember_set_ProfileEnc ProfileEnc) (circle_members db)) db)).

(** [UPDATE circle_members SET ... RETURNING]; [ok] is the column's CHECK. *)
Definition update_member_returning (CircleID UserID : uuid) (ok : Prop) `{Decision ok}
    (f : CircleMember -> CircleMember) : M CircleMember :=
  sql (fun now db =>
    r <-? one (filter (is_member CircleID UserID) (circle_members db)) ;;
    require ok
      (Ok (f r, set_circle_members (update_where (is_member CircleID UserID) f (circle_members db)) db))).

Definition SetMemberRole (CircleID UserID : uuid) (Role : string) : M CircleMember :=
  update_member_returning CircleID UserID (Role ∈ roles) (CircleMember_set_Role Role).

Definition SetPrecisionMode (CircleID UserID : uuid) (PrecisionMode : string) : M CircleMember :=
  update_member_returning CircleID UserID (PrecisionMode ∈ precision_modes) (CircleMember_set_PrecisionMode PrecisionMode).

Definition UpdateCircleName (ID : uuid) (NameEnc : option bytes) : M Circle :=
  update_circle_returning ID (Circle_set_NameEnc NameEnc).

Definition UpdateCircleRetention (ID : uuid) (RetentionDays : Z) : M Circle :=
  sql (fun now db =>
    r <-? one (filter (fun c => Circle_ID c = ID) (circles db)) ;;
    require (retention_ok RetentionDays)
      (Ok (Circle_set_RetentionDays RetentionDays r,
        set_circles (update_where (fun c => Circle_ID c = ID) (Circle_set_RetentionDays RetentionDays)
          (circles db)) db))).

(** user_id = ANY($2): of an empty array, none. *)
Definition CountMembersIn (CircleID : uuid) (UserIds : list uuid) : M Z :=
  query (fun now db => Ok (count_where
    (fun m => CircleMember_CircleID m = CircleID /\ CircleMember_UserID m ∈ UserIds) (circle_members db))).

(** ** invites.sql *)

Definition ConsumeInvite (id : uuid) : M Invite :=
  sql (fun now db =>
    let P i := Invite_ID i = id /\ (Invite_Status i = "active"%string /\ Invite_ExpiresAt i > pgNow now /\ Invite_Uses i < Invite_MaxUses i) in
    let f i := Invite_set_Uses (Invite_Uses i + 1) i in
    r <-? one (filter P (invites db)) ;;
    require (in_int 32 (Invite_Uses r + 1))
      (Ok (f r, set_invites (update_where P f (invites db)) db))).

Definition CountRecentInvitesByUser (createdBy : uuid) : M Z :=
  query (fun now db => Ok (count_where
    (fun i => Invite_CreatedBy i = createdBy /\ Invite_CreatedAt i > (Add (pgNow now) (- Hour))) (invites db))).

Definition CreateInvite (CircleID CreatedBy : uuid) (Role : string) (MaxUses : Z) (ExpiresAt : time) : M Invite :=
  let! id := uuid_New in
  sql (fun now db =>
    let r := mkInvite id CircleID CreatedBy Role MaxUses 0 (pgts ExpiresAt) "active" (pgNow now) in
    require (Role ∈ invite_roles)
      (require (1 <= MaxUses <= 1000)
        (require (id ∉ Invite_ID <$> invites db)
          (require (CircleID ∈ Circle_ID <$> circles db)
            (require (CreatedBy ∈ User_ID <$> users db)
              (Ok (r, set_invites (invites db ++ [r]) db))))))).

Definition GetInvite (id : uuid) : M Invite :=
  query (fun now db => one (filter (fun i => Invite_ID i = id) (invites db))).

Definition ListInvitesForCircle (circleID : uuid) : M (list Invite) :=
  query (fun now db => Ok (sort_by (fun i => - Invite_CreatedAt i)
    (scan _ (filter (fun i => Invite_CircleID i = circleID /\ Invite_Status i = "active"%string /\
      Invite_ExpiresAt i > pgNow now) (invites db))))).

Definition RevokeInvite (ID CircleID : uuid) : M unit :=
  sql (fun now db => Ok (tt, set_invites
    (update_where (fun i => Invite_ID i = ID /\ Invite_CircleID i = CircleID) (Invite_set_Status "revoked")
      (invites db)) db)).

(** ** key_envelopes.sql *)

Definition CreateKeyEnvelope (CircleID RecipientDeviceID : uuid) (SenderDeviceID : option uuid)
    (Ciphertext : bytes) (KeyEpoch : Z) : M KeyEnvelope :=
  let! id := uuid_New in
  sql (fun now db =>
    let same e := envelope_key e = (CircleID, RecipientDeviceID, KeyEpoch) in
    require (key_in SenderDeviceID (Device_ID <$> devices db))
      (match filter same (key_envelopes db) with
       | old :: _ =>
           let f e := KeyEnvelope_set_ConsumedAt None (KeyEnvelope_set_CreatedAt (pgNow now)
             (KeyEnvelope_set_SenderDeviceID SenderDeviceID (KeyEnvelope_set_Ciphertext Ciphertext e))) in
           Ok (f old, set_key_envelopes (update_where same f (key_envelopes db)) db)
       | [] =>
           let r := mkKeyEnvelope id CircleID RecipientDeviceID SenderDeviceID Ciphertext KeyEpoch
             (pgNow now) None in
           require (id ∉ KeyEnvelope_ID <$> key_envelopes db)
             (require (CircleID ∈ Circle_ID <$> circles db)
               (require (RecipientDeviceID ∈ Device_ID <$> devices db)
                 (Ok (r, set_key_envelopes (key_envelopes db ++ [r]) db))))
       end)).

Definition MarkEnvelopeConsumed (ID RecipientDeviceID : uuid) : M unit :=
  sql (fun now db => Ok (tt, set_key_envelopes
    (update_where (fun e => KeyEnvelope_ID e = ID /\ KeyEnvelope_RecipientDeviceID e = RecipientDeviceID /\
        KeyEnvelope_ConsumedAt e = None)
      (KeyEnvelope_set_ConsumedAt (Some (pgNow now))) (key_envelopes db)) db)).

Definition PendingEnvelopesForDevice (recipientDeviceID : uuid) : M (list KeyEnvelope) :=
  query (fun now db => Ok (firstn 500 (sort_by KeyEnvelope_CreatedAt
    (scan _ (filter (fun e => KeyEnvelope_RecipientDeviceID e = recipientDeviceID /\ KeyEnvelope_ConsumedAt e = None)
      (key_envelopes db)))))).

Definition PruneKeyEnvelopes : M Z :=
  sql (fun now db =>
    let P e := before_opt (KeyEnvelope_ConsumedAt e) ((AddDays (pgNow now) (-7))) \/
      (KeyEnvelope_ConsumedAt e = None /\ KeyEnvelope_CreatedAt e < (AddDays (pgNow now) (-30))) in
    Ok (count_where P (key_envelopes db), set_key_envelopes (delete_where P (key_envelopes db)) db)).

(** ** sos.sql *)

Definition CreateSOS (CircleID : uuid) (DeviceID : option uuid) (Ciphertext : bytes) : M SosEvent :=
  let! id := uuid_New in
  sql (fun now db =>
    let r := mkSosEvent id CircleID DeviceID Ciphertext (pgNow now) None None in
    require (id ∉ SosEvent_ID <$> sos_events db)
      (require (CircleID ∈ Circle_ID <$> circles db)
        (require (key_in DeviceID (Device_ID <$> devices db))
          (Ok (r, set_sos_events (sos_events db ++ [r]) db))))).

Definition GetSOS (id : uuid) : M SosEvent :=
  query (fun now db => one (filter (fun e => SosEvent_ID e = id) (sos_events db))).

Definition ListActiveSOS (circleID : uuid) : M (list SosEvent) :=
  query (fun now db => Ok (sort_by (fun e => - SosEvent_CreatedAt e)
    (scan _ (filter (fun e => SosEvent_CircleID e = circleID /\ SosEvent_ResolvedAt e = None) (sos_events db))))).

Definition PruneResolvedSOS (resolvedAt : option time) : M Z :=
  sql (fun now db =>
    let P := resolved_before (pgtsp resolvedAt) in
    Ok (count_where P (sos_events db), set_sos_events (delete_where P (sos_events db)) db)).

Definition ResolveSOS (ID : uuid) (ResolvedBy : option uuid) (CircleID : uuid) : M SosEvent :=
  sql (fun now db =>
    let P e := SosEvent_ID e = ID /\ SosEvent_CircleID e = CircleID /\ SosEvent_ResolvedAt e = None in
    let f e := SosEvent_set_ResolvedBy ResolvedBy (SosEvent_set_ResolvedAt (Some (pgNow now)) e) in
    r <-? one (filter P (sos_events db)) ;;
    require (key_in ResolvedBy (User_ID <$> users db))
      (Ok (f r, set_sos_events (update_where P f (sos_events db)) db))).

(** ** places.sql *)

Definition CreatePlace (CircleID : uuid) (Ciphertext : bytes) (AuthorID : option uuid) : M PlacesEnc :=
  let! id := uuid_New in
  sql (fun now db =>
    let r := mkPlacesEnc id CircleID Ciphertext 1 false AuthorID (pgNow now) (pgNow now) AuthorID in
    require (id ∉ PlacesEnc_ID <$> places_enc db)
      (require (CircleID ∈ Circle_ID <$> circles db)
        (require (key_in AuthorID (User_ID <$> users db))
          (Ok (r, set_places_enc (places_enc db ++ [r]) db))))).

Definition ListPlaces (circleID : uuid) : M (list PlacesEnc) :=
  query (fun now db => Ok (sort_by PlacesEnc_CreatedAt
    (scan _ (filter (fun p => PlacesEnc_CircleID p = circleID /\ PlacesEnc_Deleted p = false) (places_enc db))))).

Definition PrunePlaceTombstones (updatedAt : time) : M Z :=
  sql (fun now db =>
    let P p := PlacesEnc_Deleted p = true /\ PlacesEnc_UpdatedAt p < pgts updatedAt in
    Ok (count_where P (places_enc db), set_places_enc (delete_where P (places_enc db)) db)).

(** [UPDATE places_enc SET ..., version = version + 1, updated_by, updated_at ... RETURNING]. *)
Definition update_place_returning (P : PlacesEnc -> Prop) `{forall p, Decision (P p)} (UpdatedBy : option uuid)
    (g : PlacesEnc -> PlacesEnc) : M PlacesEnc :=
  sql (fun now db =>
    let f p := PlacesEnc_set_UpdatedAt (pgNow now) (PlacesEnc_set_UpdatedBy UpdatedBy
      (PlacesEnc_set_Version (PlacesEnc_Version p + 1) (g p))) in
    r <-? one (filter P (places_enc db)) ;;
    require (in_int 32 (PlacesEnc_Version r + 1))
      (require (key_in UpdatedBy (User_ID <$> users db))
        (Ok (f r, set_places_enc (update_where P f (places_enc db)) db)))).

Definition SoftDeletePlace (ID CircleID : uuid) (UpdatedBy : option uuid) : M PlacesEnc :=
  update_place_returning (fun p => PlacesEnc_ID p = ID /\ PlacesEnc_CircleID p = CircleID /\ PlacesEnc_Deleted p = false)
    UpdatedBy (PlacesEnc_set_Deleted true).

Definition UpdatePlace (ID : uuid) (Ciphertext : bytes) (UpdatedBy : option uuid) (CircleID : uuid)
    (Version : Z) : M PlacesEnc :=
  update_place_returning (fun p => PlacesEnc_ID p = ID /\ PlacesEnc_CircleID p = CircleID /\
      PlacesEnc_Version p = Version /\ PlacesEnc_Deleted p = false)
    UpdatedBy (PlacesEnc_set_Ciphertext Ciphertext).

(** ** mutes.sql *)

Definition ListMutes (UserID CircleID : uuid) : M (list (option uuid)) :=
  query (fun now db => Ok (NotificationMute_MutedUserID <$>
    sort_by NotificationMute_CreatedAt (scan _ (filter (mutes_of UserID CircleID) (notification_mutes db))))).

Definition DeleteMutes (UserID CircleID : uuid) : M unit :=
  sql (fun now db => Ok (tt,
    set_notification_mutes (delete_where (mutes_of UserID CircleID) (notification_mutes db)) db)).

(** UNIQUE NULLS NOT DISTINCT. *)
Definition InsertMute (UserID CircleID : uuid) (MutedUserID : option uuid) : M unit :=
  sql (fun now db =>
    let r := mkNotificationMute UserID CircleID MutedUserID (pgNow now) in
    if decide (mute_key r ∈ mute_key <$> notification_mutes db) then Ok (tt, db) else
    require (UserID ∈ User_ID <$> users db)
      (require (CircleID ∈ Circle_ID <$> circles db)
        (require (key_in MutedUserID (User_ID <$> users db))
          (Ok (tt, set_notification_mutes (notification_mutes db ++ [r]) db))))).
End circles.
