(* ===== verification/PgPings.v ===== *)
(** * Postgres statements: pings and live shares (store/pings.sql.go, share.sql.go, misc.sql.go)

    The queries sqlc generated for pgx, as [PgAccounts] models them; which
    instants have a partition is a parameter here (see [Partitions]). *)

From S2P Require Import Prelude Table GoTime Models Api Hub World StoreAccounts StorePings PgAccounts.
Local Open Scope Z_scope.
Local Open Scope aul_scope.

Section pings.
Context (scan : forall R : Type, list R -> list R).

(** ** pings.sql *)

Definition CountPingsForCircle (circleID : uuid) : M Z :=
  query (fun now db => Ok (count_where (fun p => Ping_CircleID p = circleID) (pings db))).

(** The row goes to the partition of its captured_at and there must be one; ON
    CONFLICT DO NOTHING RETURNING: a duplicate yields no row. *)
Definition InsertPing (has_partition : time -> bool) (CircleID DeviceID : uuid) (ClientID : string)
    (Nonce Ciphertext : bytes) (CapturedAt : time) (ExpiresAt : option time) : M Ping :=
  let! id := uuid_New in
  sql (fun now db =>
    let r := mkPing id CircleID DeviceID ClientID Nonce Ciphertext (pgts CapturedAt) (pgNow now) (pgtsp ExpiresAt) in
    require (has_partition (pgts CapturedAt) = true)
      (if decide (ping_key r ∈ ping_key <$> pings db) then Err ErrNoRows else
       require (id ∉ Ping_ID <$> pings db)
         (require (CircleID ∈ Circle_ID <$> circles db)
           (require (DeviceID ∈ Device_ID <$> devices db)
             (Ok (r, set_pings (pings db ++ [r]) db)))))).

(** SELECT DISTINCT ON: the first row of each run of rows with the same value. *)
Fixpoint distinct_on (l : list Ping) : list Ping :=
  match l with
  | [] => []
  | p :: l' => p :: match distinct_on l' with
                    | q :: rest => if decide (Ping_DeviceID q = Ping_DeviceID p) then rest else q :: rest
                    | [] => []
                    end
  end.

(** ORDER BY device_id, captured_at DESC; among rows equal in both, DISTINCT ON takes
    the one the executor comes to first. *)
Definition LatestPingsForCircle (circleID : uuid) : M (list Ping) :=
  query (fun now db => Ok (distinct_on (sort_by (fun p => Z.of_N (Ping_DeviceID p)) (sort_by (fun p => - Ping_CapturedAt p)
    (scan _ (filter (fun p => Ping_CircleID p = circleID) (pings db))))))).

Definition DeleteExpiredPingsForCircle (CircleID : uuid) (RetentionDays : Z) : M Z :=
  sql (fun now db =>
    let cutoff := (AddDays (pgNow now) (- RetentionDays)) in
    let P p := Ping_CircleID p = CircleID /\ Ping_CapturedAt p < cutoff /\ superseded (pings db) p in
    Ok (count_where P (pings db), set_pings (delete_where P (pings db)) db)).

Definition PruneStalePings (keepHours : Z) : M Z :=
  sql (fun now db =>
    let cutoff := Add (pgNow now) (- keepHours * Hour) in
    let P p := Ping_CapturedAt p < cutoff /\ superseded (pings db) p in
    Ok (count_where P (pings db), set_pings (delete_where P (pings db)) db)).

(** ** share.sql *)

(** [UPDATE share_sessions SET ... RETURNING]. *)
Definition update_share_returning (P : ShareSession -> Prop) `{forall s, Decision (P s)}
    (f : time -> ShareSession -> ShareSession) : M ShareSession :=
  sql (fun now db =>
    r <-? one (filter P (share_sessions db)) ;;
    Ok (f now r, set_share_sessions (update_where P (f now) (share_sessions db)) db)).

Definition BindShareViewer (ID : uuid) (ViewerTokenHash : option bytes) : M ShareSession :=
  update_share_returning (fun s => ShareSession_ID s = ID /\ ShareSession_ViewerTokenHash s = None)
    (fun now s => ShareSession_set_ViewerBoundAt (Some (pgNow now))
      (ShareSession_set_ViewerTokenHash ViewerTokenHash s)).

Definition CreateShareSession (UserID : uuid) (ExpiresAt : time) : M ShareSession :=
  let! id := uuid_New in
  sql (fun now db =>
    let r := mkShareSession id UserID (pgNow now) (pgts ExpiresAt) None None None in
    require (id ∉ ShareSession_ID <$> share_sessions db)
      (require (UserID ∈ User_ID <$> users db)
        (Ok (r, set_share_sessions (share_sessions db ++ [r]) db)))).

Definition GetSharePosition (sessionID : uuid) : M SharePosition :=
  query (fun now db => one (filter (fun p => SharePosition_SessionID p = sessionID) (share_positions db))).

Definition GetShareSession (id : uuid) : M ShareSession :=
  query (fun now db => one (filter (fun s => ShareSession_ID s = id) (share_sessions db))).

Definition GetShareSessionForOwner (ID UserID : uuid) : M ShareSession :=
  query (fun now db => one (filter (fun s => ShareSession_ID s = ID /\ ShareSession_UserID s = UserID)
    (share_sessions db))).

Definition ListShareSessionsForUser (userID : uuid) : M (list ShareSession) :=
  query (fun now db => Ok (sort_by (fun s => - ShareSession_CreatedAt s)
    (scan _ (filter (fun s => ShareSession_UserID s = userID /\ ShareSession_ExpiresAt s > pgNow now) (share_sessions db))))).

(** The positions of deleted sessions go with them (ON DELETE CASCADE). *)
Definition PruneShareSessions (graceHours : Z) : M Z :=
  sql (fun now db =>
    let cutoff := Add (pgNow now) (- graceHours * Hour) in
    let P s := ShareSession_ExpiresAt s < cutoff \/ before_opt (ShareSession_RevokedAt s) cutoff in
    let gone := ShareSession_ID <$> filter P (share_sessions db) in
    Ok (count_where P (share_sessions db),
      set_share_positions (delete_where (fun p => SharePosition_SessionID p ∈ gone) (share_positions db))
        (set_share_sessions (delete_where P (share_sessions db)) db))).

Definition RevokeShareSession (ID UserID : uuid) : M ShareSession :=
  update_share_returning (fun s => ShareSession_ID s = ID /\ ShareSession_UserID s = UserID)
    (fun now s => ShareSession_set_RevokedAt
      (match ShareSession_RevokedAt s with Some t => Some t | None => Some (pgNow now) end) s).

Definition UpsertSharePosition (SessionID : uuid) (Nonce Ciphertext : bytes) (CapturedAt : time) : M unit :=
  sql (fun now db =>
    let same p := SharePosition_SessionID p = SessionID in
    if decide (SessionID ∈ SharePosition_SessionID <$> share_positions db) then
      Ok (tt, set_share_positions (update_where same
        (fun p => SharePosition_set_UpdatedAt (pgNow now) (SharePosition_set_CapturedAt (pgts CapturedAt)
          (SharePosition_set_Ciphertext Ciphertext (SharePosition_set_Nonce Nonce p))))
        (share_positions db)) db)
    else
      require (SessionID ∈ ShareSession_ID <$> share_sessions db)
        (Ok (tt, set_share_positions
          (share_positions db ++ [mkSharePosition SessionID Nonce Ciphertext (pgts CapturedAt) (pgNow now)]) db))).
End pings.
