(* ===== verification/Querier.v ===== *)
(** * The store's interface and its two backends (store/querier.go)

    [Querier] is one type of statement with a constructor per method; its two
    implementations, the hand-written SQLite one and the one sqlc generated for
    Postgres, are two interpretations of it.  On Postgres a text that the encoding
    refuses fails the statement, a failed statement aborts the transaction it is in,
    and rows come in the order of a scan, which is a parameter.  A client is a
    program that only talks to the store through the interface, as everything above
    it does. *)

From S2P Require StoreAccounts StoreCircles StorePings PgAccounts PgCircles PgPings.
From S2P Require Import Prelude GoTime Models Api Ext Text Hub World.
Local Open Scope Z_scope.

Inductive stmt : Type -> Type :=
| SAddMember (CircleID UserID : uuid) (Role : string) : stmt CircleMember
| SAllCircleRetention : stmt (list (uuid * Z))
| SBindShareViewer (ID : uuid) (ViewerTokenHash : option bytes) : stmt ShareSession
| SBumpCircleKeyEpoch (id : uuid) : stmt Circle
| SConsumeInvite (id : uuid) : stmt Invite
| SCountMembersIn (CircleID : uuid) (UserIds : list uuid) : stmt Z
| SCountOwners (circleID : uuid) : stmt Z
| SCountPingsForCircle (circleID : uuid) : stmt Z
| SCountRecentFailuresByEmail (Email : option string) (Window : duration) : stmt Z
| SCountRecentFailuresByIP (Ip : option string) (Window : duration) : stmt Z
| SCountRecentInvitesByUser (createdBy : uuid) : stmt Z
| SCreateCircle (NameEnc : option bytes) (RetentionDays : Z) (CreatedBy : uuid) : stmt Circle
| SCreateDevice (UserID : uuid) (Platform : string) (DisplayName : option string) (Pubkey : option bytes) : stmt Device
| SCreateInvite (CircleID CreatedBy : uuid) (Role : string) (MaxUses : Z) (ExpiresAt : time) : stmt Invite
| SCreateKeyEnvelope (CircleID RecipientDeviceID : uuid) (SenderDeviceID : option uuid) (Ciphertext : bytes) (KeyEpoch : Z) : stmt KeyEnvelope
| SCreatePlace (CircleID : uuid) (Ciphertext : bytes) (AuthorID : option uuid) : stmt PlacesEnc
| SCreateSOS (CircleID : uuid) (DeviceID : option uuid) (Ciphertext : bytes) : stmt SosEvent
| SCreateSession (UserID DeviceID : uuid) (AccessTokenHash RefreshTokenHash : string) (AccessExpiresAt RefreshExpiresAt : time) : stmt Session
| SCreateShareSession (UserID : uuid) (ExpiresAt : time) : stmt ShareSession
| SCreateUser (Email PassHash : string) : stmt User
| SDeleteCircle (id : uuid) : stmt unit
| SDeleteDevice (ID UserID : uuid) : stmt unit
| SDeleteExpiredPingsForCircle (CircleID : uuid) (RetentionDays : Z) : stmt Z
| SDeleteExpiredSessions : stmt Z
| SDeleteMutes (UserID CircleID : uuid) : stmt unit
| SDeletePushSubscription (Endpoint : string) (UserID : uuid) : stmt unit
| SDeletePushSubscriptionByID (id : uuid) : stmt unit
| SEmailExists (email : string) : stmt bool
| SGetCircle (id : uuid) : stmt Circle
| SGetDevice (id : uuid) : stmt Device
| SGetDeviceForUser (ID UserID : uuid) : stmt Device
| SGetInvite (id : uuid) : stmt Invite
| SGetMembership (CircleID UserID : uuid) : stmt CircleMember
| SGetSOS (id : uuid) : stmt SosEvent
| SGetSessionByAccessHash (accessTokenHash : string) : stmt Session
| SGetSessionByPrevRefreshHash (prevRefreshHash : option string) : stmt Session
| SGetSessionByRefreshHash (refreshTokenHash : string) : stmt Session
| SGetSharePosition (sessionID : uuid) : stmt SharePosition
| SGetShareSession (id : uuid) : stmt ShareSession
| SGetShareSessionForOwner (ID UserID : uuid) : stmt ShareSession
| SGetUserByEmail (email : string) : stmt User
| SGetUserByID (id : uuid) : stmt User
| SInsertMute (UserID CircleID : uuid) (MutedUserID : option uuid) : stmt unit
| SInsertPing (CircleID DeviceID : uuid) (ClientID : string) (Nonce Ciphertext : bytes) (CapturedAt : time) (ExpiresAt : option time) : stmt Ping
| SLatestActiveVersion (platform : string) : stmt AppVersion
| SLatestPingsForCircle (circleID : uuid) : stmt (list Ping)
| SListActiveSOS (circleID : uuid) : stmt (list SosEvent)
| SListActiveSessionsForUser (userID : uuid) : stmt (list (Session * Device))
| SListAuditForUser (ActorUserID : option uuid) (Limit : Z) : stmt (list AuditLog)
| SListCircleDevices (circleID : uuid) : stmt (list Device)
| SListCirclePushSubscriptions (CircleID SenderUserID : uuid) : stmt (list PushSubscription)
| SListCirclesForUser (userID : uuid) : stmt (list (Circle * CircleMember))
| SListDevicesForUser (userID : uuid) : stmt (list Device)
| SListInvitesForCircle (circleID : uuid) : stmt (list Invite)
| SListMembers (circleID : uuid) : stmt (list (CircleMember * User))
| SListMutes (UserID CircleID : uuid) : stmt (list (option uuid))
| SListPlaces (circleID : uuid) : stmt (list PlacesEnc)
| SListShareSessionsForUser (userID : uuid) : stmt (list ShareSession)
| SMarkEnvelopeConsumed (ID RecipientDeviceID : uuid) : stmt unit
| SPendingEnvelopesForDevice (recipientDeviceID : uuid) : stmt (list KeyEnvelope)
| SPruneAuditIPs (keepDays : Z) : stmt Z
| SPruneKeyEnvelopes : stmt Z
| SPruneLoginAttempts (keepDays : Z) : stmt Z
| SPrunePlaceTombstones (updatedAt : time) : stmt Z
| SPruneResolvedSOS (resolvedAt : option time) : stmt Z
| SPruneShareSessions (graceHours : Z) : stmt Z
| SPruneStalePings (keepHours : Z) : stmt Z
| SRecordLoginAttempt (Email Ip : option string) (Success : bool) : stmt unit
| SRemoveMember (CircleID UserID : uuid) : stmt unit
| SResolveSOS (ID : uuid) (ResolvedBy : option uuid) (CircleID : uuid) : stmt SosEvent
| SRevokeInvite (ID CircleID : uuid) : stmt unit
| SRevokeSession (id : uuid) : stmt unit
| SRevokeSessionsForDevice (deviceID : uuid) : stmt unit
| SRevokeSessionsForUser (userID : uuid) : stmt unit
| SRevokeShareSession (ID UserID : uuid) : stmt ShareSession
| SRotateSession (ID : uuid) (AccessTokenHash RefreshTokenHash OldRefreshHash : string) (AccessExpiresAt RefreshExpiresAt : time) : stmt Session
| SSetDevicePubkey (ID : uuid) (Pubkey : option bytes) : stmt unit
| SSetDevicePushToken (ID : uuid) (PushToken : option string) : stmt unit
| SSetMemberProfile (CircleID UserID : uuid) (ProfileEnc : option bytes) : stmt unit
| SSetMemberRole (CircleID UserID : uuid) (Role : string) : stmt CircleMember
| SSetPrecisionMode (CircleID UserID : uuid) (PrecisionMode : string) : stmt CircleMember
| SSoftDeletePlace (ID CircleID : uuid) (UpdatedBy : option uuid) : stmt PlacesEnc
| STouchDevice (id : uuid) : stmt unit
| SUpdateCircleName (ID : uuid) (NameEnc : option bytes) : stmt Circle
| SUpdateCircleRetention (ID : uuid) (RetentionDays : Z) : stmt Circle
| SUpdatePlace (ID : uuid) (Ciphertext : bytes) (UpdatedBy : option uuid) (CircleID : uuid) (Version : Z) : stmt PlacesEnc
| SUpdateUserPassword (ID : uuid) (PassHash : string) : stmt unit
| SUpsertAppVersion (Platform : string) (VersionCode : Z) (VersionName : string) (ApkUrl Sha256 Changelog : option string) (MinSupported : Z) : stmt AppVersion
| SUpsertPushSubscription (UserID : uuid) (DeviceID : option uuid) (Endpoint : string) (P256dh Auth : option string) (Kind : string) : stmt PushSubscription
| SUpsertSharePosition (SessionID : uuid) (Nonce Ciphertext : bytes) (CapturedAt : time) : stmt unit
| SWriteAudit (Event : string) (ActorUserID ActorDeviceID CircleID : option uuid) (Ip : option string) (Detail : option AuditDetail) : stmt unit.

(** [sqliteQueries]. *)
Definition sqlite {A} (s : stmt A) : M A :=
  match s with
  | SAddMember CircleID UserID Role => StoreCircles.AddMember CircleID UserID Role
  | SAllCircleRetention => StoreCircles.AllCircleRetention
  | SBindShareViewer ID ViewerTokenHash => StorePings.BindShareViewer ID ViewerTokenHash
  | SBumpCircleKeyEpoch id => StoreCircles.BumpCircleKeyEpoch id
  | SConsumeInvite id => StoreCircles.ConsumeInvite id
  | SCountMembersIn CircleID UserIds => StoreCircles.CountMembersIn CircleID UserIds
  | SCountOwners circleID => StoreCircles.CountOwners circleID
  | SCountPingsForCircle circleID => StorePings.CountPingsForCircle circleID
  | SCountRecentFailuresByEmail Email Window => StoreAccounts.CountRecentFailuresByEmail Email Window
  | SCountRecentFailuresByIP Ip Window => StoreAccounts.CountRecentFailuresByIP Ip Window
  | SCountRecentInvitesByUser createdBy => StoreCircles.CountRecentInvitesByUser createdBy
  | SCreateCircle NameEnc RetentionDays CreatedBy => StoreCircles.CreateCircle NameEnc RetentionDays CreatedBy
  | SCreateDevice UserID Platform DisplayName Pubkey => StoreAccounts.CreateDevice UserID Platform DisplayName Pubkey
  | SCreateInvite CircleID CreatedBy Role MaxUses ExpiresAt => StoreCircles.CreateInvite CircleID CreatedBy Role MaxUses ExpiresAt
  | SCreateKeyEnvelope CircleID RecipientDeviceID SenderDeviceID Ciphertext KeyEpoch => StoreCircles.CreateKeyEnvelope CircleID RecipientDeviceID SenderDeviceID Ciphertext KeyEpoch
  | SCreatePlace CircleID Ciphertext AuthorID => StoreCircles.CreatePlace CircleID Ciphertext AuthorID
  | SCreateSOS CircleID DeviceID Ciphertext => StoreCircles.CreateSOS CircleID DeviceID Ciphertext
  | SCreateSession UserID DeviceID AccessTokenHash RefreshTokenHash AccessExpiresAt RefreshExpiresAt => StoreAccounts.CreateSession UserID DeviceID AccessTokenHash RefreshTokenHash AccessExpiresAt RefreshExpiresAt
  | SCreateShareSession UserID ExpiresAt => StorePings.CreateShareSession UserID ExpiresAt
  | SCreateUser Email PassHash => StoreAccounts.CreateUser Email PassHash
  | SDeleteCircle id => StoreCircles.DeleteCircle id
  | SDeleteDevice ID UserID => StoreAccounts.DeleteDevice ID UserID
  | SDeleteExpiredPingsForCircle CircleID RetentionDays => StorePings.DeleteExpiredPingsForCircle CircleID RetentionDays
  | SDeleteExpiredSessions => StoreAccounts.DeleteExpiredSessions
  | SDeleteMutes UserID CircleID => StoreCircles.DeleteMutes UserID CircleID
  | SDeletePushSubscription Endpoint UserID => StoreAccounts.DeletePushSubscription Endpoint UserID
  | SDeletePushSubscriptionByID id => StoreAccounts.DeletePushSubscriptionByID id
  | SEmailExists email => StoreAccounts.EmailExists email
  | SGetCircle id => StoreCircles.GetCircle id
  | SGetDevice id => StoreAccounts.GetDevice id
  | SGetDeviceForUser ID UserID => StoreAccounts.GetDeviceForUser ID UserID
  | SGetInvite id => StoreCircles.GetInvite id
  | SGetMembership CircleID UserID => StoreCircles.GetMembership CircleID UserID
  | SGetSOS id => StoreCircles.GetSOS id
  | SGetSessionByAccessHash accessTokenHash => StoreAccounts.GetSessionByAccessHash accessTokenHash
  | SGetSessionByPrevRefreshHash prevRefreshHash => StoreAccounts.GetSessionByPrevRefreshHash prevRefreshHash
  | SGetSessionByRefreshHash refreshTokenHash => StoreAccounts.GetSessionByRefreshHash refreshTokenHash
  | SGetSharePosition sessionID => StorePings.GetSharePosition sessionID
  | SGetShareSession id => StorePings.GetShareSession id
  | SGetShareSessionForOwner ID UserID => StorePings.GetShareSessionForOwner ID UserID
  | SGetUserByEmail email => StoreAccounts.GetUserByEmail email
  | SGetUserByID id => StoreAccounts.GetUserByID id
  | SInsertMute UserID CircleID MutedUserID => StoreCircles.InsertMute UserID CircleID MutedUserID
  | SInsertPing CircleID DeviceID ClientID Nonce Ciphertext CapturedAt ExpiresAt => StorePings.InsertPing CircleID DeviceID ClientID Nonce Ciphertext CapturedAt ExpiresAt
  | SLatestActiveVersion platform => StoreAccounts.LatestActiveVersion platform
  | SLatestPingsForCircle circleID => StorePings.LatestPingsForCircle circleID
  | SListActiveSOS circleID => StoreCircles.ListActiveSOS circleID
  | SListActiveSessionsForUser userID => StoreAccounts.ListActiveSessionsForUser userID
  | SListAuditForUser ActorUserID Limit => StoreAccounts.ListAuditForUser ActorUserID Limit
  | SListCircleDevices circleID => StoreAccounts.ListCircleDevices circleID
  | SListCirclePushSubscriptions CircleID SenderUserID => StoreAccounts.ListCirclePushSubscriptions CircleID SenderUserID
  | SListCirclesForUser userID => StoreCircles.ListCirclesForUser userID
  | SListDevicesForUser userID => StoreAccounts.ListDevicesForUser userID
  | SListInvitesForCircle circleID => StoreCircles.ListInvitesForCircle circleID
  | SListMembers circleID => StoreCircles.ListMembers circleID
  | SListMutes UserID CircleID => StoreCircles.ListMutes UserID CircleID
  | SListPlaces circleID => StoreCircles.ListPlaces circleID
  | SListShareSessionsForUser userID => StorePings.ListShareSessionsForUser userID
  | SMarkEnvelopeConsumed ID RecipientDeviceID => StoreCircles.MarkEnvelopeConsumed ID RecipientDeviceID
  | SPendingEnvelopesForDevice recipientDeviceID => StoreCircles.PendingEnvelopesForDevice recipientDeviceID
  | SPruneAuditIPs keepDays => StoreAccounts.PruneAuditIPs keepDays
  | SPruneKeyEnvelopes => StoreCircles.PruneKeyEnvelopes
  | SPruneLoginAttempts keepDays => StoreAccounts.PruneLoginAttempts keepDays
  | SPrunePlaceTombstones updatedAt => StoreCircles.PrunePlaceTombstones updatedAt
  | SPruneResolvedSOS resolvedAt => StoreCircles.PruneResolvedSOS resolvedAt
  | SPruneShareSessions graceHours => StorePings.PruneShareSessions graceHours
  | SPruneStalePings keepHours => StorePings.PruneStalePings keepHours
  | SRecordLoginAttempt Email Ip Success => StoreAccounts.RecordLoginAttempt Email Ip Success
  | SRemoveMember CircleID UserID => StoreCircles.RemoveMember CircleID UserID
  | SResolveSOS ID ResolvedBy CircleID => StoreCircles.ResolveSOS ID ResolvedBy CircleID
  | SRevokeInvite ID CircleID => StoreCircles.RevokeInvite ID CircleID
  | SRevokeSession id => StoreAccounts.RevokeSession id
  | SRevokeSessionsForDevice deviceID => StoreAccounts.RevokeSessionsForDevice deviceID
  | SRevokeSessionsForUser userID => StoreAccounts.RevokeSessionsForUser userID
  | SRevokeShareSession ID UserID => StorePings.RevokeShareSession ID UserID
  | SRotateSession ID AccessTokenHash RefreshTokenHash OldRefreshHash AccessExpiresAt RefreshExpiresAt => StoreAccounts.RotateSession ID AccessTokenHash RefreshTokenHash OldRefreshHash AccessExpiresAt RefreshExpiresAt
  | SSetDevicePubkey ID Pubkey => StoreAccounts.SetDevicePubkey ID Pubkey
  | SSetDevicePushToken ID PushToken => StoreAccounts.SetDevicePushToken ID PushToken
  | SSetMemberProfile CircleID UserID ProfileEnc => StoreCircles.SetMemberProfile CircleID UserID ProfileEnc
  | SSetMemberRole CircleID UserID Role => StoreCircles.SetMemberRole CircleID UserID Role
  | SSetPrecisionMode CircleID UserID PrecisionMode => StoreCircles.SetPrecisionMode CircleID UserID PrecisionMode
  | SSoftDeletePlace ID CircleID UpdatedBy => StoreCircles.SoftDeletePlace ID CircleID UpdatedBy
  | STouchDevice id => StoreAccounts.TouchDevice id
  | SUpdateCircleName ID NameEnc => StoreCircles.UpdateCircleName ID NameEnc
  | SUpdateCircleRetention ID RetentionDays => StoreCircles.UpdateCircleRetention ID RetentionDays
  | SUpdatePlace ID Ciphertext UpdatedBy CircleID Version => StoreCircles.UpdatePlace ID Ciphertext UpdatedBy CircleID Version
  | SUpdateUserPassword ID PassHash => StoreAccounts.UpdateUserPassword ID PassHash
  | SUpsertAppVersion Platform VersionCode VersionName ApkUrl Sha256 Changelog MinSupported => StoreAccounts.UpsertAppVersion Platform VersionCode VersionName ApkUrl Sha256 Changelog MinSupported
  | SUpsertPushSubscription UserID DeviceID Endpoint P256dh Auth Kind => StoreAccounts.UpsertPushSubscription UserID DeviceID Endpoint P256dh Auth Kind
  | SUpsertSharePosition SessionID Nonce Ciphertext CapturedAt => StorePings.UpsertSharePosition SessionID Nonce Ciphertext CapturedAt
  | SWriteAudit Event ActorUserID ActorDeviceID CircleID Ip Detail => StoreAccounts.WriteAudit Event ActorUserID ActorDeviceID CircleID Ip Detail
  end.

(** The text arguments of a statement, and what else of it becomes text. *)
Definition texts {A} (s : stmt A) : list string :=
  let opt (o : option string) := match o with Some t => [t] | None => [] end in
  match s with
  | SAddMember _ _ t | SEmailExists t | SGetSessionByAccessHash t | SGetSessionByRefreshHash t
  | SGetUserByEmail t | SLatestActiveVersion t | SSetMemberRole _ _ t | SSetPrecisionMode _ _ t
  | SUpdateUserPassword _ t | SDeletePushSubscription t _ | SCreateInvite _ _ t _ _
  | SInsertPing _ _ t _ _ _ _ => [t]
  | SGetSessionByPrevRefreshHash o | SCountRecentFailuresByEmail o _ | SCountRecentFailuresByIP o _
  | SSetDevicePushToken _ o => opt o
  | SCreateUser t u | SCreateSession _ _ t u _ _ => [t; u]
  | SRotateSession _ t u v _ _ => [t; u; v]
  | SCreateDevice _ t o _ => t :: opt o
  | SRecordLoginAttempt o p _ => opt o ++ opt p
  | SUpsertAppVersion t _ u o p q _ => t :: u :: opt o ++ opt p ++ opt q
  | SUpsertPushSubscription _ _ t o p k => t :: opt o ++ opt p ++ [k]
  | SWriteAudit t _ _ _ o _ => t :: opt o
  | _ => []
  end.

(** A text of a database in UTF-8: valid, and without the byte 0. *)
Definition pg_text (s : string) : bool := ValidString s && no_char Ascii.zero s.

(** jsonb has no escape for the byte 0 either. *)
Definition pg_detail {A} (s : stmt A) : bool :=
  match s with SWriteAudit _ _ _ _ _ (Some (DetailEmail e)) => no_char Ascii.zero e | _ => true end.

Definition pg_accepts {A} (s : stmt A) : bool := forallb pg_text (texts s) && pg_detail s.

Section postgres.
Context (citext : string -> string) (scan : forall R : Type, list R -> list R) (has_partition : time -> bool).

(** [Queries]: what a statement does whose arguments the server takes. *)
Definition pg_statement {A} (s : stmt A) : M A :=
  match s with
  | SAddMember CircleID UserID Role => PgCircles.AddMember CircleID UserID Role
  | SAllCircleRetention => PgCircles.AllCircleRetention scan
  | SBindShareViewer ID ViewerTokenHash => PgPings.BindShareViewer ID ViewerTokenHash
  | SBumpCircleKeyEpoch id => PgCircles.BumpCircleKeyEpoch id
  | SConsumeInvite id => PgCircles.ConsumeInvite id
  | SCountMembersIn CircleID UserIds => PgCircles.CountMembersIn CircleID UserIds
  | SCountOwners circleID => PgCircles.CountOwners circleID
  | SCountPingsForCircle circleID => PgPings.CountPingsForCircle circleID
  | SCountRecentFailuresByEmail Email Window => PgAccounts.CountRecentFailuresByEmail citext Email Window
  | SCountRecentFailuresByIP Ip Window => PgAccounts.CountRecentFailuresByIP Ip Window
  | SCountRecentInvitesByUser createdBy => PgCircles.CountRecentInvitesByUser createdBy
  | SCreateCircle NameEnc RetentionDays CreatedBy => PgCircles.CreateCircle NameEnc RetentionDays CreatedBy
  | SCreateDevice UserID Platform DisplayName Pubkey => PgAccounts.CreateDevice UserID Platform DisplayName Pubkey
  | SCreateInvite CircleID CreatedBy Role MaxUses ExpiresAt => PgCircles.CreateInvite CircleID CreatedBy Role MaxUses ExpiresAt
  | SCreateKeyEnvelope CircleID RecipientDeviceID SenderDeviceID Ciphertext KeyEpoch => PgCircles.CreateKeyEnvelope CircleID RecipientDeviceID SenderDeviceID Ciphertext KeyEpoch
  | SCreatePlace CircleID Ciphertext AuthorID => PgCircles.CreatePlace CircleID Ciphertext AuthorID
  | SCreateSOS CircleID DeviceID Ciphertext => PgCircles.CreateSOS CircleID DeviceID Ciphertext
  | SCreateSession UserID DeviceID AccessTokenHash RefreshTokenHash AccessExpiresAt RefreshExpiresAt => PgAccounts.CreateSession UserID DeviceID AccessTokenHash RefreshTokenHash AccessExpiresAt RefreshExpiresAt
  | SCreateShareSession UserID ExpiresAt => PgPings.CreateShareSession UserID ExpiresAt
  | SCreateUser Email PassHash => PgAccounts.CreateUser citext Email PassHash
  | SDeleteCircle id => PgCircles.DeleteCircle id
  | SDeleteDevice ID UserID => PgAccounts.DeleteDevice ID UserID
  | SDeleteExpiredPingsForCircle CircleID RetentionDays => PgPings.DeleteExpiredPingsForCircle CircleID RetentionDays
  | SDeleteExpiredSessions => PgAccounts.DeleteExpiredSessions
  | SDeleteMutes UserID CircleID => PgCircles.DeleteMutes UserID CircleID
  | SDeletePushSubscription Endpoint UserID => PgAccounts.DeletePushSubscription Endpoint UserID
  | SDeletePushSubscriptionByID id => PgAccounts.DeletePushSubscriptionByID id
  | SEmailExists email => PgAccounts.EmailExists citext email
  | SGetCircle id => PgCircles.GetCircle id
  | SGetDevice id => PgAccounts.GetDevice id
  | SGetDeviceForUser ID UserID => PgAccounts.GetDeviceForUser ID UserID
  | SGetInvite id => PgCircles.GetInvite id
  | SGetMembership CircleID UserID => PgCircles.GetMembership CircleID UserID
  | SGetSOS id => PgCircles.GetSOS id
  | SGetSessionByAccessHash accessTokenHash => PgAccounts.GetSessionByAccessHash accessTokenHash
  | SGetSessionByPrevRefreshHash prevRefreshHash => PgAccounts.GetSessionByPrevRefreshHash scan prevRefreshHash
  | SGetSessionByRefreshHash refreshTokenHash => PgAccounts.GetSessionByRefreshHash refreshTokenHash
  | SGetSharePosition sessionID => PgPings.GetSharePosition sessionID
  | SGetShareSession id => PgPings.GetShareSession id
  | SGetShareSessionForOwner ID UserID => PgPings.GetShareSessionForOwner ID UserID
  | SGetUserByEmail email => PgAccounts.GetUserByEmail citext email
  | SGetUserByID id => PgAccounts.GetUserByID id
  | SInsertMute UserID CircleID MutedUserID => PgCircles.InsertMute UserID CircleID MutedUserID
  | SInsertPing CircleID DeviceID ClientID Nonce Ciphertext CapturedAt ExpiresAt => PgPings.InsertPing has_partition CircleID DeviceID ClientID Nonce Ciphertext CapturedAt ExpiresAt
  | SLatestActiveVersion platform => PgAccounts.LatestActiveVersion scan platform
  | SLatestPingsForCircle circleID => PgPings.LatestPingsForCircle scan circleID
  | SListActiveSOS circleID => PgCircles.ListActiveSOS scan circleID
  | SListActiveSessionsForUser userID => PgAccounts.ListActiveSessionsForUser scan userID
  | SListAuditForUser ActorUserID Limit => PgAccounts.ListAuditForUser scan ActorUserID Limit
  | SListCircleDevices circleID => PgAccounts.ListCircleDevices scan circleID
  | SListCirclePushSubscriptions CircleID SenderUserID => PgAccounts.ListCirclePushSubscriptions scan CircleID SenderUserID
  | SListCirclesForUser userID => PgCircles.ListCirclesForUser scan userID
  | SListDevicesForUser userID => PgAccounts.ListDevicesForUser scan userID
  | SListInvitesForCircle circleID => PgCircles.ListInvitesForCircle scan circleID
  | SListMembers circleID => PgCircles.ListMembers scan circleID
  | SListMutes UserID CircleID => PgCircles.ListMutes scan UserID CircleID
  | SListPlaces circleID => PgCircles.ListPlaces scan circleID
  | SListShareSessionsForUser userID => PgPings.ListShareSessionsForUser scan userID
  | SMarkEnvelopeConsumed ID RecipientDeviceID => PgCircles.MarkEnvelopeConsumed ID RecipientDeviceID
  | SPendingEnvelopesForDevice recipientDeviceID => PgCircles.PendingEnvelopesForDevice scan recipientDeviceID
  | SPruneAuditIPs keepDays => PgAccounts.PruneAuditIPs keepDays
  | SPruneKeyEnvelopes => PgCircles.PruneKeyEnvelopes
  | SPruneLoginAttempts keepDays => PgAccounts.PruneLoginAttempts keepDays
  | SPrunePlaceTombstones updatedAt => PgCircles.PrunePlaceTombstones updatedAt
  | SPruneResolvedSOS resolvedAt => PgCircles.PruneResolvedSOS resolvedAt
  | SPruneShareSessions graceHours => PgPings.PruneShareSessions graceHours
  | SPruneStalePings keepHours => PgPings.PruneStalePings keepHours
  | SRecordLoginAttempt Email Ip Success => PgAccounts.RecordLoginAttempt Email Ip Success
  | SRemoveMember CircleID UserID => PgCircles.RemoveMember CircleID UserID
  | SResolveSOS ID ResolvedBy CircleID => PgCircles.ResolveSOS ID ResolvedBy CircleID
  | SRevokeInvite ID CircleID => PgCircles.RevokeInvite ID CircleID
  | SRevokeSession id => PgAccounts.RevokeSession id
  | SRevokeSessionsForDevice deviceID => PgAccounts.RevokeSessionsForDevice deviceID
  | SRevokeSessionsForUser userID => PgAccounts.RevokeSessionsForUser userID
  | SRevokeShareSession ID UserID => PgPings.RevokeShareSession ID UserID
  | SRotateSession ID AccessTokenHash RefreshTokenHash OldRefreshHash AccessExpiresAt RefreshExpiresAt => PgAccounts.RotateSession ID AccessTokenHash RefreshTokenHash OldRefreshHash AccessExpiresAt RefreshExpiresAt
  | SSetDevicePubkey ID Pubkey => PgAccounts.SetDevicePubkey ID Pubkey
  | SSetDevicePushToken ID PushToken => PgAccounts.SetDevicePushToken ID PushToken
  | SSetMemberProfile CircleID UserID ProfileEnc => PgCircles.SetMemberProfile CircleID UserID ProfileEnc
  | SSetMemberRole CircleID UserID Role => PgCircles.SetMemberRole CircleID UserID Role
  | SSetPrecisionMode CircleID UserID PrecisionMode => PgCircles.SetPrecisionMode CircleID UserID PrecisionMode
  | SSoftDeletePlace ID CircleID UpdatedBy => PgCircles.SoftDeletePlace ID CircleID UpdatedBy
  | STouchDevice id => PgAccounts.TouchDevice id
  | SUpdateCircleName ID NameEnc => PgCircles.UpdateCircleName ID NameEnc
  | SUpdateCircleRetention ID RetentionDays => PgCircles.UpdateCircleRetention ID RetentionDays
  | SUpdatePlace ID Ciphertext UpdatedBy CircleID Version => PgCircles.UpdatePlace ID Ciphertext UpdatedBy CircleID Version
  | SUpdateUserPassword ID PassHash => PgAccounts.UpdateUserPassword ID PassHash
  | SUpsertAppVersion Platform VersionCode VersionName ApkUrl Sha256 Changelog MinSupported => PgAccounts.UpsertAppVersion Platform VersionCode VersionName ApkUrl Sha256 Changelog MinSupported
  | SUpsertPushSubscription UserID DeviceID Endpoint P256dh Auth Kind => PgAccounts.UpsertPushSubscription UserID DeviceID Endpoint P256dh Auth Kind
  | SUpsertSharePosition SessionID Nonce Ciphertext CapturedAt => PgPings.UpsertSharePosition SessionID Nonce Ciphertext CapturedAt
  | SWriteAudit Event ActorUserID ActorDeviceID CircleID Ip Detail => PgAccounts.WriteAudit Event ActorUserID ActorDeviceID CircleID Ip Detail
  end.

(** The server refuses an argument it cannot store in its encoding before it runs
    anything. *)
Definition postgres {A} (s : stmt A) : M A :=
  if pg_accepts s then pg_statement s else sql (fun _ _ => Err ErrDriver).
End postgres.

(** ** Clients *)

(** The body of a transaction, which may roll it back. *)
Inductive tx (A : Type) : Type :=
| Commit (a : A)
| Rollback (e : error)
| Do {X : Type} (s : stmt X) (k : result error X -> tx A).
Arguments Commit {A} a.
Arguments Rollback {A} e.
Arguments Do {A X} s k.

(** Statements, transactions, and between them whatever the clock and the other
    clients do. *)
Inductive client (A : Type) : Type :=
| Return (a : A)
| Call {X : Type} (s : stmt X) (k : result error X -> client A)
| Transact {X : Type} (body : tx X) (k : result error X -> client A)
| Meanwhile (others : World -> World) (k : client A).
Arguments Return {A} a.
Arguments Call {A X} s k.
Arguments Transact {A X} body k.
Arguments Meanwhile {A} others k.

(** A transaction on SQLite: a statement that fails is undone, and the transaction
    goes on. *)
Fixpoint tx_run (backend : forall X, stmt X -> M X) {A} (t : tx A) : M A :=
  match t with
  | Commit a => ret a
  | Rollback e => fail e
  | Do s k => fun w => let '(r, w') := backend _ s w in tx_run backend (k r) w'
  end.

(** On Postgres it aborts the transaction: the statements after it are refused, and a
    commit rolls back and says so.  No row is not a failure. *)
Definition fails {X} (r : result error X) : bool :=
  match r with Ok _ => false | Err e => negb (IsNotFound e) end.

Fixpoint pg_tx (backend : forall X, stmt X -> M X) {A} (t : tx A) (aborted : bool) : M A :=
  match t with
  | Commit a => if aborted then fail ErrDriver else ret a
  | Rollback e => fail e
  | Do s k =>
      if aborted then pg_tx backend (k (Err ErrDriver)) true
      else fun w => let '(r, w') := backend _ s w in pg_tx backend (k r) (fails r) w'
  end.

(** An engine: its statements, and its transactions' bodies. *)
Record engine := mkEngine { en_stmt : forall X, stmt X -> M X; en_tx : forall X, tx X -> M X }.

Definition sqlite_engine : engine := mkEngine (@sqlite) (fun X => tx_run (@sqlite)).

Definition postgres_engine (citext : string -> string) (scan : forall R : Type, list R -> list R)
    (has_partition : time -> bool) : engine :=
  let backend X := @postgres citext scan has_partition X in
  mkEngine backend (fun X t => pg_tx backend t false).

(** A client over an engine. *)
Fixpoint talk (e : engine) {A} (c : client A) (w : World) : A * World :=
  match c with
  | Return a => (a, w)
  | Call s k => let '(r, w') := en_stmt e _ s w in talk e (k r) w'
  | Transact body k => let '(r, w') := WithTx (en_tx e _ body) w in talk e (k r) w'
  | Meanwhile others k => talk e k (others w)
  end.
