(* ===== verification/Token.v ===== *)
(** * Opaque tokens and their stored hashes (internal/crypto/token.go)

    [HashToken] is HMAC-SHA256 of the token under the server's pepper, in hex.
    SHA-256 (FIPS 180-4) and HMAC (RFC 2104), which the Go code takes from its
    standard library, are executable here, checked on the published vectors. *)

From S2P Require Import Prelude GoTime Base64 Models World.
Local Open Scope Z_scope.

Definition TokenBytes : nat := 32.

(** ** SHA-256 *)

Definition w32 (z : Z) : Z := z mod 2 ^ 32.
Definition rotr (n x : Z) : Z := Z.lor (Z.shiftr x n) (w32 (Z.shiftl x (32 - n))).
Definition not32 (x : Z) : Z := 2 ^ 32 - 1 - x.

Definition Ch (x y z : Z) : Z := Z.lxor (Z.land x y) (Z.land (not32 x) z).
Definition Maj (x y z : Z) : Z := Z.lxor (Z.lxor (Z.land x y) (Z.land x z)) (Z.land y z).
Definition Sigma0 (x : Z) : Z := Z.lxor (Z.lxor (rotr 2 x) (rotr 13 x)) (rotr 22 x).
Definition Sigma1 (x : Z) : Z := Z.lxor (Z.lxor (rotr 6 x) (rotr 11 x)) (rotr 25 x).
Definition sigma0 (x : Z) : Z := Z.lxor (Z.lxor (rotr 7 x) (rotr 18 x)) (Z.shiftr x 3).
Definition sigma1 (x : Z) : Z := Z.lxor (Z.lxor (rotr 17 x) (rotr 19 x)) (Z.shiftr x 10).

(** The constants, as FIPS 180-4 defines them: the first 32 bits of the fractional
    parts of the cube (square) roots of the first 64 (8) primes. *)
Definition is_prime (n : Z) : bool :=
  forallb (fun k => negb (n mod (Z.of_nat k) =? 0)) (seq 2 (Z.to_nat n - 2)).

Definition primes : list Z := filter (fun n => is_prime n = true) (Z.of_nat <$> seq 2 310).

(** The integer cube root, bit by bit from bit [n - 1] down. *)
Fixpoint cube_root (n : nat) (acc z : Z) : Z :=
  match n with
  | O => acc
  | S n' =>
      let acc' := acc + 2 ^ Z.of_nat n' in
      cube_root n' (if acc' ^ 3 <=? z then acc' else acc) z
  end.

Definition sha_K : list Z :=
  Eval vm_compute in (fun p => w32 (cube_root 40 0 (p * 2 ^ 96))) <$> primes.

Definition sha_H0 : list Z :=
  Eval vm_compute in (fun p => w32 (Z.sqrt (p * 2 ^ 64))) <$> take 8 primes.

(** Bytes of a big-endian number, most significant first. *)
Fixpoint be_bytes (n : nat) (z : Z) : list Z :=
  match n with O => [] | S n' => Z.shiftr z (8 * Z.of_nat n') mod 256 :: be_bytes n' z end.

(** 0x80, zeros up to a length of 56 modulo 64, and the length in bits. *)
Definition sha_pad (m : list Z) : list Z :=
  let l := Z.of_nat (length m) in
  m ++ [0x80] ++ repeat 0 (Z.to_nat ((55 - l) mod 64)) ++ be_bytes 8 (8 * l).

Fixpoint words (l : list Z) : list Z :=
  match l with
  | a :: b :: c :: d :: l' => (((a * 256 + b) * 256 + c) * 256 + d) :: words l'
  | _ => []
  end.

(** The message schedule, most recent word first. *)
Fixpoint schedule (n : nat) (w : list Z) : list Z :=
  match n with
  | O => w
  | S n' =>
      let t k := nth k w 0 in
      schedule n' (w32 (sigma1 (t 1%nat) + t 6%nat + sigma0 (t 14%nat) + t 15%nat) :: w)
  end.

Definition sha_round (s : list Z) (kw : Z * Z) : list Z :=
  match s with
  | [a; b; c; d; e; f; g; h] =>
      let T1 := w32 (h + Sigma1 e + Ch e f g + fst kw + snd kw) in
      let T2 := w32 (Sigma0 a + Maj a b c) in
      [w32 (T1 + T2); a; b; c; w32 (d + T1); e; f; g]
  | _ => s
  end.

Definition sha_block (s : list Z) (block : list Z) : list Z :=
  let w := rev (schedule 48 (rev (words block))) in
  zip_with (fun x y => w32 (x + y)) s (foldl sha_round s (zip sha_K w)).

Fixpoint sha_blocks (n : nat) (s : list Z) (m : list Z) : list Z :=
  match n with
  | O => s
  | S n' => sha_blocks n' (sha_block s (firstn 64 m)) (skipn 64 m)
  end.

Definition sha256 (m : list Z) : list Z :=
  let p := sha_pad m in
  s ← sha_blocks (Nat.div (length p) 64) sha_H0 p; be_bytes 4 s.

(** ** HMAC *)

Definition hmac_sha256 (key m : list Z) : list Z :=
  let k0 := if (64 <? length key)%nat then sha256 key else key in
  let k := k0 ++ repeat 0 (64 - length k0) in
  sha256 ((Z.lxor 0x5c <$> k) ++ sha256 ((Z.lxor 0x36 <$> k) ++ m)).

Definition byte_val (b : byte) : Z := Z.of_N (Byte.to_N b).
Definition val_byte (z : Z) : byte := default Byte.x00 (Byte.of_N (Z.to_N z)).
Definition str_bytes (s : string) : bytes := list_byte_of_string s.

(** [hex.EncodeToString]. *)
Definition hex_digit (z : Z) : ascii := ascii_of_N (Z.to_N (if z <? 10 then 48 + z else 87 + z)).

Fixpoint hex (l : list Z) : string :=
  match l with
  | [] => EmptyString
  | b :: l' => String (hex_digit (b / 16)) (String (hex_digit (b mod 16)) (hex l'))
  end.

(** ** The API *)

Definition mac (pepper : bytes) (token : string) : list Z :=
  hmac_sha256 (byte_val <$> pepper) (byte_val <$> str_bytes token).

Definition HashToken (pepper : bytes) (token : string) : string := hex (mac pepper token).

Definition HashTokenBytes (pepper : bytes) (token : string) : bytes := val_byte <$> mac pepper token.

Definition ConstantTimeEqual (a b : string) : bool := bool_decide (a = b).

Definition ConstantTimeEqualBytes (a b : bytes) : bool := bool_decide (a = b).

Definition GenerateToken : M string :=
  M_bind (rand_Read TokenBytes) (fun b => ret (EncodeToString RawURLEncoding b)).

(** ** Published vectors *)

(** FIPS 180-4, "abc". *)
Example sha256_abc :
  hex (sha256 [97; 98; 99]) = "ba7816bf8f01cfea414140de5dae2223b00361a396177a9cb410ff61f20015ad"%string.
Proof. vm_compute. reflexivity. Qed.

(** RFC 4231, test case 2. *)
Example hmac_rfc4231_2 :
  HashToken (str_bytes "Jefe") "what do ya want for nothing?" =
    "5bdcc146bf60754e6a042426089575c75a003f089d2739839dec58b964ec3843"%string.
Proof. vm_compute. reflexivity. Qed.

(** RFC 4231, test case 6: a key longer than a block. *)
Example hmac_rfc4231_6 :
  HashToken (repeat Byte.xaa 131) "Test Using Larger Than Block-Size Key - Hash Key First" =
    "60e431591ee0b67f0d8a26aacbf5b77f8e0bc6213728c5140546040f0ee37f54"%string.
Proof. vm_compute. reflexivity. Qed.
