(* ===== verification/SafetyCode.v ===== *)
(** * Safety codes (crypto/safetycode.go)

    The fingerprint two people compare to rule out substituted keys, over the
    SHA-256 of [Token].  Emoji are their UTF-8 texts. *)

From S2P Require Import Prelude GoTime Models Api World Token.
Local Open Scope string_scope.
Local Open Scope Z_scope.

Definition PublicKeyLength : Z := 32.
Definition SafetyCodeLength : nat := 10.
Definition safetyCodeDomain : string := "aul-safety-code:v1".

Inductive crypto_error := ErrInvalidPublicKey.

Definition SafetyEmojiAlphabet : list string := [
  "🐶"; "🐱"; "🐭"; "🐹"; "🐰"; "🦊"; "🐻"; "🐼";
  "🐨"; "🐯"; "🦁"; "🐮"; "🐷"; "🐸"; "🐵"; "🐔";
  "🐧"; "🐦"; "🦆"; "🦉"; "🐴"; "🦄"; "🐝"; "🐛";
  "🦋"; "🐌"; "🐞"; "🐢"; "🐍"; "🐙"; "🐠"; "🐬";
  "🐳"; "🐘"; "🐫"; "🐑"; "🍎"; "🍊"; "🍋"; "🍌";
  "🍉"; "🍇"; "🍓"; "🍒"; "🍑"; "🍅"; "🌽"; "🥕";
  "🍔"; "🍕"; "🍩"; "🍪"; "🎂"; "🍫"; "🍭"; "🌵";
  "🌲"; "🌸"; "🌻"; "🌈"; "🌙"; "🔥"; "🌊"; "💧"].

Record SafetyCode := mkSafetyCode { Emojis : list string; Digest : list Z }.

(** [SafetyCode.String]. *)
Definition SafetyCode_String (s : SafetyCode) : string := Join (Emojis s) " ".

(** The loop of [HexFallback] over the hexadecimal text from position [i]. *)
Fixpoint group_hex (fuel i : nat) (h : string) : string :=
  match fuel with
  | O => ""
  | S fuel' =>
      if (i <? String.length h)%nat
      then (if (0 <? i)%nat then "-" else "") ++ String.substring i 4 h ++ group_hex fuel' (i + 4) h
      else ""
  end.

Definition HexFallback (s : SafetyCode) : string :=
  let h := hex (firstn 8 (Digest s)) in group_hex (String.length h) 0 h.

(** [bytes.Compare]. *)
Fixpoint bytes_Compare (a b : list Z) : comparison :=
  match a, b with
  | [], [] => Eq
  | [], _ => Lt
  | _, [] => Gt
  | x :: a', y :: b' => match x ?= y with Eq => bytes_Compare a' b' | c => c end
  end.

(** What is hashed. *)
Definition safety_input (low high : list Z) : list Z :=
  ((byte_val <$> str_bytes safetyCodeDomain) ++ [0] ++ low ++ high)%list.

Definition ordered (a b : list Z) : list Z * list Z := match bytes_Compare a b with Gt => (b, a) | _ => (a, b) end.

(** The emoji a byte of the digest picks. *)
Definition emoji_of (v : Z) : string := nth (Z.to_nat (v mod 64)) SafetyEmojiAlphabet "".

(** The loop over the positions of the code. *)
Definition emojis_of (digest : list Z) : list string := (fun i => emoji_of (nth i digest 0)) <$> seq 0 SafetyCodeLength.

Definition ComputeSafetyCode (pubA pubB : list Z) : result crypto_error SafetyCode :=
  if negb (len pubA =? PublicKeyLength) || negb (len pubB =? PublicKeyLength) then Err ErrInvalidPublicKey else
  let '(low, high) := ordered pubA pubB in
  let digest := sha256 (safety_input low high) in
  Ok (mkSafetyCode (emojis_of digest) digest).

(** The vectors the clients are checked against (vectors/crypto-vectors.json). *)
Example safety_vector_1 :
  (fun c => (SafetyCode_String c, HexFallback c)) <$>
    (match ComputeSafetyCode (repeat 0xff 32) (repeat 0 32) with Ok c => Some c | Err _ => None end) =
  Some ("🍔 🍩 🐻 🍒 🐫 🐦 🦄 🌸 🐞 🐰", "7072-c66b-a291-15f9").
Proof. vm_compute. reflexivity. Qed.

Example safety_vector_2 :
  (fun c => (SafetyCode_String c, HexFallback c)) <$>
    (match ComputeSafetyCode (repeat 0xaa 32) (repeat 0x55 32) with Ok c => Some c | Err _ => None end) =
  Some ("🐭 🐹 🍅 🐹 🐶 🌽 🍌 🐬 💧 🐔", "0283-adc3-402e-275f").
Proof. vm_compute. reflexivity. Qed.

(** ** The emoji *)

Lemma emojis_of_length digest : length (emojis_of digest) = SafetyCodeLength.
Proof. unfold emojis_of. by rewrite length_fmap, length_seq. Qed.

Lemma emojis_of_lookup digest i : (i < SafetyCodeLength)%nat -> emojis_of digest !! i = Some (emoji_of (nth i digest 0)).
Proof. intros Hi. unfold emojis_of. by rewrite list_lookup_fmap, lookup_seq_lt. Qed.

(** ** The order of the keys *)

Lemma bytes_Compare_refl_eq a b : bytes_Compare a b = Eq -> a = b.
Proof.
  revert b. induction a as [|x a IH]; intros [|y b]; try done. cbn. destruct (x ?= y) eqn:Hxy; try done.
  apply Z.compare_eq in Hxy as ->. intros ?. f_equal. by apply IH.
Qed.

Lemma bytes_Compare_antisym a b : bytes_Compare b a = CompOpp (bytes_Compare a b).
Proof.
  revert b. induction a as [|x a IH]; intros [|y b]; try done. cbn. rewrite Z.compare_antisym.
  destruct (x ?= y); cbn; auto.
Qed.

Lemma ordered_comm a b : ordered a b = ordered b a.
Proof.
  unfold ordered. rewrite (bytes_Compare_antisym a b). destruct (bytes_Compare a b) eqn:Hc; cbn; try done.
  by apply bytes_Compare_refl_eq in Hc as ->.
Qed.

Lemma ordered_cases a b : ordered a b = (a, b) \/ ordered a b = (b, a).
Proof. unfold ordered. destruct (bytes_Compare a b); auto. Qed.

(** The hashed text gives the pair of keys back, but for their order. *)
Lemma safety_input_inj a b c d : length a = length c -> safety_input a b = safety_input c d -> a = c /\ b = d.
Proof. intros Hl Heq. unfold safety_input in Heq. by apply app_inv_head, app_inv_head, app_inj_1 in Heq. Qed.

Lemma alphabet_distinct : NoDup SafetyEmojiAlphabet /\ length SafetyEmojiAlphabet = 64%nat.
Proof. split; [|reflexivity]. refine (bool_decide_unpack _ _). vm_compute. exact I. Qed.

(** Each emoji is picked by exactly four of the 256 values of a byte. *)
Lemma alphabet_unbiased :
  Forall (fun e => length (List.filter (fun v => bool_decide (emoji_of (Z.of_nat v) = e)) (seq 0 256)) = 4%nat) SafetyEmojiAlphabet.
Proof. refine (bool_decide_unpack _ _). vm_compute. exact I. Qed.

(** C31: a safety code is the same on both phones and bound to both keys: it does not
    depend on which key comes first; it is refused exactly when a key is not 32
    bytes; the texts hashed for two pairs of keys differ unless the pairs are the
    same up to order; and each of its ten emoji is picked without bias, four byte
    values to each of 64 distinct emoji. *)
Theorem safety_code_canonical a b :
  ComputeSafetyCode a b = ComputeSafetyCode b a /\
  (ComputeSafetyCode a b = Err ErrInvalidPublicKey <-> len a <> 32 \/ len b <> 32) /\
  (forall code, ComputeSafetyCode a b = Ok code ->
     length (Emojis code) = 10%nat /\
     exists low high, ordered a b = (low, high) /\ Digest code = sha256 (safety_input low high) /\
       (forall i, (i < 10)%nat -> Emojis code !! i = Some (emoji_of (nth i (Digest code) 0))) /\
       (forall c d low' high', len c = 32 -> len d = 32 -> ordered c d = (low', high') ->
          safety_input low high = safety_input low' high' -> (c = a /\ d = b) \/ (c = b /\ d = a))) /\
  Forall (fun e => length (List.filter (fun v => bool_decide (emoji_of (Z.of_nat v) = e)) (seq 0 256)) = 4%nat) SafetyEmojiAlphabet.
Proof.
  unfold ComputeSafetyCode. rewrite (ordered_comm b a), (orb_comm (negb (len b =? _))).
  change PublicKeyLength with 32. split; [done|]. split; [|split; [|exact alphabet_unbiased]].
  - destruct (len a =? 32) eqn:Ha, (len b =? 32) eqn:Hb; cbn; [|split; [by right; lia|done]|split; [by left; lia|done]..].
    destruct (ordered a b). split; [done|]. lia.
  - intros code. destruct (len a =? 32) eqn:Ha, (len b =? 32) eqn:Hb; try done. cbn [negb orb].
    destruct (ordered a b) as [low high] eqn:Hord. intros [= <-]. cbn [Emojis Digest].
    split; [apply emojis_of_length|]. exists low, high. split; [done|]. split; [done|]. split.
    + intros i Hi. by apply emojis_of_lookup.
    + intros c d low' high' Hc Hd Hord' Hin. unfold len in *.
      assert (length low = length low') as Hlen.
      { destruct (ordered_cases a b) as [Ho|Ho], (ordered_cases c d) as [Ho'|Ho']; rewrite Ho in Hord; rewrite Ho' in Hord'; simplify_eq; lia. }
      destruct (safety_input_inj _ _ _ _ Hlen Hin) as [-> ->].
      destruct (ordered_cases a b) as [Ho|Ho], (ordered_cases c d) as [Ho'|Ho']; rewrite Ho in Hord; rewrite Ho' in Hord'; simplify_eq; auto.
Qed.

Lemma safety_code_canonical_witness :
  ComputeSafetyCode (repeat 1 32) (repeat 2 32) = ComputeSafetyCode (repeat 2 32) (repeat 1 32) /\
  (ComputeSafetyCode [] (repeat 2 32) = Err ErrInvalidPublicKey <-> len (@nil Z) <> 32 \/ len (repeat 2 32) <> 32).
Proof.
  split; [apply (safety_code_canonical (repeat 1 32) (repeat 2 32))|].
  apply (safety_code_canonical [] (repeat 2 32)).
Defined.
