(* ===== verification/Boxes.v ===== *)
(** * Sealed pings and sealed keys (internal/crypto/aead.go, box.go)

    The constructions clients seal with, as the server's tests and its
    trusted-server mode use them: checks of lengths around golang.org/x/crypto,
    whose functions are parameters. *)

From S2P Require Import Prelude GoTime Models Api SafetyCode.
Local Open Scope Z_scope.

Definition XChaChaKeySize : Z := 32.
Definition XChaChaNonceSize : Z := 24.
Definition SealedBoxOverhead : Z := 48.

Inductive box_error := ErrBadKeyOrNonce | ErrInvalidPublicKey_ | ErrSealedBoxOpen | BadPrivateKey | Library.

Section boxes.
(** chacha20poly1305.NewX's Seal and Open; curve25519.X25519 by the base point;
    nacl/box's SealAnonymous, drawing from a random source, and OpenAnonymous. *)
Context (aead_Seal : bytes -> bytes -> bytes -> bytes -> bytes) (aead_Open : bytes -> bytes -> bytes -> bytes -> option bytes).
Context (x25519_base : bytes -> option bytes).
Context (box_SealAnonymous : bytes -> bytes -> bytes -> option bytes) (box_OpenAnonymous : bytes -> bytes -> bytes -> option bytes).

Definition good_key_nonce (key nonce : bytes) : bool := (len key =? XChaChaKeySize) && (len nonce =? XChaChaNonceSize).

(** NewX refuses only a key of another length. *)
Definition SealXChaCha20 (key nonce plaintext ad : bytes) : result box_error bytes :=
  if good_key_nonce key nonce then Ok (aead_Seal key nonce plaintext ad) else Err ErrBadKeyOrNonce.

Definition OpenXChaCha20 (key nonce ciphertext ad : bytes) : result box_error bytes :=
  if good_key_nonce key nonce then
    match aead_Open key nonce ciphertext ad with Some p => Ok p | None => Err Library end
  else Err ErrBadKeyOrNonce.

Definition DeriveX25519Public (priv : bytes) : result box_error bytes :=
  if len priv =? 32 then match x25519_base priv with Some p => Ok p | None => Err Library end else Err BadPrivateKey.

(** [random] is what the source gives; a nil source is crypto/rand. *)
Definition SealAnonymousBox (message recipientPub random : bytes) : result box_error bytes :=
  if len recipientPub =? 32 then
    match box_SealAnonymous message recipientPub random with Some b => Ok b | None => Err Library end
  else Err ErrInvalidPublicKey_.

Definition OpenAnonymousBox (sealed pub priv : bytes) : result box_error bytes :=
  if (len pub =? 32) && (len priv =? 32) then
    match box_OpenAnonymous sealed pub priv with Some m => Ok m | None => Err ErrSealedBoxOpen end
  else Err ErrInvalidPublicKey_.

(** What the constructions promise. *)
Record box_laws : Prop := {
  aead_opens key nonce p ad : len key = 32 -> len nonce = 24 -> aead_Open key nonce (aead_Seal key nonce p ad) ad = Some p;
  aead_length key nonce p ad : len (aead_Seal key nonce p ad) = len p + 16;
  box_opens m pub priv random b : x25519_base priv = Some pub -> box_SealAnonymous m pub random = Some b ->
    box_OpenAnonymous b pub priv = Some m;
  box_length m pub random b : box_SealAnonymous m pub random = Some b -> len b = len m + SealedBoxOverhead;
  x25519_length priv pub : x25519_base priv = Some pub -> len pub = 32
}.

(** What is sealed opens again, with the same key, nonce and associated data; a
    sealed circle key opens with the private key of the device it was sealed to,
    and fits an envelope. *)
Theorem sealed_opens (laws : box_laws) :
  (forall key nonce p ad c, SealXChaCha20 key nonce p ad = Ok c ->
     OpenXChaCha20 key nonce c ad = Ok p /\ len c = len p + 16) /\
  (forall m priv pub random b, DeriveX25519Public priv = Ok pub -> SealAnonymousBox m pub random = Ok b ->
     OpenAnonymousBox b pub priv = Ok m /\ (len m = 32 -> len b = 80 /\ len b <= maxBlobBytes)).
Proof.
  split.
  - intros key nonce p ad c. unfold SealXChaCha20, OpenXChaCha20. destruct (good_key_nonce key nonce) eqn:Hk; [|done].
    intros [= <-]. apply andb_true_iff in Hk as [Hk%Z.eqb_eq Hn%Z.eqb_eq].
    rewrite aead_opens by done. by rewrite aead_length.
  - intros m priv pub random b. unfold DeriveX25519Public, SealAnonymousBox, OpenAnonymousBox.
    destruct (len priv =? 32) eqn:Hp; [|done]. destruct (x25519_base priv) as [pub'|] eqn:Hpub; [|done]. intros [= ->].
    rewrite (x25519_length laws _ _ Hpub). cbn [Z.eqb Pos.eqb andb].
    destruct (box_SealAnonymous m pub random) as [b'|] eqn:Hb; [|done]. intros [= ->].
    rewrite (box_opens laws _ _ _ _ _ Hpub Hb). split; [done|]. intros Hm. rewrite (box_length laws _ _ _ _ Hb), Hm. done.
Qed.
End boxes.
