(* ===== verification/Password.v ===== *)
(** * Password hashing (internal/crypto/password.go)

    The PHC string format around Argon2id: [HashPasswordWithParams] prints the
    parameters, the salt and the key; [VerifyPassword] parses them back and
    recomputes the key.  Argon2id itself is a parameter ([argon2_IDKey]); each call
    is logged with its cost parameters ([w_kdf]), which is what its time depends on. *)

From S2P Require Import Prelude GoTime Base64 Models Ext Net Text World Demo.
Local Open Scope Z_scope.

Record Argon2Params := mkArgon2Params {
  Memory : Z; Iterations : Z; Parallelism : Z; SaltLength : Z; KeyLength : Z }.

Definition DefaultArgon2Params : Argon2Params := mkArgon2Params (64 * 1024) 3 4 16 32.

Definition argon2_Version : Z := 19.

Definition dollar : ascii := "$".

(** ** fmt.Sscanf with literal text and %d

    A verb skips blanks, then reads the longest run of digits; the input left
    after the last verb is ignored. *)
Fixpoint skip_blanks (s : string) : string :=
  match s with
  | String c s' => if is_space c && negb (N_of_ascii c =? 10)%N then skip_blanks s' else s
  | EmptyString => EmptyString
  end.

Fixpoint scan_digits (acc : Z) (s : string) : Z * string :=
  match s with
  | String c s' =>
      match digit_value c with Some v => scan_digits (10 * acc + v) s' | None => (acc, s) end
  | EmptyString => (acc, s)
  end.

(** At least one digit. *)
Definition scan_number (s : string) : option (Z * string) :=
  match s with
  | String c s' => match digit_value c with Some v => Some (scan_digits v s') | None => None end
  | EmptyString => None
  end.

(** %d into a [uintN]. *)
Definition scan_uint (bits : Z) (s : string) : option (Z * string) :=
  match scan_number (skip_blanks s) with
  | Some (v, s') => if v <? 2 ^ bits then Some (v, s') else None
  | None => None
  end.

(** %d into an [int]. *)
Definition scan_int (s : string) : option (Z * string) :=
  let s1 := skip_blanks s in
  let '(neg, s2) := match s1 with
    | String c s' => if ascii_dec c "-" then (true, s') else if ascii_dec c "+" then (false, s') else (false, s1)
    | EmptyString => (false, s1)
    end in
  match scan_number s2 with
  | Some (v, s') =>
      if neg then (if v <=? 2 ^ 63 then Some (- v, s') else None)
      else (if v <? 2 ^ 63 then Some (v, s') else None)
  | None => None
  end.

Fixpoint scan_lit (lit s : string) : option string :=
  match lit, s with
  | EmptyString, _ => Some s
  | String c lit', String c' s' => if ascii_dec c c' then scan_lit lit' s' else None
  | String _ _, EmptyString => None
  end.

Definition scan_version (s : string) : option Z :=
  match scan_lit "v=" s with
  | Some s1 => match scan_int s1 with Some (v, _) => Some v | None => None end
  | None => None
  end.

Definition scan_params (s : string) : option (Z * Z * Z) :=
  match scan_lit "m=" s with None => None | Some s =>
  match scan_uint 32 s with None => None | Some (m, s) =>
  match scan_lit ",t=" s with None => None | Some s =>
  match scan_uint 32 s with None => None | Some (t, s) =>
  match scan_lit ",p=" s with None => None | Some s =>
  match scan_uint 8 s with None => None | Some (p, _) => Some (m, t, p)
  end end end end end end.

(** ** The code *)

Definition encodeHash (p : Argon2Params) (salt key : bytes) : string :=
  ("$argon2id$v=" ++ itoa argon2_Version ++ "$m=" ++ itoa (Memory p) ++ ",t=" ++ itoa (Iterations p)
   ++ ",p=" ++ itoa (Parallelism p) ++ "$" ++ EncodeToString RawStdEncoding salt
   ++ "$" ++ EncodeToString RawStdEncoding key)%string.

(** A call of [argon2.IDKey]: its key, and the time it takes. *)
Definition IDKey `{Ext} (password salt : bytes) (time memory threads keyLen : Z) : M bytes := fun w =>
  (Ok (argon2_IDKey password salt time memory threads keyLen),
   set_kdf (mkIDKey time memory threads keyLen :: w_kdf w) w).

(** What a computation at the parameters [p] costs. *)
Definition kdf_cost (p : Argon2Params) : kdf_call := mkIDKey (Iterations p) (Memory p) (Parallelism p) (KeyLength p).

Definition HashPasswordWithParams `{Ext} (password : string) (p : Argon2Params) : M string :=
  if decide (password = EmptyString) then fail ErrEmptyPassword else
  M_bind (rand_Read (Z.to_nat (SaltLength p))) (fun salt =>
    M_bind (IDKey (list_byte_of_string password) salt (Iterations p) (Memory p) (Parallelism p) (KeyLength p)) (fun key =>
    ret (encodeHash p salt key))).

Definition decodeHash (encoded : string) : result error (Argon2Params * bytes * bytes) :=
  match split_on dollar encoded with
  | [_; alg; v; ps; salt64; hash64] =>
      if decide (alg <> "argon2id"%string) then Err ErrInvalidHash else
      match scan_version v with
      | None => Err ErrInvalidHash
      | Some version =>
          if negb (version =? argon2_Version) then Err ErrIncompatibleVersion else
          match scan_params ps with
          | None => Err ErrInvalidHash
          | Some (m, t, pl) =>
              match DecodeString RawStdEncoding salt64 with
              | None => Err ErrInvalidHash
              | Some salt =>
                  match DecodeString RawStdEncoding hash64 with
                  | None => Err ErrInvalidHash
                  | Some hash =>
                      let ls := Z.of_nat (length salt) in let lh := Z.of_nat (length hash) in
                      if (ls =? 0) || (lh =? 0) || (1024 <? ls) || (1024 <? lh) then Err ErrInvalidHash
                      else Ok (mkArgon2Params m t pl ls lh, salt, hash)
                  end
              end
          end
      end
  | _ => Err ErrInvalidHash
  end.

Definition weakerThan (got want : Argon2Params) : bool :=
  (Memory got <? Memory want) || (Iterations got <? Iterations want) ||
  (Parallelism got <? Parallelism want) || (KeyLength got <? KeyLength want).

(** The answer [(ok, needsRehash, err)] alone. *)
Definition VerifyPassword `{Ext} (encoded password : string) : result error (bool * bool) :=
  if decide (password = EmptyString) then Err ErrEmptyPassword else
  match decodeHash encoded with
  | Err e => Err e
  | Ok (p, salt, hash) =>
      let computed := argon2_IDKey (list_byte_of_string password) salt (Iterations p) (Memory p)
        (Parallelism p) (KeyLength p) in
      if bool_decide (hash = computed) then Ok (true, weakerThan p DefaultArgon2Params)
      else Ok (false, false)
  end.

(** The call as the service makes it: the answer, and the computation it takes. *)
Definition crypto_VerifyPassword `{Ext} (encoded password : string) : M (bool * bool) :=
  if decide (password = EmptyString) then fail ErrEmptyPassword else
  match decodeHash encoded with
  | Err e => fail e
  | Ok (p, salt, hash) =>
      M_bind (IDKey (list_byte_of_string password) salt (Iterations p) (Memory p) (Parallelism p) (KeyLength p))
        (fun computed =>
      if bool_decide (hash = computed) then ret (true, weakerThan p DefaultArgon2Params) else ret (false, false))
  end.

(** The dummy hash of the examples' service. *)
Definition demo_dummyHash : string :=
  match fst (HashPasswordWithParams "aul-timing-equalizer-password" DefaultArgon2Params demo_world) with
  | Ok h => h | Err _ => EmptyString end.

(** The computation that a verification makes, if any. *)
Definition verify_cost (encoded password : string) : list kdf_call :=
  if decide (password = EmptyString) then [] else
  match decodeHash encoded with Ok (p, _, _) => [kdf_cost p] | Err _ => [] end.

Lemma crypto_VerifyPassword_eq `{Ext} encoded password w :
  crypto_VerifyPassword encoded password w =
    (VerifyPassword encoded password, set_kdf (verify_cost encoded password ++ w_kdf w) w).
Proof.
  unfold crypto_VerifyPassword, VerifyPassword, verify_cost, fail.
  case_decide; [by destruct w|]. destruct (decodeHash encoded) as [[[p salt] hash]|e]; [|by destruct w].
  unfold M_bind, IDKey, ret. by case_bool_decide.
Qed.

(** ** Round trip *)

Lemma scan_digits_pretty x s : scan_digits 0 (pretty_N_go x s) = scan_digits (Z.of_N x) s.
Proof.
  revert s. induction (N.lt_wf_0 x) as [x _ IH]; intros s.
  destruct (decide (x = 0)%N) as [->|Hx]; [by rewrite pretty_N_go_0|].
  rewrite pretty_N_go_step by lia. rewrite IH by (apply N.div_lt; lia). simpl.
  rewrite digit_value_char by (apply N.mod_lt; lia). f_equal.
  pose proof (N.div_mod x 10 ltac:(lia)). lia.
Qed.

(** What follows a number does not continue it. *)
Definition stops (s : string) : Prop :=
  match s with String c _ => digit_value c = None | EmptyString => True end.

Lemma scan_digits_stop acc s : stops s -> scan_digits acc s = (acc, s).
Proof. destruct s as [|c s]; simpl; [done|]. by intros ->. Qed.

Lemma scan_number_itoa z s : 0 <= z -> stops s -> scan_number (itoa z ++ s) = Some (z, s).
Proof.
  intros Hz Hs. destruct (decide (z = 0)) as [->|Hne].
  - change (itoa 0) with "0"%string. rewrite string_app_cons, string_app_nil. simpl. by rewrite scan_digits_stop.
  - rewrite itoa_pos by lia. rewrite pretty_N_go_app, string_app_nil. set (x := Z.to_N z).
    destruct (pretty_N_go_digit x s ltac:(lia)) as (c & s' & Heq & v & Hv).
    pose proof (scan_digits_pretty x s) as Hd. rewrite (scan_digits_stop (Z.of_N x)) in Hd by done.
    unfold scan_number. rewrite Heq in *. rewrite Hv. cbn [scan_digits] in Hd. rewrite Hv in Hd.
    change (10 * 0 + v) with v in Hd. rewrite Hd.
    do 2 f_equal. lia.
Qed.

Lemma skip_blanks_itoa z s : 0 <= z -> skip_blanks (itoa z ++ s) = (itoa z ++ s)%string.
Proof.
  intros Hz. destruct (decide (z = 0)) as [->|Hne]; [done|].
  rewrite itoa_pos by lia. rewrite pretty_N_go_app.
  destruct (pretty_N_go_digit (Z.to_N z) ("" ++ s) ltac:(lia)) as (c & s' & -> & v & Hv). simpl.
  assert (is_space c = false) as ->; [|done].
  unfold digit_value, is_space in *. case_match eqn:Hr; [|done].
  apply andb_true_iff in Hr as [?%Z.leb_le ?%Z.leb_le].
  apply orb_false_iff; split; [apply andb_false_iff; right; apply N.leb_gt; lia|apply N.eqb_neq; lia].
Qed.

Lemma scan_uint_itoa bits z s :
  0 <= z < 2 ^ bits -> stops s -> scan_uint bits (itoa z ++ s) = Some (z, s).
Proof.
  intros Hz Hs. unfold scan_uint. rewrite skip_blanks_itoa, scan_number_itoa by (done || lia).
  by rewrite (proj2 (Z.ltb_lt _ _)) by lia.
Qed.

Lemma scan_lit_app lit s : scan_lit lit (lit ++ s) = Some s.
Proof.
  induction lit as [|c lit IH]; [by rewrite string_app_nil|]. rewrite string_app_cons. simpl.
  destruct (ascii_dec c c); [done|congruence].
Qed.

(** The parameters of a printable hash. *)
Definition params_ok (p : Argon2Params) : Prop :=
  0 <= Memory p < 2 ^ 32 /\ 0 <= Iterations p < 2 ^ 32 /\ 0 <= Parallelism p < 2 ^ 8 /\
  0 < SaltLength p <= 1024 /\ 0 < KeyLength p <= 1024.

Lemma scan_params_print p :
  params_ok p ->
  scan_params ("m=" ++ itoa (Memory p) ++ ",t=" ++ itoa (Iterations p) ++ ",p=" ++ itoa (Parallelism p)) =
    Some (Memory p, Iterations p, Parallelism p).
Proof.
  intros (Hm & Ht & Hp & _). unfold scan_params. rewrite scan_lit_app.
  rewrite scan_uint_itoa by (done || by split). rewrite scan_lit_app.
  rewrite scan_uint_itoa by (done || by split). rewrite scan_lit_app.
  assert (itoa (Parallelism p) = itoa (Parallelism p) ++ "")%string as ->.
  { clear. induction (itoa (Parallelism p)) as [|c s IH]; [done|]. by rewrite string_app_cons, <- IH. }
  by rewrite scan_uint_itoa by done.
Qed.

Lemma encode_char_plain e k : (k < 64)%N -> encode_char e k <> dollar.
Proof.
  intros Hk. destruct k as [|p]; [by destruct e|].
  do 6 (destruct p as [p|p|]; try (by destruct e); try lia).
Qed.

Lemma encode_plain l : no_char dollar (EncodeToString RawStdEncoding l) = true.
Proof.
  assert (H : forall k s, (k < 64)%N -> no_char dollar s = true ->
      no_char dollar (String (encode_char RawStdEncoding k) s) = true).
  { intros k s Hk Hs. simpl. destruct (ascii_dec _ _) as [He|]; [|done]. by apply encode_char_plain in He. }
  induction l as [|a|a b|a b c l IH] using triple_ind; [done| | |]; cbn [EncodeToString].
  - destruct (sextet_bounds _ 0 0 (to_N_lt a)) as (?&?&?&?); [lia|lia|]. by repeat apply H.
  - destruct (sextet_bounds _ _ 0 (to_N_lt a) (to_N_lt b)) as (?&?&?&?); [lia|]. by repeat apply H.
  - destruct (sextet_bounds _ _ _ (to_N_lt a) (to_N_lt b) (to_N_lt c)) as (?&?&?&?). by repeat apply H.
Qed.

Lemma itoa_plain z : 0 <= z -> no_char dollar (itoa z) = true.
Proof.
  assert (H : forall x s, no_char dollar s = true -> no_char dollar (pretty_N_go x s) = true).
  { intros x. induction (N.lt_wf_0 x) as [x _ IH]; intros s Hs.
    destruct (decide (x = 0)%N) as [->|Hx]; [done|]. rewrite pretty_N_go_step by lia.
    apply IH; [apply N.div_lt; lia|]. simpl. destruct (ascii_dec _ _) as [He|]; [|done].
    unfold pretty_N_char in He. by repeat case_match. }
  intros Hz. destruct (decide (z = 0)) as [->|Hne]; [done|]. rewrite itoa_pos by lia. by apply H.
Qed.

Lemma decode_print p salt key :
  params_ok p -> Z.of_nat (length salt) = SaltLength p -> Z.of_nat (length key) = KeyLength p ->
  decodeHash (encodeHash p salt key) = Ok (p, salt, key).
Proof.
  intros Hok Hs Hk. pose proof Hok as (Hm & Ht & Hp & Hsl & Hkl).
  set (ps := ("m=" ++ itoa (Memory p) ++ ",t=" ++ itoa (Iterations p) ++ ",p=" ++ itoa (Parallelism p))%string).
  assert (Hshape : encodeHash p salt key = ("" ++ String dollar ("argon2id" ++ String dollar ("v=19" ++
    String dollar (ps ++ String dollar (EncodeToString RawStdEncoding salt ++ String dollar
      (EncodeToString RawStdEncoding key))))))%string).
  { unfold encodeHash, ps. by rewrite !string_app_assoc, !string_app_cons, !string_app_nil. }
  assert (Hps : no_char dollar ps = true).
  { unfold ps. rewrite !no_char_app, !itoa_plain by lia. done. }
  unfold decodeHash. rewrite Hshape, !split_on_app by (done || apply encode_plain).
  rewrite split_on_last by apply encode_plain. unfold ps at 1. rewrite scan_params_print by done. simpl.
  unfold DecodeString. rewrite !strip_encode, !decode_groups_encode, Hs, Hk.
  rewrite !(proj2 (Z.eqb_neq _ _)), !(proj2 (Z.ltb_ge _ _)) by lia. by destruct p.
Qed.

(** C13: a hash verifies the password it was made from, and reports that it needs
    rehashing exactly when its parameters are weaker than the current ones: the
    printed parameters, salt and key are read back unchanged. *)
Theorem HashPassword_verifies `{Ext} password p w hash w'
    (Hp : params_ok p)
    (Hlen : forall salt, Z.of_nat (length (argon2_IDKey (list_byte_of_string password) salt
              (Iterations p) (Memory p) (Parallelism p) (KeyLength p))) = KeyLength p)
    (Hh : HashPasswordWithParams password p w = (Ok hash, w')) :
  VerifyPassword hash password = Ok (true, weakerThan p DefaultArgon2Params).
Proof.
  unfold HashPasswordWithParams in Hh. unfold VerifyPassword.
  destruct (decide (password = EmptyString)) as [|Hne]; [done|].
  unfold M_bind, rand_Read, IDKey, ret in Hh. destruct (w_rand w (w_draws w)) as [b|]; [|done].
  injection Hh as <- _. rewrite decode_print; [|done| |apply Hlen].
  - by rewrite bool_decide_eq_true_2.
  - destruct Hp as (_ & _ & _ & Hs & _).
    rewrite length_firstn, length_app, repeat_length. lia.
Qed.

Lemma HashPassword_verifies_witness :
  exists hash, VerifyPassword hash "correct horse" = Ok (true, false) /\
    VerifyPassword hash "battery staple" = Ok (false, false).
Proof.
  eexists. split.
  - change false with (weakerThan DefaultArgon2Params DefaultArgon2Params).
    eapply (HashPassword_verifies "correct horse" DefaultArgon2Params demo_world).
    + repeat split; vm_compute; congruence.
    + intros salt. unfold argon2_IDKey, demo_ext. rewrite length_firstn, !length_app, repeat_length.
      change (KeyLength DefaultArgon2Params) with 32. lia.
    + vm_compute. reflexivity.
  - vm_compute. reflexivity.
Defined.
