(* ===== verification/Auth.v ===== *)
(** * Authentication (internal/auth, internal/audit)

    Validation, the persistent lockout, and the service's operations: register,
    login, refresh with rotation and reuse detection, resolve, logout, revoke.
    Each store call is an instant of its own; a transaction is one instant. *)

From S2P Require Import Prelude Table GoTime Base64 Models Api Ext World Hub StoreAccounts Token.
From S2P Require Import SafetyCode Password.
Local Open Scope Z_scope.
Local Open Scope aul_scope.

(** ** Audit (audit.go) *)

Record AuditEvent := mkAuditEvent {
  ae_Name : string; ae_UserID : option uuid; ae_DeviceID : option uuid; ae_CircleID : option uuid;
  ae_IP : string; ae_Detail : option AuditDetail }.

Definition storeIP (cfg : Config) : bool := 0 <? cfg_IPLogRetentionDays cfg.

(** Best effort: a failed write is logged and dropped. *)
Definition audit_Log (cfg : Config) (e : AuditEvent) : M unit :=
  ignore (WriteAudit (ae_Name e) (ae_UserID e) (ae_DeviceID e) (ae_CircleID e)
    (if storeIP cfg && bool_decide (ae_IP e <> EmptyString) then Some (ae_IP e) else None) (ae_Detail e)).

(** ** Validation (validate.go) *)

Definition minPasswordLen : Z := 8.
Definition maxPasswordLen : Z := 1024.
Definition maxEmailLen : Z := 254.

Definition normalizeEmail `{Ext} (email : string) : string := ToLower (TrimSpace email).

Definition validateEmail `{Ext} (email : string) : result error string :=
  let e := normalizeEmail email in
  if bool_decide (e = EmptyString) || (maxEmailLen <? str_len e) then Err ErrInvalidEmail else
  match mail_ParseAddress e with
  | Some addr => if bool_decide (addr = e) then Ok e else Err ErrInvalidEmail
  | None => Err ErrInvalidEmail
  end.

Definition validatePassword (pw : string) : result error unit :=
  if negb (ValidString pw) then Err ErrWeakPassword
  else if str_len pw <? minPasswordLen then Err ErrWeakPassword
  else if maxPasswordLen <? str_len pw then Err ErrPasswordTooLong
  else Ok tt.

Definition validatePlatform (p : string) : result error unit :=
  if decide (p ∈ ["android"; "ios"; "web"; "web-mobile"]%string) then Ok tt else Err ErrInvalidPlatform.

(** [len(pk)]: a nil slice has none. *)
Definition olen (b : option bytes) : Z := match b with Some l => len l | None => 0 end.

Definition validatePubkey (pk : option bytes) : result error unit :=
  if negb (olen pk =? 0) && negb (olen pk =? PublicKeyLength) then Err ErrPubkey else Ok tt.

(** ** Lockout (lockout.go) *)

Record LockoutPolicy := mkLockoutPolicy {
  lp_Window : duration; lp_EmailThreshold : Z; lp_IPThreshold : Z;
  lp_BaseBackoff : duration; lp_MaxBackoff : duration }.

Definition DefaultLockout : LockoutPolicy :=
  mkLockoutPolicy (15 * Minute) 5 50 (30 * Second) (15 * Minute).

Definition backoff (p : LockoutPolicy) (over : Z) : duration :=
  let over := if over <? 1 then 1 else over in
  if 20 <? over then lp_MaxBackoff p else
  let d := wrap64 (Z.shiftl (lp_BaseBackoff p) (over - 1)) in
  if (lp_MaxBackoff p <? d) || (d <=? 0) then lp_MaxBackoff p else d.

Record LockStatus := mkLockStatus { ls_Locked : bool; ls_RetryAfter : duration; ls_Reason : string }.

Definition unlocked : LockStatus := mkLockStatus false 0 "".

Definition checkLockout {A} (lp : LockoutPolicy) (email ip : string)
    (h : error -> prog A) (k : LockStatus -> prog A) : prog A :=
  try! emailFails := CountRecentFailuresByEmail (Some email) (lp_Window lp) catch h in
  if lp_EmailThreshold lp <=? emailFails then
    let over := emailFails - lp_EmailThreshold lp + 1 in
    k (mkLockStatus true (backoff lp over) "too many failed attempts for this account")
  else if decide (ip = EmptyString) then k unlocked
  else
    try! ipFails := CountRecentFailuresByIP (Some ip) (lp_Window lp) catch h in
    if lp_IPThreshold lp <=? ipFails then
      let over := ipFails - lp_IPThreshold lp + 1 in
      k (mkLockStatus true (backoff lp over) "too many failed attempts from this network")
    else k unlocked.

Definition strPtrOrNil (s : string) : option string :=
  if decide (s = EmptyString) then None else Some s.

Definition recordAttempt (cfg : Config) (email ip : string) (success : bool) : M unit :=
  ignore (RecordLoginAttempt (Some email) (strPtrOrNil (if storeIP cfg then ip else EmptyString)) success).

(** ** The service (service.go) *)

Record Result := mkResult {
  res_User : option User; res_Device : option Device; res_Session : Session;
  res_AccessToken : string; res_RefreshToken : string;
  res_AccessExpiresAt : time; res_RefreshExpiresAt : time }.

Record RegisterInput := mkRegisterInput {
  ri_Email : string; ri_Password : string; ri_Platform : string; ri_DisplayName : string;
  ri_Pubkey : option bytes; ri_IP : string }.

Record LoginInput := mkLoginInput {
  li_Email : string; li_Password : string; li_Platform : string; li_DisplayName : string;
  li_DeviceID : option uuid; li_Pubkey : option bytes; li_IP : string }.

(** Runs inside the caller's transaction. *)
Definition issueSession (cfg : Config) (user : User) (device : Device) : M Result :=
  let! access := GenerateToken in
  let! refresh := GenerateToken in
  let! now := time_Now in
  let accessExp := Add now (cfg_AccessTTL cfg) in
  let refreshExp := Add now (cfg_RefreshTTL cfg) in
  let! session := CreateSession (User_ID user) (Device_ID device)
    (HashToken (cfg_SessionPepper cfg) access) (HashToken (cfg_SessionPepper cfg) refresh)
    accessExp refreshExp in
  ret (mkResult (Some user) (Some device) session access refresh accessExp refreshExp).

Definition Register `{Ext} (cfg : Config) (inp : RegisterInput) : prog (result error Result) :=
  let? email := validateEmail (ri_Email inp) catch (fun e => Ret (Err e)) in
  let? _ := validatePassword (ri_Password inp) catch (fun e => Ret (Err e)) in
  let? _ := validatePlatform (ri_Platform inp) catch (fun e => Ret (Err e)) in
  let? _ := validatePubkey (ri_Pubkey inp) catch (fun e => Ret (Err e)) in
  try! exists_ := EmailExists email catch (fun e => Ret (Err e)) in
  check (negb exists_) (Err ErrEmailTaken)
  (try! hash := HashPasswordWithParams (ri_Password inp) DefaultArgon2Params catch (fun e => Ret (Err e)) in
   try! res := WithTx (
     let! user := CreateUser email hash in
     let! device := CreateDevice (User_ID user) (ri_Platform inp) (strPtrOrNil (ri_DisplayName inp)) (ri_Pubkey inp) in
     issueSession cfg user device) catch (fun e => Ret (Err e)) in
   do! audit_Log cfg (mkAuditEvent "register" (User_ID <$> res_User res) (Device_ID <$> res_Device res) None
     (ri_IP inp) None) ;;
   Ret (Ok res)).

Definition resolveOrCreateDevice (user : User) (inp : LoginInput) : M Device :=
  match li_DeviceID inp with
  | Some id => fun w =>
      match GetDeviceForUser id (User_ID user) w with
      | (Err e, w1) => (Err (if IsNotFound e then ErrDeviceNotFound else e), w1)
      | (Ok device, w1) =>
          if (olen (li_Pubkey inp) =? PublicKeyLength) && (olen (Device_Pubkey device) =? 0) then
            M_bind (SetDevicePubkey (Device_ID device) (li_Pubkey inp))
              (fun _ => ret (Device_set_Pubkey (li_Pubkey inp) device)) w1
          else (Ok device, w1)
      end
  | None =>
      let create := CreateDevice (User_ID user) (li_Platform inp) (strPtrOrNil (li_DisplayName inp)) (li_Pubkey inp) in
      if olen (li_Pubkey inp) =? PublicKeyLength then
        let! existing := ListDevicesForUser (User_ID user) in
        match filter (fun d => default [] (Device_Pubkey d) = default [] (li_Pubkey inp)) existing with
        | d :: _ => ret d
        | [] => create
        end
      else create
  end.

(** [Service]: what [NewService] fixes.  [Login] takes all of it; the operations
    that need no more than the configuration take [sv_cfg].  [dummyHash] is what a
    login for an unknown account is verified against. *)
Record Service := mk_Service {
  sv_cfg : Config; sv_lockout : LockoutPolicy; sv_argonParams : Argon2Params; sv_dummyHash : string }.

Definition WithArgon2Params (p : Argon2Params) (s : Service) : Service :=
  mk_Service (sv_cfg s) (sv_lockout s) p (sv_dummyHash s).

Definition WithLockout (p : LockoutPolicy) (s : Service) : Service :=
  mk_Service (sv_cfg s) p (sv_argonParams s) (sv_dummyHash s).

Definition NewService `{Ext} (cfg : Config) (opts : list (Service -> Service)) : M Service :=
  let s := foldl (fun s o => o s) (mk_Service cfg DefaultLockout DefaultArgon2Params EmptyString) opts in
  let! dummy := HashPasswordWithParams "aul-timing-equalizer-password" (sv_argonParams s) in
  ret (mk_Service (sv_cfg s) (sv_lockout s) (sv_argonParams s) dummy).

Definition Login `{Ext} (s : Service) (inp : LoginInput) : prog (result error Result) :=
  let cfg := sv_cfg s in
  let email := normalizeEmail (li_Email inp) in
  let ip := li_IP inp in
  let? _ := validatePlatform (li_Platform inp) catch (fun e => Ret (Err e)) in
  let? _ := validatePubkey (li_Pubkey inp) catch (fun e => Ret (Err e)) in
  checkLockout (sv_lockout s) email ip (fun e => Ret (Err e)) (fun lock =>
  if ls_Locked lock then Ret (Err (LockedError (ls_RetryAfter lock) (ls_Reason lock))) else
  try! user := GetUserByEmail email catch (fun e =>
    if IsNotFound e then
      do! crypto_VerifyPassword (sv_dummyHash s) (li_Password inp) ;;
      do! recordAttempt cfg email ip false ;;
      do! audit_Log cfg (mkAuditEvent "login_failed" None None None ip (Some (DetailEmail email))) ;;
      Ret (Err ErrInvalidCredentials)
    else Ret (Err e)) in
  try! verified := crypto_VerifyPassword (User_PassHash user) (li_Password inp) catch (fun e => Ret (Err e)) in
  let '(ok, needsRehash) := verified in
  if negb ok then
    do! recordAttempt cfg email ip false ;;
    do! audit_Log cfg (mkAuditEvent "login_failed" (Some (User_ID user)) None None ip None) ;;
    Ret (Err ErrInvalidCredentials)
  else
  let finish :=
    do! recordAttempt cfg email ip true ;;
    try! res := WithTx (
      let! device := resolveOrCreateDevice user inp in
      issueSession cfg user device) catch (fun e => Ret (Err e)) in
    do! audit_Log cfg (mkAuditEvent "login" (User_ID <$> res_User res) (Device_ID <$> res_Device res) None ip None) ;;
    Ret (Ok res) in
  if needsRehash then
    try! nh := HashPasswordWithParams (li_Password inp) (sv_argonParams s) catch (fun _ => finish) in
    do! UpdateUserPassword (User_ID user) nh ;; finish
  else finish).

(** Rotates a refresh token; a replayed previous token, or a second spend of
    the same one, revokes the session. *)
Definition Refresh (cfg : Config) (refreshToken ip : string) : prog (result error Result) :=
  if decide (refreshToken = EmptyString) then Ret (Err ErrRefreshInvalid) else
  let hash := HashToken (cfg_SessionPepper cfg) refreshToken in
  let reuse (s : Session) :=
    do! RevokeSession (Session_ID s) ;;
    do! audit_Log cfg (mkAuditEvent "refresh_reuse_detected" (Some (Session_UserID s))
      (Some (Session_DeviceID s)) None ip None) ;;
    Ret (Err ErrRefreshReused) in
  try! session := GetSessionByRefreshHash hash catch (fun e =>
    if negb (IsNotFound e) then Ret (Err e) else
    try! reused := GetSessionByPrevRefreshHash (Some hash) catch (fun _ => Ret (Err ErrRefreshInvalid)) in
    reuse reused) in
  try! access := GenerateToken catch (fun e => Ret (Err e)) in
  try! newRefresh := GenerateToken catch (fun e => Ret (Err e)) in
  try! now := time_Now catch (fun e => Ret (Err e)) in
  let accessExp := Add now (cfg_AccessTTL cfg) in
  let refreshExp := Add now (cfg_RefreshTTL cfg) in
  try! rot := RotateSession (Session_ID session) (HashToken (cfg_SessionPepper cfg) access)
      (HashToken (cfg_SessionPepper cfg) newRefresh) hash accessExp refreshExp catch (fun e =>
    if IsNotFound e then reuse session else Ret (Err e)) in
  do! audit_Log cfg (mkAuditEvent "token_refresh" (Some (Session_UserID rot)) (Some (Session_DeviceID rot))
    None ip None) ;;
  Ret (Ok (mkResult None None rot access newRefresh accessExp refreshExp)).

(** The authenticated identity (httpx.Auth). *)
Record Auth := mkAuth { a_UserID : uuid; a_DeviceID : uuid; a_SessionID : uuid }.

Definition Resolve (cfg : Config) (accessToken : string) : M Auth :=
  if decide (accessToken = EmptyString) then fail ErrUnauthorized else
  fun w =>
    match GetSessionByAccessHash (HashToken (cfg_SessionPepper cfg) accessToken) w with
    | (Ok s, w') => (Ok (mkAuth (Session_UserID s) (Session_DeviceID s) (Session_ID s)), w')
    | (Err e, w') => (Err (if IsNotFound e then ErrUnauthorized else e), w')
    end.

Definition Logout {A} (cfg : Config) (sessionID userID : uuid) (ip : string)
    (h : error -> prog A) (k : prog A) : prog A :=
  try! _ := RevokeSession sessionID catch h in
  do! audit_Log cfg (mkAuditEvent "logout" (Some userID) None None ip None) ;; k.

Definition RevokeDevice {A} (cfg : Config) (userID deviceID : uuid) (ip : string)
    (h : error -> prog A) (k : prog A) : prog A :=
  try! device := GetDeviceForUser deviceID userID catch (fun e => h (if IsNotFound e then ErrDeviceNotFound else e)) in
  try! _ := RevokeSessionsForDevice (Device_ID device) catch h in
  do! audit_Log cfg (mkAuditEvent "session_revoked" (Some userID) (Some (Device_ID device)) None ip None) ;; k.

(** ** The middleware (middleware.go) *)

(** [BearerToken] of an Authorization header; no letter of "Bearer" has a
    non-ASCII case variant. *)
Definition BearerToken `{Ext} (header : string) : string :=
  if (7 <? str_len header) &&
     bool_decide (nocase (String.substring 0 7 header) = "bearer ")
  then TrimSpace (String.substring 7 (String.length header - 7) header)
  else EmptyString.

(** What of a request the middleware reads. *)
Record Request := mkRequest {
  rq_Authorization : string; rq_AccessCookie : option string; rq_RealIP : string }.

Definition request_token `{Ext} (r : Request) : string :=
  let token := BearerToken (rq_Authorization r) in
  if decide (token = EmptyString) then default EmptyString (rq_AccessCookie r) else token.

Definition RequireAuth `{Ext} (cfg : Config) (r : Request) (next : Auth -> prog response) : prog response :=
  try! a := Resolve cfg (request_token r) catch (fun _ => Ret (Unauthorized "authentication required")) in
  next a.
