(* ===== verification/Server.v ===== *)
(** * Middleware shared by the circle handlers (httpapi/helpers.go)

    A handler under /circles/{circleID} runs with the identity [RequireAuth]
    resolved and the membership [requireCircleMember] loaded. *)

From S2P Require Import Prelude Table GoTime Base64 Models Api Ext World Hub StoreAccounts.
From S2P Require Import StoreCircles StorePings Auth.
Local Open Scope Z_scope.
Local Open Scope aul_scope.

(** A decoded request body, or the message of [httpx.DecodeJSON]'s error. *)
Abbreviation decoded := (result string).

Definition bad (msg : string) : prog response := Ret (BadRequest msg).
Definition internal (e : error) : prog response := Ret (Internal e).

(** [parseUUIDParam]. *)
Definition parseUUIDParam `{Ext} (name value : string) : result string uuid :=
  match uuid_Parse value with
  | Some id => Ok id
  | None => Err (name ++ " must be a valid id")%string
  end.

(** A non-member is told the circle does not exist. *)
Definition requireCircleMember `{Ext} (a : Auth) (circleID : string)
    (next : CircleMember -> prog response) : prog response :=
  match uuid_Parse circleID with
  | None => Ret (NotFound "circle not found")
  | Some cid =>
      try! m := GetMembership cid (a_UserID a) catch (fun e =>
        if IsNotFound e then Ret (NotFound "circle not found") else internal e) in
      next m
  end.

Definition is_owner (m : CircleMember) : bool := bool_decide (CircleMember_Role m = "owner"%string).

Definition requireOwner (m : CircleMember) (next : prog response) : prog response :=
  check (is_owner m) (Forbidden "owner role required") next.

Definition publish (ty : EventType) (circleID : uuid) (payload : option Payload) : M unit :=
  hub (Publish (mkEvent ty circleID payload)).

(** [middleware.RateLimit]: what the limiter answers for the request's key; an
    empty key is not limited. *)
Definition RateLimit (key : string) (allow : bool) (retryAfterSecs : Z) (next : prog response) : prog response :=
  if bool_decide (key <> EmptyString) && negb allow
  then Ret (mk_response 429 (BError CodeRateLimited "rate limit exceeded, slow down") [] (Some retryAfterSecs))
  else next.
