(* ===== verification/Realtime.v ===== *)
(** * The WebSocket endpoint (httpapi/ws.go)

    [handleRealtime] up to the upgrade, as a program like the other handlers, with
    the calls it makes on the hub; and the loop that streams to the socket.  What
    happens to the connection in between, against everything else the hub does, is
    HubSys. *)

From S2P Require Import Prelude Table GoTime Models Api Hub Ext World StoreAccounts StoreCircles Auth Server HubInv.
Local Open Scope string_scope.
Local Open Scope Z_scope.
Local Open Scope aul_scope.

Definition wsWriteWait : duration := 10 * Second.
Definition wsPingEvery : duration := 30 * Second.

(** What the endpoint answers: a response of its own, the one websocket.Accept
    wrote, or the connection of a user subscribed to circles. *)
Inductive upgrade :=
| Answered (r : response)
| AcceptAnswered
| Upgraded (a : Auth) (circles : list uuid).

(** [hub.Admit] and [hub.Release] take the hub's mutex: an instant each. *)
Definition hub_Admit (userID : uuid) : M bool :=
  fun w => let '(admitted, h) := Admit_conn userID (w_hub w) in (Ok admitted, set_hub h w).

Section handler.
Context `{Ext}.

(** The Bearer header, then the access cookie, then the query. *)
Definition realtime_token (r : Request) (access_token : string) : string :=
  let token := BearerToken (rq_Authorization r) in
  let token := if empty token then default EmptyString (rq_AccessCookie r) else token in
  if empty token then access_token else token.

(** [allow] is the limiter's verdict, [accepts] whether websocket.Accept upgrades. *)
Definition handleRealtime (cfg : Config) (allow accepts : bool) (r : Request) (access_token : string) : prog upgrade :=
  if negb allow then
    Ret (Answered (mk_response 429 (BError CodeRateLimited "too many connection attempts") [] (Some 10))) else
  try! a := Resolve cfg (realtime_token r access_token) catch (fun _ => Ret (Answered (Unauthorized "authentication required"))) in
  Act (hub_Admit (a_UserID a)) (fun admitted =>
  if bool_decide (admitted <> Ok true) then Ret (Answered (WriteError 503 CodeRateLimited "connection limit reached")) else
  try! rows := ListCirclesForUser (a_UserID a) catch (fun e =>
    do! hub (Release (a_UserID a)) ;; Ret (Answered (Internal e))) in
  if negb accepts then do! hub (Release (a_UserID a)) ;; Ret AcceptAnswered else
  Ret (Upgraded a (Circle_ID ∘ fst <$> rows))).

(** Once upgraded: [Register], then a presence update whose error is ignored. *)
Definition realtime_open (a : Auth) (register : Hub -> Hub) : prog unit :=
  do! hub register ;; do! TouchDevice (a_DeviceID a) ;; Ret tt.

(** The end of the connection: [Unregister], then the deferred [Release]. *)
Definition realtime_end (a : Auth) (unregister : Hub -> Hub) : prog unit :=
  do! hub unregister ;; do! hub (Release (a_UserID a)) ;; Ret tt.
End handler.

(** ** The streaming loop *)

(** What the select sees, with whether the write or the ping that follows works. *)
Inductive ws_event :=
| ReadDone
| SendReady (f : option frame) (written : bool)   (** None: the channel is closed *)
| PingTick (answered : bool).

Inductive ws_end := PeerGone | ServerClosed | WriteFailed | PingFailed.

Fixpoint stream_loop (events : list ws_event) : list frame * option ws_end :=
  match events with
  | [] => ([], None)
  | ReadDone :: _ => ([], Some PeerGone)
  | SendReady None _ :: _ => ([], Some ServerClosed)
  | SendReady (Some f) written :: rest =>
      if written : bool then let '(fs, e) := stream_loop rest in (f :: fs, e) else ([], Some WriteFailed)
  | PingTick answered :: rest => if answered : bool then stream_loop rest else ([], Some PingFailed)
  end.

(** The welcome frame, then the loop. *)
Inductive wire_frame := Welcome (circles : list uuid) (server_ts : time) (poll_hint : Z) | Streamed (f : frame).

Definition stream (circles : list uuid) (now : time) (welcomed : bool) (events : list ws_event) : list wire_frame * option ws_end :=
  if negb welcomed then ([], Some WriteFailed) else
  let '(fs, e) := stream_loop events in (Welcome circles now 30 :: (Streamed <$> fs), e).

(** ** Who gets a WebSocket *)

(** The counters, as they answer. *)
Definition same_counts (h h' : Hub) : Prop :=
  h_totalConns h' = h_totalConns h /\ (forall u, per_user h' u = per_user h u) /\
  h_clients h' = h_clients h /\ h_heap h' = h_heap h.

Lemma admit_release u h h' : 0 <= h_totalConns h -> (forall u, 0 <= per_user h u) -> Admit_conn u h = (true, h') ->
  same_counts h (Release u h').
Proof.
  intros Ht Hu. unfold Admit_conn. destruct (_ || _); [done|]. intros [= <-]. pose proof (Hu u) as Hu0. unfold Release, per_user in *. cbn.
  rewrite lookup_insert_eq. cbn. rewrite (proj2 (Z.ltb_lt _ _)) by lia. rewrite (proj2 (Z.ltb_lt _ _)) by lia.
  rewrite !Z.add_simpl_r. unfold same_counts, per_user. cbn. split_and!; [done| |done|done]. intros v. destruct (decide (v = u)) as [->|Hne].
  - destruct (default 0 (h_perUser h !! u) =? 0) eqn:He.
    + apply Z.eqb_eq in He. cbn. rewrite lookup_delete_eq. cbn. lia.
    + cbn. by rewrite lookup_insert_eq.
  - destruct (_ =? 0); cbn; [rewrite lookup_delete_ne by done|rewrite lookup_insert_ne by done]; by rewrite lookup_insert_ne.
Qed.

(** A SELECT leaves the tables and the hub alone, whatever it answers. *)
Lemma query_still {A} (f : time -> DB -> result error A) w r w' : query f w = (r, w') ->
  w_hub w' = w_hub w /\ w_db w' = w_db w.
Proof.
  unfold query, sql. destruct (next_fault w) as [b w1] eqn:Hn. apply next_fault_same in Hn as (<- & _ & <-).
  destruct b; [by intros [= _ <-]|]. by destruct (f _ _); intros [= _ <-]; destruct w1.
Qed.

Lemma Resolve_still `{Ext} cfg t w r w' : Resolve cfg t w = (r, w') -> w_hub w' = w_hub w /\ w_db w' = w_db w.
Proof.
  unfold Resolve. destruct (decide _); [by intros [= _ <-]|].
  destruct (GetSessionByAccessHash _ w) as [[s|e] w1] eqn:Hs; intros [= _ <-]; by apply query_still in Hs.
Qed.

(** The gate of the endpoint: only a token that resolves to a session gets a
    connection, subscribed to the circles its user is in at that moment, and then
    the hub counts one connection more, within its ceilings; on every other way
    out the counters answer as before.  The tables are only read. *)
Theorem realtime_gate `{Ext} cfg allow accepts r q w o w'
    (Ht : 0 <= h_totalConns (w_hub w)) (Hu : forall u, 0 <= per_user (w_hub w) u)
    (Hrun : run (handleRealtime cfg allow accepts r q) w = (o, w')) :
  w_db w' = w_db w /\
  match o with
  | Upgraded a circles =>
      allow = true /\ fst (Resolve cfg (realtime_token r q) w) = Ok a /\
      (exists rows w1 w2, ListCirclesForUser (a_UserID a) w1 = (Ok rows, w2) /\ w_db w1 = w_db w /\
         circles = (Circle_ID ∘ fst <$> rows)) /\
      w_hub w' = snd (Admit_conn (a_UserID a) (w_hub w)) /\
      h_totalConns (w_hub w') = h_totalConns (w_hub w) + 1 /\ h_totalConns (w_hub w') <= h_maxTotal (w_hub w) /\
      per_user (w_hub w') (a_UserID a) = per_user (w_hub w) (a_UserID a) + 1 /\
      per_user (w_hub w') (a_UserID a) <= h_maxPerUser (w_hub w)
  | _ => same_counts (w_hub w) (w_hub w')
  end.
Proof.
  assert (forall h, same_counts h h) as Hsame by (by intros h; split_and!).
  revert Hrun. unfold handleRealtime. destruct allow; cbn [negb]; [|intros [= <- <-]; auto].
  cbn [attempt run]. destruct (Resolve cfg (realtime_token r q) w) as [[a|e] w1] eqn:Hres.
  2:{ apply Resolve_still in Hres as [Hh Hd]. intros [= <- <-]. rewrite Hh. auto. }
  apply Resolve_still in Hres as [Hh Hd]. unfold hub_Admit. cbn [run]. rewrite Hh.
  destruct (Admit_conn (a_UserID a) (w_hub w)) as [ok h1] eqn:Hadm. destruct ok.
  2:{ cbn. intros [= <- <-]. cbn. unfold Admit_conn in Hadm. destruct (_ || _); [|done]. injection Hadm as <-. auto. }
  rewrite (bool_decide_eq_false_2 (Ok true <> Ok true)) by auto. cbn [run attempt].
  pose proof (admit_release _ _ _ Ht Hu Hadm) as Hrel.
  destruct (ListCirclesForUser (a_UserID a) (set_hub h1 w1)) as [[rows|e] w2] eqn:Hl;
    pose proof Hl as Hstill; apply query_still in Hstill as [Hh2 Hd2]; cbn in Hh2, Hd2.
  2:{ cbn. intros [= <- <-]. cbn. rewrite Hh2, Hd2. auto. }
  destruct accepts; cbn [negb run do_ hub]; intros [= <- <-]; cbn; rewrite Hh2, Hd2; [|by auto].
  split; [done|]. unfold Admit_conn in Hadm. destruct (_ || _) eqn:Hor; [done|]. injection Hadm as <-.
  apply orb_false_iff in Hor as [H1%Z.leb_gt H2%Z.leb_gt]. split_and!; try done.
  - eexists rows, _, w2. split; [exact Hl|done].
  - unfold Admit_conn. by rewrite (proj2 (Z.leb_gt _ _) H1), (proj2 (Z.leb_gt _ _) H2).
  - cbn. lia.
  - unfold per_user at 1. cbn. by rewrite lookup_insert_eq.
  - unfold per_user at 1. cbn. rewrite lookup_insert_eq. cbn. lia.
Qed.
