(* ===== verification/CirclesApi.v ===== *)
(** * Circle handlers (httpapi/circles.go, invites.go) *)

From S2P Require Import Prelude Table GoTime Base64 Models Api Ext World Hub StoreAccounts.
From S2P Require Import StoreCircles StorePings Auth Server.
Local Open Scope Z_scope.
Local Open Scope aul_scope.

(** ** circles.go *)

Definition validRetention (cfg : Config) (days : Z) : bool :=
  (1 <=? days) && (days <=? cfg_MaxRetentionDays cfg).

Definition circleToDTO (c : Circle) (role mode : string) : circleDTO :=
  mk_circleDTO (Circle_ID c) (nameEncPtr (Circle_NameEnc c)) (Circle_RetentionDays c) (Circle_KeyEpoch c)
    role mode (Circle_CreatedAt c).

Definition handleListCircles (a : Auth) : prog response :=
  try! rows := ListCirclesForUser (a_UserID a) catch internal in
  Ret (WriteJSON 200 (BCircles ((fun cm =>
    circleToDTO cm.1 (CircleMember_Role cm.2) (CircleMember_PrecisionMode cm.2)) <$> rows))).

Record createCircleReq := mk_createCircleReq {
  ccr_NameEnc : string; ccr_RetentionDays : option Z }.

(** The transaction of [handleCreateCircle]: the circle and its owner's row. *)
Definition create_circle_tx (nameEnc : option bytes) (retention : Z) (userID : uuid) : M Circle :=
  WithTx (
    let! c := CreateCircle nameEnc retention userID in
    let! _ := AddMember (Circle_ID c) userID "owner" in
    ret c).

Definition handleCreateCircle (cfg : Config) (a : Auth) (ip : string) (body : decoded createCircleReq) : prog response :=
  let? req := body catch bad in
  let? nameEnc := (if decide (ccr_NameEnc req = EmptyString) then Ok None
                   else b <-? decodeBlob "name_enc" (ccr_NameEnc req) maxBlobBytes ;; Ok (Some b)) catch bad in
  let retention := match ccr_RetentionDays req with Some d => d | None => wrap32 (cfg_DefaultRetentionDays cfg) end in
  check (validRetention cfg retention) (BadRequest "retention_days out of allowed range")
  (try! circle := create_circle_tx nameEnc retention (a_UserID a) catch internal in
   do! audit_Log cfg (mkAuditEvent "circle_created" (Some (a_UserID a)) None (Some (Circle_ID circle)) ip None) ;;
   Ret (WriteJSON 201 (BCircle (circleToDTO circle "owner" "precise")))).

Definition handleGetCircle (m : CircleMember) : prog response :=
  try! circle := GetCircle (CircleMember_CircleID m) catch internal in
  Ret (WriteJSON 200 (BCircle (circleToDTO circle (CircleMember_Role m) (CircleMember_PrecisionMode m)))).

Record patchCircleReq := mk_patchCircleReq {
  pcr_NameEnc : option string; pcr_RetentionDays : option Z }.

Definition handlePatchCircle (cfg : Config) (m : CircleMember) (body : decoded patchCircleReq) : prog response :=
  requireOwner m (
  let? req := body catch bad in
  let retention :=
    match pcr_RetentionDays req with
    | None => handleGetCircle m
    | Some d =>
        check (validRetention cfg d) (BadRequest "retention_days out of allowed range")
        (try! _ := UpdateCircleRetention (CircleMember_CircleID m) d catch internal in
         handleGetCircle m)
    end in
  match pcr_NameEnc req with
  | None => retention
  | Some name =>
      let? b := decodeBlob "name_enc" name maxBlobBytes catch bad in
      try! _ := UpdateCircleName (CircleMember_CircleID m) (Some b) catch internal in
      retention
  end).

Definition handleDeleteCircle (m : CircleMember) : prog response :=
  requireOwner m (
  try! _ := DeleteCircle (CircleMember_CircleID m) catch internal in
  do! hub (EvictCircle (CircleMember_CircleID m)) ;;
  Ret (WriteJSON 200 (BStatus "deleted"))).

Definition handleListMembers (m : CircleMember) : prog response :=
  try! rows := ListMembers (CircleMember_CircleID m) catch internal in
  Ret (WriteJSON 200 (BMembers ((fun mu =>
    mk_memberDTO (CircleMember_UserID mu.1) (User_Email mu.2) (CircleMember_Role mu.1)
      (CircleMember_PrecisionMode mu.1) (CircleMember_JoinedAt mu.1) (nameEncPtr (CircleMember_ProfileEnc mu.1)))
    <$> rows))).

(** [base64.StdEncoding.DecodeString] of an empty string is an empty slice that
    is not nil: the column becomes an empty blob, not NULL. *)
Definition handleSetProfile (m : CircleMember) (body : decoded (option string)) : prog response :=
  let? profileEnc := body catch bad in
  let? blob := (match profileEnc with
    | None => Ok None
    | Some s =>
        match DecodeString StdEncoding s with
        | None => Err "profile_enc must be base64"%string
        | Some b => if maxProfileBytes <? len b then Err "profile too large"%string else Ok (Some b)
        end
    end) catch bad in
  try! _ := SetMemberProfile (CircleMember_CircleID m) (CircleMember_UserID m) blob catch internal in
  Ret (WriteJSON 200 (BStatus "ok")).

Definition handleRemoveMember `{Ext} (cfg : Config) (m : CircleMember) (ip : string) (userID : string) : prog response :=
  requireOwner m (
  let? target := parseUUIDParam "userID" userID catch bad in
  check (negb (target =? CircleMember_UserID m)%N) (BadRequest "use /leave to remove yourself")
  (try! _ := RemoveMember (CircleMember_CircleID m) target catch internal in
   do! audit_Log cfg (mkAuditEvent "member_removed" (Some (CircleMember_UserID m)) None
     (Some (CircleMember_CircleID m)) ip (Some (DetailRemoved target))) ;;
   do! hub (EvictUser (CircleMember_CircleID m) target) ;;
   do! publish EventMemberChanged (CircleMember_CircleID m) None ;;
   Ret (WriteJSON 200 (BStatus "removed")))).

Definition handleLeaveCircle (cfg : Config) (m : CircleMember) (ip : string) : prog response :=
  let leave :=
    try! _ := RemoveMember (CircleMember_CircleID m) (CircleMember_UserID m) catch internal in
    do! audit_Log cfg (mkAuditEvent "member_left" (Some (CircleMember_UserID m)) None
      (Some (CircleMember_CircleID m)) ip None) ;;
    do! hub (EvictUser (CircleMember_CircleID m) (CircleMember_UserID m)) ;;
    do! publish EventMemberChanged (CircleMember_CircleID m) None ;;
    Ret (WriteJSON 200 (BStatus "left")) in
  if is_owner m then
    try! owners := CountOwners (CircleMember_CircleID m) catch internal in
    check (negb (owners <=? 1)) (Conflict "transfer ownership or delete the circle before leaving") leave
  else leave.

Definition handleSetPrecision (m : CircleMember) (body : decoded string) : prog response :=
  let? mode := body catch bad in
  check (bool_decide (mode ∈ ["precise"; "city"; "paused"]%string))
    (BadRequest "mode must be precise, city, or paused")
  (try! updated := SetPrecisionMode (CircleMember_CircleID m) (CircleMember_UserID m) mode catch internal in
   do! publish EventPrecisionMode (CircleMember_CircleID m) None ;;
   Ret (WriteJSON 200 (BPrecision (CircleMember_PrecisionMode updated)))).

Definition handleRotateKey (cfg : Config) (m : CircleMember) (ip : string) : prog response :=
  requireOwner m (
  try! circle := BumpCircleKeyEpoch (CircleMember_CircleID m) catch internal in
  do! audit_Log cfg (mkAuditEvent "key_rotation" (Some (CircleMember_UserID m)) None
    (Some (CircleMember_CircleID m)) ip (Some (DetailEpoch (Circle_KeyEpoch circle)))) ;;
  Ret (WriteJSON 200 (BKeyEpoch (Circle_KeyEpoch circle)))).

(** ** invites.go *)

(** [max_uses] is an int32, [ttl_seconds] an int64 of the request. *)
Record createInviteReq := mk_createInviteReq {
  cir_Role : string; cir_MaxUses : Z; cir_TTLSeconds : Z }.

(** The lifetime the code computes: the product wraps at 64 bits. *)
Definition invite_ttl (TTLSeconds : Z) : duration :=
  let ttl := Duration_mul TTLSeconds Second in
  if ttl <=? 0 then 7 * 24 * Hour else ttl.

Definition handleCreateInvite (cfg : Config) (m : CircleMember) (ip : string) (body : decoded createInviteReq) : prog response :=
  check (negb (bool_decide (CircleMember_Role m = "guardian"%string)))
    (Forbidden "guardian accounts cannot create invites")
  (let? req := body catch bad in
   let role := if decide (cir_Role req = EmptyString) then "member"%string else cir_Role req in
   check (bool_decide (role ∈ ["member"; "guardian"]%string)) (BadRequest "role must be member or guardian")
   (let maxUses := if cir_MaxUses req <=? 0 then 1 else cir_MaxUses req in
    check (negb (1000 <? maxUses)) (BadRequest "max_uses too large")
    (let ttl := invite_ttl (cir_TTLSeconds req) in
     check (negb (30 * 24 * Hour <? ttl)) (BadRequest "ttl_seconds exceeds 30 days")
     (try! now := time_Now catch internal in
      try! inv := CreateInvite (CircleMember_CircleID m) (CircleMember_UserID m) role maxUses (Add now ttl) catch internal in
      do! audit_Log cfg (mkAuditEvent "invite_created" (Some (CircleMember_UserID m)) None
        (Some (CircleMember_CircleID m)) ip None) ;;
      Ret (WriteJSON 201 (BInvite (inviteToDTO inv))))))).

Definition handleListInvites (m : CircleMember) : prog response :=
  try! rows := ListInvitesForCircle (CircleMember_CircleID m) catch internal in
  Ret (WriteJSON 200 (BInvites (inviteToDTO <$> rows))).

Definition handleRevokeInvite `{Ext} (m : CircleMember) (inviteID : string) : prog response :=
  requireOwner m (
  let? id := parseUUIDParam "inviteID" inviteID catch bad in
  try! _ := RevokeInvite id (CircleMember_CircleID m) catch internal in
  Ret (WriteJSON 200 (BStatus "revoked"))).

Definition handleGetInvite `{Ext} (inviteID : string) : prog response :=
  let? id := parseUUIDParam "inviteID" inviteID catch bad in
  try! inv := GetInvite id catch (fun e =>
    if IsNotFound e then Ret (NotFound "invite not found") else internal e) in
  try! now := time_Now catch internal in
  Ret (WriteJSON 200 (BInviteInfo (Invite_CircleID inv) (Invite_Role inv) (Invite_ExpiresAt inv)
    (bool_decide (Invite_Status inv = "active"%string) && After (Invite_ExpiresAt inv) now &&
     (Invite_Uses inv <? Invite_MaxUses inv)))).

(** The transaction of [handleAcceptInvite]: the role joined with. *)
Definition accept_tx (inviteID userID : uuid) : M string :=
  WithTx (
    let! consumed := ConsumeInvite inviteID in
    let! _ := AddMember (Invite_CircleID consumed) userID (Invite_Role consumed) in
    ret (Invite_Role consumed)).

Definition handleAcceptInvite `{Ext} (cfg : Config) (a : Auth) (ip : string) (inviteID : string) : prog response :=
  let? id := parseUUIDParam "inviteID" inviteID catch bad in
  try! inv := GetInvite id catch (fun e =>
    if IsNotFound e then Ret (NotFound "invite not found") else internal e) in
  Act (GetMembership (Invite_CircleID inv) (a_UserID a)) (fun r =>
  match r with
  | Ok _ => Ret (WriteJSON 200 (BJoined (Invite_CircleID inv) None "already_member"))
  | Err e =>
      if negb (IsNotFound e) then internal e else
      try! joinedRole := accept_tx id (a_UserID a) catch (fun e =>
        if IsNotFound e then Ret (WriteError 410 CodeConflict "invite expired, revoked, or fully used")
        else internal e) in
      do! audit_Log cfg (mkAuditEvent "invite_accepted" (Some (a_UserID a)) None
        (Some (Invite_CircleID inv)) ip None) ;;
      do! publish EventMemberChanged (Invite_CircleID inv) None ;;
      Ret (WriteJSON 200 (BJoined (Invite_CircleID inv) (Some joinedRole) "joined"))
  end).
