(* ===== verification/PlacesApi.v ===== *)
(** * Places, SOS and mutes (httpapi/places.go, sos.go, mutes.go) *)

From S2P Require Import Prelude Table GoTime Base64 Models Api Ext World Hub StoreAccounts.
From S2P Require Import StoreCircles StorePings Auth Server.
Local Open Scope Z_scope.
Local Open Scope aul_scope.

(** ** places.go *)

Definition handleListPlaces (m : CircleMember) : prog response :=
  try! rows := ListPlaces (CircleMember_CircleID m) catch internal in
  Ret (WriteJSON 200 (BPlaces (placeToDTO <$> rows))).

Record placeReq := mk_placeReq { plr_Ciphertext : string; plr_Version : Z }.

Definition handleCreatePlace (m : CircleMember) (body : decoded placeReq) : prog response :=
  let? req := body catch bad in
  let? ct := decodeBlob "ciphertext" (plr_Ciphertext req) maxBlobBytes catch bad in
  try! p := CreatePlace (CircleMember_CircleID m) ct (Some (CircleMember_UserID m)) catch internal in
  do! publish EventPlaceUpdated (CircleMember_CircleID m) None ;;
  Ret (WriteJSON 201 (BPlace (placeToDTO p))).

Definition handleUpdatePlace `{Ext} (m : CircleMember) (placeID : string) (body : decoded placeReq) : prog response :=
  let? id := parseUUIDParam "placeID" placeID catch bad in
  let? req := body catch bad in
  let? ct := decodeBlob "ciphertext" (plr_Ciphertext req) maxBlobBytes catch bad in
  try! p := UpdatePlace id ct (Some (CircleMember_UserID m)) (CircleMember_CircleID m) (plr_Version req) catch (fun e =>
    if IsNotFound e then Ret (Conflict "place not found or version mismatch; re-sync and retry")
    else internal e) in
  do! publish EventPlaceUpdated (CircleMember_CircleID m) None ;;
  Ret (WriteJSON 200 (BPlace (placeToDTO p))).

Definition handleDeletePlace `{Ext} (m : CircleMember) (placeID : string) : prog response :=
  let? id := parseUUIDParam "placeID" placeID catch bad in
  try! _ := SoftDeletePlace id (CircleMember_CircleID m) (Some (CircleMember_UserID m)) catch (fun e =>
    if IsNotFound e then Ret (NotFound "place not found") else internal e) in
  do! publish EventPlaceUpdated (CircleMember_CircleID m) None ;;
  Ret (WriteJSON 200 (BStatus "deleted")).

(** ** sos.go *)

Definition handleCreateSOS (cfg : Config) (a : Auth) (m : CircleMember) (ip : string) (body : decoded string) : prog response :=
  let? ciphertext := body catch bad in
  let? ct := decodeBlob "ciphertext" ciphertext maxBlobBytes catch bad in
  let device := a_DeviceID a in
  try! ev := CreateSOS (CircleMember_CircleID m) (Some device) ct catch internal in
  do! audit_Log cfg (mkAuditEvent "sos_created" (Some (CircleMember_UserID m)) (Some device)
    (Some (CircleMember_CircleID m)) ip None) ;;
  do! publish EventSOS (CircleMember_CircleID m) (Some (PayloadSOS (sosToDTO ev))) ;;
  Ret (WriteJSON 201 (BSos (sosToDTO ev))).

Definition handleResolveSOS `{Ext} (cfg : Config) (m : CircleMember) (ip : string) (sosID : string) : prog response :=
  let? id := parseUUIDParam "sosID" sosID catch bad in
  try! ev := ResolveSOS id (Some (CircleMember_UserID m)) (CircleMember_CircleID m) catch (fun e =>
    if IsNotFound e then Ret (NotFound "active SOS not found") else internal e) in
  do! audit_Log cfg (mkAuditEvent "sos_resolved" (Some (CircleMember_UserID m)) None
    (Some (CircleMember_CircleID m)) ip None) ;;
  do! publish EventSOSResolved (CircleMember_CircleID m) (Some (PayloadSOSResolved (SosEvent_ID ev))) ;;
  Ret (WriteJSON 200 (BSos (sosToDTO ev))).

Definition handleListSOS (m : CircleMember) : prog response :=
  try! rows := ListActiveSOS (CircleMember_CircleID m) catch internal in
  Ret (WriteJSON 200 (BSosList (sosToDTO <$> rows))).

(** ** mutes.go *)

Definition maxMutedUsers : Z := 500.

Definition handleGetMutes (m : CircleMember) : prog response :=
  try! rows := ListMutes (CircleMember_UserID m) (CircleMember_CircleID m) catch internal in
  Ret (WriteJSON 200 (BMutes (mutesFromRows rows))).

(** The loop over the requested ids: self-mutes are refused, repeats skipped;
    [seen] are the ids kept so far. *)
Fixpoint dedupe_mutes (self : uuid) (seen : list uuid) (l : list uuid) : option (list uuid) :=
  match l with
  | [] => Some []
  | id :: l' =>
      if decide (id = self) then None
      else if decide (id ∈ seen) then dedupe_mutes self seen l'
      else match dedupe_mutes self (id :: seen) l' with Some ids => Some (id :: ids) | None => None end
  end.

Fixpoint insert_mutes (userID circleID : uuid) (l : list uuid) : M unit :=
  match l with
  | [] => ret tt
  | id :: l' => let! _ := InsertMute userID circleID (Some id) in insert_mutes userID circleID l'
  end.

Definition replace_mutes (userID circleID : uuid) (circleMuted : bool) (ids : list uuid) : M unit :=
  let! _ := DeleteMutes userID circleID in
  let! _ := (if circleMuted then InsertMute userID circleID None else ret tt) in
  insert_mutes userID circleID ids.

Definition handleSetMutes (m : CircleMember) (body : decoded mutesDTO) : prog response :=
  let? req := body catch bad in
  check (negb (maxMutedUsers <? len (MutedUserIDs req))) (BadRequest "too many muted_user_ids")
  (match dedupe_mutes (CircleMember_UserID m) [] (MutedUserIDs req) with
   | None => bad "cannot mute yourself"
   | Some ids =>
       let store :=
         try! _ := WithTx (replace_mutes (CircleMember_UserID m) (CircleMember_CircleID m) (CircleMuted req) ids)
           catch internal in
         Ret (WriteJSON 200 (BMutes (mk_mutesDTO (CircleMuted req) ids))) in
       if 0 <? len ids then
         try! n := CountMembersIn (CircleMember_CircleID m) ids catch internal in
         check (n =? len ids) (BadRequest "muted_user_ids must all be members of this circle") store
       else store
   end).
