(* ===== verification/PingsApi.v ===== *)
(** * Ping ingestion and key envelopes (httpapi/pings.go, keyenvelopes.go) *)

From S2P Require Import Prelude Table GoTime Base64 Models Api Ext World Hub StoreAccounts.
From S2P Require Import StoreCircles StorePings Auth Server.
Local Open Scope Z_scope.
Local Open Scope aul_scope.

(** ** pings.go *)

Record pingItem := mk_pingItem {
  pi_CircleID : string; pi_ClientID : string; pi_Nonce : string; pi_Ciphertext : string;
  pi_CapturedAt : string; pi_TTLSeconds : Z }.

(** store.InsertPingParams of one item. *)
Record prepared := mk_prepared {
  pp_CircleID : uuid; pp_DeviceID : uuid; pp_ClientID : string; pp_Nonce : bytes; pp_Ciphertext : bytes;
  pp_CapturedAt : time; pp_ExpiresAt : option time }.

Definition itemErr (i : Z) (msg : string) : string := ("ping[" ++ itoa i ++ "]: " ++ msg)%string.

(** The checks of one item that read no state. *)
Definition prepare `{Ext} (deviceID : uuid) (oldest future : time) (i : Z) (cid : uuid) (p : pingItem) : decoded prepared :=
  if bool_decide (pi_ClientID p = EmptyString) || (128 <? str_len (pi_ClientID p))
  then Err (itemErr i "client_id required, ≤128 chars") else
  match decodeBlob "nonce" (pi_Nonce p) maxNonceBytes with
  | Err msg => Err (itemErr i msg)
  | Ok nonce =>
      match decodeBlob "ciphertext" (pi_Ciphertext p) maxBlobBytes with
      | Err msg => Err (itemErr i msg)
      | Ok ct =>
          match time_Parse_RFC3339 (pi_CapturedAt p) with
          | None => Err (itemErr i "captured_at must be RFC3339")
          | Some captured =>
              if Before captured oldest || After captured future
              then Err (itemErr i "captured_at outside allowed window") else
              let expires :=
                if 0 <? pi_TTLSeconds p then Some (Add captured (Duration_mul (pi_TTLSeconds p) Second)) else None in
              Ok (mk_prepared cid deviceID (pi_ClientID p) nonce ct captured expires)
          end
      end
  end.

(** [checkMember]: one query per distinct circle, remembered in [memberOf]. *)
Definition checkMember (userID cid : uuid) (memberOf : gmap uuid bool)
    (k : gmap uuid bool -> bool -> prog response) : prog response :=
  match memberOf !! cid with
  | Some v => k memberOf v
  | None =>
      Act (GetMembership cid userID) (fun r =>
        match r with
        | Ok _ => k (<[cid := true]> memberOf) true
        | Err e => if IsNotFound e then k (<[cid := false]> memberOf) false else internal e
        end)
  end.

Fixpoint prepare_all `{Ext} (a : Auth) (oldest future : time) (i : Z) (memberOf : gmap uuid bool)
    (l : list pingItem) (k : list prepared -> prog response) : prog response :=
  match l with
  | [] => k []
  | p :: l' =>
      match uuid_Parse (pi_CircleID p) with
      | None => bad (itemErr i "circle_id must be a valid id")
      | Some cid =>
          checkMember (a_UserID a) cid memberOf (fun memberOf' member =>
            if negb member then Ret (Forbidden (itemErr i "not a member of circle_id")) else
            let? item := prepare (a_DeviceID a) oldest future i cid p catch bad in
            prepare_all a oldest future (i + 1) memberOf' l' (fun items => k (item :: items)))
      end
  end.

Definition insert_prepared (it : prepared) : M Ping :=
  InsertPing (pp_CircleID it) (pp_DeviceID it) (pp_ClientID it) (pp_Nonce it) (pp_Ciphertext it)
    (pp_CapturedAt it) (pp_ExpiresAt it).

(** The newly stored rows; a duplicate is skipped. *)
Fixpoint insert_all (items : list prepared) : M (list Ping) :=
  match items with
  | [] => ret []
  | it :: rest =>
      let! r := try_ (insert_prepared it) in
      match r with
      | Ok row => let! rows := insert_all rest in ret (row :: rows)
      | Err e => if IsNotFound e then insert_all rest else fail e
      end
  end.

Definition batch_tx (deviceID : uuid) (items : list prepared) : M (list Ping) :=
  WithTx (
    let! inserted := insert_all items in
    let! _ := TouchDevice deviceID in
    ret inserted).

Definition publishPing (row : Ping) : M unit :=
  publish EventPing (Ping_CircleID row) (Some (PayloadPing (pingToDTO row))).

Fixpoint publish_all {A} (rows : list Ping) (k : prog A) : prog A :=
  match rows with [] => k | row :: rest => do! publishPing row ;; publish_all rest k end.

Definition handlePingBatch `{Ext} (cfg : Config) (a : Auth) (body : decoded (list pingItem)) : prog response :=
  let? pings := body catch bad in
  check (negb (len pings =? 0)) (BadRequest "pings must not be empty")
  (check (negb (maxBatchPings <? len pings)) (BadRequest "batch exceeds 100 pings")
  (try! now := time_Now catch internal in
   let oldest := Add now (- (cfg_MaxRetentionDays cfg * 24 * Hour)) in
   let future := Add now pingFutureSkew in
   prepare_all a oldest future 0 ∅ pings (fun items =>
   try! inserted := batch_tx (a_DeviceID a) items catch internal in
   publish_all inserted
   (Ret (WriteJSON 200 (BBatch (len pings) (len inserted) (len pings - len inserted))))))).

Definition handleLatestPings (m : CircleMember) : prog response :=
  try! rows := LatestPingsForCircle (CircleMember_CircleID m) catch internal in
  Ret (WriteJSON 200 (BPings (pingToDTO <$> rows))).

(** ** keyenvelopes.go *)

Definition circleDeviceToDTO (d : Device) : circleDeviceDTO :=
  mk_circleDeviceDTO (Device_ID d) (Device_UserID d) (Device_Platform d)
    (match Device_Pubkey d with Some (b :: l) => Some (encodeBlob (b :: l)) | _ => None end).

Definition handleCircleDevices (m : CircleMember) : prog response :=
  try! ds := ListCircleDevices (CircleMember_CircleID m) catch internal in
  Ret (WriteJSON 200 (BDevicesOf (circleDeviceToDTO <$> ds))).

Record keyEnvelopeItem := mk_keyEnvelopeItem {
  ke_RecipientDeviceID : string; ke_Ciphertext : string; ke_KeyEpoch : Z }.

Record postKeyEnvelopesReq := mk_postKeyEnvelopesReq {
  pk_CircleID : string; pk_Envelopes : list keyEnvelopeItem }.

Definition badItem (i : Z) (msg : string) : error := ItemError i msg.

(** One item inside the transaction. *)
Definition post_envelope `{Ext} (circleID : uuid) (keyEpoch : Z) (validDevices : list uuid) (sender : uuid) (i : Z)
    (e : keyEnvelopeItem) : M unit :=
  match uuid_Parse (ke_RecipientDeviceID e) with
  | None => fail (badItem i "recipient_device_id must be a valid id")
  | Some rid =>
      if decide (rid ∉ validDevices)
      then fail (badItem i "recipient_device_id is not a device of a circle member") else
      match decodeBlob "ciphertext" (ke_Ciphertext e) maxBlobBytes with
      | Err msg => fail (badItem i msg)
      | Ok ct =>
          let epoch := if ke_KeyEpoch e <=? 0 then keyEpoch else ke_KeyEpoch e in
          let! _ := CreateKeyEnvelope circleID rid (Some sender) ct epoch in ret tt
      end
  end.

Fixpoint post_envelopes `{Ext} (circleID : uuid) (keyEpoch : Z) (validDevices : list uuid) (sender : uuid) (i : Z)
    (l : list keyEnvelopeItem) : M Z :=
  match l with
  | [] => ret 0
  | e :: l' =>
      let! _ := post_envelope circleID keyEpoch validDevices sender i e in
      let! n := post_envelopes circleID keyEpoch validDevices sender (i + 1) l' in ret (n + 1)
  end.

Definition handlePostKeyEnvelopes `{Ext} (cfg : Config) (a : Auth) (ip : string)
    (body : decoded postKeyEnvelopesReq) : prog response :=
  let? req := body catch bad in
  match uuid_Parse (pk_CircleID req) with
  | None => bad "circle_id must be a valid id"
  | Some circleID =>
      try! membership := GetMembership circleID (a_UserID a) catch (fun e =>
        if IsNotFound e then Ret (NotFound "circle not found") else internal e) in
      check (is_owner membership) (Forbidden "owner role required to distribute keys")
      (check (negb ((len (pk_Envelopes req) =? 0) || (maxKeyEnvelopes <? len (pk_Envelopes req))))
        (BadRequest "envelopes must contain 1..200 items")
      (try! circle := GetCircle circleID catch internal in
       try! ds := ListCircleDevices circleID catch internal in
       try! count := WithTx (post_envelopes circleID (Circle_KeyEpoch circle) (Device_ID <$> ds) (a_DeviceID a) 0 (pk_Envelopes req)) catch (fun e =>
         match e with
         | ItemError i msg => bad ("envelope[" ++ itoa i ++ "]: " ++ msg)%string
         | _ => internal e
         end) in
       do! audit_Log cfg (mkAuditEvent "key_envelope_sent" (Some (a_UserID a)) (Some (a_DeviceID a)) (Some circleID)
         ip (Some (DetailCount count))) ;;
       do! publish EventKeyEnvelope circleID None ;;
       Ret (WriteJSON 201 (BDelivered count))))
  end.

Definition envelopeToDTO (e : KeyEnvelope) : keyEnvelopeDTO :=
  mk_keyEnvelopeDTO (KeyEnvelope_ID e) (KeyEnvelope_CircleID e) (KeyEnvelope_SenderDeviceID e)
    (encodeBlob (KeyEnvelope_Ciphertext e)) (KeyEnvelope_KeyEpoch e) (KeyEnvelope_CreatedAt e).

Definition handlePendingKeyEnvelopes (a : Auth) : prog response :=
  try! rows := PendingEnvelopesForDevice (a_DeviceID a) catch internal in
  Ret (WriteJSON 200 (BEnvelopes (envelopeToDTO <$> rows))).

Definition handleConsumeKeyEnvelope `{Ext} (a : Auth) (envelopeID : string) : prog response :=
  let? id := parseUUIDParam "envelopeID" envelopeID catch bad in
  try! _ := MarkEnvelopeConsumed id (a_DeviceID a) catch internal in
  Ret (WriteJSON 200 (BStatus "consumed")).
