(* ===== verification/ShareApi.v ===== *)
(** * Live-share links (httpapi/share.go) *)

From S2P Require Import Prelude Table GoTime Base64 Models Api Ext World Hub StoreAccounts.
From S2P Require Import StoreCircles StorePings Token Auth Server.
Local Open Scope Z_scope.
Local Open Scope aul_scope.

Definition minShareTTL : duration := 60 * Second.
Definition maxShareTTL : duration := 60 * Minute.
Definition defaultShareTTL : duration := 15 * Minute.

Definition shareGoneMsg : string := "this share link is no longer live".

(** [seconds] is an int64; the comparison is made before the conversion. *)
Definition clampShareTTL (seconds : Z) : duration :=
  if seconds <=? 0 then defaultShareTTL
  else if seconds <? minShareTTL / Second then minShareTTL
  else if maxShareTTL / Second <? seconds then maxShareTTL
  else Duration_mul seconds Second.

Definition shareLive (sess : ShareSession) (now : time) : bool :=
  bool_decide (ShareSession_RevokedAt sess = None) && After (ShareSession_ExpiresAt sess) now.

(** [uuid.String]: 8-4-4-4-12 hexadecimal digits. *)
Fixpoint hex_digits (n : nat) (z : Z) (s : string) : string :=
  match n with O => s | S n' => hex_digits n' (z / 16) (String (hex_digit (z mod 16)) s) end.

Definition uuid_String (id : uuid) : string :=
  let z := Z.of_N id in
  let part n shift := hex_digits n (Z.shiftr z shift) EmptyString in
  (part 8%nat 96 ++ "-" ++ part 4%nat 80 ++ "-" ++ part 4%nat 64 ++ "-" ++ part 4%nat 48 ++ "-" ++ part 12%nat 0)%string.

Example uuid_String_nil : uuid_String 0 = "00000000-0000-0000-0000-000000000000"%string.
Proof. vm_compute. reflexivity. Qed.

Definition shareCookieName (id : uuid) : string := ("aul_share_" ++ uuid_String id)%string.
Definition shareCookiePath (id : uuid) : string := ("/v1/share/" ++ uuid_String id)%string.

Definition setShareCookie (cfg : Config) (sess : ShareSession) (token : string) (now : time) : cookie :=
  let maxAge := Z.quot (ShareSession_ExpiresAt sess - now) Second in
  mk_cookie (shareCookieName (ShareSession_ID sess)) token (shareCookiePath (ShareSession_ID sess))
    (cfg_SecureCookies cfg) None (if maxAge <? 1 then 1 else maxAge).

Definition with_cookies (l : list cookie) (r : response) : response :=
  mk_response (resp_status r) (resp_body r) (l ++ resp_cookies r) (resp_retry r).

(** No body means the default lifetime. *)
Definition handleCreateShare (a : Auth) (body : option (decoded Z)) : prog response :=
  let? ttl := (match body with Some b => b | None => Ok 0 end) catch bad in
  try! now := time_Now catch internal in
  try! sess := CreateShareSession (a_UserID a) (Add now (clampShareTTL ttl)) catch internal in
  Ret (WriteJSON 201 (BShare (ShareSession_ID sess) (ShareSession_ExpiresAt sess))).

Definition shareToDTO (s : ShareSession) : shareSessionDTO :=
  mk_shareSessionDTO (ShareSession_ID s) (ShareSession_CreatedAt s) (ShareSession_ExpiresAt s)
    (bool_decide (ShareSession_ViewerBoundAt s <> None)) (bool_decide (ShareSession_RevokedAt s <> None)).

Definition handleListShares (a : Auth) : prog response :=
  try! rows := ListShareSessionsForUser (a_UserID a) catch internal in
  Ret (WriteJSON 200 (BShares (shareToDTO <$> rows))).

Definition share_not_found (e : error) : prog response :=
  if IsNotFound e then Ret (NotFound "share link not found") else internal e.

Definition handleRevokeShare `{Ext} (a : Auth) (shareID : string) : prog response :=
  let? id := parseUUIDParam "shareID" shareID catch (fun _ => Ret (NotFound "share link not found")) in
  try! _ := RevokeShareSession id (a_UserID a) catch share_not_found in
  Ret (WriteJSON 200 (BStatus "revoked")).

Definition loadOwnedShare `{Ext} (shareID : string) (userID : uuid)
    (next : ShareSession -> prog response) : prog response :=
  let? id := parseUUIDParam "shareID" shareID catch (fun _ => Ret (NotFound "share link not found")) in
  try! sess := GetShareSessionForOwner id userID catch share_not_found in
  try! now := time_Now catch internal in
  check (shareLive sess now) (Gone shareGoneMsg) (next sess).

Record sharePingReq := mk_sharePingReq { sp_Nonce : string; sp_Ciphertext : string; sp_CapturedAt : string }.

Definition handleSharePing `{Ext} (a : Auth) (shareID : string) (body : decoded sharePingReq) : prog response :=
  loadOwnedShare shareID (a_UserID a) (fun sess =>
  let? req := body catch bad in
  let? nonce := decodeBlob "nonce" (sp_Nonce req) maxNonceBytes catch bad in
  let? ct := decodeBlob "ciphertext" (sp_Ciphertext req) maxBlobBytes catch bad in
  match time_Parse_RFC3339 (sp_CapturedAt req) with
  | None => bad "captured_at must be RFC3339"
  | Some captured =>
      try! now := time_Now catch internal in
      check (negb (Before captured (Add now (- maxShareTTL)) || After captured (Add now pingFutureSkew)))
        (BadRequest "captured_at outside allowed window")
      (try! _ := UpsertSharePosition (ShareSession_ID sess) nonce ct captured catch internal in
       Ret (WriteJSON 200 (BStatus "ok")))
  end).

(** The request's cookies, by name; [r.Cookie] finds the first. *)
Definition find_cookie (name : string) (cookies : list (string * string)) : option string :=
  match filter (fun c => c.1 = name) cookies with c :: _ => Some c.2 | [] => None end.

(** Whether the request's cookie is the token the session is bound to. *)
Definition viewer_admitted (cfg : Config) (cookies : list (string * string)) (sess : ShareSession) : bool :=
  match find_cookie (shareCookieName (ShareSession_ID sess)) cookies with
  | Some v => ConstantTimeEqualBytes (HashTokenBytes (cfg_SessionPepper cfg) v)
                (default [] (ShareSession_ViewerTokenHash sess))
  | None => false
  end.

(** [bindShareViewer]: on success, the session and the cookies it sets. *)
Definition bindShareViewer (cfg : Config) (cookies : list (string * string)) (sess : ShareSession)
    (next : ShareSession -> list cookie -> prog response) : prog response :=
  let present s :=
    check (viewer_admitted cfg cookies s) (Forbidden "this link is already open on another device") (next s []) in
  match ShareSession_ViewerTokenHash sess with
  | Some _ => present sess
  | None =>
      try! token := GenerateToken catch internal in
      Act (BindShareViewer (ShareSession_ID sess) (Some (HashTokenBytes (cfg_SessionPepper cfg) token))) (fun r =>
        match r with
        | Ok bound =>
            try! now := time_Now catch internal in
            next bound [setShareCookie cfg bound token now]
        | Err e =>
            if IsNotFound e then
              try! reloaded := GetShareSession (ShareSession_ID sess) catch (fun e =>
                if IsNotFound e then Ret (Gone shareGoneMsg) else internal e) in
              present reloaded
            else internal e
        end)
  end.

(** The viewer's endpoint: no account, only the link and its cookie. *)
Definition handleGetShare `{Ext} (cfg : Config) (shareID : string) (cookies : list (string * string)) : prog response :=
  let? id := parseUUIDParam "shareID" shareID catch (fun _ => Ret (NotFound "share link not found")) in
  try! sess := GetShareSession id catch share_not_found in
  try! now := time_Now catch internal in
  check (shareLive sess now) (Gone shareGoneMsg)
  (bindShareViewer cfg cookies sess (fun sess set =>
   Act (GetSharePosition (ShareSession_ID sess)) (fun r =>
     let answer position := Ret (with_cookies set (WriteJSON 200 (BSharePosition (ShareSession_ExpiresAt sess) position))) in
     match r with
     | Ok pos => answer (Some (mk_sharePositionDTO (encodeBlob (SharePosition_Nonce pos))
                   (encodeBlob (SharePosition_Ciphertext pos)) (SharePosition_CapturedAt pos)))
     | Err e => if IsNotFound e then answer None else Ret (with_cookies set (Internal e))
     end))).
