(* ===== verification/Columns.v ===== *)
(** * Columns: from Go values to SQLite's and back (store/sqlite.go)

    A statement binds Go values to driver values and scans the columns of a row
    back, in the order its column list names them.  SQLite's driver hands back a
    text as a string or as bytes.  [assoc] of a row by the name of a column is
    the engine's SELECT; texts, blobs, integers and NULL are scanned by
    database/sql itself. *)

From S2P Require Import Prelude GoTime Base64 Models Api Ext Net Launcher ShareApi.
Local Open Scope string_scope.
Local Open Scope Z_scope.
Local Open Scope aul_scope.

Inductive driverValue :=
| DNull
| DInt (n : Z)
| DText (s : string)
| DBlob (b : bytes)
| DTime (t : time)
| DBool (b : bool).

(** ** Bind helpers *)

Definition uv (u : uuid) : driverValue := DText (uuid_String u).
Definition uvp (u : option uuid) : driverValue := match u with None => DNull | Some u => DText (uuid_String u) end.
Definition tv (t : time) : driverValue := DText (fmtTime t).
Definition tvp (t : option time) : driverValue := match t with None => DNull | Some t => DText (fmtTime t) end.
Definition bv (b : bool) : driverValue := DInt (if b then 1 else 0).

(** A nullable text or blob is bound as it is. *)
Definition textp (s : option string) : driverValue := match s with None => DNull | Some s => DText s end.
Definition blobp (b : option bytes) : driverValue := match b with None => DNull | Some b => DBlob b end.

(** ** Scan helpers *)

Definition asString (src : driverValue) : option string :=
  match src with DText s => Some s | DBlob b => Some (string_of_list_byte b) | _ => None end.

Definition scan_error {A} : result string A := Err "sqlite: cannot scan".

(** A destination that must not be NULL made nullable. *)
Definition nullable {A} (scan : driverValue -> result string A) (src : driverValue) : result string (option A) :=
  match src with DNull => Ok None | _ => v <-? scan src ;; Ok (Some v) end.

Section scanners.
Context `{Ext}.

Definition suuid (src : driverValue) : result string uuid :=
  match asString src with
  | None => scan_error
  | Some s => match uuid_Parse s with Some u => Ok u | None => Err "sqlite: parse uuid" end
  end.

Definition snUUID : driverValue -> result string (option uuid) := nullable suuid.

Definition stime (src : driverValue) : result string time :=
  match src with
  | DTime t => Ok t
  | DText s => match parseTime s with Some t => Ok t | None => Err "sqlite: parse time" end
  | DBlob b => match parseTime (string_of_list_byte b) with Some t => Ok t | None => Err "sqlite: parse time" end
  | _ => scan_error
  end.

Definition snTime : driverValue -> result string (option time) := nullable stime.

Definition sbool (src : driverValue) : result string bool :=
  match src with DInt n => Ok (negb (n =? 0)) | DBool b => Ok b | DNull => Ok false | _ => scan_error end.

(** database/sql's own conversions. *)
Definition stext (src : driverValue) : result string string :=
  match asString src with Some s => Ok s | None => scan_error end.
Definition sntext : driverValue -> result string (option string) := nullable stext.
Definition sblob (src : driverValue) : result string bytes :=
  match src with DBlob b => Ok b | DText s => Ok (list_byte_of_string s) | _ => scan_error end.
Definition snblob : driverValue -> result string (option bytes) := nullable sblob.
Definition sint (src : driverValue) : result string Z :=
  match src with DInt n => if bool_decide (in_int 32 n) then Ok n else scan_error | _ => scan_error end.

Definition arity {A} : result string A := Err "sql: expected other number of destination arguments in Scan".

(** The columns a list names, in its order, of a row. *)
Definition trim_blank (s : string) : string := match s with String " " s' => s' | _ => s end.

Definition select (cols : string) (row : list (string * driverValue)) : option (list driverValue) :=
  mapM (fun c => assoc (trim_blank c) row) (split_on "," cols).

(** ** Rows *)

Definition deviceCols : string := "id, user_id, platform, display_name, pubkey, push_token, created_at, last_seen".

Definition scanDevice (l : list driverValue) : result string Device :=
  match l with
  | [a; b; c; d; e; f; g; h] =>
      a <-? suuid a ;; b <-? suuid b ;; c <-? stext c ;; d <-? sntext d ;; e <-? snblob e ;;
      f <-? sntext f ;; g <-? stime g ;; h <-? snTime h ;; Ok (mkDevice a b c d e f g h)
  | _ => arity
  end.

Definition device_row (r : Device) : list (string * driverValue) :=
  [("id", uv (Device_ID r)); ("user_id", uv (Device_UserID r));
   ("platform", DText (Device_Platform r)); ("display_name", textp (Device_DisplayName r));
   ("pubkey", blobp (Device_Pubkey r)); ("push_token", textp (Device_PushToken r));
   ("created_at", tv (Device_CreatedAt r)); ("last_seen", tvp (Device_LastSeen r))].

Definition circleCols : string := "id, name_enc, retention_days, key_epoch, created_by, created_at".

Definition scanCircle (l : list driverValue) : result string Circle :=
  match l with
  | [a; b; c; d; e; f] =>
      a <-? suuid a ;; b <-? snblob b ;; c <-? sint c ;; d <-? sint d ;; e <-? suuid e ;; f <-? stime f ;;
      Ok (mkCircle a b c d e f)
  | _ => arity
  end.

Definition circle_row (r : Circle) : list (string * driverValue) :=
  [("id", uv (Circle_ID r)); ("name_enc", blobp (Circle_NameEnc r));
   ("retention_days", DInt (Circle_RetentionDays r)); ("key_epoch", DInt (Circle_KeyEpoch r));
   ("created_by", uv (Circle_CreatedBy r)); ("created_at", tv (Circle_CreatedAt r))].

Definition memberCols : string := "circle_id, user_id, role, precision_mode, joined_at, profile_enc".

Definition scanMember (l : list driverValue) : result string CircleMember :=
  match l with
  | [a; b; c; d; e; f] =>
      a <-? suuid a ;; b <-? suuid b ;; c <-? stext c ;; d <-? stext d ;; e <-? stime e ;; f <-? snblob f ;;
      Ok (mkCircleMember a b c d e f)
  | _ => arity
  end.

Definition member_row (r : CircleMember) : list (string * driverValue) :=
  [("circle_id", uv (CircleMember_CircleID r)); ("user_id", uv (CircleMember_UserID r));
   ("role", DText (CircleMember_Role r)); ("precision_mode", DText (CircleMember_PrecisionMode r));
   ("joined_at", tv (CircleMember_JoinedAt r)); ("profile_enc", blobp (CircleMember_ProfileEnc r))].

Definition inviteCols : string := "id, circle_id, created_by, role, max_uses, uses, expires_at, status, created_at".

Definition scanInvite (l : list driverValue) : result string Invite :=
  match l with
  | [a; b; c; d; e; f; g; h; i] =>
      a <-? suuid a ;; b <-? suuid b ;; c <-? suuid c ;; d <-? stext d ;; e <-? sint e ;; f <-? sint f ;;
      g <-? stime g ;; h <-? stext h ;; i <-? stime i ;; Ok (mkInvite a b c d e f g h i)
  | _ => arity
  end.

Definition invite_row (r : Invite) : list (string * driverValue) :=
  [("id", uv (Invite_ID r)); ("circle_id", uv (Invite_CircleID r));
   ("created_by", uv (Invite_CreatedBy r)); ("role", DText (Invite_Role r));
   ("max_uses", DInt (Invite_MaxUses r)); ("uses", DInt (Invite_Uses r));
   ("expires_at", tv (Invite_ExpiresAt r)); ("status", DText (Invite_Status r));
   ("created_at", tv (Invite_CreatedAt r))].

Definition envelopeCols : string := "id, circle_id, recipient_device_id, sender_device_id, ciphertext, key_epoch, created_at, consumed_at".

Definition scanEnvelope (l : list driverValue) : result string KeyEnvelope :=
  match l with
  | [a; b; c; d; e; f; g; h] =>
      a <-? suuid a ;; b <-? suuid b ;; c <-? suuid c ;; d <-? snUUID d ;; e <-? sblob e ;; f <-? sint f ;;
      g <-? stime g ;; h <-? snTime h ;; Ok (mkKeyEnvelope a b c d e f g h)
  | _ => arity
  end.

Definition envelope_row (r : KeyEnvelope) : list (string * driverValue) :=
  [("id", uv (KeyEnvelope_ID r)); ("circle_id", uv (KeyEnvelope_CircleID r));
   ("recipient_device_id", uv (KeyEnvelope_RecipientDeviceID r));
   ("sender_device_id", uvp (KeyEnvelope_SenderDeviceID r));
   ("ciphertext", DBlob (KeyEnvelope_Ciphertext r)); ("key_epoch", DInt (KeyEnvelope_KeyEpoch r));
   ("created_at", tv (KeyEnvelope_CreatedAt r)); ("consumed_at", tvp (KeyEnvelope_ConsumedAt r))].

Definition sessionCols : string := "id, user_id, device_id, access_token_hash, refresh_token_hash, prev_refresh_hash, access_expires_at, refresh_expires_at, revoked_at, created_at, rotated_at".

Definition scanSession (l : list driverValue) : result string Session :=
  match l with
  | [a; b; c; d; e; f; g; h; i; j; k] =>
      a <-? suuid a ;; b <-? suuid b ;; c <-? suuid c ;; d <-? stext d ;; e <-? stext e ;; f <-? sntext f ;;
      g <-? stime g ;; h <-? stime h ;; i <-? snTime i ;; j <-? stime j ;; k <-? stime k ;;
      Ok (mkSession a b c d e f g h i j k)
  | _ => arity
  end.

Definition session_row (r : Session) : list (string * driverValue) :=
  [("id", uv (Session_ID r)); ("user_id", uv (Session_UserID r));
   ("device_id", uv (Session_DeviceID r)); ("access_token_hash", DText (Session_AccessTokenHash r));
   ("refresh_token_hash", DText (Session_RefreshTokenHash r));
   ("prev_refresh_hash", textp (Session_PrevRefreshHash r));
   ("access_expires_at", tv (Session_AccessExpiresAt r));
   ("refresh_expires_at", tv (Session_RefreshExpiresAt r));
   ("revoked_at", tvp (Session_RevokedAt r)); ("created_at", tv (Session_CreatedAt r));
   ("rotated_at", tv (Session_RotatedAt r))].

Definition shareCols : string := "id, user_id, created_at, expires_at, revoked_at, viewer_token_hash, viewer_bound_at".

Definition scanShare (l : list driverValue) : result string ShareSession :=
  match l with
  | [a; b; c; d; e; f; g] =>
      a <-? suuid a ;; b <-? suuid b ;; c <-? stime c ;; d <-? stime d ;; e <-? snTime e ;;
      f <-? snblob f ;; g <-? snTime g ;; Ok (mkShareSession a b c d e f g)
  | _ => arity
  end.

Definition share_row (r : ShareSession) : list (string * driverValue) :=
  [("id", uv (ShareSession_ID r)); ("user_id", uv (ShareSession_UserID r));
   ("created_at", tv (ShareSession_CreatedAt r)); ("expires_at", tv (ShareSession_ExpiresAt r));
   ("revoked_at", tvp (ShareSession_RevokedAt r));
   ("viewer_token_hash", blobp (ShareSession_ViewerTokenHash r));
   ("viewer_bound_at", tvp (ShareSession_ViewerBoundAt r))].

Definition sosCols : string := "id, circle_id, device_id, ciphertext, created_at, resolved_at, resolved_by".

Definition scanSOS (l : list driverValue) : result string SosEvent :=
  match l with
  | [a; b; c; d; e; f; g] =>
      a <-? suuid a ;; b <-? suuid b ;; c <-? snUUID c ;; d <-? sblob d ;; e <-? stime e ;;
      f <-? snTime f ;; g <-? snUUID g ;; Ok (mkSosEvent a b c d e f g)
  | _ => arity
  end.

Definition sos_row (r : SosEvent) : list (string * driverValue) :=
  [("id", uv (SosEvent_ID r)); ("circle_id", uv (SosEvent_CircleID r));
   ("device_id", uvp (SosEvent_DeviceID r)); ("ciphertext", DBlob (SosEvent_Ciphertext r));
   ("created_at", tv (SosEvent_CreatedAt r)); ("resolved_at", tvp (SosEvent_ResolvedAt r));
   ("resolved_by", uvp (SosEvent_ResolvedBy r))].

Definition placeCols : string := "id, circle_id, ciphertext, version, deleted, updated_by, updated_at, created_at, created_by".

Definition scanPlace (l : list driverValue) : result string PlacesEnc :=
  match l with
  | [a; b; c; d; e; f; g; h; i] =>
      a <-? suuid a ;; b <-? suuid b ;; c <-? sblob c ;; d <-? sint d ;; e <-? sbool e ;; f <-? snUUID f ;;
      g <-? stime g ;; h <-? stime h ;; i <-? snUUID i ;; Ok (mkPlacesEnc a b c d e f g h i)
  | _ => arity
  end.

Definition place_row (r : PlacesEnc) : list (string * driverValue) :=
  [("id", uv (PlacesEnc_ID r)); ("circle_id", uv (PlacesEnc_CircleID r));
   ("ciphertext", DBlob (PlacesEnc_Ciphertext r)); ("version", DInt (PlacesEnc_Version r));
   ("deleted", bv (PlacesEnc_Deleted r)); ("updated_by", uvp (PlacesEnc_UpdatedBy r));
   ("updated_at", tv (PlacesEnc_UpdatedAt r)); ("created_at", tv (PlacesEnc_CreatedAt r));
   ("created_by", uvp (PlacesEnc_CreatedBy r))].

Definition pingCols : string := "id, circle_id, device_id, client_id, nonce, ciphertext, captured_at, received_at, expires_at".

Definition scanPing (l : list driverValue) : result string Ping :=
  match l with
  | [a; b; c; d; e; f; g; h; i] =>
      a <-? suuid a ;; b <-? suuid b ;; c <-? suuid c ;; d <-? stext d ;; e <-? sblob e ;; f <-? sblob f ;;
      g <-? stime g ;; h <-? stime h ;; i <-? snTime i ;; Ok (mkPing a b c d e f g h i)
  | _ => arity
  end.

Definition ping_row (r : Ping) : list (string * driverValue) :=
  [("id", uv (Ping_ID r)); ("circle_id", uv (Ping_CircleID r)); ("device_id", uv (Ping_DeviceID r));
   ("client_id", DText (Ping_ClientID r)); ("nonce", DBlob (Ping_Nonce r));
   ("ciphertext", DBlob (Ping_Ciphertext r)); ("captured_at", tv (Ping_CapturedAt r));
   ("received_at", tv (Ping_ReceivedAt r)); ("expires_at", tvp (Ping_ExpiresAt r))].
End scanners.
