(* ===== verification/Static.v ===== *)
(** * Static files and APK downloads (httpapi/static.go)

    A file system maps a slash-separated name under its root to a file.  A
    handler's run is its answer with the names it opened, so that what a request
    can reach is visible.  [http.ServeContent] (ranges, conditional requests) is
    the [Content] answer; the MIME table of the system is a parameter. *)

From S2P Require Import Prelude GoTime Net Text.
Local Open Scope string_scope.
Local Open Scope Z_scope.

(** ** Package path *)

(** One element of a path, over the elements before it, last first. *)
Definition clean_step (rooted : bool) (out : list string) (e : string) : list string :=
  if bool_decide (e = "" \/ e = ".") then out
  else if bool_decide (e = "..") then
    match out with
    | [] => if rooted then [] else [".."]
    | top :: rest => if bool_decide (top = "..") then ".." :: out else rest
    end
  else e :: out.

(** [path.Clean]. *)
Definition Clean (p : string) : string :=
  let rooted := HasPrefix p "/" in
  let out := foldl (clean_step rooted) [] (split_on "/" p) in
  if rooted then "/" ++ Join (rev out) "/"
  else match out with [] => "." | _ => Join (rev out) "/" end.

Example Clean_dots : Clean "/a//b/./../c/../../../etc/passwd" = "/etc/passwd".
Proof. reflexivity. Qed.
Example Clean_relative : Clean "../a/../../b" = "../../b".
Proof. reflexivity. Qed.
Example Clean_empty : Clean "" = ".".
Proof. reflexivity. Qed.

(** [strings.HasSuffix], [strings.ContainsAny]. *)
Definition HasSuffix (s p : string) : bool :=
  (String.length p <=? String.length s)%nat &&
  bool_decide (String.substring (String.length s - String.length p) (String.length p) s = p).

Definition ContainsAny (s chars : string) : bool :=
  existsb (fun c => existsb (Ascii.eqb c) (String.list_ascii_of_string chars)) (String.list_ascii_of_string s).

(** [path.Ext]: from the last dot of the last element. *)
Definition Ext_of (p : string) : string :=
  let base := List.last (split_on "/" p) "" in
  match rev (split_on "." base) with
  | _ :: [] | [] => ""
  | e :: _ => "." ++ e
  end.

Example Ext_of_asset : Ext_of "/assets.v2/app.min.js" = ".js".
Proof. reflexivity. Qed.
Example Ext_of_route : Ext_of "/assets.v2/circles" = "".
Proof. reflexivity. Qed.

(** ** File systems *)

Record file := mkFile { f_IsDir : bool; f_ModTime : time; f_Content : string; f_Seekable : bool }.

(** [fs.FS]: the file a name denotes, if any. *)
Definition FS : Type := string -> option file.

(** [http.Dir(d).Open(name)] over the files below [d]: the name is made rooted
    and clean first; a NUL names no file. *)
Definition Dir_Open (dir : FS) (name : string) : option file :=
  let p := TrimPrefix (Clean ("/" ++ name)) "/" in
  if no_char zero p then dir (if bool_decide (p = "") then "." else p) else None.

(** [dirFS.Open]. *)
Definition dirFS (dir : FS) : FS := fun name => Dir_Open dir ("/" ++ (if bool_decide (name = "") then "index.html" else name)).

Definition osDirFS : FS -> FS := dirFS.

Record StaticConfig := mkStaticConfig { sc_WebFS : option FS; sc_DevDir : option FS; sc_APKDir : option FS }.

Record staticHandler := mkStaticHandler { web : option FS; apkDir : option FS }.

(** [NewStaticHandler]. *)
Definition NewStaticHandler (cfg : StaticConfig) : staticHandler :=
  mkStaticHandler (match sc_DevDir cfg with Some d => Some (osDirFS d) | None => sc_WebFS cfg end) (sc_APKDir cfg).

(** ** The handler *)

(** What the handler answers: an error page, or a file with the headers set. *)
Inductive body :=
| ServeContent (name : string) (modtime : time) (content : string)
| Copied (content : string).

Inductive static_answer :=
| ErrorPage (status : Z)
| Served (headers : list (string * string)) (b : body).

Definition body_content (b : body) : string := match b with ServeContent _ _ c | Copied c => c end.

(** A name opened in one of the two roots. *)
Inductive opened := Web (name : string) | APK (name : string).

Section handler.
Context (TypeByExtension : string -> string).

Definition NotFoundPage : static_answer := ErrorPage 404.

(** [serveAPK]: a file name alone, so the base of the joined path is the name. *)
Definition serveAPK (dir : FS) (name : string) : list opened * static_answer :=
  if bool_decide (name = "") || ContainsAny name "/\" || Contains name ".." then ([], NotFoundPage) else
  ([APK name],
   match Dir_Open dir name with
   | None => NotFoundPage
   | Some f =>
       if f_IsDir f then NotFoundPage else
       Served (if HasSuffix name ".apk"
               then [("Content-Type", "application/vnd.android.package-archive");
                     ("Content-Disposition", "attachment; filename=" ++ quoted name)]
               else []) (ServeContent name (f_ModTime f) (f_Content f))
   end).

Definition cache_control (isFallback : bool) (name : string) : string :=
  if isFallback || bool_decide (name = "index.html") || HasSuffix name ".html" then "no-cache"
  else "public, max-age=31536000, immutable".

(** [serveFSFile]; [None] is false: absent or a directory. *)
Definition serveFSFile (fsys : FS) (name : string) (isFallback : bool) : list opened * option static_answer :=
  let name := if bool_decide (name = "") then "index.html" else name in
  ([Web name],
   match fsys name with
   | None => None
   | Some f =>
       if f_IsDir f then None else
       let ctype := TypeByExtension (Ext_of name) in
       Some (Served [("Content-Type", if bool_decide (ctype = "") then "application/octet-stream" else ctype);
                     ("Cache-Control", cache_control isFallback name)]
         (if f_Seekable f then ServeContent name (f_ModTime f) (f_Content f) else Copied (f_Content f)))
   end).

Definition ServeHTTP (h : staticHandler) (method url_path : string) : list opened * static_answer :=
  if negb (bool_decide (method = "GET" \/ method = "HEAD")) then ([], ErrorPage 405) else
  let upath := Clean ("/" ++ TrimPrefix url_path "/") in
  let apk := if HasPrefix upath "/download/" then apkDir h else None in
  match apk with
  | Some dir => serveAPK dir (TrimPrefix upath "/download/")
  | None =>
      match web h with
      | None => ([], NotFoundPage)
      | Some fsys =>
          match serveFSFile fsys (TrimPrefix upath "/") false with
          | (l, Some a) => (l, a)
          | (l, None) =>
              if negb (bool_decide (Ext_of upath = "")) && negb (bool_decide (upath = "/")) then (l, NotFoundPage) else
              let '(l', a) := serveFSFile fsys "index.html" true in
              ((l ++ l')%list, match a with Some a => a | None => NotFoundPage end)
          end
      end
  end.
End handler.
