(* ===== verification/Sqlitedb.v ===== *)
(** * Opening SQLite (internal/store/sqlitedb/sqlitedb.go, store.OpenSQLite)

    The data source name with its pragmas, and which of them reach a connection;
    opening and migrating without leaking the handle. *)

From S2P Require Import Prelude GoTime Models Api Ext Net Text.
Local Open Scope string_scope.
Local Open Scope Z_scope.

Definition pragmaDSN : string :=
  "_pragma=foreign_keys(1)" ++ "&_pragma=journal_mode(WAL)" ++ "&_pragma=busy_timeout(5000)".

Definition DSN (path : string) : string := path ++ "?" ++ pragmaDSN.

(** What a connection is given: the driver takes what follows the first question
    mark for the query, and runs a PRAGMA for each value of the key "_pragma"
    ([url.ParseQuery], on text without escapes). *)
Definition query_values (key query : string) : list string :=
  omap (fun kv => match cut "=" kv with Some (k, v) => if decide (k = key) then Some v else None | None => None end)
    (split_on "&" query).

Definition pragmas (dsn : string) : list string :=
  match cut "?" dsn with Some (_, query) => query_values "_pragma" query | None => [] end.

(** ** Opening *)

Inductive db_event := DBOpened (dsn : string) | DBMigrated | DBClosed.
Inductive db_error := OpenError | PingError | DialectError | MigrateError.

(** [Open]; [opens] and [pings] are whether sql.Open and PingContext work. *)
Definition Open (opens pings : bool) (path : string) : list db_event * result db_error unit :=
  if negb opens then ([], Err OpenError)
  else if negb pings then ([DBOpened (DSN path); DBClosed], Err PingError)
  else ([DBOpened (DSN path)], Ok tt).

(** [Migrate]; whether goose knows the dialect, and runs the migrations. *)
Definition Migrate (dialect up : bool) : list db_event * result db_error unit :=
  if negb dialect then ([], Err DialectError) else if negb up then ([], Err MigrateError) else ([DBMigrated], Ok tt).

Definition OpenAndMigrate (opens pings dialect up : bool) (path : string) : list db_event * result db_error unit :=
  match Open opens pings path with
  | (tr, Err e) => (tr, Err e)
  | (tr, Ok _) =>
      match Migrate dialect up with
      | (tr', Ok _) => ((tr ++ tr')%list, Ok tt)
      | (tr', Err e) => ((tr ++ tr' ++ [DBClosed])%list, Err e)
      end
  end.

(** ** Theorems *)

Definition wanted : list string := ["foreign_keys(1)"; "journal_mode(WAL)"; "busy_timeout(5000)"].

(** Every connection to a plain path enforces foreign keys, in WAL mode, with the
    busy timeout. *)
Theorem plain_path_pragmas path : cut "?" path = None -> pragmas (DSN path) = wanted.
Proof.
  intros Hp. unfold pragmas, DSN. change ("?" ++ pragmaDSN) with (String "?" pragmaDSN). rewrite cut_app by done. reflexivity.
Qed.

(** A path with parameters of its own, as a file: name may have, takes the first
    pragma for a part of its last one: such a connection does not enforce foreign
    keys, and the cascades the store relies on do not happen. *)
Lemma question_mark_drops_foreign_keys :
  pragmas (DSN "file:aul.db?cache=shared") = ["journal_mode(WAL)"; "busy_timeout(5000)"] /\
  pragmas (DSN "aul.db?x=1&") = ["journal_mode(WAL)"; "busy_timeout(5000)"].
Proof. by vm_compute. Qed.

(** A handle that is not handed over is closed, and one that is handed over is
    open and migrated. *)
Theorem handle_not_leaked opens pings dialect up path :
  match OpenAndMigrate opens pings dialect up path with
  | (tr, Ok _) => tr = [DBOpened (DSN path); DBMigrated]
  | (tr, Err _) => tr = [] \/ tr = [DBOpened (DSN path); DBClosed]
  end.
Proof. destruct opens, pings, dialect, up; cbn; auto. Qed.
