(* ===== verification/Handles.v ===== *)
(** * Store handles and transactions (store/store.go, OpenSQLite of store/sqlite.go)

    A [Store] holds one of two pools.  [Open], [OpenSQLite] and [Migrate] as the
    handles they open and close; [WithTx] with its deferred function, on a
    connection that has what its transaction wrote apart from what is committed,
    and with a body that may panic.  The [WithTx] of World, which the rest of the
    development uses, is what this one amounts to. *)

From S2P Require Import Prelude GoTime Models Api Hub World Sqlitedb.
Local Open Scope Z_scope.

(** ** Handles *)

Inductive Backend := BackendPostgres | BackendSQLite.

#[export] Instance Backend_eq_dec : EqDecision Backend.
Proof. solve_decision. Defined.

(** The two pools, as whether each is there. *)
Record Store := mk_Store { st_backend : Backend; st_pool : bool; st_sqldb : bool }.

Definition one_pool (s : Store) : Prop :=
  match st_backend s with
  | BackendPostgres => st_pool s = true /\ st_sqldb s = false
  | BackendSQLite => st_pool s = false /\ st_sqldb s = true
  end.

Inductive handle_event := PoolOpened (MaxConns : Z) | PoolClosed | SQLite (e : db_event) | MigrationOpened | Migrated | MigrationClosed.
Inductive store_error := ParseFailed | ConnectFailed | PingFailed | SQLiteFailed (e : db_error) | DialectFailed | MigrationsFailed.

(** [Open]: pgxpool.ParseConfig gives the size of the pool, or fails; the pool is
    made and pinged. *)
Definition Open (parsed : option Z) (connects pings : bool) : list handle_event * result store_error Store :=
  match parsed with
  | None => ([], Err ParseFailed)
  | Some MaxConns =>
      let MaxConns := if MaxConns <? 4 then 10 else MaxConns in
      if negb connects then ([], Err ConnectFailed)
      else if negb pings then ([PoolOpened MaxConns; PoolClosed], Err PingFailed)
      else ([PoolOpened MaxConns], Ok (mk_Store BackendPostgres true false))
  end.

Definition OpenSQLite (opens pings : bool) (path : string) : list handle_event * result store_error Store :=
  match Sqlitedb.Open opens pings path with
  | (tr, Err e) => (SQLite <$> tr, Err (SQLiteFailed e))
  | (tr, Ok _) => (SQLite <$> tr, Ok (mk_Store BackendSQLite false true))
  end.

(** [Migrate]: on a connection of its own, closed in any case. *)
Definition Migrate (opens dialect up : bool) : list handle_event * result store_error unit :=
  if negb opens then ([], Err ConnectFailed)
  else if negb dialect then ([MigrationOpened; MigrationClosed], Err DialectFailed)
  else if negb up then ([MigrationOpened; MigrationClosed], Err MigrationsFailed)
  else ([MigrationOpened; Migrated; MigrationClosed], Ok tt).

Definition IsSQLite (s : Store) : bool := bool_decide (st_backend s = BackendSQLite).

(** [Close]. *)
Definition Close (s : Store) : list handle_event :=
  match st_backend s with
  | BackendSQLite => if st_sqldb s then [SQLite DBClosed] else []
  | BackendPostgres => if st_pool s then [PoolClosed] else []
  end.

(** [TotalConns], of what the two pools count. *)
Definition TotalConns (s : Store) (OpenConnections pool_TotalConns : Z) : Z :=
  if IsSQLite s then wrap32 OpenConnections else pool_TotalConns.

(** ** Transactions *)

(** How a function ends. *)
Inductive ending (A : Type) := Returned (r : result error A) | Panicked.
Arguments Returned {A} r.
Arguments Panicked {A}.

(** The connection of a transaction: its view, what the others see, and whether
    the transaction is still open. *)
Record tx := mk_tx { tx_world : World; tx_committed : DB; tx_open : bool }.

Definition begin_tx (w : World) : result World tx :=
  let '(failed, w1) := next_fault w in
  if failed : bool then Err w1 else Ok (mk_tx w1 (w_db w1) true).

Section transactions.
(** What the engine leaves of a transaction whose COMMIT failed, from the tables
    before it and the tables it wrote. *)
Context (failed_commit : DB -> DB -> DB).

(** [tx.Commit], after which the transaction is over in any case. *)
Definition Commit (t : tx) : result error unit * tx :=
  let '(failed, w) := next_fault (tx_world t) in
  if failed : bool then
    let left := failed_commit (tx_committed t) (w_db (tx_world t)) in
    (Err ErrDriver, mk_tx (set_db left w) left false)
  else (Ok tt, mk_tx w (w_db w) false).

(** [tx.Rollback], which fails and does nothing when the transaction is over. *)
Definition Rollback (t : tx) : tx :=
  if tx_open t then mk_tx (set_db (tx_committed t) (tx_world t)) (tx_committed t) false else t.

(** [Store.WithTx], [withSQLiteTx]: the deferred function rolls back after a panic,
    which goes on, and after an error. *)
Definition withTx {A} (fn : World -> ending A * World) (w : World) : ending A * tx :=
  match begin_tx w with
  | Err w1 => (Returned (Err ErrDriver), mk_tx w1 (w_db w1) false)
  | Ok t =>
      let '(o, w2) := fn (tx_world t) in
      let t2 := mk_tx w2 (tx_committed t) true in
      let '(o, t3) :=
        match o with
        | Returned (Ok a) =>
            match Commit t2 with
            | (Ok _, t3) => (Returned (Ok a), t3)
            | (Err e, t3) => (Returned (Err e), t3)
            end
        | o => (o, t2)
        end in
      match o with
      | Returned (Ok _) => (o, t3)
      | _ => (o, Rollback t3)
      end
  end.

End transactions.

(** The engine's contract: a COMMIT that fails leaves nothing of its transaction. *)
Definition commit_law (failed_commit : DB -> DB -> DB) : Prop := forall before written, failed_commit before written = before.

(** ** Theorems *)

Theorem opened_stores_have_one_pool :
  (forall parsed connects pings tr s, Open parsed connects pings = (tr, Ok s) -> one_pool s) /\
  (forall opens pings path tr s, OpenSQLite opens pings path = (tr, Ok s) -> one_pool s).
Proof.
  split.
  - intros [n|] [] [] tr s Ho; cbn in Ho; by simplify_eq.
  - intros [] [] path tr s Ho; cbn in Ho; by simplify_eq.
Qed.

(** A store that was opened and is closed leaves no handle behind; one that failed
    to open left none. *)
Definition balance (tr : list handle_event) : Z :=
  foldr (fun e n => n + match e with
    | PoolOpened _ | MigrationOpened | SQLite (DBOpened _) => 1
    | PoolClosed | MigrationClosed | SQLite DBClosed => -1
    | Migrated | SQLite DBMigrated => 0 end) 0 tr.

Theorem handles_balanced parsed connects pings opens dialect up path :
  let closed o := match o with (tr, Ok s) => balance (tr ++ Close s) | (tr, Err _) => balance tr end in
  closed (Open parsed connects pings) = 0 /\ closed (OpenSQLite opens pings path) = 0 /\
  balance (fst (Migrate opens dialect up)) = 0.
Proof. cbv zeta. destruct parsed, connects, pings, opens, dialect, up; by cbn. Qed.

Lemma next_fault_tables w : w_db (snd (next_fault w)) = w_db w.
Proof. destruct (next_fault w) as [b w'] eqn:Hn. by apply next_fault_db in Hn. Qed.

(** C37: No run of [withTx] leaves its transaction open, and what the connection
    sees at the end is what is committed; a panic of the body goes on to the caller,
    with the tables rolled back.  On an engine whose failed COMMIT leaves nothing of
    the transaction, which is the engine's contract and not the program's doing,
    anything but success leaves what was committed before, and a body that returns has
    the answer and the tables of [World.WithTx]. *)
Theorem transactions_end {A} failed_commit (fn : World -> ending A * World) (w : World) :
  let '(o, t) := withTx failed_commit fn w in
  tx_open t = false /\ w_db (tx_world t) = tx_committed t /\
  (o = Panicked -> tx_committed t = w_db w) /\
  (o = Panicked <-> exists w1, next_fault w = (false, w1) /\ fst (fn w1) = Panicked) /\
  (commit_law failed_commit ->
    ((forall a, o <> Returned (Ok a)) -> tx_committed t = w_db w) /\
    (forall (m : M A), (forall w, fn w = (Returned (fst (m w)), snd (m w))) ->
       WithTx m w = (match o with Returned r => r | Panicked => Err ErrDriver end, tx_world t))).
Proof.
  unfold withTx, begin_tx, WithTx. pose proof (next_fault_tables w) as Hw1. destruct (next_fault w) as [failed w1] eqn:Hn. cbn in Hw1.
  destruct failed.
  { cbn. split_and!; [done|done|done| |done]. split; [done|]. intros (w1' & [=] & _). }
  cbn [tx_world tx_committed tx_open]. destruct (fn w1) as [[[a|e]|] w2] eqn:Hfn.
  - unfold Commit. cbn. pose proof (next_fault_tables w2) as Hw3. destruct (next_fault w2) as [failed w3] eqn:Hn2. cbn in Hw3.
    assert (forall B, Returned (A:=A) B = Panicked <-> exists w1', (false, w1) = (false, w1') /\ fst (fn w1') = Panicked) as Hp.
    { intros B. split; [done|]. intros (w1' & [= <-] & Hp). by rewrite Hfn in Hp. }
    destruct failed; cbn; (split_and!; [done|done|done|apply Hp|]); intros Hlaw; rewrite ?Hlaw; split.
    + intros _. by rewrite Hw1.
    + intros m Hm. rewrite Hm in Hfn. destruct (m w1) as [r w2']. cbn in Hfn. simplify_eq. rewrite Hn2. by rewrite Hw1.
    + intros Ho. by destruct (Ho a).
    + intros m Hm. rewrite Hm in Hfn. destruct (m w1) as [r w2']. cbn in Hfn. simplify_eq. by rewrite Hn2.
  - cbn. split_and!; [done|done|done| |].
    + split; [done|]. intros (w1' & [= <-] & Hp). by rewrite Hfn in Hp.
    + intros _. split; [by rewrite Hw1|].
      intros m Hm. rewrite Hm in Hfn. destruct (m w1) as [r w2']. cbn in Hfn. simplify_eq. by rewrite Hw1.
  - cbn. split_and!; [done|done|by rewrite Hw1| |].
    + split; [|done]. intros _. exists w1. by rewrite Hfn.
    + intros _. split; [by rewrite Hw1|]. intros m Hm. rewrite Hm in Hfn. by destruct (m w1) as [r w2'].
Qed.

(** A body that writes, where the COMMIT fails, on an engine that keeps to the contract. *)
Definition demo_write (w : World) : ending unit * World := (Returned (Ok tt), set_db (set_audit_log_seq 7 (w_db w)) w).
Definition failing_commit : World := mkWorld empty_db NewHub 0 N.of_nat (fun _ => None) 0 [false; true] [].
Definition keep_committed (before written : DB) : DB := before.

Lemma transactions_end_witness :
  tx_committed (snd (withTx keep_committed demo_write failing_commit)) = empty_db /\
  fst (withTx keep_committed demo_write failing_commit) = Returned (Err ErrDriver).
Proof.
  pose proof (transactions_end keep_committed demo_write failing_commit) as Ht.
  assert (Hr : fst (withTx keep_committed demo_write failing_commit) = Returned (Err ErrDriver)) by (vm_compute; reflexivity).
  destruct (withTx _ _ _) as [o t]. cbn [fst snd] in *. destruct Ht as (_ & _ & _ & _ & Hl).
  split; [|exact Hr]. apply Hl; [done|]. intros a. by rewrite Hr.
Defined.
