(* ===== verification/Doctor.v ===== *)
(** * The launcher's preflight and paths (internal/launcher/doctor.go, paths.go, browser.go)

    What [Diagnose] concludes from two probes of tailscale, its own and then
    [FunnelOrigin]'s, between which the machine may change; how the report is
    printed; which directory, server binary and browser command the launcher takes. *)

From S2P Require Import Prelude GoTime Models Api Ext Net Config Text Static Launcher Demo.
Local Open Scope string_scope.
Local Open Scope Z_scope.

(** runtime.GOOS, as far as the launcher tells systems apart. *)
Inductive goos := Darwin | Windows | Linux | OtherOS.

#[export] Instance goos_eq_dec : EqDecision goos.
Proof. solve_decision. Defined.

(** ** doctor.go *)

Record DoctorCheck := mk_DoctorCheck { ck_Name : string; ck_OK : bool; ck_Detail : string; ck_Fix : string }.
Record DoctorReport := mk_DoctorReport { dr_Checks : list DoctorCheck; dr_Origin : string }.

Definition Ready (r : DoctorReport) : bool := negb (empty (dr_Origin r)).

Definition lines (l : list string) : string := Join l newline.

Definition installFix (os : goos) : string :=
  match os with
  | Darwin => "Install Tailscale (Mac App Store or https://tailscale.com/download/mac), then:  tailscale up"
  | Windows => "Install Tailscale (https://tailscale.com/download/windows), then sign in from the tray"
  | _ => lines ["Install Tailscale, then sign in:"; "  curl -fsSL https://tailscale.com/install.sh | sh"; "  sudo tailscale up"]
  end.

Definition upCmd (os : goos) : string := if decide (os = Linux) then "sudo tailscale up" else "tailscale up".

Definition funnelFix (magic : string) : string :=
  lines ["Enable Funnel for this node, then expose the launcher's port:";
         "  1. Admin console → Access controls: grant the " ++ quoted "funnel" ++ " nodeAttr to this node";
         "     (https://login.tailscale.com/admin/acls) — Funnel is OFF by default.";
         "  2. Run:  tailscale funnel 8080   (8080 is the port aul-launcher serves)";
         "  Then this box is reachable at  https://" ++ magic].

Definition pass (name detail : string) : DoctorCheck := mk_DoctorCheck name true detail "".
Definition fails (name detail fix_ : string) : DoctorCheck := mk_DoctorCheck name false detail fix_.

(** [Diagnose]: [ts] answers its own probes, [again] those of [FunnelOrigin]. *)
Definition Diagnose `{Ext} (os : goos) (ts again : tailscale) : DoctorReport :=
  if negb (tl_installed ts) then
    mk_DoctorReport [fails "Tailscale installed" "not found on PATH" (installFix os)] "" else
  let c1 := pass "Tailscale installed" "found on PATH" in
  match tl_status ts with
  | Err e => mk_DoctorReport [c1; fails "Tailscale running" e ("Start and sign in:  " ++ upCmd os)] ""
  | Ok st =>
      if negb (bool_decide (ts_BackendState st = "Running")) then
        mk_DoctorReport [c1; fails "Tailscale running" ("backend is " ++ quoted (ts_BackendState st)) ("Sign in:  " ++ upCmd os)] "" else
      let c2 := pass "Tailscale running" "backend Running" in
      let magic := TrimSuffix (ts_DNSName st) "." in
      if empty magic then
        mk_DoctorReport [c1; c2; fails "MagicDNS name" "this node has none"
          (lines ["Enable MagicDNS + HTTPS certificates in the admin console:"; "  https://login.tailscale.com/admin/dns"])] "" else
      let c3 := pass "MagicDNS name" magic in
      match FunnelOrigin again with
      | Err reason => mk_DoctorReport [c1; c2; c3; fails "Public Funnel" reason (funnelFix magic)] ""
      | Ok fr => mk_DoctorReport [c1; c2; c3; pass "Public Funnel" (fu_Origin fr)] (fu_Origin fr)
      end
  end.

(** The lines [WriteReport] prints of a check. *)
Definition check_lines (c : DoctorCheck) : list string :=
  ((if ck_OK c then "✓" else "✗") ++ " " ++ ck_Name c ++ " — " ++ ck_Detail c) ::
  (if negb (ck_OK c) && negb (empty (ck_Fix c)) then (fun l => "    " ++ l) <$> split_on (Ascii.ascii_of_nat 10) (ck_Fix c) else []).

Definition WriteReport (r : DoctorReport) : list string :=
  List.app (mbind check_lines (dr_Checks r))
  (if Ready r then
    [""; "Ready — your server is reachable at " ++ dr_Origin r; "Start it any time with:  aul-launcher"]
  else
    [""; "Not reachable yet. Do the step above, then re-run:  aul-launcher doctor";
     "(You can still run `aul-launcher` now — it will serve on localhost only,";
     " which is fine for trying it on this machine but not for remote members.)"]).

(** ** paths.go *)

(** What the file system and the environment answer. *)
Record host := mk_host {
  ho_env : string -> string;
  ho_UserConfigDir : option string;
  ho_Executable : option string;
  ho_MkdirAll : string -> bool;              (** whether it works *)
  ho_Stat : string -> option bool;           (** whether a path is a directory; None when it is missing *)
  ho_Join : string -> string -> string;      (** path/filepath, by system *)
  ho_Dir : string -> string
}.

Definition resolveDataDir `{Ext} (flag : string) (h : host) : result string string :=
  let dir := firstNonEmpty [flag; ho_env h "AUL_DATA_DIR"] in
  let made d := if ho_MkdirAll h d then Ok d else Err ("create data dir " ++ d) in
  if empty dir then
    match ho_UserConfigDir h with
    | None => Err "cannot determine a data dir"
    | Some base => made (ho_Join h base "aul")
    end
  else made dir.

Definition serverBinName (os : goos) : string := if decide (os = Windows) then "aul.exe" else "aul".

Definition resolveServerBin `{Ext} (os : goos) (flag : string) (h : host) : result string string :=
  let check bin :=
    match ho_Stat h bin with
    | None => Err ("server binary " ++ bin ++ " not found")
    | Some true => Err ("server binary path " ++ bin ++ " is a directory, not a file")
    | Some false => Ok bin
    end in
  let bin := firstNonEmpty [flag; ho_env h "AUL_SERVER_BIN"] in
  if empty bin then
    match ho_Executable h with
    | None => Err "cannot locate this launcher to find its sibling server binary"
    | Some exe => check (ho_Join h (ho_Dir h exe) (serverBinName os))
    end
  else check bin.

(** ** browser.go *)

(** The command [openBrowser] starts, program and arguments. *)
Definition openBrowser `{Ext} (os : goos) (rawURL : string) : result string (list string) :=
  match url_Parse rawURL with
  | None => Err ("parse url " ++ quoted rawURL)
  | Some u =>
      if negb (bool_decide (url_Scheme u = "http")) && negb (bool_decide (url_Scheme u = "https"))
      then Err ("refusing to open non-http(s) url " ++ quoted rawURL)
      else Ok match os with
              | Windows => ["rundll32"; "url.dll,FileProtocolHandler"; rawURL]
              | Darwin => ["open"; rawURL]
              | _ => ["xdg-open"; rawURL]
              end
  end.

(** ** The preflight tells what the launcher will do *)

(** The steps in the order they depend on each other. *)
Definition stages : list string := ["Tailscale installed"; "Tailscale running"; "MagicDNS name"; "Public Funnel"].

(** A report stops at the first step that fails: those before it passed, it says
    what to do, and nothing after it was looked at. *)
Definition staged (r : DoctorReport) : Prop :=
  exists n, (1 <= n <= 4)%nat /\ ck_Name <$> dr_Checks r = take n stages /\
    Forall (fun c => ck_OK c = true) (take (n - 1) (dr_Checks r)) /\
    exists c, dr_Checks r !! (n - 1)%nat = Some c /\
      (ck_OK c = true -> n = 4%nat /\ ck_Detail c = dr_Origin r /\ Ready r = true) /\
      (ck_OK c = false -> ck_Fix c <> "" /\ Ready r = false).

Lemma funnelOrigin_nonempty hp origin : funnelOrigin hp = Some origin -> empty origin = false.
Proof.
  unfold funnelOrigin. destruct (SplitHostPort hp) as [[h p]|]; [|done]. cbv zeta.
  intros [= <-]. apply bool_decide_eq_false. destruct (bool_decide _); rewrite !string_app_cons; discriminate.
Qed.

Lemma FunnelOrigin_nonempty `{Ext} ts fr : FunnelOrigin ts = Ok fr -> empty (fu_Origin fr) = false.
Proof.
  unfold FunnelOrigin. repeat (case_match; try discriminate). intros [= <-]. by eapply funnelOrigin_nonempty.
Qed.

Lemma Diagnose_staged `{Ext} os ts again : staged (Diagnose os ts again).
Proof.
  unfold Diagnose. destruct (tl_installed ts); cbn [negb].
  2:{ exists 1%nat. split_and!; [lia|lia|done|constructor|]. eexists. split_and!; [done|done|]. intros _. split; [by destruct os|done]. }
  destruct (tl_status ts) as [st|e].
  2:{ exists 2%nat. split_and!; [lia|lia|done|by repeat constructor|]. eexists. split_and!; [done|done|]. by split. }
  destruct (bool_decide _); cbn [negb].
  2:{ exists 2%nat. split_and!; [lia|lia|done|by repeat constructor|]. eexists. split_and!; [done|done|]. by split. }
  cbv zeta. destruct (empty _) eqn:He.
  { exists 3%nat. split_and!; [lia|lia|done|by repeat constructor|]. eexists. split_and!; [done|done|]. by split. }
  exists 4%nat. destruct (FunnelOrigin again) as [fr|e] eqn:Hf.
  - split_and!; [lia|lia|done|by repeat constructor|]. eexists. split_and!; [done| |done]. intros _. split_and!; [done..|].
    unfold Ready. cbn. by rewrite (FunnelOrigin_nonempty _ _ Hf).
  - split_and!; [lia|lia|done|by repeat constructor|]. eexists. split_and!; [done|done|]. by split.
Qed.

(** When tailscale answers alike, the report's origin is the launcher's. *)
Lemma Diagnose_origin `{Ext} os ts :
  dr_Origin (Diagnose os ts ts) = match FunnelOrigin ts with Ok fr => fu_Origin fr | Err _ => "" end.
Proof.
  unfold Diagnose. destruct (FunnelOrigin ts) as [fr|e] eqn:Hf.
  - unfold FunnelOrigin in Hf. destruct (tl_installed ts); [|done]. destruct (tl_status ts) as [st|]; [|done].
    cbn [negb] in *. destruct (bool_decide _); [|done]. cbn [negb] in *. cbv zeta in *. by destruct (empty _).
  - by repeat case_match.
Qed.

(** the preflight says what the launcher will do: it goes through its steps in
    order and stops at the first one that fails, with a fix for it; and, as long
    as tailscale answers alike, it declares the box reachable exactly when a start
    without an origin of its own would take the Funnel, at the address the report
    shows, and otherwise that start falls back to localhost. *)
Theorem doctor_foretells_start `{Ext} os ts again port :
  staged (Diagnose os ts again) /\
  let r := Diagnose os ts ts in
  exists res, resolveOrigin "" port (detectFunnel ts) = Ok res /\
    if Ready r then re_Source res = sourceFunnel /\ re_Origin res = dr_Origin r /\ re_Env res = "production"
    else re_Source res = sourceLocalhost /\ re_Origin res = "http://localhost:" ++ itoa port /\ re_Env res = "development".
Proof.
  split; [apply Diagnose_staged|]. cbv zeta. unfold Ready. rewrite Diagnose_origin. unfold detectFunnel.
  destruct (FunnelOrigin ts) as [fr|e] eqn:Hf; eexists; (split; [reflexivity|]).
  - by rewrite (FunnelOrigin_nonempty _ _ Hf).
  - done.
Qed.
