(* ===== verification/Files.v ===== *)
(** * Files that survive a crash (internal/launcher/fsutil.go, pepper.go, syncdir_unix.go, syncdir_other.go)

    A directory as an operating system keeps it: what processes see and what a
    power loss may leave.  Data written and not synced may come back as anything;
    a name that changed since the directory was synced may come back with any of
    the entries it had.  Programs are trees of system calls, each of which may
    fail, so that a crash can come between any two of them. *)

From S2P Require Launcher.
From S2P Require Import Prelude GoTime Models Api Ext Base64 Config.
From stdpp Require Import relations.
Local Open Scope Z_scope.

Inductive fs_error := NotExist | IO | Short | NoRandom.

#[export] Instance fs_error_eq_dec : EqDecision fs_error.
Proof. solve_decision. Defined.

(** An inode: its contents, whether they are on the disk, its mode. *)
Record inode := mk_inode { in_data : string; in_synced : bool; in_mode : Z }.

(** The names of the directory, each with the entries a crash may leave it, the
    current one first. *)
Record disk := mk_disk { dk_inodes : gmap nat inode; dk_names : gmap string (list (option nat)) }.

Definition entries (d : disk) (name : string) : list (option nat) := default [None] (dk_names d !! name).
Definition entry (d : disk) (name : string) : option nat := default None (head (entries d name)).
Definition content (d : disk) (name : string) : option string :=
  i ← entry d name; in_data <$> dk_inodes d !! i.

Definition set_entry (name : string) (e : option nat) (d : disk) : disk :=
  mk_disk (dk_inodes d) (<[name := e :: entries d name]> (dk_names d)).
Definition set_inode (i : nat) (x : inode) (d : disk) : disk := mk_disk (<[i := x]> (dk_inodes d)) (dk_names d).

(** ** System calls *)

Inductive syscall : Type -> Type :=
| ReadFile (name : string) : syscall string
| CreateTemp : syscall (string * nat)
| Chmod (i : nat) (mode : Z) : syscall unit
| Write (i : nat) (data : string) : syscall unit
| Sync (i : nat) : syscall unit
| Close (i : nat) : syscall unit
| Rename (old new : string) : syscall unit
| Remove (name : string) : syscall unit
| SyncDir : syscall unit.

(** What becomes of a call: it works, drawing [r] if it draws a name, or breaks,
    a write after [n] bytes. *)
Inductive fate := Works (r : string) | Breaks (n : nat).

(** The name CreateTemp makes of ".pepper-*.tmp". *)
Definition temp_name (r : string) : string := ".pepper-" ++ r ++ ".tmp".

Definition perform {X} (unix : bool) (c : syscall X) (f : fate) (d : disk) : result fs_error X * disk :=
  match c, f with
  | ReadFile name, Works _ => (match content d name with Some s => Ok s | None => Err NotExist end, d)
  | CreateTemp, Works r =>
      (* an existing name is drawn again *)
      if decide (entry d (temp_name r) = None) then
        let i := fresh (dom (dk_inodes d)) in
        (Ok (temp_name r, i), set_entry (temp_name r) (Some i) (set_inode i (mk_inode "" false 384) d))
      else (Err IO, d)
  | Chmod i mode, Works _ =>
      (Ok tt, match dk_inodes d !! i with Some x => set_inode i (mk_inode (in_data x) (in_synced x) mode) d | None => d end)
  | Write i data, Works _ =>
      (Ok tt, match dk_inodes d !! i with Some x => set_inode i (mk_inode (in_data x ++ data) false (in_mode x)) d | None => d end)
  | Write i data, Breaks n =>
      (Err IO, match dk_inodes d !! i with
               | Some x => set_inode i (mk_inode (in_data x ++ String.substring 0 n data) false (in_mode x)) d | None => d end)
  | Sync i, Works _ =>
      (Ok tt, match dk_inodes d !! i with Some x => set_inode i (mk_inode (in_data x) true (in_mode x)) d | None => d end)
  | Close i, Works _ => (Ok tt, d)
  | Rename old new, Works _ =>
      match entry d old with
      | Some i => (Ok tt, set_entry old None (set_entry new (Some i) d))
      | None => (Err NotExist, d)
      end
  | Remove name, Works _ =>
      match entry d name with Some _ => (Ok tt, set_entry name None d) | None => (Err NotExist, d) end
  | SyncDir, Works _ =>
      (Ok tt, if unix then mk_disk (dk_inodes d) ((fun es => [default None (head es)]) <$> dk_names d) else d)
  | _, Breaks _ => (Err IO, d)
  end.

(** What a power loss may leave of [d]. *)
Definition crashes (d d' : disk) : Prop :=
  (forall name, exists e, e ∈ entries d name /\ entries d' name = [e]) /\
  (forall i x, dk_inodes d !! i = Some x ->
    exists x', dk_inodes d' !! i = Some x' /\ in_synced x' = true /\ (in_synced x = true -> in_data x' = in_data x)).

(** ** Programs *)

Inductive program (A : Type) : Type :=
| Done (a : A)
| Sys {X : Type} (c : syscall X) (k : result fs_error X -> program A).
Arguments Done {A} a.
Arguments Sys {A X} c k.

(** [if err := call(); err != nil { ... }]. *)
Definition sys_or {X A} (c : syscall X) (on_error : fs_error -> program A) (k : X -> program A) : program A :=
  Sys c (fun r => match r with Ok x => k x | Err e => on_error e end).

Fixpoint program_bind {A B} (p : program A) (k : A -> program B) : program B :=
  match p with
  | Done a => k a
  | Sys c k' => Sys c (fun r => program_bind (k' r) k)
  end.

(** The execution with the given fates, for examples: it stops when they run out. *)
Fixpoint execute {A} (unix : bool) (p : program A) (fates : list fate) (d : disk) : program A * disk :=
  match p, fates with
  | Sys c k, f :: fates => let '(r, d') := perform unix c f d in execute unix (k r) fates d'
  | _, _ => (p, d)
  end.

(** ** fsutil.go *)

(** The deferred cleanup of a failed write; its own errors are ignored. *)
Definition discard {A} (tmpName : string) (i : nat) (e : fs_error) : program (result fs_error A) :=
  Sys (Close i) (fun _ => Sys (Remove tmpName) (fun _ => Done (Err e))).

Definition atomicWriteFile (path data : string) (perm : Z) : program (result fs_error unit) :=
  sys_or CreateTemp (fun e => Done (Err e)) (fun '(tmpName, tmp) =>
  sys_or (Chmod tmp perm) (discard tmpName tmp) (fun _ =>
  sys_or (Write tmp data) (discard tmpName tmp) (fun _ =>
  sys_or (Sync tmp) (discard tmpName tmp) (fun _ =>
  sys_or (Close tmp) (discard tmpName tmp) (fun _ =>
  sys_or (Rename tmpName path) (discard tmpName tmp) (fun _ =>
  sys_or SyncDir (discard tmpName tmp) (fun _ =>
  Done (Ok tt)))))))).

(** ** pepper.go *)

Definition pepper_file : string := "session_pepper".

(** [provisionPepper]; [random] is what rand.Read gives. *)
Definition provisionPepper `{Ext} (random : option bytes) : program (result fs_error string) :=
  Sys (ReadFile pepper_file) (fun r =>
    match r with
    | Ok raw =>
        let pepper := TrimSpace raw in
        Done (if str_len pepper <? Launcher.minPepperBytes then Err Short else Ok pepper)
    | Err NotExist =>
        match random with
        | None => Done (Err NoRandom)
        | Some buf =>
            let pepper := EncodeToString StdEncoding buf in
            program_bind (atomicWriteFile pepper_file pepper 384) (fun r =>
              Done match r with Ok _ => Ok pepper | Err e => Err e end)
        end
    | Err e => Done (Err e)
    end).

(** ** Executions and power losses *)

Section executions.
Context (unix : bool) (allowed : forall X, syscall X -> fate -> Prop).

(** One call of a running program. *)
Inductive step {A} : program A * disk -> program A * disk -> Prop :=
| Step_call X (c : syscall X) k d f r d' :
    allowed X c f -> perform unix c f d = (r, d') -> step (Sys c k, d) (k r, d').

(** [buf := make([]byte, 32)]. *)
Definition random_32 (random : option bytes) : Prop :=
  match random with Some buf => length buf = 32%nat | None => True end.

(** The launches of a machine: each provisions the pepper with its own random
    bytes, to the end or until a power loss; what those that ended returned. *)
Inductive launches `{Ext} : disk -> list (result fs_error string) -> disk -> Prop :=
| Launch_none d : launches d [] d
| Launch_ran d random r d' rs d'' :
    random_32 random -> rtc step (provisionPepper random, d) (Done r, d') -> launches d' rs d'' -> launches d (r :: rs) d''
| Launch_cut d random p d' d'' rs d''' :
    random_32 random -> rtc step (provisionPepper random, d) (p, d') -> crashes d' d'' -> launches d'' rs d''' -> launches d rs d'''.
End executions.

(** Every call may break; or every one but the sync of the directory. *)
Definition any_fate (X : Type) (c : syscall X) (f : fate) : Prop := True.
Definition directory_syncs (X : Type) (c : syscall X) (f : fate) : Prop :=
  match c with SyncDir => match f with Works _ => True | Breaks _ => False end | _ => True end.
