(* ===== verification/Publish.v ===== *)
(** * Publishing a release (cmd/aul/publish.go, cmd/aul/vapid.go)

    The operator's subcommands: the flags of publish-version as package flag
    reads them, their validation, and the row the command leaves in the store it
    opens; and the environment lines of vapid-keys. *)

From S2P Require Import Prelude GoTime Models Api Ext Hub Net World Querier Config.
Local Open Scope string_scope.
Local Open Scope Z_scope.
Local Open Scope aul_scope.

Inductive publish_error :=
| FlagSyntax (arg : string) | FlagUndefined (name : string) | FlagHelp
| FlagNeedsArgument (name : string) | FlagInvalid (name value : string)
| PlatformRequired | PlatformUnknown (platform : string) | VersionCodeRange (code : Z) | NameRequired
| MinSupportedRange (code : Z) | Sha256Shape | Sha256Required
| DatabaseURLRequired | Backend (e : string) | OpenFailed | UpsertFailed (e : error).

#[export] Instance publish_error_eq_dec : EqDecision publish_error.
Proof. solve_decision. Defined.

(** ** strconv.ParseInt, with base 0 *)

(** The value of a digit of a base up to 16. *)
Definition base_digit (c : ascii) : option Z :=
  match digit_value c with
  | Some v => Some v
  | None =>
      let n := Z.of_N (N_of_ascii (lower_char c)) in
      if (97 <=? n) && (n <=? 122) then Some (n - 87) else None
  end.

(** The digits, underscores skipped. *)
Fixpoint parse_digits (base acc : Z) (s : string) : option Z :=
  match s with
  | EmptyString => Some acc
  | String c s' =>
      if (c =? "_")%char then parse_digits base acc s' else
      match base_digit c with
      | Some v => if v <? base then parse_digits base (acc * base + v) s' else None
      | None => None
      end
  end.

(** [underscoreOK], past the sign and the prefix: underscores separate digits, or
    follow the prefix; [last] is what came before: a digit, an underscore or neither. *)
Fixpoint underscores_ok (last : option bool) (s : string) : bool :=
  match s with
  | EmptyString => negb (bool_decide (last = Some true))
  | String c s' =>
      if (c =? "_")%char then bool_decide (last = Some false) && underscores_ok (Some true) s'
      else underscores_ok (Some false) s'
  end.

Definition ParseUint_base0 (s : string) : option Z :=
  match s with
  | EmptyString => None
  | String "0" (String c (String _ _ as digits)) =>
      let base := if (lower_char c =? "b")%char then Some 2 else if (lower_char c =? "o")%char then Some 8
        else if (lower_char c =? "x")%char then Some 16 else None in
      match base with
      | Some base => if underscores_ok (Some false) digits then parse_digits base 0 digits else None
      | None => if underscores_ok None s then parse_digits 8 0 (String c digits) else None
      end
  | String "0" digits => if underscores_ok None s then parse_digits 8 0 digits else None
  | _ => if underscores_ok None s then parse_digits 10 0 s else None
  end.

(** [flag.Int]'s value on a 64-bit machine. *)
Definition ParseInt_base0 (s : string) : option Z :=
  let '(neg, digits) :=
    match s with
    | String "-" s' => (true, s')
    | String "+" s' => (false, s')
    | _ => (false, s)
    end in
  match ParseUint_base0 digits with
  | Some n =>
      let v := if neg : bool then - n else n in
      if bool_decide (in_int 64 v) then Some v else None
  | None => None
  end.

(** ** The flags *)

Record flags := mk_flags {
  fl_platform : string; fl_version_code : Z; fl_version_name : string; fl_apk_url : string;
  fl_sha256 : string; fl_changelog : string; fl_min_supported : Z }.

Definition default_flags : flags := mk_flags "" 0 "" "" "" "" 0.

(** [flag.Value.Set] of the flag of that name; None when there is none. *)
Definition set_flag (name value : string) (f : flags) : option (result publish_error flags) :=
  let '(mk_flags p vc vn u s c m) := f in
  let int k := match ParseInt_base0 value with Some n => Ok (k n) | None => Err (FlagInvalid name value) end in
  if bool_decide (name = "platform") then Some (Ok (mk_flags value vc vn u s c m))
  else if bool_decide (name = "version-code") then Some (int (fun n => mk_flags p n vn u s c m))
  else if bool_decide (name = "version-name") then Some (Ok (mk_flags p vc value u s c m))
  else if bool_decide (name = "apk-url") then Some (Ok (mk_flags p vc vn value s c m))
  else if bool_decide (name = "sha256") then Some (Ok (mk_flags p vc vn u value c m))
  else if bool_decide (name = "changelog") then Some (Ok (mk_flags p vc vn u s value m))
  else if bool_decide (name = "min-supported") then Some (int (fun n => mk_flags p vc vn u s c n))
  else None.

(** The name and value of an argument that is a flag, as [parseOne] cuts it; None
    when it ends the flags. *)
Definition flag_text (arg : string) : option string :=
  match arg with
  | String "-" EmptyString => None
  | String "-" (String "-" EmptyString) => None
  | String "-" (String "-" name) => Some name
  | String "-" name => Some name
  | _ => None
  end.

Definition bad_name (name : string) : bool :=
  match name with EmptyString => true | String c _ => (c =? "-")%char || (c =? "=")%char end.

(** [FlagSet.Parse]: what follows the flags is ignored. *)
Fixpoint parse_flags (args : list string) (f : flags) : result publish_error flags :=
  match args with
  | [] => Ok f
  | arg :: rest =>
      match flag_text arg with
      | None => Ok f
      | Some text =>
          if bad_name text then Err (FlagSyntax arg) else
          let '(name, value) := match cut "=" text with Some (n, v) => (n, Some v) | None => (text, None) end in
          match set_flag name "" default_flags with
          | None => Err (if bool_decide (name = "help" \/ name = "h") then FlagHelp else FlagUndefined name)
          | Some _ =>
              match value, rest with
              | Some v, _ => match set_flag name v f with Some (Ok f') => parse_flags rest f' | Some (Err e) => Err e | None => Ok f end
              | None, v :: rest' =>
                  match set_flag name v f with Some (Ok f') => parse_flags rest' f' | Some (Err e) => Err e | None => Ok f end
              | None, [] => Err (FlagNeedsArgument name)
              end
          end
      end
  end.

(** ** Validation *)

(** UpsertAppVersionParams. *)
Record UpsertAppVersionParams := mk_UpsertAppVersionParams {
  up_Platform : string; up_VersionCode : Z; up_VersionName : string; up_ApkUrl : option string;
  up_Sha256 : option string; up_Changelog : option string; up_MinSupported : Z }.

Definition optStr (s : string) : option string := if empty s then None else Some s.

Definition is_hex (c : ascii) : bool :=
  let n := Z.of_N (N_of_ascii c) in ((48 <=? n) && (n <=? 57)) || ((97 <=? n) && (n <=? 102)).
Definition sha256HexRe (s : string) : bool := (String.length s =? 64)%nat && all_chars is_hex s.

Definition MaxInt32 : Z := 2 ^ 31 - 1.

Section publish.
Context `{Ext}.

Definition parsePublishFlags (args : list string) : result publish_error UpsertAppVersionParams :=
  f <-? parse_flags args default_flags ;;
  guard_res (negb (empty (fl_platform f))) PlatformRequired (
  guard_res (bool_decide (fl_platform f ∈ ["android"; "ios"])) (PlatformUnknown (fl_platform f)) (
  guard_res (negb ((fl_version_code f <=? 0) || (MaxInt32 <? fl_version_code f))) (VersionCodeRange (fl_version_code f)) (
  let name := TrimSpace (fl_version_name f) in
  guard_res (negb (empty name)) NameRequired (
  guard_res (negb ((fl_min_supported f <? 0) || (MaxInt32 <? fl_min_supported f))) (MinSupportedRange (fl_min_supported f)) (
  let sha := ToLower (TrimSpace (fl_sha256 f)) in
  guard_res (negb (negb (empty sha) && negb (sha256HexRe sha))) Sha256Shape (
  let url := TrimSpace (fl_apk_url f) in
  guard_res (negb (negb (empty url) && empty sha)) Sha256Required (
  Ok (mk_UpsertAppVersionParams (fl_platform f) (wrap32 (fl_version_code f)) name (optStr url) (optStr sha)
    (optStr (TrimSpace (fl_changelog f))) (wrap32 (fl_min_supported f)))))))))).

(** The store that the environment names: its backend and where it is. *)
Definition publish_store (getenv : string -> string) : result publish_error (string * string) :=
  let databaseURL := TrimSpace (getenv "DATABASE_URL") in
  guard_res (negb (empty databaseURL)) DatabaseURLRequired
    match detectDBBackend (getenv "AUL_DB_BACKEND") databaseURL with
    | Ok backend => Ok (backend, if bool_decide (backend = BackendSQLite) then SQLitePathOf databaseURL else databaseURL)
    | Err e => Err (Backend e)
    end.

(** [runPublishVersion] up to the printing of the row; [connect] opens a store:
    None when that fails. *)
Definition runPublishVersion (args : list string) (getenv : string -> string)
    (connect : string -> string -> option (forall X, stmt X -> M X)) (w : World) : result publish_error AppVersion * World :=
  match parsePublishFlags args with
  | Err e => (Err e, w)
  | Ok p =>
      match publish_store getenv with
      | Err e => (Err e, w)
      | Ok (backend, place) =>
          match connect backend place with
          | None => (Err OpenFailed, w)
          | Some st =>
              match st _ (SUpsertAppVersion (up_Platform p) (up_VersionCode p) (up_VersionName p) (up_ApkUrl p)
                (up_Sha256 p) (up_Changelog p) (up_MinSupported p)) w with
              | (Ok row, w') => (Ok row, w')
              | (Err e, w') => (Err (UpsertFailed e), w')
              end
          end
      end
  end.
End publish.

(** ** vapid.go *)

(** [runVAPIDKeys]: what it prints, or why not; [keys] is what webpush-go made. *)
Definition runVAPIDKeys (keys : option (string * string)) : option (list string) :=
  match keys with
  | None => None
  | Some (private, public) =>
      Some ["# Web Push (VAPID) keypair — add to the server environment.";
            "# Keep VAPID_PRIVATE_KEY secret; VAPID_PUBLIC_KEY is served to clients.";
            "# Rotating the keypair invalidates every existing subscription.";
            "VAPID_PUBLIC_KEY=" ++ public; "VAPID_PRIVATE_KEY=" ++ private;
            "VAPID_SUBJECT=mailto:ops@example.com"]
  end.
