(* ===== verification/Command.v ===== *)
(** * Processes: the server's and the launcher's main (cmd/aul/main.go, cmd/aul-launcher/main.go, launcher.Run)

    A process is the events it goes through, in order, and how it ends.  What it
    cannot decide is an argument: whether a call works, when a signal comes.  A
    deferred call runs on every way out of the function that deferred it. *)

From S2P Require Import Prelude GoTime Models Api Ext Net World Config Launcher Doctor Publish.
Local Open Scope string_scope.
Local Open Scope Z_scope.

(** The events of a function, then its result. *)
Definition run_of (E R : Type) : Type := list E * R.

Definition stops {E R} (r : R) : run_of E R := ([], r).
Definition emits {E R} (e : E) (k : run_of E R) : run_of E R := (e :: k.1, k.2).
Definition defers {E R} (cleanup : E) (k : run_of E R) : run_of E R := (k.1 ++ [cleanup], k.2)%list.
Definition fails_unless {E R} (b : bool) (r : R) (k : run_of E R) : run_of E R := if b then k else ([], r).

(** ** cmd/aul: the server *)

Inductive server_event :=
| StoreOpened (backend place : string)
| StoreMigrated (backend : string)
| StoreClosed
| HubStarted | JanitorsStarted (n : nat) | WorkerStarted
| Listening (addr : string)
| ShutDown (graceful : bool).

Inductive exit := Success | Failure (why : string).

Record server_calls := mk_server_calls {
  sc_open : bool;                  (** store.Open or store.OpenSQLite *)
  sc_migrate : bool;               (** store.Migrate or MigrateSQLite *)
  sc_NewService : bool;            (** auth.NewService *)
  sc_fcm_New : bool;               (** fcm.New *)
  sc_listen : option string;       (** ListenAndServe's error, if it comes before a signal *)
  sc_Shutdown : bool
}.

(** [openStore], with its caller behind it.  SQLite is migrated through the store,
    which is closed when that fails; Postgres before the store is opened. *)
Definition openStore (cfg : Config) (c : server_calls) (k : run_of server_event exit) : run_of server_event exit :=
  if bool_decide (cfg_DBBackend cfg = BackendSQLite) then
    fails_unless (sc_open c) (Failure "open") (
    emits (StoreOpened BackendSQLite (SQLitePath cfg))
      (if cfg_RunMigrations cfg then
         if sc_migrate c then emits (StoreMigrated BackendSQLite) k else emits StoreClosed (stops (Failure "migrate"))
       else k))
  else
    let opened := fails_unless (sc_open c) (Failure "open") (emits (StoreOpened BackendPostgres (cfg_DatabaseURL cfg)) k) in
    if cfg_RunMigrations cfg then
      fails_unless (sc_migrate c) (Failure "migrate") (emits (StoreMigrated BackendPostgres) opened)
    else opened.

(** [run], given what [config.Load] says. *)
Definition run_server (loaded : result (list string) Config) (c : server_calls) : run_of server_event exit :=
  match loaded with
  | Err _ => stops (Failure "config")
  | Ok cfg =>
      openStore cfg c (defers StoreClosed (
        fails_unless (sc_NewService c) (Failure "auth") (
        fails_unless (negb (FCMEnabled cfg) || sc_fcm_New c) (Failure "fcm") (
        emits HubStarted (emits (JanitorsStarted 7) (emits WorkerStarted (emits (Listening (cfg_HTTPAddr cfg))
          match sc_listen c with
          | Some e => stops (Failure e)
          | None => emits (ShutDown (sc_Shutdown c)) (stops Success)
          end)))))))
  end.

(** [setupLogging]. *)
Definition log_level `{Ext} (LOG_LEVEL : string) : string :=
  let l := ToLower LOG_LEVEL in
  if bool_decide (l ∈ ["debug"; "warn"; "error"]) then l else "info".

(** [main]: the exit status, by subcommand. *)
Definition aul_main (args : list string) (publish vapid server : bool) : Z :=
  let status ok := if ok : bool then 0 else 1 in
  match args with
  | "publish-version" :: _ => status publish
  | "vapid-keys" :: _ => status vapid
  | _ => status server
  end.

(** ** internal/launcher: Run *)

Inductive launcher_event :=
| DataDirMade (dir : string)
| LockTaken | LockReleased
| PepperProvisioned (pepper : string)
| OriginPinned (origin : string)
| LogOpened (path : string) | LogClosed
| ServerSpawned (bin : string) (env : list string) (dir : string)
| StatusPrinted (origin : string) | Announced (origin : string) | BrowserOpened (command : list string)
| ServerStopped.

Record launcher_calls := mk_launcher_calls {
  lc_acquireLock : bool;
  lc_provisionPepper : result string string;
  lc_OpenLog : bool;
  lc_ticks : nat; lc_probes : nat -> bool;      (** of [waitReady] *)
  lc_attempts : list attempt_outcome            (** of the supervisor *)
}.

Inductive launch_exit := Stopped (r : option run_result) | Refused (why : string).

Section launch.
Context `{Ext}.

(** From the opening of the log to the end of the supervisor, the server being up
    in between: the end of [Run]. *)
Definition serve_child (os : goos) (h : host) (environ : list string) (noOpen onReady : bool) (c : launcher_calls)
    (dataDir serverBin pepper : string) (res : resolved) : run_of launcher_event launch_exit :=
  let env := composeEnv environ res pepper (ho_Join h dataDir "aul.db") in
  let logPath := ho_Join h dataDir "server.log" in
  fails_unless (lc_OpenLog c) (Refused ("open server log " ++ logPath)) (
  emits (LogOpened logPath) (defers LogClosed (
  emits (ServerSpawned serverBin env dataDir) (
  if negb (waitReady (lc_ticks c) (lc_probes c)) then
    emits ServerStopped (stops (Refused "not ready"))
  else
    emits (StatusPrinted (re_Origin res)) (
    let announce k := if onReady : bool then emits (Announced (re_Origin res)) k else k in
    announce (
    let browse k := if noOpen : bool then k else
      match openBrowser os (re_Origin res) with Ok cmd => emits (BrowserOpened cmd) k | Err _ => k end in
    browse (
    emits ServerStopped (stops (Stopped (run_supervisor Run_supervisor (lc_attempts c)).1.1))))))))).

(** [Run]: [dataDirFlag] and [serverBinFlag] come from the command line, [environ]
    is the operator's environment, [pinned] the file of the last origin. *)
Definition Run (os : goos) (h : host) (ts : tailscale) (environ : list string) (pinned : option string)
    (dataDirFlag serverBinFlag : string) (noOpen onReady : bool) (o : Options) (c : launcher_calls) :
    run_of launcher_event launch_exit :=
  let o := withDefaults o in
  match resolveDataDir dataDirFlag h with Err e => stops (Refused e) | Ok dataDir =>
  emits (DataDirMade dataDir) (
  fails_unless (lc_acquireLock c) (Refused "lock") (
  emits LockTaken (defers LockReleased (
  match resolveServerBin os serverBinFlag h with Err e => stops (Refused e) | Ok serverBin =>
  match lc_provisionPepper c with Err e => stops (Refused e) | Ok pepper =>
  emits (PepperProvisioned pepper) (
  match resolveOrigin (op_Origin o) (op_Port o) (detectFunnel ts) with Err e => stops (Refused e) | Ok res =>
  let pin k := if bool_decide ((warnIfOriginChanged pinned res).2 = pinned) then k else emits (OriginPinned (re_Origin res)) k in
  pin (serve_child os h environ noOpen onReady c dataDir serverBin pepper res) end) end end)))) end.
End launch.

(** [main] of the launcher: cancellation is a clean stop. *)
Definition launcher_main (e : launch_exit) : Z :=
  match e with Stopped _ => 0 | Refused _ => 1 end.

(** [runDoctor]. *)
Definition runDoctor `{Ext} (os : goos) (ts again : tailscale) : list string * Z :=
  let report := Diagnose os ts again in (WriteReport report, if Ready report then 0 else 1).
