(* ===== verification/Tray.v ===== *)
(** * The tray (cmd/aul-tray/main.go) and the end of a child (launcher/supervise.go)

    Two goroutines share the origin and the menu: the one that runs the launcher,
    whose OnReady stores the origin, retitles the menu and enables its entry, and
    which reports a failure in the same way; and the one that takes the clicks.
    Each atomic action is a move, so that they interleave freely.  The toolkit is
    its menu's state; a click may still be taken after its entry is disabled. *)

From S2P Require Import Prelude GoTime Models Api Ext Net Text Config Launcher Doctor Command.
Local Open Scope string_scope.
Local Open Scope list_scope.

(** ** [supervisor.stop] *)

Inductive child_op := Interrupt | Kill | Reaped.

Definition stop (windows exitsInGrace : bool) : list child_op :=
  if windows then [Kill; Reaped]
  else Interrupt :: (if exitsInGrace then [Reaped] else [Kill; Reaped]).

(** However it goes, the child is reaped once, at the end, and it is killed exactly
    if it did not leave by itself. *)
Lemma stop_reaps windows exitsInGrace :
  exists before, stop windows exitsInGrace = before ++ [Reaped] /\ Reaped ∉ before /\
    (Kill ∈ before <-> windows = true \/ exitsInGrace = false).
Proof.
  destruct windows, exitsInGrace; cbn.
  - exists [Kill]. set_solver. - exists [Kill]. set_solver.
  - exists [Interrupt]. set_solver. - exists [Interrupt; Kill]. set_solver.
Qed.

(** ** The tray *)

Inductive launcher_pc :=
| Booting
| Stored (origin : string) | Titled (origin : string)     (** inside OnReady *)
| Serving (origin : string)
| Failing | Retitled                                      (** reporting a failure *)
| Ended.

Record tray := mk_tray {
  ty_pc : launcher_pc;
  ty_currentOrigin : option string;
  ty_status : string; ty_openEnabled : bool;
  ty_quit : bool;                                         (** cancelled, and the click loop over *)
  ty_browsed : list string                                (** what the browser was asked for *)
}.

Definition onReady : tray := mk_tray Booting None "Starting…" false false [].

Definition running (origin : string) : string := "Running · " ++ origin.
Definition stopped : string := "Stopped — see server.log".

Inductive move :=
| Store (origin : string) | SetTitle | Enable | RunReturns (err : bool) | Disable
| ClickOpen | ClickQuit.

Definition make (m : move) (t : tray) : option tray :=
  let 'mk_tray pc o st en q br := t in
  match m, pc with
  | Store origin, Booting => Some (mk_tray (Stored origin) (Some origin) st en q br)
  | SetTitle, Stored origin => Some (mk_tray (Titled origin) o (running origin) en q br)
  | Enable, Titled origin => Some (mk_tray (Serving origin) o st true q br)
  | RunReturns err, (Booting | Serving _) => Some (mk_tray (if err && negb q then Failing else Ended) o st en q br)
  | SetTitle, Failing => Some (mk_tray Retitled o stopped en q br)
  | Disable, Retitled => Some (mk_tray Ended o st false q br)
  | ClickOpen, _ =>
      if q then None else
      Some (mk_tray pc o st en q (match o with Some u => br ++ [u] | None => br end))
  | ClickQuit, _ => if q then None else Some (mk_tray pc o st en true br)
  | _, _ => None
  end.

Definition moves (t t' : tray) : Prop := exists m, make m t = Some t'.
Definition seen (t : tray) : Prop := rtc moves onReady t.

(** [openURL]: the command it starts. *)
Definition openURL (os : goos) (url : string) : list string :=
  match os with
  | Darwin => ["open"; url]
  | Windows => ["rundll32"; "url.dll,FileProtocolHandler"; url]
  | _ => ["xdg-open"; url]
  end.

(** ** What the menu says *)

Definition honest (t : tray) : Prop :=
  (forall u, u ∈ ty_browsed t -> ty_currentOrigin t = Some u) /\
  match ty_pc t with
  | Booting => ty_currentOrigin t = None /\ ty_status t = ty_status onReady /\ ty_openEnabled t = false
  | Stored u => ty_currentOrigin t = Some u /\ ty_openEnabled t = false
  | Titled u => ty_currentOrigin t = Some u /\ ty_status t = running u /\ ty_openEnabled t = false
  | Serving u => ty_currentOrigin t = Some u /\ ty_status t = running u /\ ty_openEnabled t = true
  | Failing => ty_openEnabled t = true -> ty_currentOrigin t <> None
  | Retitled => ty_status t = stopped /\ (ty_openEnabled t = true -> ty_currentOrigin t <> None)
  | Ended => ty_openEnabled t = true -> exists u, ty_currentOrigin t = Some u /\ ty_status t = running u
  end.

Lemma browsed_known (o : option string) (br : list string) : (forall u, u ∈ br -> o = Some u) ->
  forall u, u ∈ match o with Some u0 => br ++ [u0] | None => br end -> o = Some u.
Proof. destruct o; [|done]. intros Hb u [Hu|Hu%list_elem_of_singleton]%elem_of_app; [by apply Hb|by subst]. Qed.

Lemma honest_move m t t' : honest t -> make m t = Some t' -> honest t'.
Proof.
  destruct t as [pc o st en q br]. unfold honest. cbn. intros [Hb Hpc] Hm.
  destruct m, pc; cbn in Hm; try done; try (destruct q; [done|]); simplify_eq; cbn;
    (split; [try done; try (intros u Hu; destruct o; naive_solver)|try naive_solver]).
  all: try (destruct err, q; cbn in *; naive_solver).
  all: by eapply browsed_known.
Qed.

Lemma seen_honest t : seen t -> honest t.
Proof.
  intros Hs. refine (rtc_ind_r honest onReady _ _ t Hs).
  - split; [by intros u ?%elem_of_nil|done].
  - intros t1 t2 _ [m Hm] Hh. by eapply honest_move.
Qed.

(** Only the origin that the launcher announced is ever opened, and the entry is
    enabled only once there is one. *)
Theorem tray_opens_announced t : seen t ->
  (forall u, u ∈ ty_browsed t -> ty_currentOrigin t = Some u) /\
  (ty_openEnabled t = true -> exists u, ty_currentOrigin t = Some u).
Proof.
  intros [Hb Hpc]%seen_honest. split; [done|]. intros He.
  destruct t as [pc [u|] st en q br]; cbn in *; [by exists u|]. destruct pc; naive_solver.
Qed.

(** Quitting is final: no later click opens anything. *)
Theorem tray_quits t t' : rtc moves t t' -> ty_quit t = true -> ty_quit t' = true /\ ty_browsed t' = ty_browsed t.
Proof.
  induction 1 as [|t1 [pc o st en q br] t3 [m Hm] _ IH]; [done|]. intros Hq. destruct t1 as [pc1 o1 st1 en1 q1 br1]. cbn in *. subst.
  destruct m, pc1; cbn in Hm; simplify_eq; by apply IH.
Qed.

Definition failed (t : tray) : Prop :=
  ty_pc t = Failing \/ ty_pc t = Retitled /\ ty_status t = stopped \/
  ty_pc t = Ended /\ ty_status t = stopped /\ ty_openEnabled t = false.

(** A failure of the launcher that nobody asked for ends with the menu saying so
    and its entry disabled, whatever is clicked in between. *)
Theorem tray_reports_failure t t1 t2 : make (RunReturns true) t = Some t1 -> ty_quit t = false ->
  rtc moves t1 t2 -> ty_pc t2 = Ended -> ty_status t2 = stopped /\ ty_openEnabled t2 = false.
Proof.
  intros Hr Hq Hs He. assert (failed t1) as Hf.
  { left. destruct t as [pc o st en q br]. cbn in *. subst. destruct pc; by simplify_eq. }
  assert (failed t2) as [|[[]|[]]]; [|congruence|congruence|done]. clear Hr Hq He t. revert Hf. unfold failed.
  induction Hs as [|[pc o st en q br] t2 t3 [m Hm] _ IH]; [done|]. intros Hf. apply IH. cbn in *.
  destruct m, pc; cbn in Hm; try done; try (destruct q; [done|]); simplify_eq; cbn in *; naive_solver.
Qed.

(** A server that exits cleanly ends the launcher without an error, and nobody
    tells the menu: it goes on saying that the server runs, and offers to open it. *)
Lemma clean_exit_still_running : exists t u, seen t /\ ty_pc t = Ended /\ ty_quit t = false /\
  ty_status t = running u /\ ty_openEnabled t = true.
Proof.
  exists (mk_tray Ended (Some "u") (running "u") true false []), "u". split; [|done].
  apply (rtc_l _ _ (mk_tray (Stored "u") (Some "u") "Starting…" false false [])); [by exists (Store "u")|].
  apply (rtc_l _ _ (mk_tray (Titled "u") (Some "u") (running "u") false false [])); [by exists SetTitle|].
  apply (rtc_l _ _ (mk_tray (Serving "u") (Some "u") (running "u") true false [])); [by exists Enable|].
  apply rtc_once. by exists (RunReturns false).
Qed.
