(* ===== verification/AuthApi.v ===== *)
(** * Account, version and push-subscription handlers (httpapi/auth_handlers.go, misc.go, push.go) *)

From S2P Require Import Prelude Table GoTime Base64 Models Api Ext World Hub StoreAccounts.
From S2P Require Import StoreCircles StorePings Token Auth Server ShareApi.
Local Open Scope Z_scope.
Local Open Scope aul_scope.

(** ** auth_handlers.go *)

Definition CookieAccess : string := "aul_at".
Definition CookieRefresh : string := "aul_rt".
Definition RefreshPath : string := "/v1/auth".

Definition optionalPubkey (b64 : string) : result string (option bytes) :=
  if decide (b64 = EmptyString) then Ok None else
  match decodeBlob "pubkey" b64 64 with
  | Err msg => Err msg
  | Ok pk => if len pk =? 32 then Ok (Some pk) else Err "pubkey must be 32 bytes"%string
  end.

(** The message of a validation error. *)
Definition error_text (e : error) : string :=
  match e with
  | ErrInvalidEmail => "invalid email address"
  | ErrWeakPassword => "password must be at least 8 characters"
  | ErrPasswordTooLong => "password is too long"
  | ErrInvalidPlatform => "platform must be android, ios, web, or web-mobile"
  | _ => ""
  end.

Definition writeAuthError (e : error) : response :=
  match e with
  | LockedError retry reason =>
      mk_response 429 (BError CodeLocked reason) [] (Some (Z.quot retry Second))
  | ErrEmailTaken => Conflict "email already registered"
  | ErrInvalidCredentials => Unauthorized "invalid email or password"
  | ErrRefreshReused => WriteError 401 CodeUnauthorized "session revoked; please sign in again"
  | ErrRefreshInvalid => Unauthorized "invalid or expired refresh token"
  | ErrDeviceNotFound => NotFound "device not found"
  | ErrInvalidEmail | ErrWeakPassword | ErrPasswordTooLong | ErrInvalidPlatform =>
      WriteError 400 CodeValidation (error_text e)
  | _ => Internal e
  end.

Definition setAuthCookies (cfg : Config) (res : Result) : list cookie :=
  [ mk_cookie CookieAccess (res_AccessToken res) "/" (cfg_SecureCookies cfg) (Some (res_AccessExpiresAt res)) 0;
    mk_cookie CookieRefresh (res_RefreshToken res) RefreshPath (cfg_SecureCookies cfg)
      (Some (res_RefreshExpiresAt res)) 0 ].

Definition clearAuthCookies (cfg : Config) : list cookie :=
  [ mk_cookie CookieAccess "" "/" (cfg_SecureCookies cfg) None (-1);
    mk_cookie CookieRefresh "" RefreshPath (cfg_SecureCookies cfg) None (-1) ].

Definition authResultToResp (res : Result) (includeIdentity : bool) : authResp :=
  mk_authResp (res_AccessToken res) (res_RefreshToken res) (res_AccessExpiresAt res) (res_RefreshExpiresAt res)
    (if includeIdentity then (fun u => mk_userDTO (User_ID u) (User_Email u)) <$> res_User res else None)
    (if includeIdentity then deviceToDTO <$> res_Device res else None).

(** What the three token endpoints do with the service's answer. *)
Definition answer_auth (cfg : Config) (status : Z) (includeIdentity : bool) (r : result error Result) : prog response :=
  match r with
  | Err e => Ret (writeAuthError e)
  | Ok res => Ret (with_cookies (setAuthCookies cfg res) (WriteJSON status (BAuth (authResultToResp res includeIdentity))))
  end.

Record registerReq := mk_registerReq {
  rr_Email : string; rr_Password : string; rr_Platform : string; rr_DisplayName : string; rr_Pubkey : string }.

Definition handleRegister `{Ext} (cfg : Config) (ip : string) (body : decoded registerReq) : prog response :=
  let? req := body catch bad in
  let? pubkey := optionalPubkey (rr_Pubkey req) catch bad in
  prog_bind (Register cfg (mkRegisterInput (rr_Email req) (rr_Password req) (rr_Platform req)
      (rr_DisplayName req) pubkey ip))
    (answer_auth cfg 201 true).

Record loginReq := mk_loginReq {
  lr_Email : string; lr_Password : string; lr_Platform : string; lr_DisplayName : string;
  lr_DeviceID : string; lr_Pubkey : string }.

Definition handleLogin `{Ext} (s : Service) (ip : string) (body : decoded loginReq) : prog response :=
  let? req := body catch bad in
  let? pubkey := optionalPubkey (lr_Pubkey req) catch bad in
  let? deviceID := (if decide (lr_DeviceID req = EmptyString) then Ok None else
                    match uuid_Parse (lr_DeviceID req) with
                    | Some id => Ok (Some id)
                    | None => Err "device_id must be a valid id"%string
                    end) catch bad in
  prog_bind (Login s (mkLoginInput (lr_Email req) (lr_Password req) (lr_Platform req)
      (lr_DisplayName req) deviceID pubkey ip))
    (answer_auth (sv_cfg s) 200 true).

(** The body is optional when the refresh cookie is present. *)
Definition handleRefresh (cfg : Config) (ip : string) (body : option (decoded string))
    (refreshCookie : option string) : prog response :=
  let? req := (match body with Some b => b | None => Ok EmptyString end) catch bad in
  let token := if decide (req = EmptyString) then default EmptyString refreshCookie else req in
  prog_bind (Refresh cfg token ip) (answer_auth cfg 200 false).

Definition handleLogout (cfg : Config) (a : Auth) (ip : string) : prog response :=
  Logout cfg (a_SessionID a) (a_UserID a) ip internal
    (Ret (with_cookies (clearAuthCookies cfg) (WriteJSON 200 (BStatus "logged_out")))).

Definition handleMe (a : Auth) : prog response :=
  try! user := GetUserByID (a_UserID a) catch internal in
  Ret (WriteJSON 200 (BUser (mk_userDTO (User_ID user) (User_Email user)))).

Definition handleListDevices (a : Auth) : prog response :=
  try! ds := ListDevicesForUser (a_UserID a) catch internal in
  Ret (WriteJSON 200 (BDevices (deviceToDTO <$> ds))).

Definition handleRevokeDevice `{Ext} (cfg : Config) (a : Auth) (ip : string) (deviceID : string) : prog response :=
  let? id := parseUUIDParam "deviceID" deviceID catch bad in
  RevokeDevice cfg (a_UserID a) id ip
    (fun e => if decide (e = ErrDeviceNotFound) then Ret (NotFound "device not found") else internal e)
    (Ret (WriteJSON 200 (BStatus "revoked"))).

Definition handleListSessions (a : Auth) : prog response :=
  try! rows := ListActiveSessionsForUser (a_UserID a) catch internal in
  Ret (WriteJSON 200 (BSessions ((fun sd =>
    mk_sessionDTO (Session_ID sd.1) (Session_DeviceID sd.1) (Device_Platform sd.2) (Device_DisplayName sd.2)
      (Session_ID sd.1 =? a_SessionID a)%N (Session_RotatedAt sd.1) (Session_RefreshExpiresAt sd.1)) <$> rows))).

Definition handleListAudit (a : Auth) : prog response :=
  try! rows := ListAuditForUser (Some (a_UserID a)) 100 catch internal in
  Ret (WriteJSON 200 (BAudit ((fun e => mk_auditDTO (AuditLog_Event e) (AuditLog_Ts e)) <$> rows))).

(** ** misc.go *)

Definition handleVersionLatest (platform : string) : prog response :=
  check (bool_decide (platform ∈ ["android"; "ios"]%string)) (BadRequest "platform must be android or ios")
  (try! v := LatestActiveVersion platform catch (fun e =>
     if IsNotFound e then Ret (NotFound "no published version") else internal e) in
   Ret (WriteJSON 200 (BVersion v))).

Definition maxPushEndpointBytes : Z := 2048.
Definition maxPushKeyBytes : Z := 512.
Definition maxFCMTokenBytes : Z := 4096.

Definition kindWebPush : string := "webpush".
Definition kindFCM : string := "fcm".

Record pushSubscribeReq := mk_pushSubscribeReq {
  ps_Kind : string; ps_Endpoint : string; ps_P256dh : string; ps_Auth : string; ps_Token : string }.

(** The columns of a subscription row the request decides. *)
Record pushParams := mk_pushParams {
  pq_Endpoint : string; pq_P256dh : option string; pq_Auth : option string; pq_Kind : string }.

Definition pushSubscriptionParams (req : pushSubscribeReq) : result string pushParams :=
  if decide (ps_Kind req = kindFCM) then
    if empty (ps_Token req) then Err ("token is required for kind=" ++ quoted "fcm")%string
    else if maxFCMTokenBytes <? str_len (ps_Token req) then Err "token is too large"%string
    else if negb (empty (ps_P256dh req)) || negb (empty (ps_Auth req))
    then Err ("kind=" ++ quoted "fcm" ++
      " must not carry p256dh or auth: they are Web Push key material and FCM has no use for them")%string
    else if negb (empty (ps_Endpoint req))
    then Err ("kind=" ++ quoted "fcm" ++ " carries the registration token in " ++ quoted "token" ++ ", not " ++
      quoted "endpoint")%string
    else Ok (mk_pushParams (ps_Token req) None None kindFCM)
  else if decide (ps_Kind req = EmptyString \/ ps_Kind req = kindWebPush) then
    if empty (ps_Endpoint req) || empty (ps_P256dh req) || empty (ps_Auth req)
    then Err "endpoint, p256dh, and auth are required"%string
    else if (maxPushEndpointBytes <? str_len (ps_Endpoint req)) || (maxPushKeyBytes <? str_len (ps_P256dh req)) ||
            (maxPushKeyBytes <? str_len (ps_Auth req))
    then Err "push subscription fields too large"%string
    else if negb (empty (ps_Token req)) then Err ("token is only valid with kind=" ++ quoted "fcm")%string
    else Ok (mk_pushParams (ps_Endpoint req) (Some (ps_P256dh req)) (Some (ps_Auth req)) kindWebPush)
  else Err ("kind must be " ++ quoted "webpush" ++ " or " ++ quoted "fcm")%string.

Definition handlePushSubscribe (a : Auth) (body : decoded pushSubscribeReq) : prog response :=
  let? req := body catch bad in
  let? params := pushSubscriptionParams req catch bad in
  try! _ := UpsertPushSubscription (a_UserID a) (Some (a_DeviceID a)) (pq_Endpoint params) (pq_P256dh params)
    (pq_Auth params) (pq_Kind params) catch internal in
  Ret (WriteJSON 201 (BStatus "subscribed")).

Definition handlePushUnsubscribe (a : Auth) (body : decoded pushSubscribeReq) : prog response :=
  let? req := body catch bad in
  let target := if empty (ps_Endpoint req) then ps_Token req else ps_Endpoint req in
  check (negb (empty target)) (BadRequest "endpoint or token is required")
  (try! _ := DeletePushSubscription target (a_UserID a) catch internal in
   Ret (WriteJSON 200 (BStatus "unsubscribed"))).

(** ** push.go: the notification fan-out *)

Definition maxNotifyBytes : Z := 3 * 1024.
Definition maxPushPlaintextBytes : Z := 3993.

(** The channels this deployment runs: a VAPID key pair, an FCM client. *)
Record channels := mkChannels { webpush_enabled : bool; fcm_enabled : bool }.

(** What became of one subscription: the push service took the message, said
    the subscription is gone, failed it, or it was never queued. *)
Inductive send_outcome := Delivered | SubscriptionGone | SendFailed | NotQueued.

Definition deliverable (ch : channels) (subs : list PushSubscription) : list PushSubscription :=
  if webpush_enabled ch && fcm_enabled ch then subs
  else filter (fun s => (if decide (PushSubscription_Kind s = kindFCM) then fcm_enabled ch else webpush_enabled ch) = true) subs.

(** The workers' sends; [send] is what the push services answer.  A gone
    subscription is pruned; only deliveries are counted. *)
Fixpoint fanOutPush {A} (send : PushSubscription -> send_outcome) (subs : list PushSubscription) (sent failed : Z)
    (k : Z -> Z -> prog A) : prog A :=
  match subs with
  | [] => k sent failed
  | s :: rest =>
      match send s with
      | Delivered => fanOutPush send rest (sent + 1) failed k
      | SubscriptionGone =>
          do! DeletePushSubscriptionByID (PushSubscription_ID s) ;; fanOutPush send rest sent (failed + 1) k
      | SendFailed | NotQueued => fanOutPush send rest sent (failed + 1) k
      end
  end.

Definition handleNotify (ch : channels) (send : PushSubscription -> send_outcome) (m : CircleMember)
    (body : decoded string) : prog response :=
  check (webpush_enabled ch || fcm_enabled ch) (WriteError 503 CodeInternal "push is not configured")
  (let? payload := body catch bad in
   let? _ := decodeBlob "payload_enc" payload maxNotifyBytes catch bad in
   check (negb (maxPushPlaintextBytes <? str_len payload)) (BadRequest "payload_enc exceeds the web push payload limit")
   (try! subs := ListCirclePushSubscriptions (CircleMember_CircleID m) (CircleMember_UserID m) catch internal in
    fanOutPush send (deliverable ch subs) 0 0 (fun sent failed => Ret (WriteJSON 200 (BNotified sent failed))))).
