(* ===== verification/Httpx.v ===== *)
(** * JSON plumbing and the operational endpoints (httpx/httpx.go, httpapi/misc.go)

    A body is the text that can be read of it; the decoder of encoding/json for
    the type of a request is a parameter that takes one value off the front of a
    text.  What a handler encodes is a JSON value. *)

From S2P Require Import Prelude GoTime Models Api Ext Net Config.
Local Open Scope string_scope.
Local Open Scope Z_scope.

Inductive json :=
| JNull
| JBool (b : bool)
| JString (s : string)
| JObject (fields : list (string * json)).

(** ** Bodies *)

(** [ReadAllLimited]. *)
Definition ReadAllLimited (r : result string string) (maxBytes : Z) : result string string :=
  match r with
  | Err e => Err e
  | Ok text =>
      let b := String.substring 0 (Z.to_nat (maxBytes + 1)) text in
      if maxBytes <? str_len b then Err "request body too large" else Ok b
  end.

(** One value off the front of a text: the value and what follows it, a syntax or
    type error, or the text ended inside it. *)
Inductive decode_step (A : Type) :=
| Value (a : A) (rest : string)
| Malformed (e : string)
| Unfinished (e : string).
Arguments Value {A} a rest.
Arguments Malformed {A} e.
Arguments Unfinished {A} e.

Definition json_space (c : ascii) : bool := let n := N_of_ascii c in (n =? 32)%N || (n =? 9)%N || (n =? 10)%N || (n =? 13)%N.

(** [Decoder.More]: the next byte that is no space exists and closes nothing; a
    read error counts as the end. *)
Fixpoint More (rest : string) : bool :=
  match rest with
  | EmptyString => false
  | String c rest' => if json_space c then More rest' else negb (Ascii.eqb c "]" || Ascii.eqb c "}")
  end.

Section decode.
Context {A : Type} (Decode : string -> decode_step A).

(** [DecodeJSON]: at most [maxBytes] of the body can be read; reading on past them
    is the MaxBytesError. *)
Definition DecodeJSON (body : string) (maxBytes : Z) : result string A :=
  let readable := String.substring 0 (Z.to_nat maxBytes) body in
  match Decode readable with
  | Unfinished e => if maxBytes <? str_len body then Err "request body too large" else Err ("invalid JSON: " ++ e)
  | Malformed e => Err ("invalid JSON: " ++ e)
  | Value a rest => if More rest then Err "request body must contain a single JSON object" else Ok a
  end.
End decode.

(** ** Operational endpoints *)

(** [handleServerInfo]; [url_text] is [URL.String] of the public origin. *)
Definition handleServerInfo (cfg : Config) (url_text : option URL -> string) (fcmEnabled : bool) : Z * json :=
  (200, JObject [
    ("e2ee", JBool (negb (cfg_TrustedServerMode cfg)));
    ("trusted_server_mode", JBool (cfg_TrustedServerMode cfg));
    ("public_origin", JString (url_text (cfg_PublicOrigin cfg)));
    ("retention_features_enabled", JBool (cfg_RetentionFeaturesEnabled cfg));
    ("vapid_public_key", if PushEnabled cfg then JString (cfg_VAPIDPublicKey cfg) else JNull);
    ("fcm_enabled", JBool fcmEnabled)]).

Definition handleHealthz : Z * json := (200, JObject [("status", JString "ok")]).

(** The error envelope. *)
Definition errorEnvelope (code : string) (msg : string) : json :=
  JObject [("error", JObject [("code", JString code); ("message", JString msg)])].

(** [handleReadyz]; [ping] is what [Store.Ping] answered. *)
Definition handleReadyz (ping : result string unit) : Z * json :=
  match ping with
  | Err _ => (503, errorEnvelope "internal_error" "database unavailable")
  | Ok _ => (200, JObject [("status", JString "ready")])
  end.

(** [handleMetrics]: the text of the snapshot. *)
Definition handleMetrics (clients circles conns : Z) : string :=
  "# HELP aul_realtime_clients Connected WebSocket clients" ++ newline ++
  "# TYPE aul_realtime_clients gauge" ++ newline ++
  "aul_realtime_clients " ++ itoa clients ++ newline ++
  "# HELP aul_realtime_circles Circles with at least one subscriber" ++ newline ++
  "# TYPE aul_realtime_circles gauge" ++ newline ++
  "aul_realtime_circles " ++ itoa circles ++ newline ++
  "# HELP aul_db_pool_total Total database pool connections" ++ newline ++
  "# TYPE aul_db_pool_total gauge" ++ newline ++
  "aul_db_pool_total " ++ itoa conns ++ newline.

(** ** Facts *)

(** The limit is exact: the text itself up to [maxBytes], an error beyond. *)
Lemma ReadAllLimited_exact text maxBytes : 0 <= maxBytes ->
  ReadAllLimited (Ok text) maxBytes = if str_len text <=? maxBytes then Ok text else Err "request body too large".
Proof.
  intros Hm. unfold ReadAllLimited, str_len. cbv zeta.
  assert (forall n s, String.length (String.substring 0 n s) = Nat.min n (String.length s)) as Hlen.
  { induction n as [|n IH]; intros [|c s]; cbn; auto. }
  assert (forall n s, (String.length s <= n)%nat -> String.substring 0 n s = s) as Hall.
  { induction n as [|n IH]; intros [|c s] Hn; cbn in *; [done|lia|done|]. f_equal. apply IH. lia. }
  rewrite Hlen. destruct (Z.leb_spec (Z.of_nat (String.length text)) maxBytes).
  - rewrite Hall by lia. rewrite (proj2 (Z.ltb_ge _ _)) by lia. done.
  - rewrite (proj2 (Z.ltb_lt _ _)) by lia. done.
Qed.

(** What may follow the value: spaces, then nothing, or any text that starts with
    a closing bracket. *)
Lemma More_false rest : More rest = false <->
  exists sp tl, rest = sp ++ tl /\ all_chars json_space sp = true /\
    (tl = "" \/ exists c tl', tl = String c tl' /\ (c = "]"%char \/ c = "}"%char)).
Proof.
  induction rest as [|c rest IH]; cbn [More].
  - split; [|done]. intros _. exists "", "". repeat split; auto.
  - destruct (json_space c) eqn:Hc.
    + rewrite IH. split.
      * intros (sp & tl & -> & Hsp & Htl). exists (String c sp), tl. cbn. rewrite Hc. by repeat split.
      * intros ([|d sp] & tl & Heq & Hsp & Htl); cbn in *.
        -- destruct Htl as [->|(d & tl' & -> & [->| ->])]; [done|by injection Heq as -> _..].
        -- injection Heq as <- Heq. apply andb_true_iff in Hsp as [_ Hsp]. by exists sp, tl.
    + rewrite negb_false_iff, orb_true_iff, !Ascii.eqb_eq. split.
      * intros Hcl. exists "", (String c rest). repeat split; eauto.
      * intros ([|d sp] & tl & Heq & Hsp & Htl); cbn in *.
        -- rewrite string_app_nil in Heq. destruct Htl as [->|(d & tl' & -> & Hd)]; [done|]. injection Heq as -> _. done.
        -- injection Heq as <- _. by rewrite Hc in Hsp.
Qed.

(** A body whose value is followed by a closing bracket is taken for a single value. *)
Lemma closing_bracket_accepted {A} (Decode : string -> decode_step A) body maxBytes a tl :
  Decode (String.substring 0 (Z.to_nat maxBytes) body) = Value a (String "}" tl) -> DecodeJSON Decode body maxBytes = Ok a.
Proof. unfold DecodeJSON. by intros ->. Qed.
