(* ===== verification/Fcm.v ===== *)
(** * Firebase Cloud Messaging (internal/fcm/fcm.go)

    The JSON body is built as a value, field by field as the struct tags name
    them, so that what reaches the wire can be reasoned about.  Google's
    credential parser, the token source, the HTTP transport and the decoding of
    an error body are parameters. *)

From S2P Require Import Prelude GoTime Models Ext Net Httpx.
Local Open Scope string_scope.
Local Open Scope Z_scope.

Definition Scope : string := "https://www.googleapis.com/auth/firebase.messaging".
Definition DefaultBaseURL : string := "https://fcm.googleapis.com".
Definition defaultTimeout : duration := 10 * Second.
Definition maxErrorBodyBytes : Z := Z.shiftl 64 10.

(** ** Messages *)

Record androidConfig := mkAndroidConfig { Priority : string; TTL : string }.

Record message := mkMessage { m_Token : string; m_Data : list (string * string); m_Android : option androidConfig }.

Record sendReq := mkSendReq { Message : message }.

(** [omitempty] drops an empty string. *)
Definition omit_empty (key value : string) : list (string * json) := if empty value then [] else [(key, JString value)].

Definition json_androidConfig (a : androidConfig) : json :=
  JObject (("priority", JString (Priority a)) :: omit_empty "ttl" (TTL a)).

Definition json_message (m : message) : json :=
  JObject ([("token", JString (m_Token m)); ("data", JObject ((fun kv => (kv.1, JString kv.2)) <$> m_Data m))] ++
    match m_Android m with Some a => [("android", json_androidConfig a)] | None => [] end)%list.

Definition json_sendReq (r : sendReq) : json := JObject [("message", json_message (Message r))].

(** ** The client *)

Record http_request := mkHttpRequest {
  hr_Method : string; hr_URL : string; hr_ContentType : string; hr_Authorization : string; hr_Body : json }.

(** [oauth2.TokenSource.Token] and [http.Client.Do], as they answer a send: an
    error, or the token's header, the status and the body. *)
Abbreviation token_source := (result string string).
Abbreviation transport := (http_request -> result string (Z * bytes)).

Record Client := mkClient { projectID : string; baseURL : string; ts : token_source; hc : transport }.

Inductive Option := WithBaseURL (u : string) | WithHTTPClient (h : transport).

Definition apply_option (c : Client) (o : Option) : Client :=
  match o with
  | WithBaseURL u => mkClient (projectID c) (TrimSuffix u "/") (ts c) (hc c)
  | WithHTTPClient h => mkClient (projectID c) (baseURL c) (ts c) h
  end.

(** The FCM error envelope: the status and the error codes of its details. *)
Record apiError := mkApiError { ae_Status : string; ae_ErrorCodes : list string }.

Inductive send_error := ErrUnregistered | SendError (msg : string).

Section fcm.
Context `{Ext}.
Context (CredentialsFromJSON : transport -> bytes -> string -> result string (string * token_source)).
Context (json_apiError : bytes -> option apiError).
Context (default_transport : transport).

Definition New (credentialsJSON : bytes) (opts : list Option) : result string Client :=
  let c := foldl apply_option (mkClient "" DefaultBaseURL (Err "") default_transport) opts in
  match CredentialsFromJSON (hc c) credentialsJSON Scope with
  | Err e => Err ("fcm: service-account credentials are not usable: " ++ e)
  | Ok (project, source) =>
      if empty project then Err "fcm: service-account JSON has no project_id"
      else Ok (mkClient project (baseURL c) source (hc c))
  end.

Definition NewWithTokenSource (projectID : string) (source : token_source) (opts : list Option) : Client :=
  foldl apply_option (mkClient projectID DefaultBaseURL source default_transport) opts.

Definition ProjectID (c : Client) : string := projectID c.

Definition isUnregistered (status : Z) (body : bytes) : bool :=
  if status =? 404 then true else
  match json_apiError body with
  | None => false
  | Some e => bool_decide (ae_Status e = "NOT_FOUND") || bool_decide ("UNREGISTERED" ∈ ae_ErrorCodes e)
  end.

(** The request [Send] makes. *)
Definition send_request (c : Client) (auth token : string) (data : list (string * string)) (ttlSeconds : Z) : http_request :=
  mkHttpRequest "POST" (baseURL c ++ "/v1/projects/" ++ projectID c ++ "/messages:send") "application/json" auth
    (json_sendReq (mkSendReq (mkMessage token data (Some (mkAndroidConfig "high" (itoa ttlSeconds ++ "s")))))).

(** [Send]; the request's URL must parse. *)
Definition Send (c : Client) (token : string) (data : list (string * string)) (ttlSeconds : Z) : result send_error unit :=
  match url_Parse (baseURL c ++ "/v1/projects/" ++ projectID c ++ "/messages:send") with
  | None => Err (SendError "fcm: build request")
  | Some _ =>
      match ts c with
      | Err e => Err (SendError ("fcm: mint access token: " ++ e))
      | Ok auth =>
          match hc c (send_request c auth token data ttlSeconds) with
          | Err e => Err (SendError ("fcm: send: " ++ e))
          | Ok (status, body) =>
              if (200 <=? status) && (status <? 300) then Ok tt
              else if isUnregistered status (firstn (Z.to_nat maxErrorBodyBytes) body) then Err ErrUnregistered
              else Err (SendError ("fcm: send rejected with status " ++ itoa status))
          end
      end
  end.
End fcm.
