(* ===== verification/Push.v ===== *)
(** * Sending notifications (httpapi/push.go)

    How one subscription is served, and the bounded pool of workers of
    [fanOutPush] as a step relation: the feeder hands subscriptions over an
    unbuffered channel, the workers send, the deadline may pass at any moment.
    The web-push library is a parameter: it answers a status or an error, or
    panics on the key material it is given. *)

From S2P Require Import Prelude Table GoTime Models Api Ext Net Config Fcm World StoreAccounts AuthApi.
Local Open Scope string_scope.
Local Open Scope Z_scope.
Local Open Scope aul_scope.

Definition fcmDataKey : string := "payload_enc".
Definition pushTTLSeconds : Z := 600.
Definition pushWorkers : nat := 8.

(** [vapidSubscriber]. *)
Definition vapidSubscriber (subject : string) : string :=
  if HasPrefix subject "https:" then subject else TrimPrefix subject "mailto:".

(** The options webpush-go is called with. *)
Record pushOptions := mkPushOptions {
  po_Subscriber : string; po_VAPIDPublicKey : string; po_VAPIDPrivateKey : string; po_TTL : Z; po_Urgency : string }.

Inductive push_error := ErrPushGone | PushError (msg : string).

(** A call that returns, or panics. *)
Inductive outcome (A : Type) := Returned (a : A) | Panicked.
Arguments Returned {A} a.
Arguments Panicked {A}.

Section push.
Context `{Ext}.
Context (json_apiError : bytes -> option apiError).

(** [webpush.SendNotificationWithContext]: payload, endpoint, keys, options. *)
Context (SendNotification : string -> string -> string * string -> pushOptions -> outcome (result string Z)).

Record pushServer := mkPushServer { ps_cfg : Config; ps_fcm : option Client }.

Definition fcmEnabled (s : pushServer) : bool := bool_decide (is_Some (ps_fcm s)).
Definition anyPushEnabled (s : pushServer) : bool := PushEnabled (ps_cfg s) || fcmEnabled s.

(** The channels the handlers are told of. *)
Definition channels_of (s : pushServer) : channels := mkChannels (PushEnabled (ps_cfg s)) (fcmEnabled s).

(** A failure to prune is only logged. *)
Definition prunePushSubscription {A} (id : uuid) (k : prog A) : prog A := do! DeletePushSubscriptionByID id ;; k.

(** [sendFCM]; calling through a nil client panics. *)
Definition sendFCM (s : pushServer) (sub : PushSubscription) (payload : string) : prog (outcome (result push_error unit)) :=
  match ps_fcm s with
  | None => Ret Panicked
  | Some c =>
      match Send json_apiError c (PushSubscription_Endpoint sub) [(fcmDataKey, payload)] pushTTLSeconds with
      | Ok _ => Ret (Returned (Ok tt))
      | Err ErrUnregistered => prunePushSubscription (PushSubscription_ID sub) (Ret (Returned (Err ErrPushGone)))
      | Err (SendError e) => Ret (Returned (Err (PushError e)))
      end
  end.

Definition push_options (s : pushServer) : pushOptions :=
  mkPushOptions (vapidSubscriber (cfg_VAPIDSubject (ps_cfg s))) (cfg_VAPIDPublicKey (ps_cfg s))
    (cfg_VAPIDPrivateKey (ps_cfg s)) pushTTLSeconds "normal".

Definition sendWebPush (s : pushServer) (sub : PushSubscription) (payload : string) : prog (outcome (result push_error unit)) :=
  match PushSubscription_P256dh sub, PushSubscription_Auth sub with
  | Some p256dh, Some auth =>
      match SendNotification payload (PushSubscription_Endpoint sub) (p256dh, auth) (push_options s) with
      | Panicked => Ret Panicked
      | Returned (Err e) => Ret (Returned (Err (PushError e)))
      | Returned (Ok status) =>
          if (status =? 404) || (status =? 410)
          then prunePushSubscription (PushSubscription_ID sub) (Ret (Returned (Err ErrPushGone)))
          else if (200 <=? status) && (status <? 300) then Ret (Returned (Ok tt))
          else Ret (Returned (Err (PushError ("push service returned " ++ itoa status))))
      end
  | _, _ => Ret (Returned (Err (PushError "webpush subscription is missing key material")))
  end.

Definition sendPush (s : pushServer) (sub : PushSubscription) (payload : string) : prog (outcome (result push_error unit)) :=
  if decide (PushSubscription_Kind sub = kindFCM) then sendFCM s sub payload else sendWebPush s sub payload.

(** [sendPushSafe]: whether it was delivered; a panic is contained. *)
Definition sendPushSafe (s : pushServer) (sub : PushSubscription) (payload : string) : prog bool :=
  prog_bind (sendPush s sub payload) (fun o => Ret (match o with Returned (Ok _) => true | _ => false end)).

(** ** The worker pool *)

Inductive wstate := Idle | Sending (sub : PushSubscription) | Exited.

#[export] Instance wstate_eq_dec : EqDecision wstate.
Proof. solve_decision. Defined.

(** The feeder's loop variable and whether the channel is closed, the workers,
    the counter, the deadline, the world; [pl_done] records who was served. *)
Record pool := mkPool {
  pl_queue : list PushSubscription;
  pl_closed : bool;
  pl_workers : list wstate;
  pl_ok : Z;
  pl_expired : bool;
  pl_world : World;
  pl_done : list (PushSubscription * bool)
}.

Definition start (subs : list PushSubscription) (w : World) : pool :=
  mkPool subs false (repeat Idle (Nat.min pushWorkers (length subs))) 0 false w [].

Section steps.
Context (srv : pushServer) (payload : string).

(** One step of the feeder, of a worker, or of the clock. *)
Inductive pool_step : pool -> pool -> Prop :=
| ps_feed sub rest ws ok ex w dn i : ws !! i = Some Idle ->
    pool_step (mkPool (sub :: rest) false ws ok ex w dn) (mkPool rest false (<[i := Sending sub]> ws) ok ex w dn)
| ps_fed ws ok ex w dn :
    pool_step (mkPool [] false ws ok ex w dn) (mkPool [] true ws ok ex w dn)
| ps_break sub rest ws ok w dn :
    pool_step (mkPool (sub :: rest) false ws ok true w dn) (mkPool (sub :: rest) true ws ok true w dn)
| ps_send q cl ws ok ex w dn i sub (b : bool) w' : ws !! i = Some (Sending sub) ->
    run (sendPushSafe srv sub payload) w = (b, w') ->
    pool_step (mkPool q cl ws ok ex w dn)
      (mkPool q cl (<[i := Idle]> ws) (if b then ok + 1 else ok) ex w' (dn ++ [(sub, b)]))
| ps_exit q ws ok ex w dn i : ws !! i = Some Idle ->
    pool_step (mkPool q true ws ok ex w dn) (mkPool q true (<[i := Exited]> ws) ok ex w dn)
| ps_expire q cl ws ok w dn :
    pool_step (mkPool q cl ws ok false w dn) (mkPool q cl ws ok true w dn).

(** [wg.Wait] returns. *)
Definition finished (p : pool) : Prop := pl_closed p = true /\ Forall (eq Exited) (pl_workers p).

(** What [fanOutPush] returns then. *)
Definition pool_result (subs : list PushSubscription) (p : pool) : Z * Z := (pl_ok p, len subs - pl_ok p).
End steps.
End push.
