(* ===== verification/Retention.v ===== *)
(** * Background maintenance (internal/retention/retention.go), on SQLite

    One pass of the worker: each step is an instant of its own, interleaved with
    the requests being served; a failed step is logged and the next one runs. *)

From S2P Require Import Prelude Table GoTime Models Api Ext World Hub StoreAccounts StoreCircles.
From S2P Require Import StorePings.
Local Open Scope Z_scope.
Local Open Scope aul_scope.

Definition shareGraceHours : Z := 24.
Definition defaultPingRetentionHours : Z := 6.

Record Worker := mkWorker {
  wk_maxRetentionDays : Z; wk_pingRetentionHours : Z; wk_ipLogDays : Z; wk_interval : duration }.

Definition New (cfg : Config) : Worker :=
  let pingHours := cfg_PingRetentionHours cfg in
  let pingHours := if pingHours <=? 0 then defaultPingRetentionHours else pingHours in
  mkWorker (cfg_MaxRetentionDays cfg) pingHours (cfg_IPLogRetentionDays cfg) Hour.

(** The loop of [deleteExpiredPings]: a circle whose delete fails is skipped. *)
Fixpoint delete_each {A} (circles : list (uuid * Z)) (k : prog A) : prog A :=
  match circles with
  | [] => k
  | (id, days) :: rest => do! DeleteExpiredPingsForCircle id days ;; delete_each rest k
  end.

Definition deleteExpiredPings {A} (k : prog A) : prog A :=
  try! circles := AllCircleRetention catch (fun _ => k) in
  delete_each circles k.

Definition RunOnce (w : Worker) : prog unit :=
  try! now := time_Now catch (fun _ => Ret tt) in
  let horizon := AddDays now (- wk_maxRetentionDays w) in
  do! PruneAllPingsBefore horizon ;;
  do! PruneStalePings (wrap32 (wk_pingRetentionHours w)) ;;
  deleteExpiredPings (
  do! PruneLoginAttempts 1 ;;
  do! PruneAuditIPs (wrap32 (wk_ipLogDays w)) ;;
  do! DeleteExpiredSessions ;;
  do! PruneKeyEnvelopes ;;
  do! PruneResolvedSOS (Some horizon) ;;
  do! PrunePlaceTombstones horizon ;;
  do! PruneShareSessions shareGraceHours ;;
  Ret tt).

(** [Run]: at once, then at each of the [ticks] of the ticker before the context
    ends.  [RunOnce] returns no error. *)
Fixpoint Run (w : Worker) (ticks : nat) : prog unit :=
  prog_bind (RunOnce w) (fun _ => match ticks with O => Ret tt | S ticks => Run w ticks end).
