(* ===== verification/Partitions.v ===== *)
(** * Monthly partitions of the pings on Postgres (retention/retention.go, db/migrations/00003_pings.sql)

    The partitioned table is the list of its children, as the catalog lists
    them: each with its name, its half-open range of instants and its rows.  The
    engine puts a row into the child whose range has its captured_at, and fails
    the insert if there is none. *)

From S2P Require Import Prelude GoTime Models Net Api Retention.
Local Open Scope string_scope.
Local Open Scope Z_scope.

(** ** Dates *)

(** [time.Date(y, m, 1, 0, 0, 0, 0, UTC).AddDate(0, k, 0)]: months are normalised
    into the year. *)
Definition month_index (y m : Z) : Z := 12 * y + (m - 1).
Definition month_start (i : Z) : time := days_of_civil (i / 12) (i mod 12 + 1) 1 * Day.

(** The month an instant falls in. *)
Definition month_of (t : time) : Z := let '(y, m, _) := civil_of_days (t / Day) in month_index y m.

(** [t.AddDate(0, k, 0)] in UTC: days past the end of the month run over. *)
Definition AddMonths (t : time) (k : Z) : time :=
  let '(y, m, d) := civil_of_days (t / Day) in
  month_start (month_index y m + k) + (d - 1) * Day + t mod Day.

Example AddMonths_overflow : fmtTime (AddMonths (days_of_civil 2025 12 31 * Day) 2) = "2026-03-03T00:00:00.000Z".
Proof. vm_compute. reflexivity. Qed.

(** ** The table *)

Record partition := mkPartition { pt_name : string; pt_from : time; pt_to : time; pt_rows : list Ping }.

Abbreviation partitioned := (list partition).

Definition partition_name (i : Z) : string := "pings_p" ++ digits 4 (i / 12) ++ "_" ++ digits 2 (i mod 12 + 1).

(** The range of a new child must not overlap another's. *)
Definition overlaps (from to : time) (p : partition) : bool := (Z.max from (pt_from p) <? Z.min to (pt_to p)).

(** [aul_ensure_ping_partition]: [others] are the names of the other relations. *)
Definition aul_ensure_ping_partition (others : list string) (i : Z) (t : partitioned) : option partitioned :=
  if decide (partition_name i ∈ others ++ (pt_name <$> t))%list then Some t
  else if existsb (overlaps (month_start i) (month_start (i + 1))) t then None
  else Some (t ++ [mkPartition (partition_name i) (month_start i) (month_start (i + 1)) []])%list.

(** The months from [m] on, [n] of them. *)
Fixpoint ensure_months (others : list string) (n : nat) (m : Z) (t : partitioned) : option partitioned :=
  match n with
  | O => Some t
  | S n' => t' ← aul_ensure_ping_partition others m t; ensure_months others n' (m + 1) t'
  end.

(** [EnsurePingPartitions]: an error undoes the whole statement. *)
Definition EnsurePingPartitions (others : list string) (FromTs ToTs : time) (t : partitioned) : option partitioned :=
  ensure_months others (Z.to_nat (month_of ToTs - month_of FromTs + 1)) (month_of FromTs) t.

(** The child a row belongs to. *)
Definition holds (p : partition) (t : time) : bool := (pt_from p <=? t) && (t <? pt_to p).

(** ** Names *)

(** [atoi]: -1 at the first character that is no digit. *)
Fixpoint atoi_from (n : Z) (s : string) : Z :=
  match s with
  | EmptyString => n
  | String c s' => match digit_value c with Some v => atoi_from (n * 10 + v) s' | None => -1 end
  end.

Definition atoi (s : string) : Z := atoi_from 0 s.

(** [partitionNameRe]: the two groups. *)
Definition partitionNameRe (name : string) : option (string * string) :=
  if HasPrefix name "pings_p" then
    let rest := TrimPrefix name "pings_p" in
    let y := String.substring 0 4 rest in
    let m := String.substring 5 2 rest in
    if bool_decide (rest = y ++ "_" ++ m) && (String.length y =? 4)%nat && (String.length m =? 2)%nat &&
       all_chars is_digit y && all_chars is_digit m
    then Some (y, m) else None
  else None.

(** ** The worker *)

(** One name of the loop of [dropOldPartitions]: whether to drop it. *)
Definition expired_partition (horizon : time) (name : string) : bool :=
  match partitionNameRe name with
  | None => false
  | Some (y, m) =>
      let year := atoi y in
      let month := atoi m in
      if (month <? 1) || (12 <? month) then false else
      let upper := month_start (month_index year month + 1) in
      negb (After upper horizon)
  end.

(** The loop: [exec] tells which DROP TABLE the engine fails. *)
Fixpoint drop_each (exec : string -> bool) (horizon : time) (names : list string) (t : partitioned) (dropped : Z) :
    partitioned * Z :=
  match names with
  | [] => (t, dropped)
  | name :: rest =>
      if expired_partition horizon name && exec name
      then drop_each exec horizon rest (List.filter (fun p => negb (bool_decide (pt_name p = name))) t) (dropped + 1)
      else drop_each exec horizon rest t dropped
  end.

Definition dropOldPartitions (exec : string -> bool) (horizon : time) (t : partitioned) : partitioned * Z :=
  drop_each exec horizon (pt_name <$> t) t 0.

(** The Postgres half of [RunOnce]'s first two steps. *)
Definition maintain_partitions (w : Worker) (others : list string) (exec : string -> bool) (now : time) (t : partitioned) : partitioned :=
  let horizon := AddDays now (- wk_maxRetentionDays w) in
  fst (dropOldPartitions exec horizon
    (default t (EnsurePingPartitions others (AddMonths now (-1)) (AddMonths now 2) t))).
