(* ===== verification/Ratelimit.v ===== *)
(** * The keyed rate limiter (internal/ratelimit/ratelimit.go)

    One token bucket per key.  The bucket itself is golang.org/x/time/rate, code
    outside the repository: its state, constructor and [AllowN] are parameters. *)

From S2P Require Import Prelude GoTime.
Local Open Scope Z_scope.

Section limiter.
Context {Limiter : Type}.
Variable rate_NewLimiter : Limiter.                        (** at the rate and burst of [New] *)
Variable rate_AllowN : Limiter -> time -> bool * Limiter.  (** AllowN(now, 1) *)

Record bucket := mkBucket { bk_lim : Limiter; bk_lastSeen : time }.

Record KeyedLimiter := mkKeyedLimiter { kl_buckets : gmap string bucket; kl_ttl : duration }.

Definition NewLimiter (ttl : duration) : KeyedLimiter := mkKeyedLimiter ∅ ttl.

(** Under the mutex: one instant. *)
Definition Allow (now : time) (key : string) (k : KeyedLimiter) : bool * KeyedLimiter :=
  let b := default (mkBucket rate_NewLimiter now) (kl_buckets k !! key) in
  let '(allowed, lim') := rate_AllowN (bk_lim b) now in
  (allowed, mkKeyedLimiter (<[key := mkBucket lim' now]> (kl_buckets k)) (kl_ttl k)).

Definition cleanup (now : time) (k : KeyedLimiter) : KeyedLimiter :=
  let cutoff := Add now (- kl_ttl k) in
  mkKeyedLimiter (filter (fun kb => ~ bk_lastSeen kb.2 < cutoff) (kl_buckets k)) (kl_ttl k).

Definition Len (k : KeyedLimiter) : Z := Z.of_nat (size (kl_buckets k)).

(** What happens to the limiter: a request, or the janitor's pass. *)
Inductive event := Request (now : time) (key : string) | Janitor (now : time).

Definition apply (k : KeyedLimiter) (e : event) : KeyedLimiter :=
  match e with Request now key => snd (Allow now key k) | Janitor now => cleanup now k end.

Definition event_time (e : event) : time := match e with Request now _ => now | Janitor now => now end.

(** The requests for [key] alone: the history its bucket depends on. *)
Definition of_key (key : string) (e : event) : bool :=
  match e with Request _ k => bool_decide (k = key) | Janitor _ => true end.

(** The keys asked for at or after [since]. *)
Definition asked_since (since : time) (l : list event) : gset string :=
  list_to_set (omap (fun e => match e with
    | Request now key => if bool_decide (since <= now) then Some key else None
    | Janitor _ => None end) l).

(** Buckets of other keys do not matter: the limiter answers a key as if the
    requests of all other keys had not been made. *)
Lemma Allow_other now key key' k :
  key <> key' -> kl_buckets (snd (Allow now key' k)) !! key = kl_buckets k !! key.
Proof.
  intros Hne. unfold Allow. destruct (rate_AllowN _ _). simpl. by rewrite lookup_insert_ne.
Qed.

Lemma apply_ttl k e : kl_ttl (apply k e) = kl_ttl k.
Proof. destruct e as [now key|now]; simpl; [|done]. unfold Allow. by destruct (rate_AllowN _ _). Qed.

Lemma cleanup_lookup now k k' key :
  kl_ttl k = kl_ttl k' -> kl_buckets k !! key = kl_buckets k' !! key ->
  kl_buckets (cleanup now k) !! key = kl_buckets (cleanup now k') !! key.
Proof.
  intros Ht Hk. unfold cleanup. simpl. rewrite Ht.
  destruct (kl_buckets k' !! key) as [b|] eqn:Hb.
  - destruct (decide (bk_lastSeen b < Add now (- kl_ttl k'))) as [Hd|Hd].
    + rewrite !(proj2 (map_lookup_filter_None _ _ _)); [done| |];
        right; intros x Hx; simplify_eq/=; tauto.
    + rewrite !(proj2 (map_lookup_filter_Some _ _ _ b)); done.
  - rewrite !(proj2 (map_lookup_filter_None _ _ _)); auto.
Qed.

Lemma apply_lookup e k k' key :
  kl_ttl k = kl_ttl k' -> kl_buckets k !! key = kl_buckets k' !! key -> of_key key e = true ->
  kl_buckets (apply k e) !! key = kl_buckets (apply k' e) !! key.
Proof.
  destruct e as [now key0|now]; simpl; intros Ht Hk He; [|by apply cleanup_lookup].
  apply bool_decide_eq_true_1 in He as ->. unfold Allow. rewrite Hk.
  destruct (rate_AllowN _ _). simpl. by rewrite !lookup_insert_eq.
Qed.

Lemma history_lookup key l k k' :
  kl_ttl k = kl_ttl k' -> kl_buckets k !! key = kl_buckets k' !! key ->
  kl_buckets (foldl apply k l) !! key = kl_buckets (foldl apply k' (List.filter (of_key key) l)) !! key.
Proof.
  revert k k'. induction l as [|e l IH]; intros k k' Ht Hk; simpl; [done|].
  destruct (of_key key e) eqn:He; simpl.
  - apply IH; [by rewrite !apply_ttl|by apply apply_lookup].
  - apply IH; [by rewrite apply_ttl|]. destruct e as [now key0|now]; [|done]. simpl in *.
    apply bool_decide_eq_false_1 in He. rewrite Allow_other by done. done.
Qed.

(** ** Memory *)

Lemma lastSeen_history l k key b :
  kl_buckets (foldl apply k l) !! key = Some b ->
  (exists b0, kl_buckets k !! key = Some b0 /\ bk_lastSeen b0 = bk_lastSeen b) \/
  Request (bk_lastSeen b) key ∈ l.
Proof.
  revert k. induction l as [|e l IH]; intros k; simpl; [by left; eauto|].
  intros [(b0 & Hb0 & Heq)|Hin]%IH; [|right; by constructor].
  destruct e as [now key0|now]; simpl in Hb0.
  - unfold Allow in Hb0. destruct (rate_AllowN _ _) as [ok lim']. simpl in Hb0.
    apply lookup_insert_Some in Hb0 as [[-> <-]|[_ Hb0]].
    + right. rewrite <- Heq. simpl. constructor.
    + left. eauto.
  - apply map_lookup_filter_Some in Hb0 as [Hb0 _]. left. eauto.
Qed.

Lemma cleanup_keys l ttl now key :
  is_Some (kl_buckets (cleanup now (foldl apply (NewLimiter ttl) l)) !! key) ->
  key ∈ asked_since (Add now (- kl_ttl (foldl apply (NewLimiter ttl) l))) l.
Proof.
  intros [b [Hb Hs]%map_lookup_filter_Some]. simpl in Hs.
  apply lastSeen_history in Hb as [(b0 & Hb0 & _)|Hin]; [simpl in Hb0; by rewrite lookup_empty in Hb0|].
  unfold asked_since. apply elem_of_list_to_set, list_elem_of_omap.
  exists (Request (bk_lastSeen b) key). split; [done|].
  rewrite bool_decide_true by lia. done.
Qed.

Lemma history_ttl l k : kl_ttl (foldl apply k l) = kl_ttl k.
Proof. revert k. induction l as [|e l IH]; intros k; simpl; [done|]. by rewrite IH, apply_ttl. Qed.

(** keys are independent: whatever the requests of other keys, the limiter's
    answer to a key is what it would be had only that key's requests (and the
    janitor's passes) happened. *)
Theorem limiter_keys_independent ttl l now key :
  fst (Allow now key (foldl apply (NewLimiter ttl) l)) =
  fst (Allow now key (foldl apply (NewLimiter ttl) (List.filter (of_key key) l))).
Proof.
  unfold Allow. rewrite (history_lookup key l (NewLimiter ttl) (NewLimiter ttl) eq_refl eq_refl).
  by destruct (rate_AllowN _ _).
Qed.

(** memory is bounded: after a janitor's pass there are no more buckets
    than keys asked for within the idle lifetime, however many keys the history
    held. *)
Theorem limiter_memory_bounded ttl l now :
  Len (cleanup now (foldl apply (NewLimiter ttl) l)) <=
    Z.of_nat (size (asked_since (Add now (- ttl)) l)).
Proof.
  unfold Len. apply inj_le. rewrite <- size_dom. apply subseteq_size.
  intros key Hk%elem_of_dom. apply cleanup_keys in Hk. by rewrite history_ttl in Hk.
Qed.
End limiter.
