(* ===== verification/Router.v ===== *)
(** * Routing (httpapi/server.go and the mount functions)

    A request to the REST API is a [Route] with what its handler reads of the
    URL, the body and the cookies; [serve] is the handler behind the middleware
    its mount function puts in front: the limiter, [RequireAuth],
    [requireCircleMember].  The WebSocket upgrade is modelled in HubSys. *)

From S2P Require Import Prelude Table GoTime Models Api Ext World Hub Password Auth Server CirclesApi.
From S2P Require Import PlacesApi PingsApi ShareApi AuthApi.
Local Open Scope Z_scope.
Local Open Scope aul_scope.

(** The routes under /v1/circles/{circleID}. *)
Inductive CircleRoute :=
| GetCircle_
| PatchCircle (body : decoded patchCircleReq)
| DeleteCircle_
| GetMembers
| PutProfile (body : decoded (option string))
| GetCircleDevices
| DeleteMember (userID : string)
| PostLeave
| PutPrecision (body : decoded string)
| PostRotateKey
| GetInvites
| PostInvites (body : decoded createInviteReq)
| DeleteInvite (inviteID : string)
| PostNotify (body : decoded string)
| GetMutes_
| PutMutes (body : decoded mutesDTO)
| GetLatestPings
| GetPlaces
| PostPlaces (body : decoded placeReq)
| PutPlace (placeID : string) (body : decoded placeReq)
| DeletePlace (placeID : string)
| GetSOS_
| PostSOS (body : decoded string)
| PostResolveSOS (sosID : string).

(** The routes behind [RequireAuth]. *)
Inductive AuthedRoute :=
| PostLogout
| GetMe
| GetDevices
| DeleteDevice_ (deviceID : string)
| GetSessions
| GetAudit
| GetCircles
| PostCircles (body : decoded createCircleReq)
| InCircle (circleID : string) (r : CircleRoute)
| GetInvite_ (inviteID : string)
| PostAcceptInvite (inviteID : string)
| PostPingBatch (body : decoded (list pingItem))
| PostKeyEnvelopes (body : decoded postKeyEnvelopesReq)
| GetPendingKeyEnvelopes
| PostConsumeKeyEnvelope (envelopeID : string)
| PostShare (body : option (decoded Z))
| GetShares
| DeleteShare (shareID : string)
| PutSharePing (shareID : string) (body : decoded sharePingReq)
| PostPushSubscribe (body : decoded pushSubscribeReq)
| DeletePushSubscribe (body : decoded pushSubscribeReq).

Inductive Route :=
| PostRegister (body : decoded registerReq)
| PostLogin (body : decoded loginReq)
| PostRefresh (body : option (decoded string)) (refreshCookie : option string)
| GetVersionLatest (platform : string)
| GetShare_ (shareID : string) (cookies : list (string * string))
| Authed (r : AuthedRoute).

(** The deployment: its configuration, the dummy hash its auth service computed at
    start, its push channels, and the answers of the push services. *)
Record Deployment := mkDeployment {
  dp_cfg : Config; dp_dummyHash : string; dp_channels : channels; dp_send : PushSubscription -> send_outcome }.

(** The service that main.go makes, with no option. *)
Definition dp_auth (d : Deployment) : Service :=
  mk_Service (dp_cfg d) DefaultLockout DefaultArgon2Params (dp_dummyHash d).

Definition byIP (r : Request) : string := ("ip:" ++ rq_RealIP r)%string.
Definition byAuthUser (a : Auth) : string := ("user:" ++ uuid_String (a_UserID a))%string.
Definition byDevice (a : Auth) : string := ("dev:" ++ uuid_String (a_DeviceID a))%string.

Section serve.
Context `{Ext} (d : Deployment).
(** The request, and the verdict of the route's limiter on its key. *)
Context (r : Request) (allow : bool).
Let cfg := dp_cfg d.
Let ip := rq_RealIP r.

Definition serve_circle (a : Auth) (m : CircleMember) (cr : CircleRoute) : prog response :=
  match cr with
  | GetCircle_ => handleGetCircle m
  | PatchCircle body => handlePatchCircle cfg m body
  | DeleteCircle_ => handleDeleteCircle m
  | GetMembers => handleListMembers m
  | PutProfile body => handleSetProfile m body
  | GetCircleDevices => handleCircleDevices m
  | DeleteMember userID => handleRemoveMember cfg m ip userID
  | PostLeave => handleLeaveCircle cfg m ip
  | PutPrecision body => handleSetPrecision m body
  | PostRotateKey => handleRotateKey cfg m ip
  | GetInvites => handleListInvites m
  | PostInvites body => RateLimit (byAuthUser a) allow 3600 (handleCreateInvite cfg m ip body)
  | DeleteInvite inviteID => handleRevokeInvite m inviteID
  | PostNotify body => RateLimit (byAuthUser a) allow 60 (handleNotify (dp_channels d) (dp_send d) m body)
  | GetMutes_ => handleGetMutes m
  | PutMutes body => handleSetMutes m body
  | GetLatestPings => handleLatestPings m
  | GetPlaces => handleListPlaces m
  | PostPlaces body => handleCreatePlace m body
  | PutPlace placeID body => handleUpdatePlace m placeID body
  | DeletePlace placeID => handleDeletePlace m placeID
  | GetSOS_ => handleListSOS m
  | PostSOS body => handleCreateSOS cfg a m ip body
  | PostResolveSOS sosID => handleResolveSOS cfg m ip sosID
  end.

Definition serve_authed (a : Auth) (ar : AuthedRoute) : prog response :=
  match ar with
  | PostLogout => handleLogout cfg a ip
  | GetMe => handleMe a
  | GetDevices => handleListDevices a
  | DeleteDevice_ deviceID => handleRevokeDevice cfg a ip deviceID
  | GetSessions => handleListSessions a
  | GetAudit => handleListAudit a
  | GetCircles => handleListCircles a
  | PostCircles body => handleCreateCircle cfg a ip body
  | InCircle circleID cr => requireCircleMember a circleID (fun m => serve_circle a m cr)
  | GetInvite_ inviteID => handleGetInvite inviteID
  | PostAcceptInvite inviteID => handleAcceptInvite cfg a ip inviteID
  | PostPingBatch body => RateLimit (byDevice a) allow 60 (handlePingBatch cfg a body)
  | PostKeyEnvelopes body => RateLimit (byAuthUser a) allow 60 (handlePostKeyEnvelopes cfg a ip body)
  | GetPendingKeyEnvelopes => handlePendingKeyEnvelopes a
  | PostConsumeKeyEnvelope envelopeID => handleConsumeKeyEnvelope a envelopeID
  | PostShare body => RateLimit (byAuthUser a) allow 3600 (handleCreateShare a body)
  | GetShares => handleListShares a
  | DeleteShare shareID => handleRevokeShare a shareID
  | PutSharePing shareID body => handleSharePing a shareID body
  | PostPushSubscribe body => handlePushSubscribe a body
  | DeletePushSubscribe body => handlePushUnsubscribe a body
  end.

Definition serve (route : Route) : prog response :=
  match route with
  | PostRegister body => RateLimit (byIP r) allow 60 (handleRegister cfg ip body)
  | PostLogin body => RateLimit (byIP r) allow 60 (handleLogin (dp_auth d) ip body)
  | PostRefresh body cookie => RateLimit (byIP r) allow 60 (handleRefresh cfg ip body cookie)
  | GetVersionLatest platform => handleVersionLatest platform
  | GetShare_ shareID cookies => handleGetShare cfg shareID cookies
  | Authed ar => RequireAuth cfg r (fun a => serve_authed a ar)
  end.
End serve.
