(* ===== verification/Routes.v ===== *)
(** * The routing table (httpapi/server.go and the mount functions)

    The declarations of the mount functions, as data in the shape of chi's calls;
    the flat table they stand for, as chi documents them: a Use guards the routes
    of its scope, a Route prefixes them, a With guards one.  Which entry a path
    takes is chi's; that the entries never compete is a theorem. *)

From S2P Require Import Prelude Table GoTime Models Api Ext World Hub Password Auth Server CirclesApi PlacesApi PingsApi ShareApi AuthApi Router Demo.
Local Open Scope string_scope.
Local Open Scope list_scope.
Local Open Scope Z_scope.

(** The limiters of a [Server], by field. *)
Inductive LimiterName :=
| authLimiter | inviteLimiter | pingLimiter | keyEnvLimiter | wsLimiter | notifyLimiter | shareLimiter.

#[export] Instance LimiterName_eq_dec : EqDecision LimiterName.
Proof. solve_decision. Defined.

Inductive guard :=
| UseRequireAuth
| UseRequireCircleMember
| UseTimeout
| LimitByIP (l : LimiterName) (retryAfterSecs : Z) | LimitByUser (l : LimiterName) (retryAfterSecs : Z) | LimitByDevice (l : LimiterName) (retryAfterSecs : Z).

Inductive segment := Lit (s : string) | Param (name : string).

#[export] Instance guard_eq_dec : EqDecision guard.
Proof. solve_decision. Defined.
#[export] Instance segment_eq_dec : EqDecision segment.
Proof. solve_decision. Defined.

(** What a handler reads of a request: its parameters, its cookies, and what its
    body decodes to as each type. *)
Record Req := mk_Req {
  q_param : string -> string;
  q_query : string -> string;
  q_cookies : list (string * string);
  q_refresh_cookie : option string;
  q_patchCircle : decoded patchCircleReq;
  q_createCircle : decoded createCircleReq;
  q_profile : decoded (option string);
  q_string : decoded string;                 (** precision, notify and SOS bodies *)
  q_createInvite : decoded createInviteReq;
  q_mutes : decoded mutesDTO;
  q_place : decoded placeReq;
  q_pings : decoded (list pingItem);
  q_envelopes : decoded postKeyEnvelopesReq;
  q_share : option (decoded Z);
  q_sharePing : decoded sharePingReq;
  q_push : decoded pushSubscribeReq;
  q_register : decoded registerReq;
  q_login : decoded loginReq;
  q_refresh : option (decoded string)
}.

(** A handler: one of the REST API, which [serve] answers; the operational
    endpoints of Httpx and Command; the realtime endpoint of Realtime. *)
Inductive endpoint := Rest (h : Req -> Route) | Healthz | Readyz | Metrics | ServerInfo | RealtimeWS.

(** chi's calls. *)
Inductive decl :=
| Use (g : guard)
| At (with_ : list guard) (method : string) (pattern : list segment) (h : endpoint)
| Sub (pattern : list segment) (body : list decl)
| Group (body : list decl).

Abbreviation On with_ method pattern h := (At with_ method pattern (Rest h)).

Record entry := mk_entry { en_guards : list guard; en_method : string; en_pattern : list segment; en_handler : endpoint }.

(** The entries of one declaration, in a scope with this prefix and these guards. *)
Fixpoint entries_of (prefix : list segment) (guards : list guard) (d : decl) : list entry :=
  let fix scope (prefix : list segment) (guards : list guard) (l : list decl) : list entry :=
    match l with
    | [] => []
    | Use g :: l' => scope prefix (guards ++ [g]) l'
    | d :: l' => entries_of prefix guards d ++ scope prefix guards l'
    end in
  match d with
  | Use _ => []
  | At with_ method pattern h => [mk_entry (guards ++ with_) method (prefix ++ pattern) h]
  | Sub pattern body => scope (prefix ++ pattern) guards body
  | Group body => scope prefix guards body
  end.

(** ** The mount functions *)

Definition circle (f : Req -> CircleRoute) : Req -> Route := fun q => Authed (InCircle (q_param q "circleID") (f q)).
Definition authed (f : Req -> AuthedRoute) : Req -> Route := fun q => Authed (f q).

Definition mountAuth : list decl := [
  Sub [Lit "auth"] [
    Group [
      Use (LimitByIP authLimiter 60);
      On [] "POST" [Lit "register"] (fun q => PostRegister (q_register q));
      On [] "POST" [Lit "login"] (fun q => PostLogin (q_login q));
      On [] "POST" [Lit "refresh"] (fun q => PostRefresh (q_refresh q) (q_refresh_cookie q))];
    Group [
      Use UseRequireAuth;
      On [] "POST" [Lit "logout"] (authed (fun _ => PostLogout))]];
  Sub [Lit "account"] [
    Use UseRequireAuth;
    On [] "GET" [Lit "me"] (authed (fun _ => GetMe));
    On [] "GET" [Lit "devices"] (authed (fun _ => GetDevices));
    On [] "DELETE" [Lit "devices"; Param "deviceID"] (authed (fun q => DeleteDevice_ (q_param q "deviceID")));
    On [] "GET" [Lit "sessions"] (authed (fun _ => GetSessions));
    On [] "GET" [Lit "audit"] (authed (fun _ => GetAudit))]].

Definition mountCircles : list decl := [
  Sub [Lit "circles"] [
    Use UseRequireAuth;
    On [] "GET" [] (authed (fun _ => GetCircles));
    On [] "POST" [] (authed (fun q => PostCircles (q_createCircle q)));
    Sub [Param "circleID"] [
      Use UseRequireCircleMember;
      On [] "GET" [] (circle (fun _ => GetCircle_));
      On [] "PATCH" [] (circle (fun q => PatchCircle (q_patchCircle q)));
      On [] "DELETE" [] (circle (fun _ => DeleteCircle_));
      On [] "GET" [Lit "members"] (circle (fun _ => GetMembers));
      On [] "PUT" [Lit "profile"] (circle (fun q => PutProfile (q_profile q)));
      On [] "GET" [Lit "devices"] (circle (fun _ => GetCircleDevices));
      On [] "DELETE" [Lit "members"; Param "userID"] (circle (fun q => DeleteMember (q_param q "userID")));
      On [] "POST" [Lit "leave"] (circle (fun _ => PostLeave));
      On [] "PUT" [Lit "precision"] (circle (fun q => PutPrecision (q_string q)));
      On [] "POST" [Lit "rotate-key"] (circle (fun _ => PostRotateKey));
      On [] "GET" [Lit "invites"] (circle (fun _ => GetInvites));
      On [LimitByUser inviteLimiter 3600] "POST" [Lit "invites"] (circle (fun q => PostInvites (q_createInvite q)));
      On [] "DELETE" [Lit "invites"; Param "inviteID"] (circle (fun q => DeleteInvite (q_param q "inviteID")));
      On [LimitByUser notifyLimiter 60] "POST" [Lit "notify"] (circle (fun q => PostNotify (q_string q)));
      On [] "GET" [Lit "mutes"] (circle (fun _ => GetMutes_));
      On [] "PUT" [Lit "mutes"] (circle (fun q => PutMutes (q_mutes q)));
      On [] "GET" [Lit "pings"; Lit "latest"] (circle (fun _ => GetLatestPings));
      On [] "GET" [Lit "places"] (circle (fun _ => GetPlaces));
      On [] "POST" [Lit "places"] (circle (fun q => PostPlaces (q_place q)));
      On [] "PUT" [Lit "places"; Param "placeID"] (circle (fun q => PutPlace (q_param q "placeID") (q_place q)));
      On [] "DELETE" [Lit "places"; Param "placeID"] (circle (fun q => DeletePlace (q_param q "placeID")));
      On [] "GET" [Lit "sos"] (circle (fun _ => GetSOS_));
      On [] "POST" [Lit "sos"] (circle (fun q => PostSOS (q_string q)));
      On [] "POST" [Lit "sos"; Param "sosID"; Lit "resolve"] (circle (fun q => PostResolveSOS (q_param q "sosID")))]]].

Definition mountInvites : list decl := [
  Sub [Lit "invites"] [
    Use UseRequireAuth;
    On [] "GET" [Param "inviteID"] (authed (fun q => GetInvite_ (q_param q "inviteID")));
    On [] "POST" [Param "inviteID"; Lit "accept"] (authed (fun q => PostAcceptInvite (q_param q "inviteID")))]].

Definition mountPings : list decl := [
  Sub [Lit "pings"] [
    Use UseRequireAuth;
    On [LimitByDevice pingLimiter 60] "POST" [Lit "batch"] (authed (fun q => PostPingBatch (q_pings q)))]].

Definition mountKeyEnvelopes : list decl := [
  Sub [Lit "key-envelopes"] [
    Use UseRequireAuth;
    On [LimitByUser keyEnvLimiter 60] "POST" [] (authed (fun q => PostKeyEnvelopes (q_envelopes q)));
    On [] "GET" [Lit "pending"] (authed (fun _ => GetPendingKeyEnvelopes));
    On [] "POST" [Param "envelopeID"; Lit "consume"] (authed (fun q => PostConsumeKeyEnvelope (q_param q "envelopeID")))]].

Definition mountShare : list decl := [
  Sub [Lit "share"] [
    On [] "GET" [Param "shareID"] (fun q => GetShare_ (q_param q "shareID") (q_cookies q));
    Group [
      Use UseRequireAuth;
      On [LimitByUser shareLimiter 3600] "POST" [] (authed (fun q => PostShare (q_share q)));
      On [] "GET" [] (authed (fun _ => GetShares));
      On [] "DELETE" [Param "shareID"] (authed (fun q => DeleteShare (q_param q "shareID")));
      On [] "PUT" [Param "shareID"; Lit "ping"] (authed (fun q => PutSharePing (q_param q "shareID") (q_sharePing q)))]]].

Definition mountMisc : list decl := [
  At [] "GET" [Lit "server-info"] ServerInfo;
  On [] "GET" [Lit "version"; Lit "latest"] (fun q => GetVersionLatest (q_query q "platform"));
  Group [
    Use UseRequireAuth;
    On [] "POST" [Lit "push"; Lit "subscribe"] (authed (fun q => PostPushSubscribe (q_push q)));
    On [] "DELETE" [Lit "push"; Lit "subscribe"] (authed (fun q => DeletePushSubscribe (q_push q)))]].

(** The API under /v1, and the whole router, in front of the static files that
    take what no entry does. *)
Definition v1 : list decl := [
  Sub [Lit "v1"] (Use UseTimeout ::
    mountAuth ++ mountCircles ++ mountInvites ++ mountPings ++ mountKeyEnvelopes ++ mountShare ++ mountMisc)].

Definition Router_decls (MetricsEnabled : bool) : list decl :=
  [At [] "GET" [Lit "healthz"] Healthz; At [] "GET" [Lit "readyz"] Readyz] ++
  (if MetricsEnabled then [At [] "GET" [Lit "metrics"] Metrics] else []) ++
  v1 ++
  [At [] "GET" [Lit "v1"; Lit "realtime"] RealtimeWS].

Definition routes (MetricsEnabled : bool) : list entry := Router_decls MetricsEnabled ≫= entries_of [] [].

(** ** Matching *)

(** Whether a path, in segments, fits a pattern. *)
Fixpoint fits_pattern (pattern : list segment) (path : list string) : bool :=
  match pattern, path with
  | [], [] => true
  | Lit s :: pattern', s' :: path' => bool_decide (s = s') && fits_pattern pattern' path'
  | Param _ :: pattern', _ :: path' => fits_pattern pattern' path'
  | _, _ => false
  end.

Definition fits_entry (method : string) (path : list string) (e : entry) : Prop :=
  en_method e = method /\ fits_pattern (en_pattern e) path = true.

(** ** What the guards do *)

Section through.
Context `{Ext} (d : Deployment) (r : Request) (allow : LimiterName -> bool) (q : Req).

(** What Recoverer answers when MustAuth finds no identity in the context. *)
Definition panicked : prog response := Ret (WriteError 500 CodeInternal "internal server error").

(** The guards in order, outermost first, then the handler, which finds the
    identity and the membership that the guards put in the context.  A handler
    that overruns the timeout is http.TimeoutHandler's, and is not modelled. *)
Fixpoint through (gs : list guard) (a : option Auth) (m : option CircleMember)
    (h : option Auth -> option CircleMember -> prog response) : prog response :=
  match gs with
  | [] => h a m
  | UseRequireAuth :: gs' => RequireAuth (dp_cfg d) r (fun a' => through gs' (Some a') m h)
  | UseRequireCircleMember :: gs' =>
      match a with
      | Some a' => requireCircleMember a' (q_param q "circleID") (fun m' => through gs' a (Some m') h)
      | None => panicked
      end
  | UseTimeout :: gs' => through gs' a m h
  | LimitByIP l n :: gs' => RateLimit (byIP r) (allow l) n (through gs' a m h)
  | LimitByUser l n :: gs' =>
      RateLimit (match a with Some a' => byAuthUser a' | None => "" end) (allow l) n (through gs' a m h)
  | LimitByDevice l n :: gs' =>
      RateLimit (match a with Some a' => byDevice a' | None => "" end) (allow l) n (through gs' a m h)
  end.
End through.

(** ** The routing table and the server agree *)

(** The membership a handler reads when the context has none: Go's zero value. *)
Definition no_membership : CircleMember :=
  mkCircleMember 0%N 0%N "" "" (days_of_civil 1 1 1 * Day) None.

(** The handler of a route, without what stands in front of it. *)
Definition bare_circle `{Ext} (d : Deployment) (r : Request) (cr : CircleRoute) (a : Auth) (m : CircleMember) : prog response :=
  match cr with
  | PostInvites body => handleCreateInvite (dp_cfg d) m (rq_RealIP r) body
  | PostNotify body => handleNotify (dp_channels d) (dp_send d) m body
  | _ => serve_circle d r true a m cr
  end.

Definition bare_authed `{Ext} (d : Deployment) (r : Request) (ar : AuthedRoute) (a : Auth) (m : option CircleMember) : prog response :=
  match ar, m with
  | InCircle _ cr, _ => bare_circle d r cr a (default no_membership m)
  | PostPingBatch body, _ => handlePingBatch (dp_cfg d) a body
  | PostKeyEnvelopes body, _ => handlePostKeyEnvelopes (dp_cfg d) a (rq_RealIP r) body
  | PostShare body, _ => handleCreateShare a body
  | _, _ => serve_authed d r true a ar
  end.

Definition bare `{Ext} (d : Deployment) (r : Request) (route : Route) (a : option Auth) (m : option CircleMember) : prog response :=
  match route, a with
  | Authed ar, Some a => bare_authed d r ar a m
  | Authed _, None => panicked
  | PostRegister body, _ => handleRegister (dp_cfg d) (rq_RealIP r) body
  | PostLogin body, _ => handleLogin (dp_auth d) (rq_RealIP r) body
  | PostRefresh body cookie, _ => handleRefresh (dp_cfg d) (rq_RealIP r) body cookie
  | _, _ => serve d r true route
  end.

(** ** No two entries compete for a path *)

Fixpoint clash (p q : list segment) : bool :=
  match p, q with
  | [], [] => true
  | Lit s :: p', Lit t :: q' => bool_decide (s = t) && clash p' q'
  | _ :: p', _ :: q' => clash p' q'
  | _, _ => false
  end.

Lemma clash_fits p q path : fits_pattern p path = true -> fits_pattern q path = true -> clash p q = true.
Proof.
  revert q path. induction p as [|x p IH]; intros q path Hp Hq.
  - destruct path; [|done]. destruct q as [|[]]; done.
  - destruct path as [|s path]; [by destruct x|]. destruct q as [|y q]; [done|].
    destruct x as [a|a], y as [b|b]; cbn in Hp, Hq; rewrite ?andb_true_iff, ?bool_decide_eq_true in *; cbn.
    + destruct Hp as [-> Hp], Hq as [-> Hq]. rewrite bool_decide_eq_true_2 by done. by eapply IH.
    + destruct Hp. by eapply IH. + destruct Hq. by eapply IH. + by eapply IH.
Qed.

Definition apart (e f : entry) : bool := negb (bool_decide (en_method e = en_method f) && clash (en_pattern e) (en_pattern f)).

Fixpoint pairwise {A} (R : A -> A -> bool) (l : list A) : bool :=
  match l with [] => true | x :: l' => forallb (R x) l' && pairwise R l' end.

Lemma pairwise_lookup {A} (R : A -> A -> bool) (l : list A) i j x y :
  pairwise R l = true -> (i < j)%nat -> l !! i = Some x -> l !! j = Some y -> R x y = true.
Proof.
  revert i j. induction l as [|z l IH]; intros i j Hl Hij Hx Hy; [done|]. cbn in Hl. apply andb_true_iff in Hl as [Hz Hl].
  destruct j as [|j]; [lia|]. destruct i as [|i]; cbn in *.
  - injection Hx as <-. apply list_elem_of_lookup_2, list_elem_of_In in Hy. by apply (proj1 (forallb_forall _ _) Hz).
  - apply (IH i j); [done|lia|done|done].
Qed.

Lemma routes_apart metrics : pairwise apart (routes metrics) = true.
Proof. destruct metrics; by vm_compute. Qed.

Lemma routes_unambiguous metrics method path i j e f : routes metrics !! i = Some e -> routes metrics !! j = Some f ->
  fits_entry method path e -> fits_entry method path f -> i = j.
Proof.
  intros He Hf [Hme Hpe] [Hmf Hpf].
  assert (forall i j e f, (i < j)%nat -> routes metrics !! i = Some e -> routes metrics !! j = Some f -> en_method e = en_method f ->
    clash (en_pattern e) (en_pattern f) = true -> False) as Hno.
  { intros i' j' e' f' Hij He' Hf' Hm Hc. pose proof (pairwise_lookup _ _ _ _ _ _ (routes_apart metrics) Hij He' Hf') as Ha.
    unfold apart in Ha. by rewrite bool_decide_eq_true_2, Hc in Ha. }
  pose proof (clash_fits _ _ _ Hpe Hpf) as Hc1. pose proof (clash_fits _ _ _ Hpf Hpe) as Hc2.
  destruct (lt_eq_lt_dec i j) as [[Hlt|]|Hlt]; [|done|]; exfalso.
  - eapply Hno; [exact Hlt|exact He|exact Hf|congruence|exact Hc1].
  - eapply Hno; [exact Hlt|exact Hf|exact He|congruence|exact Hc2].
Qed.

(** ** The guards are those of [serve] *)

Definition public : list (string * list segment) := [
  ("POST", [Lit "v1"; Lit "auth"; Lit "register"]);
  ("POST", [Lit "v1"; Lit "auth"; Lit "login"]);
  ("POST", [Lit "v1"; Lit "auth"; Lit "refresh"]);
  ("GET", [Lit "v1"; Lit "share"; Param "shareID"]);
  ("GET", [Lit "v1"; Lit "version"; Lit "latest"])].

(** The limiter that is to have its say on a route, if any has. *)
Definition limiter_of (route : Route) : LimiterName :=
  match route with
  | Authed (InCircle _ (PostInvites _)) => inviteLimiter
  | Authed (InCircle _ (PostNotify _)) => notifyLimiter
  | Authed (PostPingBatch _) => pingLimiter
  | Authed (PostKeyEnvelopes _) => keyEnvLimiter
  | Authed (PostShare _) => shareLimiter
  | _ => authLimiter
  end.

(** What an entry must have in front of its handler. *)
Definition guarded `{Ext} (d : Deployment) (r : Request) (allow : LimiterName -> bool) (q : Req) (e : entry) : Prop :=
  match en_handler e with
  | Rest h =>
      through d r allow q (en_guards e) None None (bare d r (h q)) = serve d r (allow (limiter_of (h q))) (h q) /\
      en_guards e !! 0%nat = Some UseTimeout /\
      (en_guards e !! 1%nat = Some UseRequireAuth \/ (en_method e, en_pattern e) ∈ public)
  | ServerInfo => en_guards e = [UseTimeout]
  | Healthz | Readyz | Metrics | RealtimeWS => en_guards e = []
  end.

Ltac every_entry l tac := set (entries := l); vm_compute in entries; subst entries; repeat (apply Forall_cons; split; [tac|]); constructor.

Lemma routes_guarded `{Ext} d r allow q metrics : Forall (guarded d r allow q) (routes metrics).
Proof.
  destruct metrics.
  - every_entry (routes true) ltac:(try (split_and!; [reflexivity|reflexivity|first [left; reflexivity|right; apply (bool_decide_unpack _); reflexivity]]); reflexivity).
  - every_entry (routes false) ltac:(try (split_and!; [reflexivity|reflexivity|first [left; reflexivity|right; apply (bool_decide_unpack _); reflexivity]]); reflexivity).
Qed.

(** ** Every request the handlers can read is one that some entry hands over *)

Ltac handed_over :=
  let cid := open_constr:(_ : string) in let other := open_constr:(_ : string) in
  eexists _, (mk_Req (fun k => if String.eqb k "circleID" then cid else other) (fun _ => other) _ _ _ _ _ _ _ _ _ _ _ _ _ _ _ _ _);
  lazy; split; reflexivity.

Lemma routes_complete route : Exists (fun e => exists h q, en_handler e = Rest h /\ h q = route) (routes false).
Proof.
  set (entries := routes false). vm_compute in entries. subst entries.
  destruct route as [| | | | |[| | | | | | | |cid cr| | | | | | | | | | | |]]; try destruct cr;
    repeat first [apply Exists_cons_hd; handed_over | apply Exists_cons_tl].
  Unshelve. all: first [exact "" | exact [] | exact None | exact (Err "")].
Qed.

Lemma routes_metrics e : e ∈ routes true <-> e ∈ routes false \/ e = mk_entry [] "GET" [Lit "metrics"] Metrics.
Proof.
  unfold routes, Router_decls. rewrite !bind_app, !elem_of_app.
  assert (forall A (f : A -> list entry) x, [x] ≫= f = f x ++ []) as Hone by done.
  rewrite Hone, app_nil_r. change ([] ≫= _) with (@nil entry). cbn [entries_of app]. rewrite list_elem_of_singleton, elem_of_nil. tauto.
Qed.

(** C23: the table that the mount functions declare to chi is the server that the
    other theorems are about.  At most one entry answers a method and a path, so
    no order of declarations matters; the guards of a REST entry, run around its
    handler, are [serve] at the route the entry hands over, so that a route that
    loses its RequireAuth, its requireCircleMember or its limiter, or is given another
    limiter than its own, is noticed; a
    REST entry runs under the timeout, and demands a session unless it is one of
    the five public ones; the realtime endpoint, which outlives any timeout, runs
    under none; every request that [serve] treats is handed over by an entry; and
    the metrics are declared in a deployment that enables them, and add nothing
    else. *)
Theorem declared_routes_served `{Ext} (d : Deployment) (r : Request) (allow : LimiterName -> bool) (metrics : bool) :
  (forall method path e q, e ∈ routes metrics -> fits_entry method path e ->
     (forall f, f ∈ routes metrics -> fits_entry method path f -> f = e) /\ guarded d r allow q e) /\
  (forall route, exists e h q, e ∈ routes metrics /\ en_handler e = Rest h /\ h q = route) /\
  (forall e, e ∈ routes true <-> e ∈ routes false \/ e = mk_entry [] "GET" [Lit "metrics"] Metrics).
Proof.
  split_and!; [| |exact routes_metrics].
  - intros method path e q He Hfit. split; [|by apply (proj1 (Forall_forall _ _) (routes_guarded d r allow q metrics))].
    intros f Hf Hfit'. apply list_elem_of_lookup in He as [i Hi], Hf as [j Hj].
    pose proof (routes_unambiguous _ _ _ _ _ _ _ Hi Hj Hfit Hfit') as <-. congruence.
  - intros route. destruct (proj1 (Exists_exists _ _) (routes_complete route)) as (e & He & h & q & Hh & Hq).
    exists e, h, q. split_and!; [|done|done]. destruct metrics; [apply routes_metrics; by left|done].
Qed.

Lemma declared_routes_served_witness :
  let e := mk_entry [UseTimeout; UseRequireAuth] "GET" [Lit "v1"; Lit "account"; Lit "me"] (Rest (authed (fun _ => GetMe))) in
  Forall (fun f => fits_entry "GET" ["v1"; "account"; "me"] f -> f = e) (routes true).
Proof.
  intros e. apply Forall_forall. intros f Hf Hfit.
  assert (e ∈ routes true) as He by (apply (list_elem_of_lookup_2 _ 7); vm_compute; reflexivity).
  assert (fits_entry "GET" ["v1"; "account"; "me"] e) as Hfite by done.
  exact (proj1 (proj1 (@declared_routes_served demo_ext (mkDeployment demo_cfg demo_dummyHash (mkChannels true true) (fun _ => Delivered))
    (mkRequest "" None "203.0.113.7") (fun _ => true) true) _ _ _
    (mk_Req (fun _ => "") (fun _ => "") [] None (Err "") (Err "") (Err "") (Err "") (Err "") (Err "") (Err "") (Err "") (Err "") None
       (Err "") (Err "") (Err "") (Err "") None) He Hfite) f Hf Hfit).
Defined.
