(* ===== verification/Throttle.v ===== *)
(** * The limiters of the server (ratelimit.go's constructors, main.go, httpapi.NewServer)

    The seven limiters that main.go builds, the [Noop] that NewServer puts in the
    place of a missing one, and the requests they stand in front of.  The token
    bucket is golang.org/x/time/rate: a class with its operations, and a class
    with what its documentation says of them, in the unit in which a token is the
    period of the rate. *)

From S2P Require Import Prelude GoTime Ratelimit Models Api Ext World Hub Password Auth Server AuthApi Router Routes Demo.
Local Open Scope Z_scope.

Class TokenBucket := {
  tb : Type;
  tb_New : Z -> duration -> tb;             (** [n] tokens, at [n] per period *)
  tb_AllowN : tb -> time -> bool * tb       (** AllowN(now, 1) *)
}.

(** "A Limiter [...] implements a token bucket of size b, initially full and
    refilled at rate r tokens per second." *)
Class TokenBucketLaws `{TokenBucket} := {
  tb_rate : tb -> Z * duration;
  tb_level : tb -> time -> Z;
  rate_New n period : tb_rate (tb_New n period) = (n, period);
  rate_AllowN l now : tb_rate (snd (tb_AllowN l now)) = tb_rate l;
  level_New n period t : tb_level (tb_New n period) t = n * period;
  level_AllowN l now : fst (tb_AllowN l now) = bool_decide ((tb_rate l).2 <= tb_level l now);
  level_refill l now t : now <= t ->
    tb_level (snd (tb_AllowN l now)) t =
      Z.min ((tb_rate l).1 * (tb_rate l).2)
        (tb_level l now - (if fst (tb_AllowN l now) then (tb_rate l).2 else 0) + (tb_rate l).1 * (t - now))
}.

Section throttle.
Context `{TokenBucket}.

(** ** ratelimit.go: constructors and the interface *)

Record rated := mk_rated { rt_n : Z; rt_period : duration; rt_limiter : KeyedLimiter (Limiter := tb) }.

Definition NewPerMinute (n : Z) (ttl : duration) : rated := mk_rated n Minute (NewLimiter ttl).
Definition NewPerHour (n : Z) (ttl : duration) : rated := mk_rated n Hour (NewLimiter ttl).

Inductive limiter := Keyed (l : rated) | Noop.

Definition Allow_keyed (now : time) (key : string) (l : rated) : bool * rated :=
  let '(ok, k) := Allow (tb_New (rt_n l) (rt_period l)) tb_AllowN now key (rt_limiter l) in
  (ok, mk_rated (rt_n l) (rt_period l) k).

Definition limiter_Allow (now : time) (key : string) (l : limiter) : bool * limiter :=
  match l with
  | Keyed k => let '(ok, k') := Allow_keyed now key k in (ok, Keyed k')
  | Noop => (true, Noop)
  end.

(** A tick of [StartJanitor]. *)
Definition janitor (now : time) (l : limiter) : limiter :=
  match l with
  | Keyed k => Keyed (mk_rated (rt_n k) (rt_period k) (cleanup now (rt_limiter k)))
  | Noop => Noop
  end.

(** ** httpapi.NewServer *)

Record Limiters (A : Type) := mk_Limiters {
  AuthLimiter : A; InviteLimiter : A; PingLimiter : A; KeyEnvLimiter : A;
  WSLimiter : A; NotifyLimiter : A; ShareLimiter : A }.
#[global] Arguments mk_Limiters {A}.
#[global] Arguments AuthLimiter {A}.
#[global] Arguments InviteLimiter {A}.
#[global] Arguments PingLimiter {A}.
#[global] Arguments KeyEnvLimiter {A}.
#[global] Arguments WSLimiter {A}.
#[global] Arguments NotifyLimiter {A}.
#[global] Arguments ShareLimiter {A}.

(** The field of a limiter's name. *)
Definition limiter_named {A} (n : LimiterName) (ls : Limiters A) : A :=
  match n with
  | authLimiter => AuthLimiter ls | inviteLimiter => InviteLimiter ls | pingLimiter => PingLimiter ls
  | keyEnvLimiter => KeyEnvLimiter ls | wsLimiter => WSLimiter ls | notifyLimiter => NotifyLimiter ls
  | shareLimiter => ShareLimiter ls
  end.

Definition orNoop (l : option limiter) : limiter := default Noop l.

Definition NewServer (d : Limiters (option limiter)) : Limiters limiter :=
  mk_Limiters (orNoop (AuthLimiter d)) (orNoop (InviteLimiter d)) (orNoop (PingLimiter d)) (orNoop (KeyEnvLimiter d))
    (orNoop (WSLimiter d)) (orNoop (NotifyLimiter d)) (orNoop (ShareLimiter d)).

(** ** main.go *)

Definition main_limiters (cfg : Config) : Limiters (option limiter) :=
  let on l := Some (Keyed l) in
  mk_Limiters
    (on (NewPerMinute (cfg_AuthRatePerMin cfg) (10 * Minute)))
    (on (NewPerHour (cfg_InvitesRatePerHr cfg) (2 * Hour)))
    (on (NewPerMinute (cfg_PingRatePerMin cfg) (10 * Minute)))
    (on (NewPerMinute 30 (10 * Minute)))
    (on (NewPerMinute 30 (10 * Minute)))
    (on (NewPerMinute 60 (10 * Minute)))
    (on (NewPerHour 30 (2 * Hour))).

(** ** Traffic of the routes that take a password or a refresh token *)

Inductive AuthRoute :=
| RegisterWith (body : decoded registerReq)
| LoginWith (body : decoded loginReq)
| RefreshWith (body : option (decoded string)) (cookie : option string).

Definition route_of (a : AuthRoute) : Route :=
  match a with
  | RegisterWith body => PostRegister body
  | LoginWith body => PostLogin body
  | RefreshWith body cookie => PostRefresh body cookie
  end.

Inductive traffic := Hit (now : time) (r : Request) (a : AuthRoute) | Sweep (now : time).

Definition traffic_time (e : traffic) : time := match e with Hit now _ _ => now | Sweep now => now end.

(** What is handed to the server, request by request: the request, whether the
    limiter let it pass, and the program that answers it. *)
Fixpoint served `{Ext} (d : Deployment) (l : limiter) (es : list traffic) : list (Request * bool * prog response) :=
  match es with
  | [] => []
  | Hit now r a :: es' =>
      let '(ok, l') := limiter_Allow now (byIP r) l in
      (r, ok, serve d r ok (route_of a)) :: served d l' es'
  | Sweep now :: es' => served d (janitor now l) es'
  end.

(** The limiter after some traffic. *)
Definition after (l : limiter) (es : list traffic) : limiter :=
  foldl (fun l e => match e with Hit now r _ => snd (limiter_Allow now (byIP r) l) | Sweep now => janitor now l end) l es.
End throttle.
#[global] Arguments mk_rated {_}.

(** ** What the limiters guarantee

    The levels of a limiter's buckets follow the documented token bucket whatever
    the janitor evicts, because an evicted bucket has had the time to fill up:
    the janitor is invisible, and in any window of time no key gets more than a
    burst and what the window refills. *)

Section limiter.
Context `{TokenBucketLaws}.
Context (n : Z) (period : duration) (Hn : 0 < n) (Hp : 0 < period).
Local Notation cap := (n * period).
Local Notation level := tb_level.
Local Notation KL := (KeyedLimiter (Limiter := tb)).
Local Notation new := (tb_New n period).

(** A bucket last used at some instant was left with [a] there, and has refilled
    since. *)
Definition refilling (b : bucket (Limiter := tb)) : Prop :=
  tb_rate (bk_lim b) = (n, period) /\
  exists a, 0 <= a <= cap /\ forall t, bk_lastSeen b <= t -> level (bk_lim b) t = Z.min cap (a + n * (t - bk_lastSeen b)).

Definition sound (k : KL) (now : time) : Prop :=
  forall key b, kl_buckets k !! key = Some b -> bk_lastSeen b <= now /\ refilling b.

(** What [key] has at an instant; a key without a bucket has all of it. *)
Definition tokens (k : KL) (key : string) (t : time) : Z :=
  match kl_buckets k !! key with Some b => level (bk_lim b) t | None => cap end.

Lemma tokens_grow k now key t t' : sound k now -> now <= t <= t' ->
  0 <= tokens k key t <= cap /\ tokens k key t' = Z.min cap (tokens k key t + n * (t' - t)).
Proof.
  intros Hs Ht. unfold tokens. destruct (kl_buckets k !! key) as [b|] eqn:Hb; [|split; nia].
  destruct (Hs _ _ Hb) as [Hl (_ & a & Ha & Hlev)]. rewrite !Hlev by lia. split; [nia|].
  replace (a + n * (t' - bk_lastSeen b)) with (a + n * (t - bk_lastSeen b) + n * (t' - t)) by lia. nia.
Qed.

Lemma sound_later k now now' : sound k now -> now <= now' -> sound k now'.
Proof. intros Hs Hle key b Hb. destruct (Hs key b Hb). split; [lia|done]. Qed.

Lemma sound_new ttl now : sound (NewLimiter ttl) now.
Proof. intros key b Hb. cbn in Hb. by rewrite lookup_empty in Hb. Qed.

(** A request takes a token if there is one. *)
Lemma Allow_tokens k now now' key : sound k now -> now <= now' ->
  let '(ok, k') := Allow new tb_AllowN now' key k in
  ok = bool_decide (period <= tokens k key now') /\ sound k' now' /\
  (forall t, now' <= t -> tokens k' key t = Z.min cap (tokens k key now' - (if ok then period else 0) + n * (t - now'))) /\
  (forall key', key' <> key -> kl_buckets k' !! key' = kl_buckets k !! key').
Proof.
  intros Hs Hle. unfold Allow. set (b := default (mkBucket new now') (kl_buckets k !! key)).
  assert (tokens k key now' = level (bk_lim b) now') as Htok.
  { unfold tokens, b. destruct (kl_buckets k !! key); cbn; [done|by rewrite level_New]. }
  assert (tb_rate (bk_lim b) = (n, period)) as Hrate.
  { unfold b. destruct (kl_buckets k !! key) as [b'|] eqn:Hb; [|apply rate_New]. by destruct (Hs _ _ Hb) as [_ [? _]]. }
  pose proof (level_AllowN (bk_lim b) now') as Hok. pose proof (level_refill (bk_lim b) now') as Hre.
  pose proof (rate_AllowN (bk_lim b) now') as Hrate'. rewrite Hrate in Hok, Hre, Hrate'.
  destruct (tb_AllowN (bk_lim b) now') as [ok lim'] eqn:Ha. cbn [fst snd] in Hok, Hre, Hrate'. rewrite <- Htok in Hok, Hre.
  assert (forall t, now' <= t -> level lim' t = Z.min cap (tokens k key now' - (if ok then period else 0) + n * (t - now'))) as Hlev by exact Hre.
  assert (0 <= tokens k key now' - (if ok then period else 0) <= cap) as Hrange.
  { pose proof (proj1 (tokens_grow k now key now' now' Hs ltac:(lia))). rewrite Hok. case_bool_decide; lia. }
  split_and!.
  - exact Hok.
  - intros key' b' Hb'. cbn in Hb'. apply lookup_insert_Some in Hb' as [[-> <-]|[_ Hb']]; [|exact (sound_later k now now' Hs Hle key' b' Hb')].
    cbn. split; [lia|]. split; [exact Hrate'|]. eexists. split; [exact Hrange|exact Hlev].
  - intros t Ht. unfold tokens at 1. cbn. rewrite lookup_insert_eq. by apply Hlev.
  - intros key' Hne. cbn. by rewrite lookup_insert_ne.
Qed.

(** The janitor takes nothing away: what it evicts has had its lifetime to fill up. *)
Lemma cleanup_tokens k now now' : sound k now -> now <= now' -> period <= kl_ttl k ->
  sound (cleanup now' k) now' /\ forall key t, now' <= t -> tokens (cleanup now' k) key t = tokens k key t.
Proof.
  intros Hs Hle Httl. split.
  - intros key b [Hb _]%map_lookup_filter_Some. exact (sound_later k now now' Hs Hle key b Hb).
  - intros key t Ht. unfold tokens, cleanup. cbn [kl_buckets].
    destruct (kl_buckets k !! key) as [b|] eqn:Hb.
    + destruct (decide (bk_lastSeen b < Add now' (- kl_ttl k))) as [Hd|Hd].
      * rewrite (proj2 (map_lookup_filter_None _ _ _)); [|right; intros x Hx; simplify_eq/=; tauto].
        destruct (Hs _ _ Hb) as [_ (_ & a & Ha & ->)]; [|unfold Add in Hd; lia]. unfold Add in Hd. nia.
      * by rewrite (proj2 (map_lookup_filter_Some _ _ _ b)).
    + rewrite (proj2 (map_lookup_filter_None _ _ _)); auto.
Qed.

(** ** Histories *)

(** The clock does not go back. *)
Fixpoint ordered (from : time) (l : list event) : Prop :=
  match l with [] => True | e :: l' => from <= event_time e /\ ordered (event_time e) l' end.

Lemma ordered_app from l l' : ordered from (l ++ l') -> ordered from l /\ exists now, from <= now /\ ordered now l' /\ Forall (fun e => event_time e <= now) l.
Proof.
  revert from. induction l as [|e l IH]; intros from Ho; cbn in *; [split; [done|by exists from]|].
  destruct Ho as [Hle Ho]. destruct (IH _ Ho) as (Hl & now & Hn' & Ho' & Hall). split; [done|]. exists now. split_and!; [lia|done|by constructor].
Qed.

(** The answers to the requests of a history, with their keys, and the state after it. *)
Fixpoint answers (k : KL) (l : list event) : list (string * bool) :=
  match l with
  | [] => []
  | Ratelimit.Request now key :: l' => let '(ok, k') := Allow new tb_AllowN now key k in (key, ok) :: answers k' l'
  | Janitor now :: l' => answers (cleanup now k) l'
  end.

Definition is_request (e : event) : bool := match e with Ratelimit.Request _ _ => true | Janitor _ => false end.
Definition passed (key : string) (l : list (string * bool)) : list (string * bool) := filter (fun x => x = (key, true)) l.

Lemma apply_sound k from e : sound k from -> from <= event_time e -> period <= kl_ttl k -> sound (apply new tb_AllowN k e) (event_time e).
Proof.
  intros Hs Hle Httl. destruct e as [now key|now]; cbn in *; [|by eapply cleanup_tokens].
  pose proof (Allow_tokens k from now key Hs Hle) as Ha. destruct (Allow _ _ _ _ _). by destruct Ha as (_ & ? & _).
Qed.

Lemma history_sound l k from now : sound k from -> from <= now -> ordered from l -> period <= kl_ttl k -> Forall (fun e => event_time e <= now) l ->
  sound (foldl (apply new tb_AllowN) k l) now.
Proof.
  revert k from. induction l as [|e l IH]; intros k from Hs Hle Ho Httl Hall; cbn in *; [by eapply sound_later|].
  destruct Ho as [Hle' Ho]. apply Forall_cons in Hall as [He Hall].
  eapply IH; [by eapply apply_sound|done|done|by rewrite apply_ttl|done].
Qed.

(** Two limiters with the same tokens answer alike, whatever the janitor of the
    first evicts on the way. *)
Lemma janitor_invisible l k k' from : sound k from -> sound k' from -> period <= kl_ttl k ->
  (forall key t, from <= t -> tokens k key t = tokens k' key t) -> ordered from l ->
  answers k l = answers k' (List.filter is_request l).
Proof.
  revert k k' from. induction l as [|[now key|now] l IH]; intros k k' from Hs Hs' Httl Heq Ho; [done| |].
  - destruct Ho as [Hle Ho]. cbn in *.
    pose proof (Allow_tokens k from now key Hs Hle) as Ha. pose proof (Allow_tokens k' from now key Hs' Hle) as Ha'.
    pose proof (apply_ttl new tb_AllowN k (Ratelimit.Request now key)) as Ht. cbn in Ht.
    destruct (Allow _ _ _ _ k) as [ok k1], (Allow _ _ _ _ k') as [ok' k1'].
    destruct Ha as (Hok & Hs1 & Ht1 & Hf1), Ha' as (Hok' & Hs1' & Ht1' & Hf1').
    rewrite (Heq key now Hle) in Hok. assert (ok' = ok) as -> by congruence. f_equal. apply (IH _ _ now); [done|done|cbn in Ht; by rewrite Ht| |done].
    intros key' t Hle'. destruct (decide (key' = key)) as [->|Hne].
    + rewrite Ht1, Ht1', Heq by done. done.
    + unfold tokens. rewrite Hf1, Hf1' by done. apply Heq. lia.
  - destruct Ho as [Hle Ho]. cbn in *. destruct (cleanup_tokens k from now Hs Hle Httl) as [Hs1 Ht1].
    apply (IH _ _ now); [done|by eapply sound_later|done| |done]. intros key t Ht. rewrite Ht1 by done. apply Heq. lia.
Qed.

(** What passes is paid for by what was there and what the time refills. *)
Lemma passed_paid l k from until key : sound k from -> ordered from l -> Forall (fun e => event_time e <= until) l -> from <= until ->
  period <= kl_ttl k ->
  Z.of_nat (length (passed key (answers k l))) * period <= tokens k key from + n * (until - from).
Proof.
  revert k from. induction l as [|e l IH]; intros k from Hs Ho Hall Hle Httl.
  { pose proof (proj1 (tokens_grow k from key from from Hs ltac:(lia))). cbn. nia. }
  destruct Ho as [Hle' Ho]. apply Forall_cons in Hall as [He Hall].
  assert (tokens k key (event_time e) <= tokens k key from + n * (event_time e - from)) as Hgrow.
  { destruct (tokens_grow k from key from (event_time e) Hs ltac:(lia)) as [_ ->]. lia. }
  set (now := event_time e) in *. assert (n * (until - from) = n * (now - from) + n * (until - now)) as Hsum by ring.
  destruct e as [now' key'|now']; cbn in now; subst now; rename now' into now; cbn in *.
  - pose proof (Allow_tokens k from now key' Hs Hle') as Ha.
    pose proof (apply_ttl new tb_AllowN k (Ratelimit.Request now key')) as Ht. cbn in Ht.
    destruct (Allow _ _ _ _ k) as [ok k1]. destruct Ha as (Hok & Hs1 & Ht1 & Hf1). cbn in Ht.
    specialize (IH k1 now Hs1 Ho Hall He ltac:(by rewrite Ht)). unfold passed in *. rewrite filter_cons.
    destruct (decide (key' = key)) as [->|Hne].
    + rewrite Ht1 in IH by lia. rewrite Z.sub_diag, Z.mul_0_r in IH.
      set (rest := filter _ (answers k1 l)) in *. clear Hok Ht1 Hf1. destruct ok.
      * rewrite decide_True by done. cbn [length]. rewrite Nat2Z.inj_succ, Z.mul_succ_l. lia.
      * rewrite decide_False by congruence. lia.
    + rewrite decide_False by congruence. unfold tokens at 1 in IH. rewrite Hf1 in IH by done. fold (tokens k key now) in IH. lia.
  - destruct (cleanup_tokens k from now Hs Hle' Httl) as [Hs1 Ht1].
    specialize (IH _ now Hs1 Ho Hall He Httl). unfold passed in *. rewrite Ht1 in IH by lia. lia.
Qed.
End limiter.

(** ** The seven limiters, and the requests behind them *)

Section server.
Context `{TokenBucketLaws} `{Ext} (d : Deployment).

Definition after_events (l : rated) (es : list event) : rated :=
  mk_rated (rt_n l) (rt_period l) (foldl (apply (tb_New (rt_n l) (rt_period l)) tb_AllowN) (rt_limiter l) es).

Definition answers_of (l : rated) (es : list event) : list (string * bool) := answers (rt_n l) (rt_period l) (rt_limiter l) es.

(** At most [n] per period and key: in any stretch of any history, what passes is
    within a burst and the refill of the stretch; and nobody can tell whether the
    janitor ran. *)
Definition throttles (l : limiter) (n : Z) (period : duration) : Prop :=
  exists k, l = Keyed k /\
    (forall from es0 es start until key, ordered from (es0 ++ es) -> start <= until ->
       Forall (fun e => event_time e <= start) es0 -> ordered start es -> Forall (fun e => event_time e <= until) es ->
       Z.of_nat (length (passed key (answers_of (after_events k es0) es))) * period <= n * (period + (until - start))) /\
    (forall from es, ordered from es -> answers_of k es = answers_of k (List.filter is_request es)).

Lemma history_ttl' n period k es : kl_ttl (foldl (apply (tb_New n period) tb_AllowN) k es) = kl_ttl k.
Proof. apply history_ttl. Qed.

Lemma fresh_throttles n period ttl : 0 < n -> 0 < period -> period <= ttl ->
  throttles (Keyed (mk_rated n period (NewLimiter ttl))) n period.
Proof.
  intros Hn Hp Httl. eexists. split; [done|]. unfold answers_of, after_events. cbn. split.
  - intros from es0 es start until key [Ho0 _]%ordered_app Hle Hall0 Ho Hall.
    assert (exists from', from' <= start /\ ordered from' es0) as (from' & Hle' & Ho0').
    { destruct (decide (from <= start)); [by exists from|]. exists start. split; [lia|]. destruct es0 as [|e es0]; [done|].
      apply Forall_cons in Hall0 as [He _]. cbn in Ho0. lia. }
    assert (sound n period (foldl (apply (tb_New n period) tb_AllowN) (NewLimiter ttl) es0) start) as Hs.
    { eapply (history_sound n period Hn Hp es0 _ from'); [apply sound_new|done|done|done|done]. }
    pose proof (passed_paid n period Hn Hp es _ start until key Hs Ho Hall Hle ltac:(by rewrite history_ttl)) as Hpaid.
    pose proof (proj1 (tokens_grow n period Hn Hp _ start key start start Hs ltac:(lia))). lia.
  - intros from es Ho. by eapply (janitor_invisible n period Hn Hp _ _ _ from); [apply sound_new|apply sound_new|..].
Qed.

(** The history that some traffic is to the limiter. *)
Definition event_of (e : traffic) : event :=
  match e with Hit now r _ => Ratelimit.Request now (byIP r) | Sweep now => Janitor now end.

Definition limited : response :=
  mk_response 429 (BError CodeRateLimited "rate limit exceeded, slow down") [] (Some 60).

Lemma served_answers k es : (fun x => (byIP x.1.1, x.1.2)) <$> served d (Keyed k) es = answers_of k (event_of <$> es).
Proof.
  revert k. induction es as [|[now r a|now] es IH]; intros k; [done| |]; cbn.
  - unfold Allow_keyed, answers_of in *. cbn. destruct (Allow _ _ _ _ _) as [ok k']. cbn. f_equal. by apply (IH (mk_rated _ _ _)).
  - by apply (IH (mk_rated _ _ _)).
Qed.

(** A request that the limiter refuses reaches no handler. *)
Lemma served_limited l es r p : (r, false, p) ∈ served d l es -> p = Ret limited.
Proof.
  revert l. induction es as [|[now r' a|now] es IH]; intros l; cbn; [by intros ?%elem_of_nil| |by apply IH].
  destruct (limiter_Allow now (byIP r') l) as [ok l']. intros [[= <- <- ->]|Hin]%elem_of_cons; [|by eapply IH].
  by destruct a.
Qed.

Lemma after_answers k es : after (Keyed k) es = Keyed (after_events k (event_of <$> es)).
Proof.
  revert k. induction es as [|[now r a|now] es IH]; intros [n period k]; [done| |]; unfold after in *; cbn.
  - unfold Allow_keyed. cbn. destruct (Allow _ _ _ _ _) as [ok k'] eqn:Ha. cbn. rewrite IH. unfold after_events. cbn. by rewrite Ha.
  - by rewrite IH.
Qed.

Lemma passed_served ip (s : list (Request * bool * prog response)) :
  length (passed (byIP (mkRequest EmptyString None ip)) ((fun x => (byIP x.1.1, x.1.2)) <$> s)) =
  length (filter (fun x => rq_RealIP x.1.1 = ip /\ x.1.2 = true) s).
Proof.
  unfold passed. induction s as [|[[r ok] p] s IH]; [done|]. rewrite fmap_cons, !filter_cons. cbn.
  assert ((byIP r, ok) = (byIP (mkRequest EmptyString None ip), true) <-> rq_RealIP r = ip /\ ok = true) as Hiff.
  { split; [intros [= He ->]|intros [<- ->]]; [|done]. by split. }
  repeat case_decide; cbn; rewrite ?IH; tauto || done.
Qed.

(** The rates that are configured, and those that are not. *)
Definition rate_of (cfg : Config) (n : LimiterName) : Z * duration :=
  match n with
  | authLimiter => (cfg_AuthRatePerMin cfg, Minute)
  | inviteLimiter => (cfg_InvitesRatePerHr cfg, Hour)
  | pingLimiter => (cfg_PingRatePerMin cfg, Minute)
  | keyEnvLimiter | wsLimiter => (30, Minute)
  | notifyLimiter => (60, Minute)
  | shareLimiter => (30, Hour)
  end.

(** C24: every limiter of the server throttles at the rate it was configured with:
    in any stretch of any history, whatever the janitor evicted before and
    meanwhile and whatever other keys ask for, a key is let through at most as
    often as a burst and the refill of the stretch allow, and without the janitor
    every answer would be the same.  So the requests that try a password or a
    refresh token from one address reach a handler at most [n] times in an
    instant, twice that in a minute; the others are answered 429 with nothing
    done. *)
Theorem requests_throttled (Hauth : 1 <= cfg_AuthRatePerMin (dp_cfg d)) (Hinv : 1 <= cfg_InvitesRatePerHr (dp_cfg d))
    (Hping : 1 <= cfg_PingRatePerMin (dp_cfg d)) :
  let ls := NewServer (main_limiters (dp_cfg d)) in
  (forall name, throttles (limiter_named name ls) (rate_of (dp_cfg d) name).1 (rate_of (dp_cfg d) name).2) /\
  (forall from es0 es start until ip, ordered from (event_of <$> (es0 ++ es)) -> start <= until ->
     Forall (fun e => traffic_time e <= start) es0 -> ordered start (event_of <$> es) ->
     Forall (fun e => traffic_time e <= until) es ->
     let s := served d (after (limiter_named authLimiter ls) es0) es in
     Z.of_nat (length (filter (fun x => rq_RealIP x.1.1 = ip /\ x.1.2 = true) s)) * Minute <=
       cfg_AuthRatePerMin (dp_cfg d) * (Minute + (until - start)) /\
     (forall r p, (r, false, p) ∈ s -> p = Ret limited)).
Proof.
  intros ls. assert (forall name, throttles (limiter_named name ls) (rate_of (dp_cfg d) name).1 (rate_of (dp_cfg d) name).2) as Hall.
  { intros []; apply fresh_throttles; done || cbn; lia. }
  split; [exact Hall|]. intros from es0 es start until ip Ho Hle Hall0 Ho' Hall1 s. split; [|intros r p; apply served_limited].
  destruct (Hall authLimiter) as (k & Hk & Hbound & _). subst s. rewrite Hk.
  rewrite after_answers, <- passed_served, served_answers.
  apply (Hbound from); [by rewrite <- fmap_app|done| |done|]; apply Forall_fmap;
    (eapply Forall_impl; [eassumption|]); by intros [].
Qed.
End server.

(** ** A bucket *)

(** What was left and when; a new bucket is full. *)
Record demo_tb := mk_demo_tb { dt_n : Z; dt_period : duration; dt_last : option (Z * time) }.

Definition demo_level (l : demo_tb) (t : time) : Z :=
  match dt_last l with
  | None => dt_n l * dt_period l
  | Some (a, t0) => Z.min (dt_n l * dt_period l) (a + dt_n l * (t - t0))
  end.

#[export] Instance demo_bucket : TokenBucket := {|
  tb := demo_tb;
  tb_New n period := mk_demo_tb n period None;
  tb_AllowN l now :=
    let ok := bool_decide (dt_period l <= demo_level l now) in
    (ok, mk_demo_tb (dt_n l) (dt_period l) (Some (demo_level l now - (if ok then dt_period l else 0), now)))
|}.

#[export, refine] Instance demo_bucket_laws : TokenBucketLaws := {|
  tb_rate l := (dt_n l, dt_period l);
  tb_level := demo_level
|}.
Proof. all: done. Defined.

(** Eleven attempts in a second, at ten per minute: the eleventh is refused. *)
Definition demo_attempts : list traffic :=
  (fun i : nat => Hit (demo_now + Z.of_nat i * 100 * Millisecond) (mkRequest EmptyString None "203.0.113.7")
     (RefreshWith None None)) <$> seq 0 11.

Lemma requests_throttled_witness :
  let d := mkDeployment demo_cfg demo_dummyHash (mkChannels true true) (fun _ => Delivered) in
  let s := @served demo_bucket demo_ext d (AuthLimiter (NewServer (main_limiters demo_cfg))) demo_attempts in
  snd <$> (fst <$> s) = repeat true 10 ++ [false] /\
  Z.of_nat (length (filter (fun x => rq_RealIP x.1.1 = "203.0.113.7" /\ x.1.2 = true) s)) * Minute <= 10 * (Minute + Second).
Proof.
  intros d s. split; [vm_compute; reflexivity|].
  destruct (@requests_throttled _ demo_bucket_laws demo_ext d ltac:(done) ltac:(done) ltac:(done)) as (_ & Hs).
  destruct (Hs demo_now [] demo_attempts demo_now (demo_now + Second) "203.0.113.7") as [Hb _].
  - vm_compute. repeat (split; [discriminate|]). exact Logic.I.
  - vm_compute. discriminate.
  - constructor.
  - vm_compute. repeat (split; [discriminate|]). exact Logic.I.
  - repeat (constructor; [vm_compute; discriminate|]). constructor.
  - change (cfg_AuthRatePerMin (dp_cfg d)) with 10 in Hb. replace (demo_now + Second - demo_now) with Second in Hb by lia. exact Hb.
Defined.
