(* ===== verification/StoreInv.v ===== *)
(** * Invariants of the world, against the store's interface

    [StoreInv I R]: every statement and transaction that writes preserves [I] and
    steps along [R]; the two that a handler must not run unconditionally, the removal
    of a member and the acceptance of an invite, do so where what the handler has
    read allows it.  Under it alone every route and the maintenance pass preserve [I]
    at each of their instants, whatever the others have done in between
    ([serve_safe], [RunOnce_safe]).  The instances say which facts are such
    invariants; those about the tables alone ([on_db J]) need no relation. *)

From S2P Require Import Prelude Table GoTime Base64 Models Api Ext World Hub StoreAccounts.
From S2P Require Import StoreCircles StorePings StoreWf Token Password Auth Server CirclesApi.
From S2P Require Import PlacesApi PingsApi ShareApi AuthApi Retention Router.
Local Open Scope Z_scope.
Local Open Scope aul_scope.

Class StoreInv (I : World -> Prop) (R : World -> World -> Prop) := {
  si_preorder : PreOrder R;
  (** The clock, the hub, the log of computations and the random source move freely;
      so does a transaction that rolls back. *)
  si_env w w' : I w -> w_db w' = w_db w -> w_uuid w' = w_uuid w -> (w_draws w <= w_draws w')%nat -> I w' /\ R w w';
  si_rollback w w' : I w -> R w w' -> I (set_db (w_db w) w') /\ R w (set_db (w_db w) w');

  (** What is known, and stays known, of a membership and an invite that were read:
      of the user, that the removal is harmless; that the user may join. *)
  member_known : CircleMember -> World -> Prop;
  removable : uuid -> uuid -> World -> Prop;
  invite_known : Invite -> World -> Prop;
  outsider : Invite -> uuid -> World -> Prop;
  member_later w w' m : R w w' -> member_known m w -> member_known m w';
  removable_later w w' c u : R w w' -> removable c u w -> removable c u w';
  invite_later w w' i : R w w' -> invite_known i w -> invite_known i w';
  outsider_later w w' i u : R w w' -> outsider i u w -> outsider i u w';
  si_GetMembership w c u m w' : I w -> GetMembership c u w = (Ok m, w') -> member_known m w';
  si_member_leaves w m : member_known m w -> CircleMember_Role m <> "owner"%string ->
    removable (CircleMember_CircleID m) (CircleMember_UserID m) w;
  si_owner_removes w m u : member_known m w -> CircleMember_Role m = "owner"%string -> u <> CircleMember_UserID m ->
    removable (CircleMember_CircleID m) u w;
  si_owner_leaves w m n w' : I w -> member_known m w -> CountOwners (CircleMember_CircleID m) w = (Ok n, w') -> 1 < n ->
    removable (CircleMember_CircleID m) (CircleMember_UserID m) w';
  si_GetInvite w i inv w' : I w -> GetInvite i w = (Ok inv, w') -> Invite_ID inv = i /\ invite_known inv w';
  si_not_member w i u e w' : I w -> invite_known i w -> GetMembership (Invite_CircleID i) u w = (Err e, w') ->
    IsNotFound e = true -> outsider i u w';
  si_RemoveMember w c u : I w -> removable c u w ->
    I (snd (RemoveMember c u w)) /\ R w (snd (RemoveMember c u w));
  si_accept_tx w i u : I w -> outsider i u w ->
    I (snd (accept_tx (Invite_ID i) u w)) /\ R w (snd (accept_tx (Invite_ID i) u w));

  si_CreateUser e p : keeps I R (CreateUser e p);
  si_UpdateUserPassword i p : keeps I R (UpdateUserPassword i p);
  si_CreateDevice u p n k : keeps I R (CreateDevice u p n k);
  si_SetDevicePubkey i k : keeps I R (SetDevicePubkey i k);
  si_TouchDevice i : keeps I R (TouchDevice i);
  si_CreateSession u d a r ae re : keeps I R (CreateSession u d a r ae re);
  si_RotateSession i a r o ae re : keeps I R (RotateSession i a r o ae re);
  si_RevokeSession i : keeps I R (RevokeSession i);
  si_RevokeSessionsForDevice i : keeps I R (RevokeSessionsForDevice i);
  si_DeleteExpiredSessions : keeps I R DeleteExpiredSessions;
  si_RecordLoginAttempt e i s : keeps I R (RecordLoginAttempt e i s);
  si_PruneLoginAttempts n : keeps I R (PruneLoginAttempts n);
  si_WriteAudit e u d c i t : keeps I R (WriteAudit e u d c i t);
  si_PruneAuditIPs n : keeps I R (PruneAuditIPs n);
  si_UpsertPushSubscription u d e p a k : keeps I R (UpsertPushSubscription u d e p a k);
  si_DeletePushSubscription e u : keeps I R (DeletePushSubscription e u);
  si_DeletePushSubscriptionByID i : keeps I R (DeletePushSubscriptionByID i);
  si_UpsertAppVersion p c n u s l m : keeps I R (UpsertAppVersion p c n u s l m);
  si_create_circle_tx n d u : keeps I R (create_circle_tx n d u);
  si_UpdateCircleName c n : keeps I R (UpdateCircleName c n);
  si_UpdateCircleRetention c n : keeps I R (UpdateCircleRetention c n);
  si_BumpCircleKeyEpoch c : keeps I R (BumpCircleKeyEpoch c);
  si_DeleteCircle c : keeps I R (DeleteCircle c);
  si_SetMemberProfile c u p : keeps I R (SetMemberProfile c u p);
  si_SetPrecisionMode c u p : keeps I R (SetPrecisionMode c u p);
  si_CreateInvite c u r m e : keeps I R (CreateInvite c u r m e);
  si_RevokeInvite i c : keeps I R (RevokeInvite i c);
  si_CreateKeyEnvelope c r s t k : keeps I R (CreateKeyEnvelope c r s t k);
  si_MarkEnvelopeConsumed i r : keeps I R (MarkEnvelopeConsumed i r);
  si_PruneKeyEnvelopes : keeps I R PruneKeyEnvelopes;
  si_CreateSOS c d t : keeps I R (CreateSOS c d t);
  si_ResolveSOS i u c : keeps I R (ResolveSOS i u c);
  si_PruneResolvedSOS t : keeps I R (PruneResolvedSOS t);
  si_CreatePlace c t a : keeps I R (CreatePlace c t a);
  si_UpdatePlace i t u c v : keeps I R (UpdatePlace i t u c v);
  si_SoftDeletePlace i c u : keeps I R (SoftDeletePlace i c u);
  si_PrunePlaceTombstones t : keeps I R (PrunePlaceTombstones t);
  si_DeleteMutes u c : keeps I R (DeleteMutes u c);
  si_InsertMute u c m : keeps I R (InsertMute u c m);
  si_InsertPing c d i n t p e : keeps I R (InsertPing c d i n t p e);
  si_DeleteExpiredPingsForCircle c d : keeps I R (DeleteExpiredPingsForCircle c d);
  si_PruneStalePings h : keeps I R (PruneStalePings h);
  si_PruneAllPingsBefore t : keeps I R (PruneAllPingsBefore t);
  si_BindShareViewer i t : keeps I R (BindShareViewer i t);
  si_CreateShareSession u e : keeps I R (CreateShareSession u e);
  si_RevokeShareSession i u : keeps I R (RevokeShareSession i u);
  si_UpsertSharePosition i n c t : keeps I R (UpsertSharePosition i n c t);
  si_PruneShareSessions g : keeps I R (PruneShareSessions g)
}.

#[export] Existing Instance si_preorder.
#[export] Hint Extern 1 (PreOrder _) => apply _ : aul.
#[export] Hint Extern 1 (StoreInv _ _) => apply _ : aul.

#[export] Hint Resolve si_CreateUser si_UpdateUserPassword si_CreateDevice si_SetDevicePubkey si_TouchDevice
  si_CreateSession si_RotateSession si_RevokeSession si_RevokeSessionsForDevice si_DeleteExpiredSessions
  si_RecordLoginAttempt si_PruneLoginAttempts si_WriteAudit si_PruneAuditIPs si_UpsertPushSubscription
  si_DeletePushSubscription si_DeletePushSubscriptionByID si_UpsertAppVersion si_create_circle_tx
  si_UpdateCircleName si_UpdateCircleRetention si_BumpCircleKeyEpoch si_DeleteCircle si_SetMemberProfile
  si_SetPrecisionMode si_CreateInvite si_RevokeInvite si_CreateKeyEnvelope si_MarkEnvelopeConsumed
  si_PruneKeyEnvelopes si_CreateSOS si_ResolveSOS si_PruneResolvedSOS si_CreatePlace si_UpdatePlace
  si_SoftDeletePlace si_PrunePlaceTombstones si_DeleteMutes si_InsertMute si_InsertPing
  si_DeleteExpiredPingsForCircle si_PruneStalePings si_PruneAllPingsBefore si_BindShareViewer
  si_CreateShareSession si_RevokeShareSession si_UpsertSharePosition si_PruneShareSessions : aul.

(** An invariant of the tables alone. *)
Definition any (w w' : World) : Prop := True.

#[export] Instance any_preorder : PreOrder any.
Proof. by split. Qed.

Lemma keeps_any {I : World -> Prop} {X} (op : World -> X * World) : pres I op -> keeps I any op.
Proof. intros Hp w Hw. split; [by apply Hp|done]. Qed.

Lemma any_keeps {I : World -> Prop} {X} (op : World -> X * World) : keeps I any op -> pres I op.
Proof. intros Hp w Hw. by apply Hp. Qed.

Section interface.
Context (I : World -> Prop) (R : World -> World -> Prop) `{!StoreInv I R} `{Ext}.
Abbreviation safe_ p := (forall w0, safe I R w0 p).
Abbreviation keeps_ := (keeps I R).

(** ** What every instant that writes no table does *)

Lemma keeps_env {X} (op : World -> X * World) :
  (forall w, w_db (snd (op w)) = w_db w /\ w_uuid (snd (op w)) = w_uuid w /\ (w_draws w <= w_draws (snd (op w)))%nat) ->
  keeps_ op.
Proof. intros Hop w Hw. destruct (Hop w) as (? & ? & ?). by apply si_env. Qed.

Lemma next_fault_env w b w' : next_fault w = (b, w') ->
  w_db w' = w_db w /\ w_uuid w' = w_uuid w /\ w_draws w' = w_draws w.
Proof. unfold next_fault. by repeat case_match; intros [= <- <-]. Qed.

Lemma keeps_query {A} (f : time -> DB -> result error A) : keeps_ (query f).
Proof.
  apply keeps_env. intros w. unfold query, sql. destruct (next_fault w) as [b w1] eqn:Hn.
  apply next_fault_env in Hn as (<- & <- & <-). destruct b; [done|]. by destruct (f _ _).
Qed.

Lemma keeps_uuid : keeps_ uuid_New.
Proof. apply keeps_env. intros w. simpl. split_and!; [done..|lia]. Qed.

Lemma keeps_rand n : keeps_ (rand_Read n).
Proof. apply keeps_env. intros w. simpl. split_and!; [done..|lia]. Qed.

Lemma keeps_now : keeps_ time_Now.
Proof. by apply keeps_env. Qed.

Lemma keeps_hub f : keeps_ (hub f).
Proof. by apply keeps_env. Qed.

Lemma keeps_IDKey pw salt t m p k : keeps_ (IDKey pw salt t m p k).
Proof. by apply keeps_env. Qed.

Lemma keeps_tx {A} (fn : M A) :
  (forall w w0, I w0 -> R w0 w -> I w ->
     match fn w with (Ok _, w') => I w' /\ R w0 w' | (Err _, w') => I (set_db (w_db w0) w') /\ R w0 (set_db (w_db w0) w') end) ->
  forall w, I w -> I (snd (WithTx fn w)) /\ R w (snd (WithTx fn w)).
Proof.
  intros Hf w Hw. unfold WithTx. destruct (next_fault w) as [b w1] eqn:Hn.
  apply next_fault_env in Hn as (Hd & Hu & Hr). destruct (si_env (I := I) (R := R) w w1) as [Hi1 Hr1]; [done..|lia|].
  destruct b; simpl; [done|]. specialize (Hf w1 w Hw Hr1 Hi1). destruct (fn w1) as [[a|e] w2]; [|done].
  destruct Hf as [Hi2 Hr2]. destruct (next_fault w2) as [b2 w3] eqn:Hn2.
  apply next_fault_env in Hn2 as (Hd2 & Hu2 & Hdr2). destruct (si_env (I := I) (R := R) w2 w3) as [Hi3 Hr3]; [done..|lia|].
  assert (R w w3) by (by transitivity w2).
  destruct b2; simpl; [by apply si_rollback|done].
Qed.

Lemma keeps_tx_body {A} (fn : M A) : keeps_ fn -> keeps_ (WithTx fn).
Proof.
  intros Hf. unfold keeps. apply keeps_tx. intros w w0 H0 Hr Hw. destruct (Hf w Hw) as [Hi Hr'].
  assert (R w0 (snd (fn w))) by (by transitivity w).
  destruct (fn w) as [[a|e] w']; [done|]. by apply si_rollback.
Qed.
End interface.

#[export] Hint Resolve keeps_ret keeps_fail keeps_ignore keeps_try keeps_query keeps_uuid keeps_rand keeps_now
  keeps_hub keeps_IDKey : aul.

(** Splits a program, or a compound statement, into its instants. *)
Ltac safe_step :=
  lazymatch goal with
  | |- safe _ _ _ (Ret _) => exact Logic.I
  | |- safe _ _ _ (attempt _ _ _) => apply safe_attempt; [|intros ? ?|intros ? ?]
  | |- safe _ _ _ (do_ _ _) => apply safe_do; [|intros ?]
  | |- safe _ _ _ (check _ _ _) => apply safe_check
  | |- safe _ _ _ (decode _ _ _) => apply safe_decode; [intros ?|intros ?]
  | |- safe _ _ _ (prog_bind _ _) => apply safe_bind; [|intros ? ?]
  | |- safe _ _ _ (match ?x with _ => _ end) => destruct x
  | |- safe _ _ _ (let _ := _ in _) => cbv zeta
  | |- safe _ _ _ _ => first [exact Logic.I | solve [auto with aul]]
  | |- keeps _ _ (M_bind _ _) => apply keeps_bind; [apply _| |intros ?]
  | |- keeps _ _ (ignore _) => apply keeps_ignore
  | |- keeps _ _ (try_ _) => apply keeps_try
  | |- keeps _ _ (WithTx _) => apply keeps_tx_body; [apply _|]
  | |- keeps _ _ (match ?x with _ => _ end) => destruct x
  | |- keeps _ _ _ => first [solve [auto with aul] | apply keeps_query; apply _]
  end.

Ltac solve_safe := repeat safe_step.

Section pieces.
Context (I : World -> Prop) (R : World -> World -> Prop) `{!StoreInv I R} `{Ext}.
Abbreviation safe_ p := (forall w0, safe I R w0 p).
Abbreviation keeps_ := (keeps I R).

Lemma safe_bad msg : safe_ (bad msg).
Proof. done. Qed.

Lemma safe_internal e : safe_ (internal e).
Proof. done. Qed.

Lemma keeps_audit cfg e : keeps_ (audit_Log cfg e).
Proof. unfold audit_Log. solve_safe. Qed.

Lemma keeps_attempt_row cfg e i s : keeps_ (recordAttempt cfg e i s).
Proof. unfold recordAttempt. solve_safe. Qed.

Lemma keeps_publish ty c p : keeps_ (publish ty c p).
Proof. unfold publish. solve_safe. Qed.

Lemma keeps_GenerateToken : keeps_ GenerateToken.
Proof. unfold GenerateToken. solve_safe. Qed.
End pieces.

#[export] Hint Resolve keeps_audit keeps_attempt_row keeps_publish keeps_GenerateToken : aul.

Section services.
Context (I : World -> Prop) (R : World -> World -> Prop) `{!StoreInv I R} `{Ext}.
Abbreviation safe_ p := (forall w0, safe I R w0 p).
Abbreviation keeps_ := (keeps I R).

Lemma keeps_HashPassword pw p : keeps_ (HashPasswordWithParams pw p).
Proof. unfold HashPasswordWithParams. solve_safe. Qed.

Lemma keeps_crypto_VerifyPassword e pw : keeps_ (crypto_VerifyPassword e pw).
Proof. unfold crypto_VerifyPassword. solve_safe. Qed.

Lemma keeps_issueSession cfg u d : keeps_ (issueSession cfg u d).
Proof. unfold issueSession. solve_safe. Qed.

(** A statement whose errors are mapped. *)
Lemma keeps_map_err {A B} (m : M A) (f : error -> error) (k : A -> M B) :
  keeps_ m -> (forall a, keeps_ (k a)) ->
  keeps_ (fun w => match m w with (Err e, w1) => (Err (f e), w1) | (Ok a, w1) => k a w1 end).
Proof.
  intros Hm Hk w Hw. destruct (Hm w Hw) as [Hi Hr]. destruct (m w) as [[a|e] w1]; [|done].
  destruct (Hk a w1 Hi). split; [done|by transitivity w1].
Qed.

Lemma keeps_resolveOrCreateDevice u inp : keeps_ (resolveOrCreateDevice u inp).
Proof.
  unfold resolveOrCreateDevice. destruct (li_DeviceID inp) as [id|]; [|solve_safe].
  intros w Hw. assert (Hq : keeps_ (GetDeviceForUser id (User_ID u))) by (apply keeps_query; apply _).
  specialize (Hq w Hw). destruct (GetDeviceForUser _ _ _) as [[d|e] w1]; [|done].
  destruct Hq as [Hi Hr]. destruct (_ && _); [|done].
  assert (Hs : keeps_ (M_bind (SetDevicePubkey (Device_ID d) (li_Pubkey inp))
    (fun _ => ret (Device_set_Pubkey (li_Pubkey inp) d)))) by solve_safe.
  destruct (Hs w1 Hi). split; [done|by transitivity w1].
Qed.

Lemma safe_checkLockout {A} lp e i (h : error -> prog A) k :
  (forall e, safe_ (h e)) -> (forall s, safe_ (k s)) -> safe_ (checkLockout lp e i h k).
Proof. intros Hh Hk w0. unfold checkLockout. solve_safe; auto. Qed.

Lemma keeps_Resolve cfg t : keeps_ (Resolve cfg t).
Proof.
  unfold Resolve. case_decide; [solve_safe|]. intros w Hw.
  assert (Hq : keeps_ (GetSessionByAccessHash (HashToken (cfg_SessionPepper cfg) t))) by (apply keeps_query; apply _).
  specialize (Hq w Hw). by destruct (GetSessionByAccessHash _ _) as [[s|e] w1].
Qed.
End services.

#[export] Hint Resolve keeps_HashPassword keeps_issueSession keeps_crypto_VerifyPassword keeps_resolveOrCreateDevice keeps_Resolve : aul.

(** ** Handlers *)
Section handlers.
Context (I : World -> Prop) (R : World -> World -> Prop) `{!StoreInv I R} `{Ext}.
Abbreviation safe_ p := (forall w0, safe I R w0 p).
Abbreviation keeps_ := (keeps I R).
Implicit Types (cfg : Config) (a : Auth) (m : CircleMember) (ip : string).

Lemma Register_safe cfg inp : safe_ (Register cfg inp).
Proof. intros w0. unfold Register. solve_safe. Qed.

Lemma Login_safe sv inp : safe_ (Login sv inp).
Proof. intros w0. unfold Login. solve_safe. apply safe_checkLockout; [apply _|done|]. intros lock w1. solve_safe. Qed.

Lemma Refresh_safe cfg t ip : safe_ (Refresh cfg t ip).
Proof. intros w0. unfold Refresh. solve_safe. Qed.

Lemma auth_safe d r allow route :
  match route with PostRegister _ | PostLogin _ | PostRefresh _ _ => safe_ (serve d r allow route) | _ => True end.
Proof.
  destruct route; try done; intros w0; simpl; unfold RateLimit; case_match; try done.
  - unfold handleRegister. solve_safe; [apply Register_safe|unfold answer_auth; solve_safe].
  - unfold handleLogin. solve_safe; [apply Login_safe|unfold answer_auth; solve_safe].
  - unfold handleRefresh. solve_safe; [apply Refresh_safe|unfold answer_auth; solve_safe].
Qed.

Lemma checkMember_safe u c mo k : (forall g b, safe_ (k g b)) -> safe_ (checkMember u c mo k).
Proof.
  intros Hk w0. unfold checkMember. destruct (mo !! c); [apply Hk|].
  apply safe_act; [apply keeps_query; apply _|]. intros [x|e] w; [apply Hk|]. case_match; [apply Hk|done].
Qed.

Lemma prepare_all_safe a o f i mo l k : (forall items, safe_ (k items)) -> safe_ (prepare_all a o f i mo l k).
Proof.
  revert i mo k. induction l as [|p l IH]; intros i mo k Hk w0; simpl; [apply Hk|].
  destruct (uuid_Parse _); [|done]. apply checkMember_safe. intros g b w1. destruct (negb b); [done|].
  solve_safe; apply IH; auto.
Qed.

Lemma insert_all_keeps items : keeps_ (insert_all items).
Proof. induction items; simpl; unfold insert_prepared; solve_safe. Qed.

Lemma publish_all_safe {A} rows (k : prog A) : safe_ k -> safe_ (publish_all rows k).
Proof. intros Hk. induction rows as [|p l IH]; intros w0; cbn [publish_all]; unfold publishPing; [apply Hk|]. solve_safe; auto. Qed.

Lemma post_envelopes_keeps c e v s i l : keeps_ (post_envelopes c e v s i l).
Proof. revert i. induction l; intros; simpl; unfold post_envelope; solve_safe. Qed.

Lemma insert_mutes_keeps u c l : keeps_ (insert_mutes u c l).
Proof. induction l; simpl; solve_safe. Qed.

Lemma fanOutPush_safe {A} send subs s f (k : Z -> Z -> prog A) :
  (forall x y, safe_ (k x y)) -> safe_ (fanOutPush send subs s f k).
Proof. intros Hk. revert s f. induction subs; intros s f w0; cbn [fanOutPush]; [apply Hk|]. solve_safe; auto. Qed.

Lemma present_safe cfg cookies s (next : ShareSession -> list cookie -> prog response) :
  (forall s l, safe_ (next s l)) -> safe_ (bindShareViewer cfg cookies s next).
Proof.
  intros Hn w0. unfold bindShareViewer. solve_safe; auto.
  apply safe_act; [auto with aul|]. intros [y|e] w9; solve_safe; auto.
Qed.

Hint Resolve insert_all_keeps publish_all_safe post_envelopes_keeps insert_mutes_keeps : aul.

Lemma CountMembersIn_keeps c l : keeps_ (CountMembersIn c l).
Proof. unfold CountMembersIn. solve_safe. Qed.

Hint Resolve CountMembersIn_keeps : aul.

(** The handlers that act on what they have read. *)
Lemma requireOwner_safe m next w0 :
  (CircleMember_Role m = "owner"%string -> safe I R w0 next) -> safe I R w0 (requireOwner m next).
Proof. intros Hn. unfold requireOwner, World.check, is_owner. case_bool_decide; [by apply Hn|done]. Qed.

Lemma safe_remove {A} c u (h : error -> prog A) k w0 : removable c u w0 ->
  (forall e, safe_ (h e)) -> (forall x, safe_ (k x)) -> safe I R w0 (attempt (RemoveMember c u) h k).
Proof.
  intros Hrm Hh Hk. apply safe_given; [|auto..]. intros w Hr Hw. apply si_RemoveMember; [done|].
  by eapply removable_later.
Qed.

Lemma handleRemoveMember_safe cfg m ip u w0 : member_known m w0 -> safe I R w0 (handleRemoveMember cfg m ip u).
Proof.
  intros Hm. unfold handleRemoveMember. apply requireOwner_safe. intros Ho.
  apply safe_decode; [done|]. intros target. unfold World.check.
  destruct (N.eqb_spec target (CircleMember_UserID m)) as [|Hne]; simpl; [done|].
  apply safe_remove; [by apply si_owner_removes|done|]. intros x w. solve_safe.
Qed.

Lemma handleLeaveCircle_safe cfg m ip w0 : member_known m w0 -> safe I R w0 (handleLeaveCircle cfg m ip).
Proof.
  intros Hm. unfold handleLeaveCircle, is_owner. case_bool_decide as Ho.
  - intros w Hr Hw. destruct (keeps_query I R (fun _ db => Ok (count_where
      (fun m' => CircleMember_CircleID m' = CircleMember_CircleID m /\ CircleMember_Role m' = "owner"%string)
      (circle_members db))) w Hw) as [Hi Hr']. split; [exact Hi|]. split; [exact Hr'|].
    fold (CountOwners (CircleMember_CircleID m)) in *.
    pose proof (si_owner_leaves w m) as Hl. destruct (CountOwners _ w) as [[n|e] w1]; simpl in *; [|done].
    unfold World.check. destruct (Z.leb_spec n 1) as [|Hn]; simpl; [done|].
    apply safe_remove; [|done|intros x w2; solve_safe]. eapply Hl; [done| |done|done]. by eapply member_later.
  - apply safe_remove; [by apply si_member_leaves|done|]. intros x w. solve_safe.
Qed.

Lemma handleAcceptInvite_safe cfg a ip i : safe_ (handleAcceptInvite cfg a ip i).
Proof.
  intros w0. unfold handleAcceptInvite. apply safe_decode; [done|]. intros id.
  apply safe_read; [apply keeps_query; apply _|intros; by case_match|]. intros w inv w1 Hw Hg.
  destruct (si_GetInvite w id inv w1 Hw Hg) as [<- Hk]. clear w Hw Hg.
  intros w2 Hr Hw. destruct (keeps_query I R (fun _ db => one (filter (is_member (Invite_CircleID inv) (a_UserID a))
    (circle_members db))) w2 Hw) as [Hi Hr']. split; [exact Hi|]. split; [exact Hr'|].
  fold (GetMembership (Invite_CircleID inv) (a_UserID a)) in *.
  pose proof (si_not_member w2 inv (a_UserID a)) as Ho.
  destruct (GetMembership _ _ w2) as [[m|e] w3]; simpl in *; [done|].
  destruct (IsNotFound e) eqn:He; simpl; [|done]. specialize (Ho e w3 Hw).
  apply safe_given.
  - intros w Hr3 Hw3. apply si_accept_tx; [done|]. eapply outsider_later; [exact Hr3|].
    apply Ho; [by eapply invite_later|done..].
  - intros e2 w. by case_match.
  - intros role w. solve_safe.
Qed.

Lemma serve_circle_safe d r allow a m cr w0 : member_known m w0 -> safe I R w0 (serve_circle d r allow a m cr).
Proof.
  intros Hm. destruct cr; try (by apply handleRemoveMember_safe); try (by apply handleLeaveCircle_safe).
  all: clear Hm; unfold serve_circle, RateLimit, handleGetCircle, handlePatchCircle, handleDeleteCircle, handleListMembers,
    handleSetProfile, handleCircleDevices, handleSetPrecision,
    handleRotateKey, handleListInvites, handleCreateInvite, handleRevokeInvite, handleNotify,
    handleGetMutes, handleSetMutes, replace_mutes, handleLatestPings, handleListPlaces, handleCreatePlace,
    handleUpdatePlace, handleDeletePlace, handleListSOS, handleCreateSOS, handleResolveSOS, requireOwner,
    handleGetCircle; solve_safe.
  apply fanOutPush_safe. by intros ? ? ?.
Qed.

Lemma requireCircleMember_safe a c next :
  (forall m w, member_known m w -> safe I R w (next m)) -> safe_ (requireCircleMember a c next).
Proof.
  intros Hn w0. unfold requireCircleMember. destruct (uuid_Parse c) as [cid|]; [|done].
  apply safe_read; [apply keeps_query; apply _|intros; by case_match|].
  intros w m w' Hw Hg. apply Hn. by eapply si_GetMembership.
Qed.

Lemma serve_authed_safe d r allow a ar : safe_ (serve_authed d r allow a ar).
Proof.
  intros w0. destruct ar; try (by apply handleAcceptInvite_safe).
  all: unfold serve_authed, RateLimit, handleLogout, Logout, handleMe, handleListDevices, handleRevokeDevice,
    RevokeDevice, handleListSessions, handleListAudit, handleListCircles, handleCreateCircle, handleGetInvite,
    handlePingBatch, handlePostKeyEnvelopes, handlePendingKeyEnvelopes,
    handleConsumeKeyEnvelope, handleCreateShare, handleListShares, handleRevokeShare, handleSharePing,
    loadOwnedShare, handlePushSubscribe, handlePushUnsubscribe, share_not_found;
    solve_safe.
  - apply requireCircleMember_safe. intros m wm Hm. by apply serve_circle_safe.
  - apply prepare_all_safe. intros items wi. unfold batch_tx. solve_safe. apply publish_all_safe. by intros ?.
Qed.

Lemma handleGetShare_safe cfg shareID cookies : safe_ (handleGetShare cfg shareID cookies).
Proof.
  intros w0. unfold handleGetShare, share_not_found. solve_safe. apply present_safe. intros sh l ws.
  apply safe_act; [apply keeps_query; apply _|]. intros [y|e] wy; solve_safe.
Qed.

Lemma serve_safe d r allow route : safe_ (serve d r allow route).
Proof.
  pose proof (auth_safe d r allow route) as Ha. destruct route; try exact Ha; clear Ha; intros w0; unfold serve.
  - unfold handleVersionLatest. solve_safe.
  - apply handleGetShare_safe.
  - unfold RequireAuth. solve_safe. apply serve_authed_safe.
Qed.

Lemma RunOnce_safe w : safe_ (RunOnce w).
Proof.
  assert (Hd : forall (k : prog unit) l, safe_ k -> safe_ (delete_each l k)).
  { intros k l Hk. induction l as [|[id days] l IH]; intros w0; cbn [delete_each]; [apply Hk|]. apply safe_do; auto with aul. }
  intros w0. unfold RunOnce, deleteExpiredPings. solve_safe. apply Hd. intros ?. solve_safe.
Qed.
End handlers.

(** ** The schema *)

(** What a query by key answers. *)
Lemma GetInvite_ID i w inv w' : GetInvite i w = (Ok inv, w') -> Invite_ID inv = i /\ inv ∈ invites (w_db w).
Proof. intros (Hf & _)%query_Ok. by apply one_Ok in Hf. Qed.

(** An invariant of the tables alone: there is nothing to know.  What is left is that
    each statement preserves it. *)
Ltac tables_alone :=
  refine {| member_known _ _ := True; removable _ _ _ := True; invite_known _ _ := True; outsider _ _ _ := True |};
  intros; try done;
  lazymatch goal with
  | |- keeps _ _ _ => apply keeps_any
  | |- Invite_ID _ = _ /\ _ => by split; [eapply proj1, GetInvite_ID; eassumption|]
  | |- _ (snd (?m ?w)) /\ _ => lazymatch goal with Hw : _ w, Hr : True |- _ => clear Hr; revert w Hw; apply keeps_any end
  | _ => split; [unfold on_db in *; simpl in *; (try match goal with Hd : w_db _ = _ |- _ => rewrite Hd end; assumption)|done]
  end.

#[export] Instance wf_db_inv : StoreInv (on_db wf_db) any.
Proof.
  tables_alone.
  all: unfold create_circle_tx, accept_tx, RevokeSession, RevokeSessionsForDevice; solve [auto with aul | solve_ok].
Qed.
