(* ===== verification/System.v ===== *)
(** * The server: requests and maintenance, interleaved

    The threads of the server are the requests being served, the maintenance
    passes and the publication of app versions; each advances one instant at a
    time, in any order, while the clock, the hub's loop and the engine's failures
    do as they please.  [reachable] is every state some schedule leads to. *)

From S2P Require Import Prelude Table GoTime Models Api Ext World Hub StoreAccounts StoreCircles.
From S2P Require Import StorePings StoreWf Auth CirclesApi Retention Router StoreInv.
From stdpp Require Import relations.
Local Open Scope Z_scope.
Local Open Scope aul_scope.

Inductive thread := | Thread {A : Type} (p : prog A).

Record system := mkSystem { sy_world : World; sy_threads : list thread }.

(** What [Deployment]'s environment may start. *)
Inductive arrival `{Ext} (d : Deployment) : thread -> Prop :=
| ar_request r allow route : arrival d (Thread (serve d r allow route))
| ar_maintenance : arrival d (Thread (RunOnce (New (dp_cfg d))))
| ar_publish p c n u s l m (k : result error AppVersion -> prog unit) :
    (forall r, exists a, k r = Ret a) -> arrival d (Thread (Act (UpsertAppVersion p c n u s l m) k)).

Inductive step `{Ext} (d : Deployment) : system -> system -> Prop :=
| sy_arrive w ts t : arrival d t -> step d (mkSystem w ts) (mkSystem w (t :: ts))
| sy_act w ts1 ts2 A X op (k : X -> prog A) :
    step d (mkSystem w (ts1 ++ Thread (Act op k) :: ts2))
           (mkSystem (snd (op w)) (ts1 ++ Thread (k (fst (op w))) :: ts2))
| sy_done w ts1 ts2 A (a : A) :
    step d (mkSystem w (ts1 ++ Thread (Ret a) :: ts2)) (mkSystem w (ts1 ++ ts2))
| sy_clock w ts now : w_now w <= now -> step d (mkSystem w ts) (mkSystem (set_now now w) ts)
| sy_hub w ts h : step d (mkSystem w ts) (mkSystem (set_hub h w) ts)
| sy_faults w ts l : step d (mkSystem w ts) (mkSystem (set_faults l w) ts).

(** From the empty database, at some instant, with some random sources. *)
Definition boot (w : World) : Prop := w_db w = empty_db.

Definition reachable `{Ext} (d : Deployment) (s : system) : Prop :=
  exists w, boot w /\ rtc (step d) (mkSystem w []) s.

(** Facts about the membership and the invites that no schedule breaks. *)
Definition owner_is_creator (cs : list Circle) (m : CircleMember) : Prop :=
  CircleMember_Role m = "owner"%string ->
  exists c, c ∈ cs /\ Circle_ID c = CircleMember_CircleID m /\ Circle_CreatedBy c = CircleMember_UserID m.

Definition invite_bounded (i : Invite) : Prop :=
  Invite_Role i ∈ invite_roles /\ 0 <= Invite_Uses i <= Invite_MaxUses i.

Record circle_inv (db : DB) : Prop := {
  ci_circles : uniq Circle_ID (circles db);
  ci_invites : Forall invite_bounded (invites db);
  ci_owners : Forall (owner_is_creator (circles db)) (circle_members db)
}.

(** ** Interleaving *)

Section interleaving.
Context `{Ext} (d : Deployment) (I : World -> Prop) (R : World -> World -> Prop) `{!StoreInv I R}.

(** A thread that has looked at the world as it is. *)
Definition thread_safe (w : World) (t : thread) : Prop := match t with Thread p => safe I R w p end.

Lemma arrival_safe t w : arrival d t -> thread_safe w t.
Proof.
  destruct 1 as [r allow route| |p c n u s l m k Hk]; unfold thread_safe.
  - exact (serve_safe I R d r allow route w).
  - exact (RunOnce_safe I R _ w).
  - apply safe_act; [auto with aul|]. intros x w'. by destruct (Hk x) as [a ->].
Qed.

Definition sys_ok (s : system) : Prop := I (sy_world s) /\ Forall (thread_safe (sy_world s)) (sy_threads s).

(** The others' instants leave a thread as safe as it was. *)
Lemma threads_later w w' ts : R w w' -> Forall (thread_safe w) ts -> Forall (thread_safe w') ts.
Proof. intros Hr Hts. eapply Forall_impl; [exact Hts|]. intros [A p]. apply safe_later; [apply _|exact Hr]. Qed.

Lemma env_ok w w' ts : sys_ok (mkSystem w ts) ->
  w_db w' = w_db w -> w_uuid w' = w_uuid w -> w_draws w' = w_draws w -> sys_ok (mkSystem w' ts).
Proof.
  intros [Hw Hts] Hd Hu Hn. destruct (si_env (I := I) (R := R) w w') as [Hi Hr]; [done..|simpl in *; lia|].
  split; [done|]. by apply (threads_later w).
Qed.

Lemma step_ok s s' : step d s s' -> sys_ok s -> sys_ok s'.
Proof.
  destruct 1; intros Hs; try (by eapply env_ok); destruct Hs as [Hw Hts]; simpl in *.
  - split; [done|]. constructor; [by apply arrival_safe|done].
  - apply Forall_app in Hts as [H1 H2]. apply Forall_cons in H2 as [Ht H2]. simpl in Ht.
    destruct (Ht w ltac:(reflexivity) Hw) as (Hw' & Hr & Hk). split; [done|]. simpl.
    apply Forall_app. split; [by apply (threads_later w)|]. constructor; [done|by apply (threads_later w)].
  - apply Forall_app in Hts as [H1 H2]. apply Forall_cons in H2 as [_ H2]. split; [done|].
    by apply Forall_app.
Qed.

Lemma steps_inv w s : I w -> rtc (step d) (mkSystem w []) s -> I (sy_world s).
Proof.
  intros Hi Hr. assert (Hs : sys_ok s); [|by destruct Hs].
  assert (H0 : sys_ok (mkSystem w [])) by (by split; [|constructor]).
  clear Hi. revert H0. induction Hr as [|s1 s2 s3 Hst _ IH]; [done|]. intros Hs. apply IH.
  by eapply step_ok.
Qed.
End interleaving.

(** An invariant of the tables holds in every reachable state. *)
Lemma reachable_inv `{Ext} d (J : DB -> Prop) `{!StoreInv (on_db J) any} s :
  J empty_db -> reachable d s -> J (w_db (sy_world s)).
Proof. intros Hj (w & Hb & Hr). apply (steps_inv d (on_db J) any w s); [|done]. unfold on_db. by rewrite Hb. Qed.

(** ** The membership invariant is one *)

Lemma empty_circle_inv : circle_inv empty_db.
Proof. split; constructor. Qed.

(** A statement on other tables. *)
Ltac inv_frame :=
  apply pres_sql; intros ? ? ? ? [? ? ?] ?; inv_stmt; split; simpl; assumption.

Lemma owner_mono cs cs' m :
  (forall c, c ∈ cs -> exists c', c' ∈ cs' /\ Circle_ID c' = Circle_ID c /\ Circle_CreatedBy c' = Circle_CreatedBy c) ->
  owner_is_creator cs m -> owner_is_creator cs' m.
Proof.
  intros Hs Hm Hr. destruct (Hm Hr) as (c & Hc & He & Hu). destruct (Hs c Hc) as (c' & ? & ? & ?).
  exists c'. repeat split; congruence.
Qed.

Lemma circle_inv_update P `{forall c, Decision (P c)} f db :
  (forall c, Circle_ID (f c) = Circle_ID c /\ Circle_CreatedBy (f c) = Circle_CreatedBy c) ->
  circle_inv db -> circle_inv (set_circles (update_where P f (circles db)) db).
Proof.
  intros Hf [Hc Hi Ho]. split; simpl; [|done|].
  - apply uniq_update; [|done]. intros c _. apply Hf.
  - eapply Forall_impl; [exact Ho|]. intros m. apply owner_mono. intros c Hin.
    exists (if decide (P c) then f c else c). split; [apply list_elem_of_fmap; eauto|].
    by case_decide.
Qed.

Lemma circle_inv_members P `{forall c, Decision (P c)} f db :
  (forall m, CircleMember_Role (f m) = CircleMember_Role m /\ member_key (f m) = member_key m) ->
  circle_inv db -> circle_inv (set_circle_members (update_where P f (circle_members db)) db).
Proof.
  intros Hf [Hc Hi Ho]. split; simpl; [done|done|]. apply Forall_update_rows; [|done].
  intros m _. destruct (Hf m) as [Hr [= Hk1 Hk2]]. unfold owner_is_creator. by rewrite Hr, Hk1, Hk2.
Qed.

Lemma circle_inv_invites P `{forall c, Decision (P c)} f db :
  (forall i, P i -> invite_bounded i -> invite_bounded (f i)) ->
  circle_inv db -> circle_inv (set_invites (update_where P f (invites db)) db).
Proof. intros Hf [Hc Hi Ho]. split; simpl; [done| |done]. by apply Forall_update_rows. Qed.

Lemma circle_inv_new_circle c db :
  Circle_ID c ∉ Circle_ID <$> circles db -> circle_inv db -> circle_inv (set_circles (circles db ++ [c]) db).
Proof.
  intros Hf [Hcs Hi Ho]. split; simpl; [by apply uniq_insert|done|].
  eapply Forall_impl; [exact Ho|]. intros m. apply owner_mono. intros c' Hc'.
  exists c'. split; [by apply elem_of_app; left|done].
Qed.

(** Adding a row, or changing a role, to owner only for the circle's creator. *)
Lemma circle_inv_role c0 u role now db r db' :
  (role = "owner"%string -> exists c, c ∈ circles db /\ Circle_ID c = c0 /\ Circle_CreatedBy c = u) ->
  circle_inv db ->
  forall w w', w_db w = db -> w_now w = now -> AddMember c0 u role w = (Ok r, w') -> db' = w_db w' ->
  circle_inv db'.
Proof.
  intros Hr [Hc Hi Ho] w w' <- <- (Ha & _)%sql_Ok ->. inv_stmt; simplify_eq/=.
  all: match goal with H : set_circle_members _ _ = _ |- _ => rewrite <- H end.
  all: split; simpl; [done|done|].
  1: { apply Forall_insert_row; [done|exact Hr]. }
  all: apply Forall_update_rows; [|done]; intros m [<- <-] _; exact Hr.
Qed.

Lemma circle_inv_create n days u : pres (on_db circle_inv) (create_circle_tx n days u).
Proof.
  apply pres_tx. unfold on_db. intros w c w' Hw Hf.
  apply bind_Ok in Hf as (c0 & w1 & H1 & Hf). apply bind_Ok in Hf as (m & w2 & H2 & [= <- <-]).
  apply bind_Ok in H1 as (id & w0 & [= <- <-] & H1). apply sql_Ok in H1 as (H1 & _).
  inv_stmt; simplify_eq/=; try done.
  all: eapply circle_inv_role; [|..|exact H2|]; try reflexivity.
  all: match goal with H : set_circles _ _ = _ |- _ => rewrite <- H end.
  - intros _. eexists. split; [apply elem_of_app; right; by apply list_elem_of_singleton|done].
  - by apply circle_inv_new_circle.
Qed.

Lemma invite_role_not_owner i : invite_bounded i -> Invite_Role i <> "owner"%string.
Proof. intros [Hr _] He. rewrite He in Hr. unfold invite_roles in Hr. set_solver. Qed.

(** One more use of a live invite is still within its bound. *)
Lemma consume_bounded now i : invite_live now i -> invite_bounded i -> invite_bounded (Invite_set_Uses (Invite_Uses i + 1) i).
Proof. intros (_ & _ & Hlt) [Hr Hu]. split; [done|]. simpl. lia. Qed.

Lemma circle_inv_consume i w inv w' :
  circle_inv (w_db w) -> ConsumeInvite i w = (Ok inv, w') ->
  circle_inv (w_db w') /\ Invite_Role inv <> "owner"%string.
Proof.
  intros Hw (Hf & _)%sql_Ok. cbv zeta in Hf. destruct (one _) as [r|e] eqn:Ho; [|done].
  injection Hf as <- <-. apply one_Ok in Ho as [_ Hin]. split.
  - apply circle_inv_invites; [|done]. intros j [_ Hl]. by apply (consume_bounded (w_now w)).
  - destruct Hw as [_ Hi _]. eapply Forall_forall in Hi; [|exact Hin]. exact (invite_role_not_owner r Hi).
Qed.

Lemma circle_inv_accept i u : pres (on_db circle_inv) (accept_tx i u).
Proof.
  apply pres_tx. unfold on_db. intros w c w' Hw Hf.
  apply bind_Ok in Hf as (inv & w1 & H1 & Hf). apply bind_Ok in Hf as (m & w2 & H2 & [= <- <-]).
  apply circle_inv_consume in H1 as [H1 Hr]; [|done].
  by eapply circle_inv_role; [|exact H1|..|exact H2|].
Qed.

Lemma circle_inv_update_circle id f :
  (forall c, Circle_ID (f c) = Circle_ID c /\ Circle_CreatedBy (f c) = Circle_CreatedBy c) ->
  pres (on_db circle_inv) (update_circle id f).
Proof. intros Hf. apply pres_sql. intros now db a db' Hi Hu. inv_stmt. by apply circle_inv_update. Qed.

Lemma circle_inv_update_member c u (Q : Prop) `{Decision Q} f :
  (forall m, CircleMember_Role (f m) = CircleMember_Role m /\ member_key (f m) = member_key m) ->
  pres (on_db circle_inv) (update_member c u Q f).
Proof. intros Hf. apply pres_sql. intros now db a db' Hi Hu. inv_stmt. by apply circle_inv_members. Qed.

Lemma circle_inv_DeleteCircle id : pres (on_db circle_inv) (DeleteCircle id).
Proof.
  apply pres_sql. intros now db a db' [Hc Hi Ho] [= <- <-]. split; simpl.
  - by apply uniq_delete.
  - by apply Forall_delete_rows.
  - apply Forall_forall. intros m [Hne Hm]%list_elem_of_filter Hr.
    eapply Forall_forall in Ho; [|exact Hm]. destruct (Ho Hr) as (c & Hin & Hid & Hu).
    exists c. split; [apply list_elem_of_filter; split; [congruence|done]|done].
Qed.

Lemma circle_inv_CreateInvite c u r m e : pres (on_db circle_inv) (CreateInvite c u r m e).
Proof.
  apply pres_bind; [auto with aul|]. intros id. apply pres_sql. intros now db a db' [Hc Hi Ho] Hf.
  inv_stmt. split; simpl; [done| |done]. apply Forall_insert_row; [done|]. split; [done|simpl; lia].
Qed.

Lemma circle_inv_RemoveMember c u : pres (on_db circle_inv) (RemoveMember c u).
Proof.
  apply pres_sql. intros now db a db' [Hc Hi Ho] [= <- <-]. split; simpl; [done|done|].
  by apply Forall_delete_rows.
Qed.

#[export] Instance circle_inv_store : StoreInv (on_db circle_inv) any.
Proof.
  tables_alone.
  all: try solve [inv_frame | apply pres_bind; [auto with aul|intros; inv_frame]].
  - apply circle_inv_RemoveMember.
  - apply circle_inv_accept.
  - apply circle_inv_create.
  - by apply circle_inv_update_circle.
  - apply pres_sql. intros now db a db' Hi Hf. inv_stmt. by apply circle_inv_update.
  - by apply circle_inv_update_circle.
  - apply circle_inv_DeleteCircle.
  - apply pres_sql. intros now db a db' Hi [= <- <-]. by apply circle_inv_members.
  - by apply circle_inv_update_member.
  - apply circle_inv_CreateInvite.
  - apply pres_sql. intros now db a db' Hi [= <- <-]. apply circle_inv_invites; [|done]. by intros j _ [].
Qed.

(** A circle has one owner's row. *)
Lemma owners_unique db m m' : circle_inv db -> uniq member_key (circle_members db) ->
  m ∈ circle_members db -> m' ∈ circle_members db ->
  CircleMember_Role m = "owner"%string -> CircleMember_Role m' = "owner"%string ->
  CircleMember_CircleID m' = CircleMember_CircleID m -> m' = m.
Proof.
  intros [Hc _ Hos] Hk Hm Hm' Ho Ho' He. rewrite Forall_forall in Hos.
  destruct (Hos m Hm Ho) as (c & Hcin & Hid & Hu). destruct (Hos m' Hm' Ho') as (c' & Hcin' & Hid' & Hu').
  assert (c' = c) as -> by (eapply (uniq_inj Circle_ID); [exact Hc|done|done|congruence]).
  eapply (uniq_inj member_key); [exact Hk|done|done|]. unfold member_key. congruence.
Qed.

(** What holds in every reachable state. *)
Lemma reachable_circle_inv `{Ext} d s : reachable d s -> circle_inv (w_db (sy_world s)).
Proof. intros Hr. apply (reachable_inv d circle_inv); [exact empty_circle_inv|exact Hr]. Qed.

Lemma reachable_wf `{Ext} d s : reachable d s -> wf_db (w_db (sy_world s)).
Proof. intros Hr. apply (reachable_inv d wf_db); [exact empty_wf|exact Hr]. Qed.

(** ** Every circle keeps its owner

    An invariant that no table alone can keep: a handler reads a membership or an
    invite at one instant and removes or adds a row at another.  What it has read
    stays true because identifiers are drawn, never reused: a circle that was there is
    the same circle or gone. *)

Definition has_owner (ms : list CircleMember) (c : Circle) : Prop :=
  exists m, m ∈ ms /\ CircleMember_CircleID m = Circle_ID c /\ CircleMember_UserID m = Circle_CreatedBy c /\
    CircleMember_Role m = "owner"%string.

Definition same_circle (c c' : Circle) : Prop := Circle_ID c = Circle_ID c' /\ Circle_CreatedBy c = Circle_CreatedBy c'.
Definition same_invite (i i' : Invite) : Prop := Invite_ID i = Invite_ID i' /\ Invite_CircleID i = Invite_CircleID i'.

Definition drawn (id : uuid) (w : World) : Prop := exists n, (n < w_draws w)%nat /\ w_uuid w n = id.

(** Drawn between two worlds. *)
Definition fresh (w w' : World) (id : uuid) : Prop := exists n, (w_draws w <= n < w_draws w')%nat /\ w_uuid w n = id.

Record owned (w : World) : Prop := {
  ow_uuid : Inj (=) (=) (w_uuid w);
  ow_wf : wf_db (w_db w);
  ow_inv : circle_inv (w_db w);
  ow_circles c : c ∈ circles (w_db w) -> drawn (Circle_ID c) w;
  ow_invites i : i ∈ invites (w_db w) -> drawn (Invite_ID i) w;
  ow_owners c : c ∈ circles (w_db w) -> has_owner (circle_members (w_db w)) c
}.

Record later (w w' : World) : Prop := {
  la_uuid : w_uuid w' = w_uuid w;
  la_draws : (w_draws w <= w_draws w')%nat;
  la_circles c' : c' ∈ circles (w_db w') -> drawn (Circle_ID c') w -> exists c, c ∈ circles (w_db w) /\ same_circle c c';
  la_invites i' : i' ∈ invites (w_db w') -> drawn (Invite_ID i') w -> exists i, i ∈ invites (w_db w) /\ same_invite i i'
}.

Lemma drawn_later w w' id : w_uuid w' = w_uuid w -> (w_draws w <= w_draws w')%nat -> drawn id w -> drawn id w'.
Proof. intros Hu Hd (n & Hn & Hid). exists n. split; [lia|by rewrite Hu]. Qed.

#[export] Instance later_preorder : PreOrder later.
Proof.
  split.
  - intros w. split; [done|lia| |]; intros x Hx _; exists x; by repeat split.
  - intros w1 w2 w3 [Hu Hd Hc Hi] [Hu' Hd' Hc' Hi']. split; [congruence|lia| |]; intros x Hx Hdr.
    + destruct (Hc' x Hx) as (y & Hy & [E1 E2]); [by eapply drawn_later|].
      destruct (Hc y Hy) as (z & Hz & [E3 E4]); [by rewrite E1|]. exists z. split; [done|]. split; congruence.
    + destruct (Hi' x Hx) as (y & Hy & [E1 E2]); [by eapply drawn_later|].
      destruct (Hi y Hy) as (z & Hz & [E3 E4]); [by rewrite E1|]. exists z. split; [done|]. split; congruence.
Qed.

(** How the tables may move: rows go, rows change but not in what they are of, and a
    new row has a new identifier. *)
Record evolves (new : uuid -> Prop) (db db' : DB) : Prop := {
  ev_circles c' : c' ∈ circles db' -> (exists c, c ∈ circles db /\ same_circle c c') \/ new (Circle_ID c');
  ev_invites i' : i' ∈ invites db' -> (exists i, i ∈ invites db /\ same_invite i i') \/ new (Invite_ID i');
  ev_owners c' : c' ∈ circles db' -> has_owner (circle_members db') c'
}.

Lemma fresh_not_drawn w w' id : Inj (=) (=) (w_uuid w) -> fresh w w' id -> ~ drawn id w.
Proof. intros Hi (n & Hn & <-) (m & Hm & He). apply Hi in He. lia. Qed.

Lemma fresh_drawn w w' id : w_uuid w' = w_uuid w -> fresh w w' id -> drawn id w'.
Proof. intros Hu (n & Hn & <-). exists n. split; [lia|by rewrite Hu]. Qed.

Lemma evolves_owned w w' : owned w -> evolves (fresh w w') (w_db w) (w_db w') ->
  w_uuid w' = w_uuid w -> (w_draws w <= w_draws w')%nat -> wf_db (w_db w') -> circle_inv (w_db w') ->
  owned w' /\ later w w'.
Proof.
  intros [Hj _ _ Hc Hi Ho] [Ec Ei Eo] Hu Hd Hwf Hinv. split.
  - split; [by rewrite Hu|done|done| | |exact Eo]; intros x Hx.
    + destruct (Ec x Hx) as [(c & Hin & <- & _)|Hf]; [|by eapply fresh_drawn].
      eapply drawn_later; [done|done|by apply Hc].
    + destruct (Ei x Hx) as [(i & Hin & <- & _)|Hf]; [|by eapply fresh_drawn].
      eapply drawn_later; [done|done|by apply Hi].
  - split; [done|done| |]; intros x Hx Hdr.
    + destruct (Ec x Hx) as [?|Hf]; [done|]. by apply fresh_not_drawn in Hf.
    + destruct (Ei x Hx) as [?|Hf]; [done|]. by apply fresh_not_drawn in Hf.
Qed.

(** The same tables. *)
Lemma evolves_frame new w db' : owned w ->
  circles db' = circles (w_db w) -> circle_members db' = circle_members (w_db w) -> invites db' = invites (w_db w) ->
  evolves new (w_db w) db'.
Proof.
  intros [_ _ _ _ _ Ho] Hc Hm Hi. split; intros x Hx; rewrite ?Hm.
  - left. exists x. rewrite Hc in Hx. by repeat split.
  - left. exists x. rewrite Hi in Hx. by repeat split.
  - apply Ho. by rewrite <- Hc.
Qed.

(** ** Statements *)

(** What a call does to the random source. *)
Definition draws_on {X} (op : World -> X * World) : Prop :=
  forall w, w_uuid (snd (op w)) = w_uuid w /\ (w_draws w <= w_draws (snd (op w)))%nat.

Lemma sql_draws {A} (f : time -> DB -> result error (A * DB)) w :
  w_uuid (snd (sql f w)) = w_uuid w /\ w_draws (snd (sql f w)) = w_draws w.
Proof.
  unfold sql. destruct (next_fault w) as [b w1] eqn:Hn. apply next_fault_env in Hn as (_ & <- & <-).
  destruct b; [done|]. by destruct (f _ _) as [[a db]|e].
Qed.

(** The two invariants of the tables, for the statement at hand. *)
Definition tables_kept {X} (op : World -> X * World) : Prop := pres (on_db wf_db) op /\ pres (on_db circle_inv) op.

Lemma owned_sql {A} (f : time -> DB -> result error (A * DB)) w :
  tables_kept (sql f) -> owned w ->
  (forall a db', f (w_now w) (w_db w) = Ok (a, db') -> evolves (fun _ => False) (w_db w) db') ->
  owned (snd (sql f w)) /\ later w (snd (sql f w)).
Proof.
  intros [Hwf Hinv] Hw Hf. destruct (sql_draws f w) as [Hu Hd].
  assert (He : evolves (fun _ => False) (w_db w) (w_db (snd (sql f w)))).
  { destruct (sql f w) as [[a|e] w'] eqn:Hs; apply sql_cases in Hs as [_ Hs]; simpl; [by eapply Hf|].
    destruct Hs as [-> _]. by apply evolves_frame. }
  apply evolves_owned; [done| |done|lia|apply Hwf, Hw|apply Hinv, Hw].
  destruct He as [Ec Ei Eo]. split; [|intros x Hx; destruct (Ei x Hx); tauto|done].
  intros x Hx. destruct (Ec x Hx); tauto.
Qed.

(** A call on other tables. *)
Definition quiet {X} (op : World -> X * World) : Prop := forall w, let w' := snd (op w) in
  w_uuid w' = w_uuid w /\ (w_draws w <= w_draws w')%nat /\ circles (w_db w') = circles (w_db w) /\
  circle_members (w_db w') = circle_members (w_db w) /\ invites (w_db w') = invites (w_db w).

Lemma quiet_sql {A} (f : time -> DB -> result error (A * DB)) :
  (forall now db a db', f now db = Ok (a, db') ->
     circles db' = circles db /\ circle_members db' = circle_members db /\ invites db' = invites db) ->
  quiet (sql f).
Proof.
  intros Hf w. cbv zeta. destruct (sql_draws f w) as [Hu Hd]. destruct (sql f w) as [[a|e] w'] eqn:Hs; simpl in *;
    apply sql_cases in Hs as [_ Hs]; [by destruct (Hf _ _ _ _ Hs) as (? & ? & ?); split_and!; [|lia|..]|].
  destruct Hs as [-> _]. split_and!; [done|lia|done..].
Qed.

Lemma quiet_uuid : quiet uuid_New.
Proof. intros w. simpl. split_and!; [done|lia|done..]. Qed.

Lemma draw_bind {A B} (m : M A) (k : A -> M B) : quiet m -> (forall a, quiet (k a)) -> quiet (M_bind m k).
Proof.
  intros Hm Hk w. unfold M_bind. specialize (Hm w). destruct (m w) as [[a|e] w1]; simpl in *; [|done].
  destruct Hm as (Hu & Hd & <- & <- & <-). destruct (Hk a w1) as (Hu' & Hd' & ? & ? & ?).
  split_and!; [congruence|lia|done..].
Qed.

Lemma owned_quiet {X} (op : World -> X * World) : tables_kept op -> quiet op -> keeps owned later op.
Proof.
  intros [Hwf Hinv] Hq w Hw. destruct (Hq w) as (? & ? & ? & ? & ?).
  apply evolves_owned; [done|by apply evolves_frame|done|done|apply Hwf, Hw|apply Hinv, Hw].
Qed.

(** ** What is known of a row that was read *)

Definition not_creator (c u : uuid) (w : World) : Prop :=
  drawn c w /\ forall k, k ∈ circles (w_db w) -> Circle_ID k = c -> Circle_CreatedBy k <> u.

Definition role_known (m : CircleMember) (w : World) : Prop :=
  drawn (CircleMember_CircleID m) w /\
  forall k, k ∈ circles (w_db w) -> Circle_ID k = CircleMember_CircleID m ->
    CircleMember_Role m = "owner"%string <-> CircleMember_UserID m = Circle_CreatedBy k.

Definition circle_known (i : Invite) (w : World) : Prop :=
  drawn (Invite_ID i) w /\ drawn (Invite_CircleID i) w /\
  forall j, j ∈ invites (w_db w) -> Invite_ID j = Invite_ID i -> Invite_CircleID j = Invite_CircleID i.

Definition may_join (i : Invite) (u : uuid) (w : World) : Prop :=
  circle_known i w /\ not_creator (Invite_CircleID i) u w.

Lemma not_creator_later w w' c u : later w w' -> not_creator c u w -> not_creator c u w'.
Proof.
  intros [Hu Hd Hc _] [Hdr Hn]. split; [by eapply drawn_later|]. intros k' Hk' <-.
  destruct (Hc k' Hk' Hdr) as (k & Hk & [He <-]). by apply Hn.
Qed.

Lemma role_known_later w w' m : later w w' -> role_known m w -> role_known m w'.
Proof.
  intros [Hu Hd Hc _] [Hdr Hn]. split; [by eapply drawn_later|]. intros k' Hk' He.
  destruct (Hc k' Hk') as (k & Hk & [He' <-]); [by rewrite He|]. apply Hn; [done|congruence].
Qed.

Lemma circle_known_later w w' i : later w w' -> circle_known i w -> circle_known i w'.
Proof.
  intros [Hu Hd _ Hi] (H1 & H2 & Hn). split_and!; [by eapply drawn_later..|]. intros j' Hj' He.
  destruct (Hi j' Hj') as (j & Hj & [He' <-]); [by rewrite He|]. apply Hn; [done|congruence].
Qed.

Lemma may_join_later w w' i u : later w w' -> may_join i u w -> may_join i u w'.
Proof. intros Hl [Hi Hn]. split; [by eapply circle_known_later|by eapply not_creator_later]. Qed.

(** A query moves nothing. *)
Lemma query_same {A} (f : time -> DB -> result error A) w r w' : query f w = (r, w') ->
  w_db w' = w_db w /\ w_uuid w' = w_uuid w /\ w_draws w' = w_draws w.
Proof.
  intros Hq. destruct (sql_draws (fun now db => match f now db with Ok a => Ok (a, db) | Err e => Err e end) w) as [Hu Hd].
  fold (query f) in *. rewrite Hq in *. apply query_cases in Hq as (_ & Hdb & _). done.
Qed.

Lemma same_later w w' : w_db w' = w_db w -> w_uuid w' = w_uuid w -> w_draws w' = w_draws w -> later w w'.
Proof.
  intros Hd Hu Hn. split; [done|lia| |]; rewrite Hd; intros x Hx _; exists x; by repeat split.
Qed.

Lemma circle_drawn w c : owned w -> c ∈ Circle_ID <$> circles (w_db w) -> drawn c w.
Proof. intros Hw (k & -> & Hk)%list_elem_of_fmap. by apply Hw. Qed.

Lemma read_member w c u m w' : owned w -> GetMembership c u w = (Ok m, w') -> role_known m w'.
Proof.
  intros Hw Hg. pose proof (query_same _ _ _ _ Hg) as (Hd & Hu & Hn). apply query_Ok in Hg as (Hg & _).
  apply one_Ok in Hg as [_ Hm]. eapply role_known_later; [by apply same_later|].
  destruct (ow_wf _ Hw) as [_ Hwf _]. destruct (ow_inv _ Hw) as [Hcs _ Hos]. split.
  - apply circle_drawn; [done|]. pose proof (wf_members_circle _ Hwf) as Hr. by eapply Forall_forall in Hr.
  - intros k Hk He. split.
    + intros Ho. eapply Forall_forall in Hos; [|exact Hm]. destruct (Hos Ho) as (k' & Hk' & He' & <-).
      assert (k' = k) as ->; [|done]. eapply (uniq_inj Circle_ID); [exact Hcs|done|done|congruence].
    + intros Hc. destruct (ow_owners _ Hw k Hk) as (m' & Hm' & E1 & E2 & E3).
      assert (m' = m) as <-; [|done]. eapply (uniq_inj member_key); [apply (wf_members_key _ Hwf)|done|done|].
      unfold member_key. congruence.
Qed.

Lemma read_invite w i inv w' : owned w -> GetInvite i w = (Ok inv, w') -> Invite_ID inv = i /\ circle_known inv w'.
Proof.
  intros Hw Hg. pose proof (query_same _ _ _ _ Hg) as (Hd & Hu & Hn). apply GetInvite_ID in Hg as [He Hi].
  split; [done|]. eapply circle_known_later; [by apply same_later|]. destruct (ow_wf _ Hw) as [_ Hwf _].
  split_and!; [by apply Hw| |].
  - apply circle_drawn; [done|]. pose proof (wf_invites_circle _ Hwf) as Hr. by eapply Forall_forall in Hr.
  - intros j Hj Hji. assert (j = inv) as ->; [|done]. by eapply (uniq_inj Invite_ID); [apply (wf_invites_id _ Hwf)|..].
Qed.

Lemma read_no_member w i u e w' : owned w -> circle_known i w ->
  GetMembership (Invite_CircleID i) u w = (Err e, w') -> IsNotFound e = true -> may_join i u w'.
Proof.
  intros Hw Hi Hg He. pose proof (query_same _ _ _ _ Hg) as (Hd & Hu & Hn). apply query_cases in Hg as (_ & _ & Hg).
  destruct Hg as [->|Hg]; [done|]. apply one_Err in Hg as [_ Hg].
  eapply may_join_later; [by apply same_later|]. split; [done|]. split; [apply Hi|].
  intros k Hk Hkc Hku. destruct (ow_owners _ Hw k Hk) as (m & Hm & E1 & E2 & _).
  apply (Hg m Hm). split; congruence.
Qed.

(** A circle has no second owner. *)
Lemma one_owner w c n w' : owned w -> CountOwners c w = (Ok n, w') -> n <= 1.
Proof.
  intros Hw (Hf & _)%query_Ok. injection Hf as <-. unfold count_where.
  destruct (ow_wf _ Hw) as [_ Hwf _]. pose proof (wf_members_key _ Hwf) as Hk. pose proof (ow_inv _ Hw) as Hi.
  set (P := fun m => _). assert (Hu : uniq member_key (filter P (circle_members (w_db w)))) by by apply uniq_filter.
  destruct (filter P _) as [|m1 [|m2 l]] eqn:Hl; simpl; [lia..|].
  assert (H1 : m1 ∈ filter P (circle_members (w_db w))) by (rewrite Hl; left).
  assert (H2 : m2 ∈ filter P (circle_members (w_db w))) by (rewrite Hl; right; left).
  apply list_elem_of_filter in H1 as [[C1 O1] H1]. apply list_elem_of_filter in H2 as [[C2 O2] H2].
  assert (m2 = m1) as -> by (by eapply owners_unique; [..|congruence]).
  unfold uniq in Hu. rewrite !fmap_cons, NoDup_cons in Hu. destruct Hu as [[]%not_elem_of_cons _]. done.
Qed.

(** ** Statements on circles, members and invites *)

Lemma has_owner_mono ms ms' c c' : same_circle c c' ->
  (forall m, m ∈ ms -> CircleMember_CircleID m = Circle_ID c -> CircleMember_UserID m = Circle_CreatedBy c ->
     CircleMember_Role m = "owner"%string -> exists m', m' ∈ ms' /\ member_key m' = member_key m /\ CircleMember_Role m' = "owner"%string) ->
  has_owner ms c -> has_owner ms' c'.
Proof.
  intros [E1 E2] Hm (m & Hin & H1 & H2 & H3). destruct (Hm m Hin H1 H2 H3) as (m' & Hin' & [= K1 K2] & Hr).
  exists m'. split_and!; [done|congruence..].
Qed.

Lemma elem_of_update {R} (P : R -> Prop) `{forall r, Decision (P r)} f (t : list R) r' :
  r' ∈ update_where P f t -> exists r, r ∈ t /\ r' = if decide (P r) then f r else r.
Proof. intros (r & -> & Hr)%list_elem_of_fmap. by exists r. Qed.

Lemma update_elem_of {R} (P : R -> Prop) `{forall r, Decision (P r)} f (t : list R) r :
  r ∈ t -> (if decide (P r) then f r else r) ∈ update_where P f t.
Proof. intros Hr. apply list_elem_of_fmap. by exists r. Qed.

Lemma evolves_circles w P `{forall c, Decision (P c)} f : owned w -> (forall c, same_circle c (f c)) ->
  evolves (fun _ => False) (w_db w) (set_circles (update_where P f (circles (w_db w))) (w_db w)).
Proof.
  intros Hw Hf. assert (Hs : forall c' , c' ∈ update_where P f (circles (w_db w)) ->
    exists c, c ∈ circles (w_db w) /\ same_circle c c').
  { intros c' (c & Hc & ->)%elem_of_update. exists c. split; [done|]. case_decide; [apply Hf|done]. }
  split; simpl; intros x Hx.
  - left. by apply Hs.
  - left. exists x. by repeat split.
  - destruct (Hs x Hx) as (c & Hc & Hsc). eapply has_owner_mono; [exact Hsc| |by apply Hw].
    intros m Hm _ _ Hr. by exists m.
Qed.

(** Member rows change, or go, but for the owners'. *)
Lemma evolves_members w ms' : owned w ->
  (forall c m, c ∈ circles (w_db w) -> m ∈ circle_members (w_db w) -> CircleMember_CircleID m = Circle_ID c ->
     CircleMember_UserID m = Circle_CreatedBy c -> CircleMember_Role m = "owner"%string ->
     exists m', m' ∈ ms' /\ member_key m' = member_key m /\ CircleMember_Role m' = "owner"%string) ->
  evolves (fun _ => False) (w_db w) (set_circle_members ms' (w_db w)).
Proof.
  intros Hw Hm. split; simpl; intros x Hx; [left; exists x; by repeat split..|].
  eapply has_owner_mono; [|intros m; by apply (Hm x)|by apply Hw]. done.
Qed.

Lemma evolves_member_rows w P `{forall m, Decision (P m)} f : owned w ->
  (forall m, CircleMember_Role (f m) = CircleMember_Role m /\ member_key (f m) = member_key m) ->
  evolves (fun _ => False) (w_db w) (set_circle_members (update_where P f (circle_members (w_db w))) (w_db w)).
Proof.
  intros Hw Hf. apply evolves_members; [done|]. intros c m _ Hm _ _ Hr.
  eexists. split; [by apply update_elem_of|]. destruct (Hf m) as [E1 E2]. case_decide; [|done]. split; congruence.
Qed.

Lemma evolves_invites w P `{forall i, Decision (P i)} f : owned w -> (forall i, same_invite i (f i)) ->
  evolves (fun _ => False) (w_db w) (set_invites (update_where P f (invites (w_db w))) (w_db w)).
Proof.
  intros Hw Hf. split; simpl; intros x Hx.
  - left. exists x. by repeat split.
  - apply elem_of_update in Hx as (i & Hi & ->). left. exists i. split; [done|]. case_decide; [apply Hf|done].
  - by apply Hw.
Qed.

Lemma evolves_delete w id : owned w ->
  evolves (fun _ => False) (w_db w)
    (cascade_circle id (set_circles (delete_where (fun c => Circle_ID c = id) (circles (w_db w))) (w_db w))).
Proof.
  intros Hw. split; simpl; intros x Hx; apply list_elem_of_filter in Hx as [Hne Hx]; [left; exists x; by repeat split..|].
  eapply has_owner_mono; [| |by apply Hw]; [done|]. intros m Hm Hc _ Hr. exists m. split; [|done].
  apply list_elem_of_filter. split; [congruence|done].
Qed.

Lemma kept_by_instances {X} (op : World -> X * World) :
  keeps (on_db wf_db) any op -> keeps (on_db circle_inv) any op -> tables_kept op.
Proof. intros H1 H2. split; by apply any_keeps. Qed.

Lemma owned_RemoveMember w c u : owned w -> not_creator c u w ->
  owned (snd (RemoveMember c u w)) /\ later w (snd (RemoveMember c u w)).
Proof.
  intros Hw [_ Hn]. apply owned_sql; [|done|].
  - split; [change (pres (on_db wf_db) (RemoveMember c u)); auto with aul|apply circle_inv_RemoveMember].
  - intros a db' [= <- <-]. apply evolves_members; [done|]. intros k m Hk Hm E1 E2 Hr. exists m. split; [|done].
    apply list_elem_of_filter. split; [|done]. intros [F1 F2]. apply (Hn k Hk); congruence.
Qed.

(** A membership that changes its role, but is not the creator's, or becomes one of an
    owner. *)
Lemma has_owner_set_role (cs : list Circle) ms c u role k :
  (role = "owner"%string \/ forall k, k ∈ cs -> Circle_ID k = c -> Circle_CreatedBy k <> u) ->
  k ∈ cs -> has_owner ms k -> has_owner (update_where (is_member c u) (CircleMember_set_Role role) ms) k.
Proof.
  intros Hr Hk. apply has_owner_mono; [done|]. intros m Hm E1 E2 Ho. eexists. split; [by apply update_elem_of|].
  case_decide as Hd; [|done]. split; [done|]. destruct Hr as [->|Hr]; [done|]. destruct Hd as [F1 F2].
  destruct (Hr k Hk); congruence.
Qed.

Lemma set_role_there ms c u role m l : filter (is_member c u) ms = m :: l ->
  exists m', m' ∈ update_where (is_member c u) (CircleMember_set_Role role) ms /\ member_key m' = (c, u) /\
    CircleMember_Role m' = role.
Proof.
  intros Hf. assert (Hin : m ∈ filter (is_member c u) ms) by (rewrite Hf; left).
  apply list_elem_of_filter in Hin as [Hp Hin]. exists (CircleMember_set_Role role m).
  split; [|split; [destruct Hp; unfold member_key; simpl; congruence|done]].
  eapply (update_elem_of (is_member c u)) in Hin. rewrite decide_True in Hin by done. exact Hin.
Qed.

(** What an addition leaves: every owner's row, and the new one. *)
Lemma AddMember_evolves w c u role m w' : AddMember c u role w = (Ok m, w') ->
  (role = "owner"%string \/ forall k, k ∈ circles (w_db w) -> Circle_ID k = c -> Circle_CreatedBy k <> u) ->
  circles (w_db w') = circles (w_db w) /\ invites (w_db w') = invites (w_db w) /\
  (forall k, k ∈ circles (w_db w) -> has_owner (circle_members (w_db w)) k -> has_owner (circle_members (w_db w')) k) /\
  (exists m', m' ∈ circle_members (w_db w') /\ member_key m' = (c, u) /\ CircleMember_Role m' = role).
Proof.
  intros (Ha & _)%sql_Ok Hr. inv_stmt; simplify_eq/=.
  all: match goal with H : set_circle_members _ _ = _ |- _ => rewrite <- H; clear H end; simpl; split_and!; try done.
  all: try (intros k; by apply has_owner_set_role); try by eapply set_role_there.
  - intros k Hk. apply has_owner_mono; [done|]. intros m' Hm _ _ Ho. exists m'. split; [apply elem_of_app; by left|done].
  - eexists. split; [apply elem_of_app; right; by apply list_elem_of_singleton|done].
Qed.

(** *** The two transactions *)

Lemma WithTx_world {A} (fn : M A) w r w' : (forall w1, w_uuid (snd (fn w1)) = w_uuid w1 /\ (w_draws w1 <= w_draws (snd (fn w1)))%nat) ->
  WithTx fn w = (r, w') -> w_uuid w' = w_uuid w /\ (w_draws w <= w_draws w')%nat /\
  match r with
  | Ok a => exists w1 w2, w_db w1 = w_db w /\ w_uuid w1 = w_uuid w /\ w_draws w1 = w_draws w /\ fn w1 = (Ok a, w2) /\
      w_db w' = w_db w2 /\ w_draws w' = w_draws w2
  | Err _ => w_db w' = w_db w
  end.
Proof.
  intros Hfn. unfold WithTx. destruct (next_fault w) as [b w1] eqn:Hn. apply next_fault_env in Hn as (Hd & Hu & Hr).
  destruct b; [intros [= <- <-]; split_and!; [done|lia|done]|].
  destruct (Hfn w1) as [Hu1 Hd1]. destruct (fn w1) as [[a|e] w2] eqn:Hf; simpl in *.
  - destruct (next_fault w2) as [b2 w3] eqn:Hn2. apply next_fault_env in Hn2 as (Hd2 & Hu2 & Hr2).
    destruct b2; intros [= <- <-]; simpl; (split_and!; [congruence|lia|]); [done|]. by exists w1, w2.
  - intros [= <- <-]. simpl. split_and!; [congruence|lia|done].
Qed.

Lemma bind_draws {A B} (m : M A) (k : A -> M B) : draws_on m -> (forall a, draws_on (k a)) -> draws_on (M_bind m k).
Proof.
  intros Hm Hk w. unfold M_bind. destruct (Hm w) as [Hu Hd]. destruct (m w) as [[a|e] w1]; simpl in *; [|done].
  destruct (Hk a w1). split; [congruence|lia].
Qed.

Lemma sql_draws_eq {A} (f : time -> DB -> result error (A * DB)) w r w' :
  sql f w = (r, w') -> w_uuid w' = w_uuid w /\ w_draws w' = w_draws w.
Proof. intros Hs. pose proof (sql_draws f w) as Hd. by rewrite Hs in Hd. Qed.

Lemma sql_draws_on {A} (f : time -> DB -> result error (A * DB)) : draws_on (sql f).
Proof. intros w. destruct (sql_draws f w). split; [done|lia]. Qed.

Ltac solve_draws :=
  repeat first [ apply bind_draws; [|intros ?] | apply sql_draws_on | by (intros ?; simpl; split; [done|lia]) ].

(** The circle and its owner's row appear together. *)
Lemma owned_create n r u : keeps owned later (create_circle_tx n r u).
Proof.
  intros w Hw. unfold create_circle_tx. set (fn := M_bind _ _).
  destruct (WithTx fn w) as [res w'] eqn:Ht. pose proof Ht as Hk.
  apply WithTx_world in Ht as (Hu & Hd & Ht); [|by unfold fn, CreateCircle, AddMember; solve_draws].
  apply evolves_owned; [done| |done|done|..].
  2: { assert (Hp : pres (on_db wf_db) (WithTx fn)) by (unfold fn; solve_ok). specialize (Hp w (ow_wf _ Hw)). by rewrite Hk in Hp. }
  2: { assert (Hp : pres (on_db circle_inv) (WithTx fn)) by apply circle_inv_create. specialize (Hp w (ow_inv _ Hw)). by rewrite Hk in Hp. }
  destruct res as [c|e]; [|simpl in *; rewrite Ht; by apply evolves_frame]. simpl. destruct Ht as (w1 & w2 & Hd1 & Hu1 & Hr1 & Hf & -> & Hr2).
  unfold fn in Hf. apply bind_Ok in Hf as (c0 & w3 & H1 & Hf). apply bind_Ok in Hf as (m & w4 & H2 & [= <- <-]).
  pose proof (sql_draws_eq _ _ _ _ H2) as [_ Hdr].
  apply bind_Ok in H1 as (id & w5 & [= <- <-] & H1).
  pose proof (sql_draws_eq _ _ _ _ H1) as [_ Hs]. simpl in Hs.
  apply sql_Ok in H1 as (H1 & _). simpl in H1. apply AddMember_evolves in H2 as (Ec & Ei & Eo & (m' & Hm' & [= M1 M2] & M3)); [|by left].
  inv_stmt. simplify_eq/=. match goal with H : set_circles _ _ = _ |- _ => rewrite <- H in * end. simpl in *.
  split; rewrite ?Ec, ?Ei, ?Hd1; intros x Hx.
  - apply elem_of_app in Hx as [Hx| ->%list_elem_of_singleton]; [left; exists x; by repeat split|]. right.
    exists (w_draws w). simpl. rewrite Hr1, Hu1. split; [lia|done].
  - left. exists x. by repeat split.
  - apply elem_of_app in Hx as [Hx| ->%list_elem_of_singleton].
    + rewrite Hd1 in Eo. apply Eo; [apply elem_of_app; by left|]. by apply Hw.
    + by exists m'.
Qed.

(** Who joins is not the creator, and an invite grants no ownership. *)
Lemma owned_accept w i u : owned w -> may_join i u w ->
  owned (snd (accept_tx (Invite_ID i) u w)) /\ later w (snd (accept_tx (Invite_ID i) u w)).
Proof.
  intros Hw [(_ & _ & Hi) [_ Hn]]. unfold accept_tx. set (fn := M_bind _ _).
  destruct (WithTx fn w) as [res w'] eqn:Ht. pose proof Ht as Hk.
  apply WithTx_world in Ht as (Hu & Hd & Ht); [|by unfold fn, ConsumeInvite, AddMember; solve_draws].
  apply evolves_owned; [done| |done|done|..].
  2: { assert (Hp : pres (on_db wf_db) (WithTx fn)) by (unfold fn; solve_ok). specialize (Hp w (ow_wf _ Hw)). by rewrite Hk in Hp. }
  2: { assert (Hp : pres (on_db circle_inv) (WithTx fn)) by apply circle_inv_accept. specialize (Hp w (ow_inv _ Hw)). by rewrite Hk in Hp. }
  destruct res as [role|e]; [|simpl in *; rewrite Ht; by apply evolves_frame]. simpl. destruct Ht as (w1 & w2 & Hd1 & Hu1 & Hr1 & Hf & -> & Hr2).
  unfold fn in Hf. apply bind_Ok in Hf as (inv & w3 & H1 & Hf). apply bind_Ok in Hf as (m & w4 & H2 & [= <- <-]).
  apply sql_Ok in H1 as (H1 & _). rewrite Hd1 in H1. cbv zeta in H1. destruct (one _) as [r|e] eqn:Ho; [|done].
  apply one_Ok in Ho as [[Hid _] Hin]. injection H1 as <- H1. simpl in H2.
  apply AddMember_evolves in H2 as (Ec & Ei & Eo & _).
  2: { right. rewrite <- H1. simpl. intros k Hk' He. apply Hn; [done|]. rewrite He. by apply Hi. }
  rewrite <- H1 in *. simpl in *. split; rewrite ?Ec, ?Ei; intros x Hx.
  - left. exists x. by repeat split.
  - apply elem_of_update in Hx as (j & Hj & ->). left. exists j. split; [done|]. by case_decide.
  - apply Eo; [done|]. by apply Hw.
Qed.

Lemma owned_CreateInvite c u r m e : keeps owned later (CreateInvite c u r m e).
Proof.
  intros w Hw. destruct (CreateInvite c u r m e w) as [res w'] eqn:Hc.
  assert (Hd : draws_on (CreateInvite c u r m e)) by (unfold CreateInvite; solve_draws).
  specialize (Hd w). rewrite Hc in Hd. destruct Hd as [Hu Hd]. simpl in *.
  apply evolves_owned; [done| |done|done|..].
  2: { assert (Hp : pres (on_db wf_db) (CreateInvite c u r m e)) by auto with aul. specialize (Hp w (ow_wf _ Hw)). by rewrite Hc in Hp. }
  2: { pose proof (circle_inv_CreateInvite c u r m e w (ow_inv _ Hw)) as Hp. by rewrite Hc in Hp. }
  unfold CreateInvite, M_bind, uuid_New in Hc. pose proof (sql_draws_eq _ _ _ _ Hc) as [_ Hs]. simpl in Hs.
  apply sql_cases in Hc as [_ Hc]. destruct res as [inv|x]; [|destruct Hc as [-> _]; by apply evolves_frame].
  simpl in Hc. inv_stmt. simplify_eq/=. match goal with H : set_invites _ _ = _ |- _ => rewrite <- H end.
  split; simpl; intros x Hx.
  - left. exists x. by repeat split.
  - apply elem_of_app in Hx as [Hx| ->%list_elem_of_singleton]; [left; exists x; by repeat split|]. right.
    exists (w_draws w). split; [lia|done].
  - by apply Hw.
Qed.

Lemma owned_env w w' : owned w -> w_db w' = w_db w -> w_uuid w' = w_uuid w -> (w_draws w <= w_draws w')%nat ->
  owned w' /\ later w w'.
Proof. intros Hw Hd Hu Hn. apply evolves_owned; [done|by apply evolves_frame; rewrite ?Hd|done|done|rewrite Hd; apply Hw..]. Qed.

(** A call on other tables. *)
Ltac quiet_call :=
  apply owned_quiet; [apply kept_by_instances; auto with aul|];
  repeat first [apply draw_bind; [|intros ?] | apply quiet_uuid
    | apply quiet_sql; intros ? ? ? ? ?; inv_stmt; by split_and!].

(** A statement on these. *)
Ltac known_call :=
  lazymatch goal with
  | |- keeps _ _ ?op =>
      let Hk := fresh in let w := fresh "w" in let Hw := fresh "Hw" in
      assert (Hk : tables_kept op) by (apply kept_by_instances; auto with aul);
      intros w Hw; apply owned_sql; [exact Hk|exact Hw|]; intros ? ? ?; inv_stmt
  end.

#[export] Instance owned_store : StoreInv owned later.
Proof.
  refine {| member_known := role_known; removable := not_creator; invite_known := circle_known; outsider := may_join |}.
  all: try solve [intros; quiet_call].
  - exact owned_env.
  - intros w w' Hw [Hu Hd _ _]. by apply owned_env.
  - exact role_known_later.
  - exact not_creator_later.
  - exact circle_known_later.
  - exact may_join_later.
  - exact read_member.
  - intros w m [Hd Hm] Hr. split; [done|]. intros k Hk He Hc. apply Hr. by apply (Hm k).
  - intros w m u [Hd Hm] Hr Hu. split; [done|]. intros k Hk He <-. apply Hu. symmetry. by apply (Hm k).
  - intros w m n w' Hw _ Hc Hn. apply one_owner in Hc; [lia|done].
  - exact read_invite.
  - exact read_no_member.
  - exact owned_RemoveMember.
  - exact owned_accept.
  - exact owned_create.
  - intros. known_call. by apply evolves_circles.
  - intros. known_call. by apply evolves_circles.
  - intros. known_call. by apply evolves_circles.
  - intros. known_call. by apply evolves_delete.
  - intros. known_call. by apply evolves_member_rows.
  - intros. known_call. by apply evolves_member_rows.
  - exact owned_CreateInvite.
  - intros. known_call. by apply evolves_invites.
Qed.

Lemma reachable_owned `{Ext} d w s : boot w -> Inj (=) (=) (w_uuid w) -> rtc (step d) (mkSystem w []) s ->
  owned (sy_world s).
Proof.
  intros Hb Hu Hr. apply (steps_inv d owned later w s); [|done]. unfold boot in Hb.
  split; rewrite ?Hb; [done|exact empty_wf|exact empty_circle_inv| | |]; intros x Hx; by apply elem_of_nil in Hx.
Qed.

(** ** Undisturbed runs are schedules *)
Section runs.
Context `{Ext} (d : Deployment).

Lemma run_steps {A} (p : prog A) w : rtc (step d) (mkSystem w [Thread p]) (mkSystem (snd (run p w)) []).
Proof.
  revert w. induction p as [a|X op k IH]; intros w; simpl.
  - eapply rtc_l; [apply (sy_done d w [] [])|apply rtc_refl].
  - destruct (op w) as [x w'] eqn:Ho. eapply rtc_l; [apply (sy_act d w [] [])|].
    rewrite Ho. apply IH.
Qed.

Lemma serve_steps {A} (p : prog A) w0 w : arrival d (Thread p) ->
  rtc (step d) (mkSystem w0 []) (mkSystem w []) -> rtc (step d) (mkSystem w0 []) (mkSystem (snd (run p w)) []).
Proof.
  intros Ha Hr. transitivity (mkSystem w []); [exact Hr|]. eapply rtc_l; [by apply sy_arrive|]. apply run_steps.
Qed.

Lemma reachable_run {A} (p : prog A) w :
  arrival d (Thread p) -> reachable d (mkSystem w []) -> reachable d (mkSystem (snd (run p w)) []).
Proof. intros Ha (w0 & Hb & Hr). exists w0. split; [done|]. by apply serve_steps. Qed.

Lemma reachable_boot w : boot w -> reachable d (mkSystem w []).
Proof. intros Hb. exists w. split; [done|apply rtc_refl]. Qed.
End runs.
