(* ===== verification/SystemSpec.v ===== *)
(** * What holds in every reachable state *)

From S2P Require Import Prelude Table GoTime Base64 Models Api Ext World Demo Hub StoreAccounts.
From S2P Require Import StoreCircles StorePings StoreWf Password Auth Server CirclesApi ShareApi AuthApi.
From S2P Require Import Retention Router StoreInv System.
Local Open Scope Z_scope.
Local Open Scope aul_scope.

(** ** A small deployment: Ann registers, creates a circle and invites *)

Definition demo_dep : Deployment := mkDeployment demo_cfg demo_dummyHash (mkChannels true true) (fun _ => Delivered).

Definition demo_token (n : nat) : string := EncodeToString RawURLEncoding (repeat (demo_byte n) 32).

Definition anonymous : Request := mkRequest "" None "203.0.113.7".
Definition bearer (n : nat) : Request := mkRequest ("Bearer " ++ demo_token n) None "203.0.113.7".

Definition demo_register : prog response :=
  serve demo_dep anonymous true
    (PostRegister (Ok (mk_registerReq "ann@example.org" "correct horse" "web" "" ""))).

(** Ann's access token is the third draw; her circle is 7. *)
Definition demo_circle : prog response :=
  serve demo_dep (bearer 3) true (Authed (PostCircles (Ok (mk_createCircleReq "" None)))).

Definition demo_invite : prog response :=
  serve demo_dep (bearer 3) true (Authed (InCircle (demo_id 7) (PostInvites (Ok (mk_createInviteReq "" 2 0))))).

Definition demo_state : system :=
  mkSystem (snd (run demo_invite (snd (run demo_circle (snd (run demo_register demo_world)))))) [].

Lemma demo_steps : rtc (step demo_dep) (mkSystem demo_world []) demo_state.
Proof. repeat (apply serve_steps; [constructor|]). apply rtc_refl. Qed.

Lemma demo_reachable : reachable demo_dep demo_state.
Proof. exists demo_world. split; [done|exact demo_steps]. Qed.

(** ** The theorems *)

(** C1: no circle is ever without its owner.  From an empty database, provided no
    identifier is drawn twice, whatever the schedule of requests, maintenance,
    publications, clock and engine failures, every circle of every reachable state has
    the row of the user who created it as an owner's row, and no other owner's row; and
    the tables satisfy every constraint of the schema.  No creation is seen, or left,
    half done; no leave, removal or acceptance, however they race with each other and
    with deletions, takes the row away or turns it into another role. *)
Theorem circles_keep_their_owner `{Ext} d w s (Hb : boot w) (Hu : Inj (=) (=) (w_uuid w))
    (Hr : rtc (step d) (mkSystem w []) s) :
  let db := w_db (sy_world s) in
  wf_db db /\
  forall c, c ∈ circles db -> exists m, m ∈ circle_members db /\
    CircleMember_CircleID m = Circle_ID c /\ CircleMember_UserID m = Circle_CreatedBy c /\
    CircleMember_Role m = "owner"%string /\
    forall m', m' ∈ circle_members db -> CircleMember_CircleID m' = Circle_ID c ->
      CircleMember_Role m' = "owner"%string -> m' = m.
Proof.
  cbv zeta. pose proof (reachable_owned d w s Hb Hu Hr) as [_ Hwf Hi _ _ Ho]. split; [exact Hwf|].
  intros c Hc. destruct (Ho c Hc) as (m & Hm & E1 & E2 & E3). exists m. split_and!; [done..|].
  intros m' Hm' Hc' Hr'. destruct Hwf as [_ Hwf _].
  eapply owners_unique; [exact Hi|apply (wf_members_key _ Hwf)|exact Hm|done..|congruence].
Qed.

Lemma demo_uuid_inj : Inj (=) (=) (w_uuid demo_world).
Proof.
  intros x y E. change (N.of_nat (S x) = N.of_nat (S y)) in E. apply (f_equal N.to_nat) in E.
  rewrite !Nat2N.id in E. congruence.
Qed.

Lemma circles_keep_their_owner_witness :
  exists c m, c ∈ circles (w_db (sy_world demo_state)) /\ m ∈ circle_members (w_db (sy_world demo_state)) /\
    CircleMember_UserID m = Circle_CreatedBy c.
Proof.
  pose proof (proj2 (circles_keep_their_owner demo_dep demo_world demo_state eq_refl demo_uuid_inj demo_steps)) as Ho.
  edestruct Ho as (m & Hm & _ & Hu & _); [apply list_elem_of_lookup_2 with (i := 0%nat); vm_compute; reflexivity|].
  eexists _, m. split; [|split; [exact Hm|exact Hu]].
  apply list_elem_of_lookup_2 with (i := 0%nat). vm_compute. reflexivity.
Defined.

(** C4: ownership cannot be acquired: in every reachable state an owner's row is
    the row of the user who created the circle, and it is the only owner's row of
    that circle. *)
Theorem one_owner_the_creator `{Ext} d s m (Hr : reachable d s)
    (Hm : m ∈ circle_members (w_db (sy_world s))) (Ho : CircleMember_Role m = "owner"%string) :
  (exists c, c ∈ circles (w_db (sy_world s)) /\ Circle_ID c = CircleMember_CircleID m /\
     Circle_CreatedBy c = CircleMember_UserID m) /\
  (forall m', m' ∈ circle_members (w_db (sy_world s)) -> CircleMember_Role m' = "owner"%string ->
     CircleMember_CircleID m' = CircleMember_CircleID m -> m' = m).
Proof.
  pose proof (reachable_circle_inv d s Hr) as Hi. destruct (reachable_wf d s Hr) as [_ Hw _].
  split; [|intros m' Hm' Ho' He; by eapply owners_unique; [|apply wf_members_key|..]].
  destruct Hi as [_ _ Hos]. rewrite Forall_forall in Hos. by apply (Hos m Hm).
Qed.

Lemma one_owner_the_creator_witness :
  exists m, m ∈ circle_members (w_db (sy_world demo_state)) /\
    exists c, c ∈ circles (w_db (sy_world demo_state)) /\ Circle_CreatedBy c = CircleMember_UserID m.
Proof.
  eexists. split; [apply list_elem_of_lookup_2 with (i := 0%nat); vm_compute; reflexivity|].
  edestruct (one_owner_the_creator demo_dep demo_state) as [(c & Hc & _ & Hu) _];
    [exact demo_reachable|apply list_elem_of_lookup_2 with (i := 0%nat); vm_compute; reflexivity|reflexivity|].
  by exists c.
Defined.

(** C5: an invite is never oversold: in every reachable state, however many
    acceptances race, its uses are at most its maximum, and it never grants
    ownership. *)
Theorem invite_never_oversold `{Ext} d s i (Hr : reachable d s) (Hi : i ∈ invites (w_db (sy_world s))) :
  0 <= Invite_Uses i <= Invite_MaxUses i /\ Invite_MaxUses i <= 1000 /\ Invite_Role i ∈ invite_roles.
Proof.
  pose proof (reachable_circle_inv d s Hr) as Hc. pose proof (reachable_wf d s Hr) as Hw.
  destruct Hc as [_ Hb _]. destruct Hw as [_ Hw _]. pose proof (wf_invites_check _ Hw) as Hk.
  rewrite Forall_forall in Hb, Hk. destruct (Hb i Hi) as [Hrole Hu]. destruct (Hk i Hi) as (_ & Hm & _).
  split; [done|]. split; [lia|done].
Qed.

Lemma invite_never_oversold_witness :
  exists i, i ∈ invites (w_db (sy_world demo_state)) /\ 0 <= Invite_Uses i <= 2.
Proof.
  eexists. split; [apply list_elem_of_lookup_2 with (i := 0%nat); vm_compute; reflexivity|].
  edestruct (invite_never_oversold demo_dep demo_state) as [Hu _];
    [exact demo_reachable|apply list_elem_of_lookup_2 with (i := 0%nat); vm_compute; reflexivity|exact Hu].
Defined.
