(* ===== verification/AuthSpec.v ===== *)
(** * Authentication: lockout, rotation, resolution *)

From S2P Require Import Prelude Table GoTime Base64 Models Api Ext World Demo Hub StoreAccounts.
From S2P Require Import StoreWf Token Password Auth Server AuthApi Router.
Local Open Scope Z_scope.
Local Open Scope aul_scope.

(** The failures of [email] among [attempts] inside the window before [now] and
    after its last success: what [CountRecentFailuresByEmail] counts. *)
Definition failures_in (attempts : list LoginAttempt) (now : time) (email : string) (window : duration) : Z :=
  let last_ok := default sqliteEpoch (sql_max (LoginAttempt_CreatedAt <$>
    filter (fun la => attempt_of (Some email) la /\ LoginAttempt_Success la = true) attempts)) in
  count_where (fun la => attempt_of (Some email) la /\ LoginAttempt_Success la = false /\
    LoginAttempt_CreatedAt la > tv (Add now (- window)) /\ LoginAttempt_CreatedAt la > last_ok) attempts.

Definition recent_failures (email : string) (window : duration) (w : World) : Z :=
  failures_in (login_attempts (w_db w)) (w_now w) email window.

(** A policy whose first lock is shorter than its longest. *)
Definition policy_ok (p : LockoutPolicy) : Prop :=
  0 < lp_BaseBackoff p <= lp_MaxBackoff p /\ lp_MaxBackoff p * 2 ^ 20 < 2 ^ 63.

(** Ann's account, her device and a session of hers, as [Register] leaves them. *)
Definition ann_hash : string :=
  match fst (HashPasswordWithParams "correct horse" DefaultArgon2Params demo_world) with
  | Ok h => h | Err _ => EmptyString end.

Definition ann_db (attempts : list LoginAttempt) : DB :=
  set_login_attempts attempts
    (set_sessions [mkSession 6 2 3 (HashToken (cfg_SessionPepper demo_cfg) "access")
        (HashToken (cfg_SessionPepper demo_cfg) "refresh") None (demo_now + 15 * Minute) (demo_now + 30 * Day)
        None demo_now demo_now]
      (set_devices [mkDevice 3 2 "web" None None None demo_now None]
        (set_users [mkUser 2 "ann@example.org" ann_hash demo_now demo_now] empty_db))).

Definition ann_world (attempts : list LoginAttempt) : World := set_db (ann_db attempts) demo_world.

Lemma ann_wf : wf_db (w_db (ann_world [])).
Proof. split; split; decide_compute. Qed.

Definition ann_failure (n : Z) : LoginAttempt :=
  mkLoginAttempt n (Some "ann@example.org"%string) None false (demo_now - n * Second).

Definition ann_login (password : string) : LoginInput :=
  mkLoginInput "ann@example.org" password "web" "" None None "203.0.113.7".

Definition locked_world : World := ann_world (ann_failure <$> [1; 2; 3; 4; 5]).

Definition ann_dep : Deployment := mkDeployment demo_cfg demo_dummyHash (mkChannels true true) (fun _ => Delivered).

Abbreviation ann_auth := (dp_auth ann_dep).

(** ** Backoff *)

Lemma backoff_small p over : policy_ok p -> 1 <= over <= 20 ->
  backoff p over = Z.min (lp_MaxBackoff p) (lp_BaseBackoff p * 2 ^ (over - 1)).
Proof.
  intros [Hb Hm] Ho. unfold backoff. rewrite (proj2 (Z.ltb_ge over 1)), (proj2 (Z.ltb_ge 20 over)) by lia.
  rewrite Z.shiftl_mul_pow2 by lia.
  assert (H1 : (1 <= 2 ^ (over - 1))%Z) by (change 1 with (2 ^ 0) at 1; apply Z.pow_le_mono_r; lia).
  assert (H2 : (2 ^ (over - 1) <= 2 ^ 20)%Z) by (apply Z.pow_le_mono_r; lia).
  unfold wrap64. rewrite wrap_id; [|lia|split; [nia|change (64 - 1) with 63; nia]].
  rewrite (proj2 (Z.leb_gt _ 0)) by nia. rewrite orb_false_r.
  destruct (Z.ltb_spec (lp_MaxBackoff p) (lp_BaseBackoff p * 2 ^ (over - 1))); lia.
Qed.

Lemma backoff_large p over : 20 < over -> backoff p over = lp_MaxBackoff p.
Proof.
  intros Ho. unfold backoff. rewrite (proj2 (Z.ltb_ge over 1)), (proj2 (Z.ltb_lt 20 over)) by lia. done.
Qed.

Lemma backoff_below p over : over < 1 -> backoff p over = backoff p 1.
Proof. intros Ho. unfold backoff at 1. by rewrite (proj2 (Z.ltb_lt over 1)) by lia. Qed.

(** the lockout's retry hint: for every excess count of any size it is positive
    and at most the cap, it never decreases as failures mount, and it doubles from
    the base until the cap: the shift never overflows into a short lock. *)
Theorem backoff_bounds p (over over' : Z) (Hp : policy_ok p) (Hle : over <= over') :
  0 < backoff p over <= lp_MaxBackoff p /\ backoff p over <= backoff p over' /\
  (1 <= over < 20 -> backoff p (over + 1) = Z.min (lp_MaxBackoff p) (2 * backoff p over)).
Proof.
  assert (Hb : forall n, backoff p n =
      if decide (20 < n) then lp_MaxBackoff p
      else Z.min (lp_MaxBackoff p) (lp_BaseBackoff p * 2 ^ (Z.max 1 n - 1))).
  { intros n. case_decide; [by apply backoff_large|]. destruct (decide (n < 1)).
    - rewrite backoff_below, backoff_small by (done || lia). by rewrite Z.max_l by lia.
    - rewrite backoff_small by (done || lia). by rewrite Z.max_r by lia. }
  assert (Hm : (2 ^ (Z.max 1 over - 1) <= 2 ^ (Z.max 1 over' - 1))%Z) by (apply Z.pow_le_mono_r; lia).
  assert (H1 : (1 <= 2 ^ (Z.max 1 over - 1))%Z) by (change 1 with (2 ^ 0) at 1; apply Z.pow_le_mono_r; lia).
  destruct Hp as [Hp _]. split; [|split].
  - rewrite Hb. case_decide; [lia|]. nia.
  - rewrite !Hb. do 2 case_decide; nia.
  - intros Ho. rewrite !Hb, !decide_False by lia.
    replace (Z.max 1 (over + 1) - 1) with (Z.succ (Z.max 1 over - 1)) by lia.
    rewrite Z.pow_succ_r by lia. lia.
Qed.

Lemma backoff_bounds_witness :
  policy_ok DefaultLockout /\ backoff DefaultLockout 3 = 120 * Second /\
  0 < backoff DefaultLockout (2 ^ 62) <= 15 * Minute.
Proof.
  assert (H : policy_ok DefaultLockout) by (split; vm_compute; split || idtac; congruence).
  split; [done|]. split; [reflexivity|]. by apply (backoff_bounds DefaultLockout (2 ^ 62) (2 ^ 62)).
Defined.

(** ** Login *)

Lemma count_by_email email window w : w_faults w = [] ->
  CountRecentFailuresByEmail (Some email) window w = (Ok (recent_failures email window w), w).
Proof. intros Hf. unfold CountRecentFailuresByEmail. by rewrite query_nofault. Qed.

(** C11: a locked account is refused before its password is looked at, with the
    excess's backoff as the hint, and the refusal changes nothing: not the
    counters, not the audit log, not the time spent on hashing; with no failing
    statement. *)
Theorem locked_login_refused `{Ext} s inp w
    (Hf : w_faults w = []) (Hp : validatePlatform (li_Platform inp) = Ok tt) (Hk : validatePubkey (li_Pubkey inp) = Ok tt)
    (Hn : lp_EmailThreshold (sv_lockout s) <=
       recent_failures (normalizeEmail (li_Email inp)) (lp_Window (sv_lockout s)) w) :
  let lp := sv_lockout s in
  run (Login s inp) w =
    (Err (LockedError (backoff lp
       (recent_failures (normalizeEmail (li_Email inp)) (lp_Window lp) w - lp_EmailThreshold lp + 1))
       "too many failed attempts for this account"), w).
Proof.
  cbv zeta. unfold Login. rewrite Hp, Hk. unfold decode, checkLockout. cbv zeta.
  rewrite run_attempt, count_by_email by done. cbv beta iota.
  by rewrite (proj2 (Z.leb_le _ _) Hn).
Qed.

Lemma locked_login_refused_witness :
  run (Login ann_auth (ann_login "correct horse")) locked_world =
    (Err (LockedError (30 * Second) "too many failed attempts for this account"), locked_world).
Proof. apply (locked_login_refused ann_auth (ann_login "correct horse") locked_world); decide_compute || reflexivity. Defined.

(** *** A login adds at most one attempt *)

Lemma sql_max_app l x : sql_max (l ++ [x]) = Some (default x (Z.max x <$> sql_max l)).
Proof.
  induction l as [|y l IH]; simpl; [done|]. rewrite IH. destruct (sql_max l); simpl; f_equal; lia.
Qed.

Lemma failures_in_app attempts now email window la :
  sqliteEpoch <= LoginAttempt_CreatedAt la ->
  failures_in (attempts ++ [la]) now email window <= failures_in attempts now email window + 1.
Proof.
  intros Hla. unfold failures_in. rewrite count_where_app. apply Z.add_le_mono; [|apply count_where_one].
  apply count_where_le. intros r (H1 & H2 & H3 & H4).
  split; [done|]. split; [done|]. split; [done|]. revert H4. rewrite filter_app, fmap_app. rewrite (filter_cons _ la).
  case_decide as Hd; simpl; [|by rewrite app_nil_r].
  rewrite sql_max_app. destruct (sql_max _) as [m|]; simpl; lia.
Qed.

(** What is left of a login once its attempt is recorded writes no other. *)
Definition attempts_are (L : list LoginAttempt) (db : DB) : Prop := login_attempts db = L.

Section frame.
Context (L : list LoginAttempt).
Abbreviation keeps := (pres (on_db (attempts_are L))).

Ltac frame := apply pres_sql; unfold attempts_are; intros ? ? ? ? ? ?; inv_stmt; simpl; congruence.

Lemma keeps_WriteAudit e u d c i t : keeps (WriteAudit e u d c i t).
Proof. frame. Qed.
Lemma keeps_UpdateUserPassword i p : keeps (UpdateUserPassword i p).
Proof. frame. Qed.
Lemma keeps_SetDevicePubkey i k : keeps (SetDevicePubkey i k).
Proof. frame. Qed.
Lemma keeps_CreateDevice u p n k : keeps (CreateDevice u p n k).
Proof. apply pres_bind; [auto with aul|]. intros. frame. Qed.
Lemma keeps_CreateSession u d a r ae re : keeps (CreateSession u d a r ae re).
Proof. apply pres_bind; [auto with aul|]. intros. frame. Qed.
End frame.

#[export] Hint Resolve keeps_WriteAudit keeps_UpdateUserPassword keeps_SetDevicePubkey keeps_CreateDevice
  keeps_CreateSession : aul.

(** The attempts after [p] are those before it, or one more at time [now]. *)
Definition at_most_one (L : list LoginAttempt) (now : time) (L' : list LoginAttempt) : Prop :=
  L' = L \/ exists la, LoginAttempt_CreatedAt la = sqNow now /\ L' = L ++ [la].

(** The transaction of a login writes no attempt. *)
Lemma pres_resolveOrCreateDevice L u inp : pres (on_db (attempts_are L)) (resolveOrCreateDevice u inp).
Proof.
  unfold resolveOrCreateDevice. destruct (li_DeviceID inp) as [id|]; [|solve_ok].
  intros w Hw. assert (Hq : pres (on_db (attempts_are L)) (GetDeviceForUser id (User_ID u))) by apply pres_query.
  specialize (Hq w Hw). destruct (GetDeviceForUser _ _ _) as [[d|e] w1]; [|done]. simpl in Hq.
  destruct (_ && _); [|done]. revert w1 Hq.
  change (pres (on_db (attempts_are L)) (M_bind (SetDevicePubkey (Device_ID d) (li_Pubkey inp))
    (fun _ => ret (Device_set_Pubkey (li_Pubkey inp) d)))). solve_ok.
Qed.

#[export] Hint Resolve pres_resolveOrCreateDevice : aul.

(** [once p]: a run of [p] records at most one attempt, at its own time. *)
Definition once {A} (p : prog A) : Prop := forall w,
  at_most_one (login_attempts (w_db w)) (w_now w) (login_attempts (w_db (snd (run p w)))).

Definition neutral {X} (m : M X) : Prop := forall w,
  login_attempts (w_db (snd (m w))) = login_attempts (w_db w) /\ w_now (snd (m w)) = w_now w.

Lemma neutral_query {X} (f : time -> DB -> result error X) : neutral (query f).
Proof. intros w. destruct (query_now f w) as [Hn Hd]. by rewrite Hd. Qed.

Lemma neutral_hash `{Ext} pw p : neutral (HashPasswordWithParams pw p).
Proof.
  intros w. unfold HashPasswordWithParams, fail, M_bind, rand_Read, IDKey, ret.
  case_decide; [done|]. by destruct (w_rand w _).
Qed.

Lemma neutral_verify `{Ext} h pw : neutral (crypto_VerifyPassword h pw).
Proof. intros w. by rewrite crypto_VerifyPassword_eq. Qed.

Lemma neutral_UpdateUserPassword i h : neutral (UpdateUserPassword i h).
Proof.
  intros w. unfold UpdateUserPassword, sql. destruct (next_fault w) as [b w1] eqn:Hn.
  apply next_fault_same in Hn as (<- & <- & _). by destruct b.
Qed.

Lemma once_quiet {A} (p : prog A) : (forall L, ok (on_db (attempts_are L)) p) -> once p.
Proof. intros Hp w. left. exact (run_ok _ p w (Hp (login_attempts (w_db w))) eq_refl). Qed.

Lemma once_attempt {A X} (m : M X) (h : error -> prog A) k :
  neutral m -> (forall e, once (h e)) -> (forall x, once (k x)) -> once (attempt m h k).
Proof.
  intros Hm Hh Hk w. rewrite run_attempt. destruct (Hm w) as [<- <-].
  destruct (m w) as [[x|e] w']; [apply Hk|apply Hh].
Qed.

Lemma once_do {A X} (m : M X) (k : prog A) : neutral m -> once k -> once (do_ m k).
Proof. intros Hm Hk w. rewrite run_do. destruct (Hm w) as [<- <-]. apply Hk. Qed.

Lemma once_decode {A E X} (r : result E X) (h : E -> prog A) k :
  (forall e, once (h e)) -> (forall x, once (k x)) -> once (decode r h k).
Proof. intros Hh Hk. destruct r; simpl; auto. Qed.

Lemma once_record {A} cfg email ip b (rest : prog A) :
  (forall L, ok (on_db (attempts_are L)) rest) -> once (do_ (recordAttempt cfg email ip b) rest).
Proof.
  intros Hrest w. rewrite run_do. set (w1 := snd (recordAttempt _ _ _ _ w)).
  pose proof (run_ok _ rest w1 (Hrest (login_attempts (w_db w1))) eq_refl) as Hr.
  unfold on_db, attempts_are in Hr. rewrite Hr. subst w1. clear Hr.
  unfold recordAttempt, ignore, RecordLoginAttempt, sql.
  destruct (next_fault w) as [f w0] eqn:Hn. apply next_fault_same in Hn as (Hd & Ht & _).
  destruct f; simpl; rewrite Hd, ?Ht; [by left|]. right. eexists. split; [|reflexivity]. done.
Qed.


Lemma once_ret {A} (a : A) : once (Ret a).
Proof. intros w. by left. Qed.

Lemma Login_once `{Ext} s inp : once (Login s inp).
Proof.
  unfold Login, checkLockout.
  repeat first
    [ apply once_ret
    | apply once_decode; intros ?
    | apply once_attempt; [solve [apply neutral_query|apply neutral_hash|apply neutral_verify]|intros ?|intros ?]
    | apply once_record; intros ?; unfold audit_Log, issueSession, GenerateToken; solve_ok
    | apply once_do; [solve [apply neutral_UpdateUserPassword|apply neutral_verify]|]
    | case_match ].
Qed.

(** the retry hint does not escalate: a locked account's failures are not
    recorded, so logins one after another never push the count past the threshold
    of five, and every refusal of the account hints the base of thirty seconds,
    while the lock lasts until the failures leave the fifteen-minute window. *)
Theorem lockout_hint_never_escalates `{Ext} d inp w
    (Hf : w_faults w = []) (Ht : sqliteEpoch <= tv (w_now w))
    (Hp : validatePlatform (li_Platform inp) = Ok tt) (Hk : validatePubkey (li_Pubkey inp) = Ok tt)
    (Hn : recent_failures (normalizeEmail (li_Email inp)) (15 * Minute) w <= 5) :
  let email := normalizeEmail (li_Email inp) in
  let '(answer, w') := run (Login (dp_auth d) inp) w in
  failures_in (login_attempts (w_db w')) (w_now w) email (15 * Minute) <= 5 /\
  (recent_failures email (15 * Minute) w = 5 ->
   answer = Err (LockedError (30 * Second) "too many failed attempts for this account") /\ w' = w).
Proof.
  cbv zeta. pose proof (Login_once (dp_auth d) inp w) as Ho.
  destruct (run _ w) as [answer w'] eqn:Hr. simpl in Ho.
  assert (Hlocked : recent_failures (normalizeEmail (li_Email inp)) (15 * Minute) w = 5 ->
    answer = Err (LockedError (30 * Second) "too many failed attempts for this account") /\ w' = w).
  { intros H5. unfold Login, checkLockout in Hr. rewrite Hp, Hk in Hr. unfold decode in Hr.
    rewrite run_attempt, count_by_email in Hr by done. cbv beta iota in Hr.
    change (lp_Window (sv_lockout (dp_auth d))) with (15 * Minute) in Hr. rewrite H5 in Hr. by injection Hr as <- <-. }
  split; [|done]. destruct (Z.eq_dec (recent_failures (normalizeEmail (li_Email inp)) (15 * Minute) w) 5) as [H5|H5].
  - destruct (Hlocked H5) as [_ ->]. exact Hn.
  - unfold recent_failures in *. destruct Ho as [->|(la & Hc & ->)]; [lia|].
    pose proof (failures_in_app (login_attempts (w_db w)) (w_now w) (normalizeEmail (li_Email inp)) (15 * Minute) la) as Ha.
    rewrite Hc in Ha. specialize (Ha Ht). lia.
Qed.

Lemma lockout_hint_never_escalates_witness :
  recent_failures "ann@example.org" (15 * Minute) locked_world = 5 /\
  fst (run (Login ann_auth (ann_login "wrong")) locked_world) =
    Err (LockedError (30 * Second) "too many failed attempts for this account").
Proof.
  assert (H5 : recent_failures "ann@example.org" (15 * Minute) locked_world = 5) by (vm_compute; reflexivity).
  split; [exact H5|].
  pose proof (lockout_hint_never_escalates ann_dep (ann_login "wrong") locked_world eq_refl
    ltac:(vm_compute; congruence) eq_refl eq_refl ltac:(vm_compute; congruence)) as Hl.
  cbv zeta in Hl. destruct (run _ locked_world) as [answer w']. destruct Hl as [_ Hl]. by apply Hl.
Defined.

(** ** Refresh *)

Lemma audit_sessions cfg e w : w_faults w = [] ->
  sessions (w_db (snd (audit_Log cfg e w))) = sessions (w_db w) /\ w_faults (snd (audit_Log cfg e w)) = [].
Proof. intros Hf. unfold audit_Log, ignore, WriteAudit. by rewrite sql_nofault. Qed.

Lemma GenerateToken_same w :
  let w' := snd (GenerateToken w) in w_db w' = w_db w /\ w_now w' = w_now w /\ w_faults w' = w_faults w.
Proof. unfold GenerateToken, M_bind, rand_Read. by destruct (w_rand w (w_draws w)). Qed.

(** A rotation that answered: the session it found and the row it left. *)
Lemma Refresh_Ok cfg t ip w res w' : w_faults w = [] -> run (Refresh cfg t ip) w = (Ok res, w') ->
  exists s ah now ae re,
    let h := HashToken (cfg_SessionPepper cfg) t in
    let f := rotated ah (HashToken (cfg_SessionPepper cfg) (res_RefreshToken res)) h ae re now in
    let P s' := Session_ID s' = Session_ID s /\ Session_RefreshTokenHash s' = h /\ Session_RevokedAt s' = None in
    s ∈ sessions (w_db w) /\ P s /\ Session_ID (res_Session res) = Session_ID s /\
    sessions (w_db w') = update_where P f (sessions (w_db w)).
Proof.
  intros Hf Hr. unfold Refresh in Hr. case_decide; [done|]. cbv zeta in Hr.
  rewrite run_attempt in Hr. unfold GetSessionByRefreshHash in Hr. rewrite query_nofault in Hr by done.
  destruct (one _) as [s|e] eqn:Ho.
  2: { apply one_Err in Ho as [-> _]. simpl negb in Hr. cbv iota in Hr. rewrite run_attempt in Hr.
       unfold GetSessionByPrevRefreshHash in Hr. rewrite query_nofault in Hr by done.
       destruct (one _); [by rewrite !run_do in Hr|done]. }
  apply one_Ok in Ho as [(Hh & Hrev & _) Hin].
  rewrite run_attempt in Hr. pose proof (GenerateToken_same w) as Hg1.
  destruct (GenerateToken w) as [[access|e] wa]; [|done]. destruct Hg1 as (Hd1 & Hn1 & Hf1).
  rewrite run_attempt in Hr. pose proof (GenerateToken_same wa) as Hg2.
  destruct (GenerateToken wa) as [[refresh|e] wb]; [|done]. destruct Hg2 as (Hd2 & Hn2 & Hf2).
  simpl in Hd1, Hn1, Hf1, Hd2, Hn2, Hf2.
  rewrite run_attempt in Hr. cbn [time_Now] in Hr. rewrite run_attempt in Hr.
  unfold RotateSession in Hr. rewrite sql_nofault in Hr by congruence. cbv zeta in Hr.
  rewrite Hd2, Hd1 in Hr. destruct (one _) as [r|e] eqn:Ho2; [|apply one_Err in Ho2 as [-> Ho2]; by destruct (Ho2 s Hin)].
  cbn [result_bind] in Hr. unfold require, guard_res in Hr.
  destruct (bool_decide _); [|done]. destruct (bool_decide _); [|done].
  apply one_Ok in Ho2 as [(Hrid & _) _]. rewrite run_do in Hr.
  match type of Hr with context [audit_Log ?c ?e ?w0] =>
    pose proof (proj1 (audit_sessions c e w0 ltac:(simpl; congruence))) as Ha; set (w1 := snd (audit_Log c e w0)) in * end.
  injection Hr as <- <-. exists s. do 4 eexists. cbv zeta.
  split; [done|]. split; [done|]. split; [exact Hrid|]. exact Ha.
Qed.

(** C7: a refresh token is spent once, while the engine fails no statement.  After a refresh, presenting the same
    token again answers that it was reused, whatever happened to the other tables
    and the clock in between, and the session is revoked: the tokens of both
    parties die. *)
Theorem refresh_reuse_revokes cfg t ip ip' w res w' w1
    (Hwf : wf_db (w_db w)) (Hf : w_faults w = []) (Hr : run (Refresh cfg t ip) w = (Ok res, w'))
    (Hfresh : Forall (fun s => Session_PrevRefreshHash s <> Some (HashToken (cfg_SessionPepper cfg) t)) (sessions (w_db w)))
    (Hnew : HashToken (cfg_SessionPepper cfg) (res_RefreshToken res) <> HashToken (cfg_SessionPepper cfg) t)
    (Hf1 : w_faults w1 = []) (Hs1 : sessions (w_db w1) = sessions (w_db w')) :
  let '(answer, w2) := run (Refresh cfg t ip') w1 in
  answer = Err ErrRefreshReused /\
  forall s, s ∈ sessions (w_db w2) -> Session_ID s = Session_ID (res_Session res) -> Session_RevokedAt s <> None.
Proof.
  assert (Ht : t <> EmptyString) by (intros ->; done).
  destruct (Refresh_Ok _ _ _ _ _ _ Hf Hr) as (s & ah & now & ae & re & Hin & (_ & Hh & Hrev) & Hid & Hu).
  destruct Hwf as [Hwf _ _]. pose proof (wf_sessions_id _ Hwf) as Huid.
  pose proof (wf_sessions_refresh _ Hwf) as Hurf. rewrite Forall_forall in Hfresh.
  set (h := HashToken (cfg_SessionPepper cfg) t) in *.
  (* the rows after the rotation: those that held [h] are the rotated one *)
  assert (Hrow : forall s', s' ∈ sessions (w_db w1) -> Session_RefreshTokenHash s' <> h /\
     (Session_PrevRefreshHash s' = Some h -> Session_ID s' = Session_ID s)).
  { intros s' Hs'. rewrite Hs1, Hu in Hs'. apply list_elem_of_fmap in Hs' as (s0 & -> & Hs0).
    case_decide as Hd; [destruct Hd as (Hi & _); split; [exact Hnew|done]|].
    split; [|intros Hp; by destruct (Hfresh s0 Hs0)].
    intros He. apply Hd. assert (s0 = s) as -> by (eapply (uniq_inj Session_RefreshTokenHash); [exact Hurf|done|done|congruence]).
    done. }
  unfold Refresh. rewrite decide_False by done. cbv zeta. fold h. rewrite run_attempt.
  unfold GetSessionByRefreshHash. rewrite query_nofault by done.
  destruct (one _) as [s'|e] eqn:Ho; [apply one_Ok in Ho as [(He & _) Hs']; by destruct (Hrow s' Hs')|].
  apply one_Err in Ho as [-> _]. simpl negb. cbv iota. rewrite run_attempt.
  unfold GetSessionByPrevRefreshHash. rewrite query_nofault by done.
  destruct (one _) as [s'|e] eqn:Ho.
  2: { apply one_Err in Ho as [_ Ho]. exfalso.
       apply (Ho (rotated ah (HashToken (cfg_SessionPepper cfg) (res_RefreshToken res)) h ae re now s)); [|done].
       rewrite Hs1, Hu. apply list_elem_of_fmap. exists s. by rewrite decide_True. }
  apply one_Ok in Ho as [(_ & Hp & Hn) Hs']. destruct (Hrow s' Hs') as [_ Hi]. specialize (Hi Hp).
  rewrite !run_do. cbv iota.
  unfold RevokeSession, revoke_where. rewrite sql_nofault by done. cbv beta iota.
  match goal with |- context [audit_Log ?c ?e ?w0] =>
    pose proof (proj1 (audit_sessions c e w0 Hf1)) as Ha; set (w2 := snd (audit_Log c e w0)) in * end.
  split; [done|]. rewrite Ha. intros s2 Hs2 Hid2.
  apply list_elem_of_fmap in Hs2 as (s0 & -> & Hs0). case_decide as Hd; [done|].
  intros Hn2. apply Hd. split; [congruence|done].
Qed.

Lemma refresh_reuse_revokes_witness :
  let w' := snd (run (Refresh demo_cfg "refresh" "198.51.100.1") (ann_world [])) in
  fst (run (Refresh demo_cfg "refresh" "203.0.113.7") w') = Err ErrRefreshReused.
Proof.
  cbv zeta. destruct (run (Refresh demo_cfg "refresh" "198.51.100.1") (ann_world [])) as [[res|e] w'] eqn:Hr.
  - assert (Ht : res_RefreshToken res = EncodeToString RawURLEncoding (repeat (demo_byte 1) 32)).
    { pose proof (f_equal fst Hr) as Hres. vm_compute in Hres. injection Hres as <-. vm_compute. reflexivity. }
    assert (Hw : w_faults w' = []) by (pose proof (f_equal (fun p => w_faults (snd p)) Hr) as Hw; by vm_compute in Hw).
    pose proof (refresh_reuse_revokes demo_cfg "refresh" "198.51.100.1" "203.0.113.7" (ann_world []) res w' w') as Hx.
    simpl snd. destruct (run (Refresh demo_cfg "refresh" "203.0.113.7") w') as [answer w2]. simpl fst.
    refine (proj1 (Hx _ _ Hr _ _ Hw _)).
    + exact ann_wf.
    + reflexivity.
    + decide_compute.
    + rewrite Ht. clear. vm_compute. congruence.
    + reflexivity.
  - exfalso. pose proof (f_equal fst Hr) as Hres. vm_compute in Hres. discriminate Hres.
Defined.

(** ** The gate in front of the API *)

(** The session an access token opens at the clock of [w]. *)
Definition opens (cfg : Config) (token : string) (w : World) (s : Session) : Prop :=
  token <> EmptyString /\ s ∈ sessions (w_db w) /\
  Session_AccessTokenHash s = HashToken (cfg_SessionPepper cfg) token /\
  Session_RevokedAt s = None /\ Session_AccessExpiresAt s > tv (w_now w).

Definition identity (s : Session) : Auth := mkAuth (Session_UserID s) (Session_DeviceID s) (Session_ID s).

Lemma Resolve_spec cfg token w : w_faults w = [] ->
  (exists s, opens cfg token w s /\ Resolve cfg token w = (Ok (identity s), w)) \/
  ((forall s, ~ opens cfg token w s) /\ Resolve cfg token w = (Err ErrUnauthorized, w)).
Proof.
  intros Hf. unfold Resolve, opens. case_decide as Ht; [right; split; [by intros s (? & _)|done]|].
  unfold GetSessionByAccessHash. rewrite query_nofault by done.
  destruct (one _) as [s|e] eqn:Ho.
  - apply one_Ok in Ho as [(Hh & Hr & He) Hin]. left. exists s. split; [auto|done].
  - apply one_Err in Ho as [-> Ho]. right. split; [|done]. intros s (_ & Hin & Hh & Hr & He).
    apply (Ho s Hin). auto.
Qed.

(** C6: while the engine fails no statement, every authenticated route runs exactly when the request's token is the
    access token of a session that is neither revoked nor expired, and then as
    that session's user and device; otherwise the answer is 401 and nothing
    changes. *)
Theorem authenticated_routes_gated `{Ext} d r allow ar w (Hf : w_faults w = []) :
  (exists s, opens (dp_cfg d) (request_token r) w s /\
     run (serve d r allow (Authed ar)) w = run (serve_authed d r allow (identity s) ar) w) \/
  ((forall s, ~ opens (dp_cfg d) (request_token r) w s) /\
     run (serve d r allow (Authed ar)) w = (Unauthorized "authentication required", w)).
Proof.
  unfold serve, RequireAuth. rewrite run_attempt.
  destruct (Resolve_spec (dp_cfg d) (request_token r) w Hf) as [(s & Hs & ->)|[Hs ->]]; [left; eauto|by right].
Qed.

(** logging out ends the session: after a logout that answered 200, the same
    token is refused by every authenticated route. *)
Theorem logout_ends_session `{Ext} d r allow allow' ar w answer w'
    (Hwf : wf_db (w_db w)) (Hf : w_faults w = [])
    (Hr : run (serve d r allow (Authed PostLogout)) w = (answer, w')) (Hok : resp_status answer = 200) :
  run (serve d r allow' (Authed ar)) w' = (Unauthorized "authentication required", w').
Proof.
  unfold serve, RequireAuth in Hr. rewrite run_attempt in Hr.
  destruct (Resolve_spec (dp_cfg d) (request_token r) w Hf) as [(s & Hs & Hres)|[_ Hres]];
    rewrite Hres in Hr; [|by injection Hr as <- <-].
  cbn [serve_authed] in Hr. unfold handleLogout, Logout in Hr. rewrite run_attempt in Hr.
  unfold RevokeSession, revoke_where in Hr. rewrite sql_nofault in Hr by done. cbv beta iota in Hr.
  rewrite run_do in Hr.
  match type of Hr with context [audit_Log ?c ?e ?w0] =>
    destruct (audit_sessions c e w0 Hf) as [Ha Hf']; set (w1 := snd (audit_Log c e w0)) in * end.
  injection Hr as <- <-. unfold serve, RequireAuth. rewrite run_attempt.
  destruct (Resolve_spec (dp_cfg d) (request_token r) w1 Hf') as [(s' & Hs' & _)|[_ ->]]; [exfalso|done].
  destruct Hs as (_ & Hin & Hh & _). destruct Hs' as (_ & Hin' & Hh' & Hrev & _).
  rewrite Ha in Hin'. apply list_elem_of_fmap in Hin' as (s0 & -> & Hin0).
  case_decide as Hd; [done|]. apply Hd. split; [|done].
  destruct Hwf as [Hwf _ _]. pose proof (wf_sessions_access _ Hwf) as Hu.
  assert (s0 = s) as -> by (eapply (uniq_inj Session_AccessTokenHash); [exact Hu|done|done|congruence]). done.
Qed.

Lemma authenticated_routes_gated_witness :
  fst (run (serve ann_dep (mkRequest "Bearer access" None "203.0.113.7") true (Authed GetMe)) (ann_world []))
    = WriteJSON 200 (BUser (mk_userDTO 2 "ann@example.org")) /\
  fst (run (serve ann_dep (mkRequest "Bearer stolen" None "203.0.113.7") true (Authed GetMe)) (ann_world []))
    = Unauthorized "authentication required".
Proof.
  split.
  - destruct (authenticated_routes_gated ann_dep (mkRequest "Bearer access" None "203.0.113.7") true GetMe
      (ann_world []) eq_refl) as [(s & (_ & Hin & _) & ->)|[Hno _]].
    + apply list_elem_of_singleton in Hin as ->. vm_compute. reflexivity.
    + exfalso. eapply Hno. split; [vm_compute; congruence|]. split; [apply list_elem_of_singleton; reflexivity|].
      split; [vm_compute; reflexivity|]. split; [reflexivity|vm_compute; reflexivity].
  - vm_compute. reflexivity.
Defined.

Lemma logout_ends_session_witness :
  let r := mkRequest "Bearer access" None "203.0.113.7" in
  let w' := snd (run (serve ann_dep r true (Authed PostLogout)) (ann_world [])) in
  run (serve ann_dep r true (Authed GetMe)) w' = (Unauthorized "authentication required", w').
Proof.
  cbv zeta. eapply (logout_ends_session ann_dep _ true true GetMe (ann_world [])).
  - exact ann_wf.
  - reflexivity.
  - apply surjective_pairing.
  - vm_compute. reflexivity.
Defined.

(** ** An error path *)

(** The failures from [ip] inside the window of [w]. *)
Definition recent_ip_failures (ip : string) (window : duration) (w : World) : Z :=
  count_where (fun la => Some ip <> None /\ LoginAttempt_Ip la = Some ip /\ LoginAttempt_Success la = false /\
    LoginAttempt_CreatedAt la > tv (Add (w_now w) (- window))) (login_attempts (w_db w)).

Lemma checkLockout_open {A} lp email ip (h : error -> prog A) k w : w_faults w = [] ->
  recent_failures email (lp_Window lp) w < lp_EmailThreshold lp ->
  recent_ip_failures ip (lp_Window lp) w < lp_IPThreshold lp ->
  run (checkLockout lp email ip h k) w = run (k unlocked) w.
Proof.
  intros Hf He Hi. unfold checkLockout. rewrite run_attempt, count_by_email by done. cbv beta iota.
  rewrite (proj2 (Z.leb_gt _ _) He). case_decide; [done|]. rewrite run_attempt.
  unfold CountRecentFailuresByIP. rewrite query_nofault by done. cbv zeta beta iota.
  fold (recent_ip_failures ip (lp_Window lp) w). by rewrite (proj2 (Z.leb_gt _ _) Hi).
Qed.

(** the answer to an empty password tells whether the address has an account:
    for an account it is an internal error, with no attempt recorded, for an
    unknown address it is 401. *)
Theorem empty_password_tells_account `{Ext} d ip platform email w
    (Hf : w_faults w = []) (Hp : validatePlatform platform = Ok tt)
    (He : recent_failures (normalizeEmail email) (15 * Minute) w < 5)
    (Hi : recent_ip_failures ip (15 * Minute) w < 50) :
  let answer := run (handleLogin (dp_auth d) ip (Ok (mk_loginReq email "" platform "" "" ""))) w in
  (nocase (normalizeEmail email) ∈ user_email <$> users (w_db w) -> answer = (Internal ErrEmptyPassword, w)) /\
  (nocase (normalizeEmail email) ∉ user_email <$> users (w_db w) ->
   fst answer = Unauthorized "invalid email or password").
Proof.
  cbv zeta. unfold handleLogin, decode, optionalPubkey. rewrite !decide_True by done.
  unfold Login, decode. cbn [li_Platform li_Pubkey li_Email li_IP li_Password
    lr_Email lr_Password lr_Platform lr_DisplayName lr_DeviceID lr_Pubkey]. rewrite Hp.
  change (validatePubkey None) with (@Ok error unit tt). cbv beta iota zeta.
  rewrite run_bind, checkLockout_open by done. cbn [ls_Locked unlocked].
  rewrite run_attempt. unfold GetUserByEmail.
  rewrite query_nofault by done. destruct (one _) as [u|e] eqn:Ho.
  - apply one_Ok in Ho as [Hu Hin]. split; [done|]. intros Hn. destruct Hn. rewrite <- Hu. by apply elem_of_keys.
  - apply one_Err in Ho as [-> Ho]. cbn [IsNotFound]. rewrite !run_do. split; [|done].
    intros (u & Hu & Hin)%list_elem_of_fmap. by destruct (Ho u Hin).
Qed.

Lemma empty_password_tells_account_witness :
  fst (run (handleLogin ann_auth "203.0.113.7" (Ok (mk_loginReq "ann@example.org" "" "web" "" "" ""))) (ann_world []))
    = Internal ErrEmptyPassword /\
  fst (run (handleLogin ann_auth "203.0.113.7" (Ok (mk_loginReq "bob@example.org" "" "web" "" "" ""))) (ann_world []))
    = Unauthorized "invalid email or password".
Proof.
  split.
  - rewrite (proj1 (empty_password_tells_account ann_dep "203.0.113.7" "web" "ann@example.org" (ann_world [])
      eq_refl eq_refl ltac:(vm_compute; reflexivity) ltac:(vm_compute; reflexivity)) ltac:(decide_compute)). reflexivity.
  - apply (proj2 (empty_password_tells_account ann_dep "203.0.113.7" "web" "bob@example.org" (ann_world [])
      eq_refl eq_refl ltac:(vm_compute; reflexivity) ltac:(vm_compute; reflexivity))). decide_compute.
Defined.

(** ** Nothing else tells *)

Lemma default_params_ok : params_ok DefaultArgon2Params.
Proof. repeat split; vm_compute; congruence. Qed.

(** Argon2id's keys have the length asked for. *)
Definition key_length_law `{Ext} : Prop := forall pw salt,
  Z.of_nat (length (argon2_IDKey pw salt (Iterations DefaultArgon2Params) (Memory DefaultArgon2Params)
    (Parallelism DefaultArgon2Params) (KeyLength DefaultArgon2Params))) = KeyLength DefaultArgon2Params.

(** A verification against the dummy hash is one computation at the current parameters. *)
Lemma dummy_cost `{Ext} cfg w s w' password : key_length_law ->
  NewService cfg [] w = (Ok s, w') -> password <> EmptyString ->
  verify_cost (sv_dummyHash s) password = [kdf_cost DefaultArgon2Params].
Proof.
  intros Hlen Hs Hpw. apply bind_Ok in Hs as (dummy & w1 & Hh & [= <- <-]). unfold HashPasswordWithParams in Hh.
  destruct (decide _) as [|_] in Hh; [done|]. apply bind_Ok in Hh as (salt & w2 & Hr & [= <- <-]).
  unfold verify_cost. rewrite decide_False by done. cbn [sv_dummyHash sv_argonParams].
  rewrite decode_print; [done|exact default_params_ok| |apply Hlen].
  unfold rand_Read in Hr. destruct (w_rand w (w_draws w)) as [b|]; [|done]. injection Hr as <- _.
  rewrite length_firstn, length_app, ?repeat_length. change (SaltLength DefaultArgon2Params) with 16. cbn [length]. lia.
Qed.

(** The tables after a failed attempt, but for the audit log. *)
Lemma failed_attempt cfg email ip e w : w_faults w = [] ->
  let w' := snd (audit_Log cfg e (snd (recordAttempt cfg email ip false w))) in
  login_attempts (w_db w') = login_attempts (w_db w) ++
    [mkLoginAttempt (login_attempts_seq (w_db w)) (Some email)
       (strPtrOrNil (if storeIP cfg then ip else EmptyString)) false (sqNow (w_now w))] /\
  users (w_db w') = users (w_db w) /\ devices (w_db w') = devices (w_db w) /\ sessions (w_db w') = sessions (w_db w) /\
  w_kdf w' = w_kdf w.
Proof.
  intros Hf. cbv zeta.
  assert (snd (recordAttempt cfg email ip false w) = set_db (set_login_attempts_seq (login_attempts_seq (w_db w) + 1)
    (set_login_attempts (login_attempts (w_db w) ++ [mkLoginAttempt (login_attempts_seq (w_db w)) (Some email)
       (strPtrOrNil (if storeIP cfg then ip else EmptyString)) false (sqNow (w_now w))]) (w_db w))) w) as ->
    by (unfold recordAttempt, ignore, RecordLoginAttempt; by rewrite sql_nofault).
  unfold audit_Log, ignore, WriteAudit. rewrite sql_nofault by done. split_and!; done.
Qed.


