(* ===== verification/CirclesSpec.v ===== *)
(** * Circles: who may do what, joining, leaving, deleting *)

From S2P Require Import Prelude Table GoTime Base64 Models Api Ext World Demo Hub StoreAccounts.
From S2P Require Import StoreCircles StorePings StoreWf Password Auth Server CirclesApi AuthApi Router.
From S2P Require Import StoreInv System.
Local Open Scope Z_scope.
Local Open Scope aul_scope.

(** The routes only an owner may use. *)
Definition owner_route (cr : CircleRoute) : bool :=
  match cr with
  | PatchCircle _ | DeleteCircle_ | DeleteMember _ | PostRotateKey | DeleteInvite _ => true
  | _ => false
  end.

(** Everything of one circle. *)
Definition rows_of (c : uuid) (db : DB) :=
  (filter (fun r => Circle_ID r = c) (circles db),
   filter (fun r => CircleMember_CircleID r = c) (circle_members db),
   filter (fun r => Invite_CircleID r = c) (invites db),
   filter (fun r => PlacesEnc_CircleID r = c) (places_enc db),
   filter (fun r => KeyEnvelope_CircleID r = c) (key_envelopes db),
   filter (fun r => SosEvent_CircleID r = c) (sos_events db),
   filter (fun r => Ping_CircleID r = c) (pings db),
   filter (fun r => NotificationMute_CircleID r = c) (notification_mutes db)).

(** Two users, and a circle of the first with an invite. *)
Definition ann_member : CircleMember := mkCircleMember 7 2 "owner" "precise" demo_now None.
Definition bob_member : CircleMember := mkCircleMember 7 5 "member" "precise" demo_now None.
Definition eve_member : CircleMember := mkCircleMember 7 6 "guardian" "precise" demo_now None.
Definition demo_invite_row : Invite := mkInvite 8 7 2 "member" 2 0 (demo_now + Day) "active" demo_now.

Definition circle_db (members : list CircleMember) : DB :=
  set_invites [demo_invite_row]
    (set_circle_members members
      (set_circles [mkCircle 7 None 30 1 2 demo_now; mkCircle 9 None 30 1 5 demo_now]
        (set_users [mkUser 2 "ann@example.org" "h" demo_now demo_now; mkUser 5 "bob@example.org" "h" demo_now demo_now;
          mkUser 6 "eve@example.org" "h" demo_now demo_now]
          empty_db))).

Definition circle_world (members : list CircleMember) : World := set_db (circle_db members) demo_world.
Definition circle_dep : Deployment := mkDeployment demo_cfg demo_dummyHash (mkChannels true true) (fun _ => Delivered).
Definition client : Request := mkRequest "" None "203.0.113.7".
Definition as_user (u : uuid) : Auth := mkAuth u 3 4.

(** ** Access *)

Lemma GetMembership_row c u m w : w_faults w = [] -> uniq member_key (circle_members (w_db w)) ->
  m ∈ circle_members (w_db w) -> is_member c u m -> GetMembership c u w = (Ok m, w).
Proof.
  intros Hf Hu Hin [Hc Hm]. unfold GetMembership. rewrite query_nofault by done.
  destruct (one _) as [m'|e] eqn:Ho.
  - apply one_Ok in Ho as [[Hc' Hm'] Hin']. f_equal. f_equal.
    eapply (uniq_inj member_key); [exact Hu|done|done|]. unfold member_key. congruence.
  - apply one_Err in Ho as [_ Ho]. by destruct (Ho m Hin).
Qed.

Lemma run_non_member `{Ext} d r allow a circleID cr w (Hf : w_faults w = [])
    (Hn : forall cid m, uuid_Parse circleID = Some cid -> m ∈ circle_members (w_db w) -> ~ is_member cid (a_UserID a) m) :
  run (serve_authed d r allow a (InCircle circleID cr)) w = (NotFound "circle not found", w).
Proof.
  cbn [serve_authed]. unfold requireCircleMember. destruct (uuid_Parse circleID) as [cid|]; [|done].
  rewrite run_attempt. unfold GetMembership. rewrite query_nofault by done.
  destruct (one _) as [m|e] eqn:Ho.
  - apply one_Ok in Ho as [Hm Hin]. by destruct (Hn cid m).
  - by apply one_Err in Ho as [-> _].
Qed.

(** C14: to a user who is not a member, every route of a circle answers 404 with the
    same words whether the circle exists or not, and changes nothing, while the engine
    fails no statement. *)
Theorem non_members_see_no_circle `{Ext} d r allow a circleID cr w (Hf : w_faults w = [])
    (Hn : forall cid m, uuid_Parse circleID = Some cid -> m ∈ circle_members (w_db w) -> ~ is_member cid (a_UserID a) m) :
  run (serve_authed d r allow a (InCircle circleID cr)) w = (NotFound "circle not found", w).
Proof. by apply run_non_member. Qed.

Lemma non_members_see_no_circle_witness :
  run (serve_authed circle_dep client true (as_user 5) (InCircle (demo_id 7) DeleteCircle_)) (circle_world [ann_member])
    = (NotFound "circle not found", circle_world [ann_member]).
Proof.
  apply (non_members_see_no_circle circle_dep client true (as_user 5) (demo_id 7) DeleteCircle_); [reflexivity|].
  intros cid m _ ->%list_elem_of_singleton [_ Hu]. discriminate Hu.
Defined.

(** a member who is not the owner is refused on every owner's route, and a
    guardian on creating invites, before the body is looked at and with nothing
    changed. *)
Theorem owner_routes_refuse_others `{Ext} d r a circleID cid cr m w
    (Hf : w_faults w = []) (Hwf : wf_db (w_db w)) (Hp : uuid_Parse circleID = Some cid)
    (Hm : m ∈ circle_members (w_db w)) (Hi : is_member cid (a_UserID a) m) (Ho : CircleMember_Role m <> "owner"%string) :
  (owner_route cr = true -> forall allow,
   run (serve_authed d r allow a (InCircle circleID cr)) w = (Forbidden "owner role required", w)) /\
  (CircleMember_Role m = "guardian"%string -> forall body,
   run (serve_authed d r true a (InCircle circleID (PostInvites body))) w =
     (Forbidden "guardian accounts cannot create invites", w)).
Proof.
  destruct Hwf as [_ Hwf _]. pose proof (wf_members_key _ Hwf) as Hu.
  assert (Hno : is_owner m = false) by (by apply bool_decide_eq_false_2).
  split; [intros Hr allow|intros Hg body]; cbn [serve_authed]; unfold requireCircleMember; rewrite Hp;
    rewrite run_attempt, (GetMembership_row _ _ m) by done.
  - destruct cr; try discriminate Hr; cbn [serve_circle];
      unfold handlePatchCircle, handleDeleteCircle, handleRemoveMember, handleRotateKey, handleRevokeInvite,
        requireOwner, World.check; by rewrite Hno.
  - cbn [serve_circle]. unfold RateLimit. rewrite andb_false_r. unfold handleCreateInvite, World.check.
    by rewrite Hg.
Qed.

Lemma owner_routes_refuse_others_witness :
  run (serve_authed circle_dep client true (as_user 5) (InCircle (demo_id 7) DeleteCircle_))
      (circle_world [ann_member; bob_member])
    = (Forbidden "owner role required", circle_world [ann_member; bob_member]).
Proof.
  refine (proj1 (owner_routes_refuse_others circle_dep client (as_user 5) (demo_id 7) 7 DeleteCircle_ bob_member (circle_world [ann_member; bob_member])
    eq_refl _ _ _ _ _) eq_refl true).
  - split; split; decide_compute.
  - vm_compute. reflexivity.
  - decide_compute.
  - split; reflexivity.
  - vm_compute. congruence.
Defined.

(** ** Leaving *)

(** A list without duplicates whose elements are all the same has at most one. *)
Lemma count_unique {R} (P : R -> Prop) `{forall r, Decision (P r)} (l : list R) r :
  NoDup l -> (forall r', r' ∈ l -> P r' -> r' = r) -> count_where P l <= 1.
Proof.
  intros Hnd Hu. unfold count_where. assert (Hn : NoDup (filter P l)) by by apply NoDup_filter.
  destruct (filter P l) as [|x [|y t]] eqn:Hf; simpl; try lia. exfalso.
  assert (Hx : x ∈ filter P l) by (rewrite Hf; constructor).
  assert (Hy : y ∈ filter P l) by (rewrite Hf; do 2 constructor).
  apply list_elem_of_filter in Hx as [? ?]. apply list_elem_of_filter in Hy as [? ?].
  apply NoDup_cons in Hn as [Hn _]. apply Hn. rewrite (Hu x), (Hu y) by done. constructor.
Qed.

(** an owner can never leave: in every reachable state the request of a
    circle's owner is answered with a conflict and changes nothing, since there is
    never a second owner to leave behind. *)
Theorem owner_cannot_leave `{Ext} d s m cfg ip (Hr : reachable d s) (Hf : w_faults (sy_world s) = [])
    (Hm : m ∈ circle_members (w_db (sy_world s))) (Ho : CircleMember_Role m = "owner"%string) :
  run (handleLeaveCircle cfg m ip) (sy_world s) =
    (Conflict "transfer ownership or delete the circle before leaving", sy_world s).
Proof.
  pose proof (reachable_circle_inv d s Hr) as Hi. destruct (reachable_wf d s Hr) as [_ Hw _].
  pose proof (wf_members_key _ Hw) as Hk.
  unfold handleLeaveCircle, is_owner. rewrite bool_decide_eq_true_2 by done.
  rewrite run_attempt. unfold CountOwners. rewrite query_nofault by done. cbv beta iota.
  rewrite (proj2 (Z.leb_le _ 1)); [done|]. apply (count_unique _ _ m).
  - by eapply NoDup_fmap_1.
  - intros m' Hm' [Hc' Ho']. by eapply owners_unique.
Qed.

(** Ann registers and creates her circle. *)
Definition owned : system :=
  mkSystem (snd (run (serve circle_dep (mkRequest ("Bearer " ++ EncodeToString RawURLEncoding (repeat (demo_byte 3) 32)) None "") true
      (Authed (PostCircles (Ok (mk_createCircleReq "" None)))))
    (snd (run (serve circle_dep client true
      (PostRegister (Ok (mk_registerReq "ann@example.org" "correct horse" "web" "" "")))) demo_world)))) [].

Lemma owner_cannot_leave_witness :
  exists m, m ∈ circle_members (w_db (sy_world owned)) /\
    fst (run (handleLeaveCircle demo_cfg m "") (sy_world owned)) =
      Conflict "transfer ownership or delete the circle before leaving".
Proof.
  assert (Hr : reachable circle_dep owned) by (repeat (apply reachable_run; [constructor|]); by apply reachable_boot).
  eexists. split; [apply list_elem_of_lookup_2 with (i := 0%nat); vm_compute; reflexivity|].
  rewrite (owner_cannot_leave circle_dep owned); [reflexivity|exact Hr|vm_compute; reflexivity| |reflexivity].
  apply list_elem_of_lookup_2 with (i := 0%nat). vm_compute. reflexivity.
Defined.

(** ** Joining *)

Lemma WithTx_run {A} (fn : M A) w : w_faults w = [] -> w_faults (snd (fn w)) = [] ->
  WithTx fn w = match fn w with
                | (Ok a, w2) => (Ok a, w2)
                | (Err e, w2) => (Err e, set_db (w_db w) w2)
                end.
Proof.
  intros Hf Hk. unfold WithTx, next_fault. rewrite Hf. destruct (fn w) as [[a|e] w2]; [|done].
  simpl in Hk. by rewrite Hk.
Qed.

(** The invite after one more use. *)
Definition consumed (i : Invite) : Invite := Invite_set_Uses (Invite_Uses i + 1) i.

(** C15: accepting an invite, with no failing statement: without a live invite of that id the transaction
    reports that there is none and changes nothing; with one, a user who is not
    yet a member joins with exactly the invite's role, the use is counted, and
    nothing else changes. *)
Theorem accept_joins_or_nothing id u w (Hwf : wf_db (w_db w)) (Hf : w_faults w = [])
    (Hu : u ∈ User_ID <$> users (w_db w)) :
  ((forall i, i ∈ invites (w_db w) -> Invite_ID i = id -> ~ invite_live (w_now w) i) ->
   accept_tx id u w = (Err ErrNoRows, w)) /\
  (forall i, i ∈ invites (w_db w) -> Invite_ID i = id -> invite_live (w_now w) i ->
   (forall m, m ∈ circle_members (w_db w) -> ~ is_member (Invite_CircleID i) u m) ->
   accept_tx id u w = (Ok (Invite_Role i), set_db
     (set_circle_members (circle_members (w_db w) ++
        [mkCircleMember (Invite_CircleID i) u (Invite_Role i) "precise" (sqNow (w_now w)) None])
       (set_invites (update_where (fun j => Invite_ID j = id /\ invite_live (w_now w) j) consumed (invites (w_db w)))
         (w_db w))) w)).
Proof.
  destruct Hwf as [_ Hwf _]. split.
  - intros Hno. unfold accept_tx.
    assert (Hc : ConsumeInvite id w = (Err ErrNoRows, w)).
    { unfold ConsumeInvite. rewrite sql_nofault by done. cbv zeta.
      destruct (one _) as [i|e] eqn:Ho; [apply one_Ok in Ho as [[Hi Hl] Hin]; by destruct (Hno i)|].
      by apply one_Err in Ho as [-> _]. }
    rewrite WithTx_run by (unfold M_bind; by rewrite ?Hc). unfold M_bind. rewrite Hc. by rewrite set_db_id.
  - intros i Hin Hid Hl Hnm. unfold accept_tx.
    set (db1 := set_invites (update_where (fun j => Invite_ID j = id /\ invite_live (w_now w) j) consumed
      (invites (w_db w))) (w_db w)).
    assert (Hc : ConsumeInvite id w = (Ok (consumed i), set_db db1 w)).
    { unfold ConsumeInvite. rewrite sql_nofault by done. cbv zeta.
      destruct (one _) as [j|e] eqn:Ho; [|apply one_Err in Ho as [_ Ho]; by destruct (Ho i)].
      apply one_Ok in Ho as [[Hj _] Hjin].
      assert (j = i) as -> by (eapply (uniq_inj Invite_ID); [apply Hwf|done|done|congruence]). done. }
    assert (Hcirc : Invite_CircleID i ∈ Circle_ID <$> circles (w_db w)).
    { pose proof (wf_invites_circle _ Hwf) as Hr. unfold refs in Hr. rewrite Forall_forall in Hr. by apply Hr. }
    assert (Hrole : Invite_Role i ∈ roles).
    { pose proof (wf_invites_check _ Hwf) as Hr. rewrite Forall_forall in Hr. destruct (Hr i Hin) as [Hr' _].
      unfold invite_roles, roles in *. set_solver. }
    assert (Ha : AddMember (Invite_CircleID i) u (Invite_Role i) (set_db db1 w) =
      (Ok (mkCircleMember (Invite_CircleID i) u (Invite_Role i) "precise" (sqNow (w_now w)) None),
       set_db (set_circle_members (circle_members (w_db w) ++
        [mkCircleMember (Invite_CircleID i) u (Invite_Role i) "precise" (sqNow (w_now w)) None]) db1) w)).
    { unfold AddMember. rewrite sql_nofault by done. unfold require, guard_res.
      rewrite bool_decide_eq_true_2 by done.
      destruct (filter _ _) as [|m l] eqn:Hfil.
      - by rewrite !bool_decide_eq_true_2 by done.
      - exfalso. assert (Hm : m ∈ filter (is_member (Invite_CircleID i) u) (circle_members (w_db w)))
          by (change (circle_members (w_db w)) with (circle_members (w_db (set_db db1 w))); rewrite Hfil; constructor).
        apply list_elem_of_filter in Hm as [Hm1 Hm2]. by apply (Hnm m). }
    match goal with |- WithTx ?fn w = ?rhs => assert (Hb : fn w = rhs) end.
    { unfold M_bind. rewrite Hc. change (Invite_CircleID (consumed i)) with (Invite_CircleID i).
      change (Invite_Role (consumed i)) with (Invite_Role i). by rewrite Ha. }
    rewrite WithTx_run by (rewrite ?Hb; done). by rewrite Hb.
Qed.

Lemma accept_joins_or_nothing_witness :
  let w' := snd (accept_tx 8 5 (circle_world [ann_member])) in
  fst (accept_tx 8 5 (circle_world [ann_member])) = Ok "member"%string /\
  circle_members (w_db w') = [ann_member; bob_member] /\ Invite_Uses <$> invites (w_db w') = [1] /\
  accept_tx 11 5 (circle_world [ann_member]) = (Err ErrNoRows, circle_world [ann_member]).
Proof.
  assert (Hwf : wf_db (w_db (circle_world [ann_member]))) by (split; split; decide_compute).
  pose proof (accept_joins_or_nothing 8 5 _ Hwf eq_refl ltac:(decide_compute)) as [_ Hlive].
  pose proof (accept_joins_or_nothing 11 5 _ Hwf eq_refl ltac:(decide_compute)) as [Hdead _].
  cbv zeta. rewrite (Hlive demo_invite_row); [|decide_compute|reflexivity|decide_compute|].
  - split; [reflexivity|]. split; [reflexivity|]. split; [vm_compute; reflexivity|].
    apply Hdead. intros i ->%list_elem_of_singleton Hi. discriminate Hi.
  - intros m ->%list_elem_of_singleton [_ Hm]. discriminate Hm.
Defined.

(** ** Deleting and removing *)

Lemma filter_delete_same {R} (key : R -> uuid) c (l : list R) :
  filter (fun r => key r = c) (delete_where (fun r => key r = c) l) = [].
Proof.
  unfold delete_where. induction l as [|r l IH]; [done|]. rewrite filter_cons.
  case_decide as Hd; [|done]. rewrite filter_cons_False by done. done.
Qed.

Lemma filter_delete_other {R} (key : R -> uuid) c c' (l : list R) : c' <> c ->
  filter (fun r => key r = c') (delete_where (fun r => key r = c) l) = filter (fun r => key r = c') l.
Proof.
  intros Hne. unfold delete_where. induction l as [|r l IH]; [done|].
  rewrite (filter_cons (fun r => ~ key r = c)). case_decide as Hd.
  - rewrite !(filter_cons (fun r => key r = c')). case_decide; by rewrite IH.
  - rewrite (filter_cons_False _ r) by congruence. done.
Qed.

(** deleting a circle leaves nothing of it in any table and nothing of any
    other circle changed; and every connection watching it is queued for eviction
    unless the queue is full. *)
Theorem delete_circle_leaves_nothing m w (Hf : w_faults w = []) (Ho : CircleMember_Role m = "owner"%string) :
  let c := CircleMember_CircleID m in
  let '(answer, w') := run (handleDeleteCircle m) w in
  answer = WriteJSON 200 (BStatus "deleted") /\
  rows_of c (w_db w') = rows_of c empty_db /\
  (forall c', c' <> c -> rows_of c' (w_db w') = rows_of c' (w_db w)) /\
  ((length (h_evict (w_hub w)) < evictBuffer)%nat ->
   h_evict (w_hub w') = h_evict (w_hub w) ++ [mkEvictReq c 0 true]).
Proof.
  cbv zeta. unfold handleDeleteCircle, requireOwner, is_owner, World.check. rewrite bool_decide_eq_true_2 by done.
  rewrite run_attempt. unfold DeleteCircle. rewrite sql_nofault by done. cbv beta iota.
  rewrite run_do. cbn [run]. split; [done|]. unfold rows_of. simpl. split; [|split].
  - rewrite (filter_delete_same Circle_ID), (filter_delete_same CircleMember_CircleID),
      (filter_delete_same Invite_CircleID), (filter_delete_same PlacesEnc_CircleID),
      (filter_delete_same KeyEnvelope_CircleID), (filter_delete_same SosEvent_CircleID),
      (filter_delete_same Ping_CircleID), (filter_delete_same NotificationMute_CircleID). done.
  - intros c' Hne.
    rewrite (filter_delete_other Circle_ID), (filter_delete_other CircleMember_CircleID),
      (filter_delete_other Invite_CircleID), (filter_delete_other PlacesEnc_CircleID),
      (filter_delete_other KeyEnvelope_CircleID), (filter_delete_other SosEvent_CircleID),
      (filter_delete_other Ping_CircleID), (filter_delete_other NotificationMute_CircleID) by done. done.
  - intros Hl. unfold EvictCircle. by rewrite (proj2 (Nat.ltb_lt _ _)).
Qed.

Lemma delete_circle_leaves_nothing_witness :
  let w := circle_world [ann_member; bob_member] in
  let '(answer, w') := run (handleDeleteCircle ann_member) w in
  answer = WriteJSON 200 (BStatus "deleted") /\ rows_of 7 (w_db w') = rows_of 7 empty_db /\
  rows_of 9 (w_db w') = rows_of 9 (w_db w) /\ rows_of 7 (w_db w) <> rows_of 7 empty_db.
Proof.
  cbv zeta. pose proof (delete_circle_leaves_nothing ann_member (circle_world [ann_member; bob_member]) eq_refl eq_refl) as Hd.
  cbv zeta in Hd. destruct (run _ _) as [answer w']. destruct Hd as (H1 & H2 & H3 & _).
  split; [done|]. split; [done|]. split; [by apply H3|]. vm_compute. congruence.
Defined.

(** What removing a member leaves: their row gone, the hub told to evict them and
    then to announce the change. *)
Lemma run_remove_member `{Ext} cfg m ip target w (Hf : w_faults w = [])
    (Ho : CircleMember_Role m = "owner"%string) (id : uuid) (Hp : uuid_Parse target = Some id)
    (Hne : id <> CircleMember_UserID m) :
  let c := CircleMember_CircleID m in
  exists w', run (handleRemoveMember cfg m ip target) w = (WriteJSON 200 (BStatus "removed"), w') /\
    w_faults w' = [] /\
    circle_members (w_db w') = delete_where (is_member c id) (circle_members (w_db w)) /\
    w_hub w' = Publish (mkEvent EventMemberChanged c None) (EvictUser c id (w_hub w)).
Proof.
  cbv zeta. unfold handleRemoveMember, requireOwner, is_owner, World.check. rewrite bool_decide_eq_true_2 by done.
  unfold parseUUIDParam, decode. rewrite Hp. rewrite (proj2 (N.eqb_neq _ _) Hne). cbn [negb].
  rewrite run_attempt. unfold RemoveMember. rewrite sql_nofault by done. cbv beta iota.
  rewrite !run_do. cbn [run]. eexists. split; [reflexivity|]. unfold audit_Log, ignore, WriteAudit.
  rewrite sql_nofault by done. simpl. split_and!; done.
Qed.

(** removing a member: afterwards they have no row in the circle, every other
    row of the membership is as it was, and the hub is told to evict them before
    the change is announced. *)
Theorem removed_member_is_gone `{Ext} cfg m ip target w (Hf : w_faults w = [])
    (Ho : CircleMember_Role m = "owner"%string) (id : uuid) (Hp : uuid_Parse target = Some id)
    (Hne : id <> CircleMember_UserID m)
    (He : (length (h_evict (w_hub w)) < evictBuffer)%nat) (Hb : (length (h_broadcast (w_hub w)) < broadcastBuffer)%nat) :
  let c := CircleMember_CircleID m in
  let '(answer, w') := run (handleRemoveMember cfg m ip target) w in
  answer = WriteJSON 200 (BStatus "removed") /\
  (forall r, r ∈ circle_members (w_db w') <-> r ∈ circle_members (w_db w) /\ ~ is_member c id r) /\
  h_evict (w_hub w') = h_evict (w_hub w) ++ [mkEvictReq c id false] /\
  h_broadcast (w_hub w') = h_broadcast (w_hub w) ++ [mkEvent EventMemberChanged c None].
Proof.
  cbv zeta. destruct (run_remove_member cfg m ip target w Hf Ho id Hp Hne) as (w' & -> & _ & Hm & ->). split; [done|].
  split; [|unfold EvictUser, Publish; rewrite (proj2 (Nat.ltb_lt _ _) He); simpl; by rewrite (proj2 (Nat.ltb_lt _ _) Hb)].
  intros r. rewrite Hm. unfold delete_where. rewrite list_elem_of_filter. tauto.
Qed.

Lemma removed_member_is_gone_witness :
  let '(answer, w') := run (handleRemoveMember demo_cfg ann_member "" (demo_id 5)) (circle_world [ann_member; bob_member]) in
  answer = WriteJSON 200 (BStatus "removed") /\ ~ bob_member ∈ circle_members (w_db w').
Proof.
  pose proof (@removed_member_is_gone demo_ext demo_cfg ann_member "" (demo_id 5) (circle_world [ann_member; bob_member])
    eq_refl eq_refl 5 ltac:(vm_compute; reflexivity) ltac:(vm_compute; congruence)
    ltac:(vm_compute; lia) ltac:(vm_compute; lia)) as Hd.
  cbv zeta in Hd. destruct (run _ _) as [answer w']. destruct Hd as (H1 & H2 & _). split; [done|].
  intros [_ Hn]%H2. apply Hn. split; reflexivity.
Defined.

(** ** Invites *)

(** A successful creation is the row it stored. *)
Definition created_invite (answer : response) : option inviteDTO :=
  match resp_body answer with BInvite i => Some i | _ => None end.

Lemma tv_add_le t d d' : d <= d' -> tv (Add t d) <= tv (Add t d').
Proof. intros Hd. apply tv_mono. unfold Add. lia. Qed.

(** whatever the request, an invite that is created is for a member or a
    guardian, for 1 to 1000 uses, and expires within thirty days: the wrap-around
    of the lifetime's product cannot lengthen it. *)
Theorem created_invites_bounded cfg m ip body w answer w' i
    (Hr : run (handleCreateInvite cfg m ip body) w = (answer, w')) (Hi : created_invite answer = Some i) :
  inviteDTO_Role i ∈ invite_roles /\ 1 <= inviteDTO_MaxUses i <= 1000 /\
  tv (w_now w) <= inviteDTO_ExpiresAt i <= tv (Add (w_now w) (30 * 24 * Hour)).
Proof.
  unfold handleCreateInvite, World.check, decode in Hr.
  destruct (negb (bool_decide _)); [|by injection Hr as <- <-].
  destruct body as [req|msg]; [|by injection Hr as <- <-]. cbv zeta in Hr.
  destruct (bool_decide _) eqn:Hrole in Hr; [|by injection Hr as <- <-].
  apply bool_decide_eq_true in Hrole.
  set (uses := if cir_MaxUses req <=? 0 then 1 else cir_MaxUses req) in *.
  destruct (negb (1000 <? uses)) eqn:Hu; [|by injection Hr as <- <-].
  destruct (negb (30 * 24 * Hour <? invite_ttl (cir_TTLSeconds req))) eqn:Ht; [|by injection Hr as <- <-].
  apply negb_true_iff, Z.ltb_ge in Hu, Ht.
  assert (Hpos : 0 <= invite_ttl (cir_TTLSeconds req)).
  { unfold invite_ttl. destruct (Z.leb_spec (Duration_mul (cir_TTLSeconds req) Second) 0); [vm_compute; congruence|lia]. }
  assert (Huses : 1 <= uses) by (subst uses; destruct (Z.leb_spec (cir_MaxUses req) 0); lia).
  rewrite run_attempt in Hr. cbn [time_Now] in Hr. rewrite run_attempt in Hr.
  destruct (CreateInvite _ _ _ _ _ w) as [[inv|e] w1] eqn:Hc; [|by injection Hr as <- <-].
  rewrite run_do in Hr. injection Hr as <- <-. injection Hi as <-.
  apply bind_Ok in Hc as (id & w0 & [= <- <-] & Hc). apply sql_Ok in Hc as (Hc & _). inv_stmt. simpl.
  split; [done|]. split; [lia|]. split; [|by apply tv_add_le].
  etransitivity; [|by apply (tv_add_le _ 0)]. unfold Add. by rewrite Z.add_0_r.
Qed.

Lemma created_invites_bounded_witness :
  let answer := fst (run (handleCreateInvite demo_cfg ann_member "" (Ok (mk_createInviteReq "guardian" 3 3600)))
    (circle_world [ann_member])) in
  exists i, created_invite answer = Some i /\ inviteDTO_ExpiresAt i <= tv (Add demo_now (30 * 24 * Hour)).
Proof.
  cbv zeta. eexists. split; [vm_compute; reflexivity|].
  eapply (created_invites_bounded demo_cfg ann_member "" (Ok (mk_createInviteReq "guardian" 3 3600)) (circle_world [ann_member]));
    [apply surjective_pairing|vm_compute; reflexivity].
Defined.

(** the thirty-day ceiling is not a ceiling on the request: the product with a
    second wraps at 64 bits before it is compared, so that a lifetime of over five
    centuries is accepted, with an invite that lives for the remainder (here under
    a second), instead of being refused. *)
Example invite_ttl_wraps :
  invite_ttl (30 * 24 * 3600 + 1) = 30 * 24 * Hour + Second /\
  fst (run (handleCreateInvite demo_cfg ann_member "" (Ok (mk_createInviteReq "" 1 (30 * 24 * 3600 + 1))))
    (circle_world [ann_member])) = BadRequest "ttl_seconds exceeds 30 days" /\
  invite_ttl 18446744074 = 290448384 /\
  resp_status (fst (run (handleCreateInvite demo_cfg ann_member "" (Ok (mk_createInviteReq "" 1 18446744074)))
    (circle_world [ann_member]))) = 201.
Proof. vm_compute. auto. Qed.
