(* ===== verification/RetentionSpec.v ===== *)
(** * Positions: what is read back, and what maintenance keeps

    Readers ask for the newest position of every device of a circle; the
    retention worker prunes the rest.  [LatestPingsForCircle] is compared with
    what "newest" means, and one pass of the worker with one filter. *)

From S2P Require Import Prelude Table GoTime Models Api Ext World Demo Hub StoreAccounts.
From S2P Require Import StoreCircles StorePings StoreWf Server PingsApi Retention.
Local Open Scope Z_scope.
Local Open Scope aul_scope.

(** The rows one pass keeps: nothing beyond the horizon; a ping that was not the
    newest of its device only inside both the stale window and its circle's own
    retention. *)
Definition kept (wk : Worker) (now : time) (db : DB) (p : Ping) : Prop :=
  tv (AddDays now (- wk_maxRetentionDays wk)) <= Ping_CapturedAt p /\
  (superseded (pings db) p ->
    tv (Add now (Duration_mul (- wrap32 (wk_pingRetentionHours wk)) Hour)) <= Ping_CapturedAt p /\
    Forall (fun c => Circle_ID c = Ping_CircleID p ->
      tv (AddDays now (- Circle_RetentionDays c)) <= Ping_CapturedAt p) (circles db)).

#[export] Instance kept_decision wk now db p : Decision (kept wk now db p).
Proof. unfold kept. apply _. Defined.

(** A circle of two devices, one with an old and a new ping, one that stopped long ago. *)
Definition ping_row (id d : uuid) (t : time) : Ping :=
  mkPing id 7 d "c" [] [] (tv (demo_now + t)) demo_now None.

Definition ping_db : DB :=
  set_pings [ping_row 1 3 (- 20 * Hour); ping_row 2 3 (- 1 * Hour); ping_row 3 4 (- 9 * Day); ping_row 4 4 (- 100 * Day)]
    (set_circles [mkCircle 7 None 30 1 2 demo_now] empty_db).

Definition ping_world : World := set_db ping_db demo_world.

(** ** The newest ping of each device *)

Section first_per_device.
Implicit Types (l : list Ping) (seen : list uuid) (p q : Ping).

Lemma first_per_device_elem p l : forall seen,
  p ∈ first_per_device seen l -> p ∈ l /\ Ping_DeviceID p ∉ seen.
Proof.
  induction l as [|q l IH]; intros seen; cbn; [by intros ?%not_elem_of_nil|].
  case_decide as Hd; [intros [? ?]%IH; split; [by constructor|done]|].
  intros [->|[? Hn]%IH]%elem_of_cons; [split; [constructor|done]|].
  split; [by constructor|]. intros Hs. apply Hn. by constructor.
Qed.

Lemma first_per_device_nodup l : forall seen, NoDup (Ping_DeviceID <$> first_per_device seen l).
Proof.
  induction l as [|q l IH]; intros seen; cbn; [constructor|]. case_decide; [done|].
  cbn. constructor; [|done]. intros (p & Hp & [_ Hn]%first_per_device_elem)%list_elem_of_fmap.
  apply Hn. rewrite Hp. constructor.
Qed.

Lemma first_per_device_covers q l : forall seen, q ∈ l -> Ping_DeviceID q ∉ seen ->
  exists p, p ∈ first_per_device seen l /\ Ping_DeviceID p = Ping_DeviceID q.
Proof.
  induction l as [|r l IH]; intros seen; cbn; [by intros ?%not_elem_of_nil|].
  intros Hq Hn. case_decide as Hd.
  - apply elem_of_cons in Hq as [->|Hq]; [done|]. by apply IH.
  - destruct (decide (Ping_DeviceID q = Ping_DeviceID r)) as [He|He]; [exists r; split; [constructor|done]|].
    apply elem_of_cons in Hq as [->|Hq]; [done|].
    destruct (IH (Ping_DeviceID r :: seen) Hq) as (p & Hp & Hpq).
    { by rewrite not_elem_of_cons. }
    exists p. split; [by constructor|done].
Qed.

(** In a list sorted by [key], the first of a device has its least key. *)
Lemma first_per_device_least (key : Ping -> Z) l : forall seen p q, StronglySorted (key_le key) l ->
  p ∈ first_per_device seen l -> q ∈ l -> Ping_DeviceID q = Ping_DeviceID p -> key p <= key q.
Proof.
  induction l as [|r l IH]; intros seen p q Hs Hp Hq Hd; [by apply not_elem_of_nil in Hq|].
  apply StronglySorted_inv in Hs as [Hs Hr]. rewrite Forall_forall in Hr. cbn in Hp. case_decide as Hc.
  - apply elem_of_cons in Hq as [->|Hq]; [|by eapply IH].
    apply first_per_device_elem in Hp as [_ Hp]. by rewrite <- Hd in Hp.
  - apply elem_of_cons in Hp as [->|Hp].
    + apply elem_of_cons in Hq as [->|Hq]; [lia|]. by apply Hr.
    + apply elem_of_cons in Hq as [->|Hq]; [|by eapply IH].
      apply first_per_device_elem in Hp as [_ Hp]. rewrite <- Hd in Hp. destruct Hp. constructor.
Qed.
End first_per_device.

(** Sorted by a key without repeats is strictly sorted. *)
Lemma sorted_strictly {A} (key : A -> N) (l : list A) :
  StronglySorted (key_le (fun x => Z.of_N (key x))) l -> NoDup (key <$> l) ->
  StronglySorted (fun x y => (key x < key y)%N) l.
Proof.
  induction 1 as [|x l Hs IH Hx]; cbn; [constructor|]. intros [Hn Hd]%NoDup_cons.
  constructor; [auto|]. rewrite Forall_forall in *. intros y Hy. specialize (Hx y Hy).
  unfold key_le in Hx. assert (key x <> key y) by (intros He; apply Hn; rewrite He; by apply elem_of_keys). lia.
Qed.

(** C19: the latest positions of a circle are exactly one ping for each device that
    ever reported there, in the order of the devices, each at least as recent as
    every other ping of that device in the circle; on SQLite, while the engine
    fails no statement. *)
Theorem latest_pings_newest c w (Hf : w_faults w = []) :
  exists l, LatestPingsForCircle c w = (Ok l, w) /\
    StronglySorted (fun p q => (Ping_DeviceID p < Ping_DeviceID q)%N) l /\
    (forall p, p ∈ l -> p ∈ pings (w_db w) /\ Ping_CircleID p = c /\
      forall q, q ∈ pings (w_db w) -> Ping_CircleID q = c -> Ping_DeviceID q = Ping_DeviceID p ->
        Ping_CapturedAt q <= Ping_CapturedAt p) /\
    (forall q, q ∈ pings (w_db w) -> Ping_CircleID q = c -> exists p, p ∈ l /\ Ping_DeviceID p = Ping_DeviceID q).
Proof.
  unfold LatestPingsForCircle. rewrite query_nofault by done.
  set (mine := filter (fun p => Ping_CircleID p = c) (pings (w_db w))).
  set (newest := first_per_device [] (sort_by (fun p => - Ping_CapturedAt p) mine)).
  assert (Hmine : forall p, p ∈ sort_by (fun p => - Ping_CapturedAt p) mine <->
    Ping_CircleID p = c /\ p ∈ pings (w_db w)).
  { intros p. rewrite elem_of_sort_by. unfold mine. by rewrite list_elem_of_filter. }
  eexists. split; [reflexivity|]. split; [|split].
  - apply sorted_strictly; [apply sort_by_sorted|]. rewrite sort_by_perm. apply first_per_device_nodup.
  - intros p Hp. rewrite elem_of_sort_by in Hp. pose proof Hp as [[Hc Hin]%Hmine _]%first_per_device_elem.
    split; [done|]. split; [done|]. intros q Hq Hqc Hd.
    pose proof (first_per_device_least (fun p => - Ping_CapturedAt p) _ [] p q (sort_by_sorted _ _) Hp
      (proj2 (Hmine q) (conj Hqc Hq)) Hd). cbn in *. lia.
  - intros q Hq Hc. destruct (first_per_device_covers q (sort_by (fun p => - Ping_CapturedAt p) mine) [])
      as (p & Hp & Hd); [by apply Hmine|apply not_elem_of_nil|].
    exists p. by rewrite elem_of_sort_by.
Qed.

Lemma latest_pings_newest_witness :
  exists l, LatestPingsForCircle 7 ping_world = (Ok l, ping_world) /\ (Ping_ID <$> l) = [2; 3]%N.
Proof.
  destruct (latest_pings_newest 7 ping_world eq_refl) as (l & Hl & _). exists l. split; [exact Hl|].
  vm_compute in Hl. injection Hl as <-. reflexivity.
Defined.

(** ** One pass of the worker *)

Section supersession.
Implicit Types (l : list Ping) (p q : Ping).

Definition same_track p q : Prop := Ping_CircleID q = Ping_CircleID p /\ Ping_DeviceID q = Ping_DeviceID p.

#[local] Instance same_track_decision p q : Decision (same_track p q).
Proof. unfold same_track. apply _. Defined.

Lemma list_max (l : list Ping) p : p ∈ l -> exists q, q ∈ l /\ forall r, r ∈ l -> Ping_CapturedAt r <= Ping_CapturedAt q.
Proof.
  revert p. induction l as [|x l IH]; intros p Hp; [by apply not_elem_of_nil in Hp|].
  destruct l as [|y l'].
  - exists x. split; [constructor|]. intros r ->%list_elem_of_singleton. lia.
  - destruct (IH y ltac:(constructor)) as (q & Hq & Hm).
    destruct (decide (Ping_CapturedAt x <= Ping_CapturedAt q)).
    + exists q. split; [by constructor|]. intros r [->|Hr]%elem_of_cons; auto.
    + exists x. split; [constructor|]. intros r [->|Hr]%elem_of_cons; [lia|]. specialize (Hm r Hr). lia.
Qed.

(** A superseded ping is superseded by one that is not. *)
Lemma superseded_newest l p : superseded l p ->
  exists q, q ∈ l /\ same_track p q /\ Ping_CapturedAt p < Ping_CapturedAt q /\ ~ superseded l q.
Proof.
  intros (q0 & Hq0 & Hc0 & Hd0 & Ht0)%Exists_exists.
  destruct (list_max (filter (same_track p) l) q0) as (q & Hq & Hm); [by apply list_elem_of_filter|].
  apply list_elem_of_filter in Hq as [[Hc Hd] Hq]. exists q.
  assert (Hmax : forall r, r ∈ l -> same_track p r -> Ping_CapturedAt r <= Ping_CapturedAt q).
  { intros r Hr Hs. apply Hm. by apply list_elem_of_filter. }
  split; [done|]. split; [done|]. split; [specialize (Hmax q0 Hq0 (conj Hc0 Hd0)); lia|].
  intros (r & Hr & Hrc & Hrd & Hrt)%Exists_exists.
  assert (Ping_CapturedAt r <= Ping_CapturedAt q) by (apply Hmax; [done|split; congruence]). lia.
Qed.

(** Deleting superseded rows, and rows older than a horizon, supersedes the others as before. *)
Lemma superseded_filter (K : Ping -> Prop) `{forall p, Decision (K p)} h l p :
  (forall q, q ∈ l -> h <= Ping_CapturedAt q -> ~ superseded l q -> K q) -> h <= Ping_CapturedAt p ->
  superseded (filter K l) p <-> superseded l p.
Proof.
  intros HK Hp. split.
  - intros (q & Hq & Hs)%Exists_exists. apply list_elem_of_filter in Hq as [_ Hq].
    apply Exists_exists. eauto.
  - intros (q & Hq & [Hc Hd] & Ht & Hn)%superseded_newest. apply Exists_exists. exists q.
    split; [apply list_elem_of_filter; split; [apply HK; [done|lia|done]|done]|]. repeat split; [done|done|lia].
Qed.
End supersession.

Section pass.
Context (l0 : list Ping) (h : time).

(** What a pass has kept so far: [G] is what it asks of superseded rows. *)
Definition kept_by (G : Ping -> Prop) `{forall p, Decision (G p)} : list Ping :=
  filter (fun p => h <= Ping_CapturedAt p /\ (superseded l0 p -> G p)) l0.

Lemma kept_by_ext (G G' : Ping -> Prop) `{forall p, Decision (G p)} `{forall p, Decision (G' p)} :
  (forall p, h <= Ping_CapturedAt p -> G p <-> G' p) -> kept_by G = kept_by G'.
Proof. intros HG. apply list_filter_iff. intros p. naive_solver. Qed.

Lemma prune_step (G B : Ping -> Prop) `{forall p, Decision (G p)} `{forall p, Decision (B p)} :
  delete_where (fun p => B p /\ superseded (kept_by G) p) (kept_by G) = kept_by (fun p => G p /\ ~ B p).
Proof.
  assert (Hs : forall p, h <= Ping_CapturedAt p -> superseded (kept_by G) p <-> superseded l0 p).
  { intros p Hp. unfold kept_by. apply (superseded_filter _ h); [|done]. intros q _ Hq Hn. split; [done|].
    intros Hsq. by destruct Hn. }
  unfold delete_where. transitivity (filter (fun p => ~ (B p /\ superseded (kept_by G) p) /\
    (h <= Ping_CapturedAt p /\ (superseded l0 p -> G p))) l0); [apply list_filter_filter|].
  apply list_filter_iff. intros p. specialize (Hs p).
  destruct (decide (superseded l0 p)), (decide (B p)); naive_solver.
Qed.

Lemma prune_horizon : delete_where (fun p => Ping_CapturedAt p < h) l0 = kept_by (fun _ => True).
Proof. apply list_filter_iff. intros p. split; [intros ?; split; [lia|done]|intros [? _]; lia]. Qed.
End pass.

(** The deletes of [deleteExpiredPings], from a table already pruned by [G]. *)
Lemma run_delete_each {A} l0 h cs (k : prog A) : forall (G : Ping -> Prop) `{forall p, Decision (G p)} w,
  w_faults w = [] -> pings (w_db w) = kept_by l0 h G ->
  exists w', run (delete_each cs k) w = run k w' /\ w_faults w' = [] /\ w_now w' = w_now w /\
    (forall L, set_pings L (w_db w') = set_pings L (w_db w)) /\
    pings (w_db w') = kept_by l0 h (fun p => G p /\
      Forall (fun c => c.1 = Ping_CircleID p -> tv (AddDays (w_now w) (- c.2)) <= Ping_CapturedAt p) cs).
Proof.
  induction cs as [|[id days] cs IH]; intros G HG w Hf Hp; cbn [delete_each].
  - exists w. split; [done|]. split; [done|]. split; [done|]. split; [done|]. rewrite Hp. apply kept_by_ext.
    intros p _. split; [intros ?; split; [done|constructor]|by intros []].
  - rewrite run_do. unfold DeleteExpiredPingsForCircle. rewrite sql_nofault by done. cbn [snd].
    set (B := fun p => Ping_CircleID p = id /\ Ping_CapturedAt p < tv (AddDays (w_now w) (- days))).
    destruct (IH (fun p => G p /\ ~ B p) _ (set_db (set_pings (kept_by l0 h (fun p => G p /\ ~ B p)) (w_db w)) w) Hf eq_refl)
      as (w' & Hr & Hf' & Hn & Hd & Hp').
    exists w'. split.
    + rewrite <- Hr. f_equal. f_equal. f_equal. rewrite Hp, <- prune_step. apply list_filter_iff.
      intros p. unfold B. naive_solver.
    + split; [done|]. split; [done|]. split; [intros L; by rewrite Hd|]. rewrite Hp'. apply kept_by_ext.
      intros p _. rewrite Forall_cons. cbn [fst snd]. change (w_now (set_db _ w)) with (w_now w).
      destruct (decide (id = Ping_CircleID p)) as [He|He]; unfold B; naive_solver lia.
Qed.

(** The rest of a pass does not touch the pings. *)
Section other_tables.
Context (L : list Ping).

Definition pings_are (db : DB) : Prop := pings db = L.

Lemma pings_frame {A} (f : time -> DB -> result error (A * DB)) :
  (forall now db a db', f now db = Ok (a, db') -> pings db' = pings db) -> pres (on_db pings_are) (sql f).
Proof. intros Hf. apply pres_sql. unfold pings_are. intros now db a db' Hdb Hfe. by rewrite (Hf _ _ _ _ Hfe). Qed.

Lemma other_steps w horizon : ok (on_db pings_are)
  (do! PruneLoginAttempts 1 ;;
   do! PruneAuditIPs (wrap32 (wk_ipLogDays w)) ;;
   do! DeleteExpiredSessions ;;
   do! PruneKeyEnvelopes ;;
   do! PruneResolvedSOS (Some horizon) ;;
   do! PrunePlaceTombstones horizon ;;
   do! PruneShareSessions shareGraceHours ;;
   Ret tt).
Proof.
  repeat (apply ok_do; [apply pings_frame; intros ? ? ? ? [= _ <-]; reflexivity|]). exact Logic.I.
Qed.
End other_tables.

(** C17: on SQLite, with no failing statement, one pass of the maintenance worker
    ([RunOnce], its three deletes in the order the code has them) leaves of the
    location history exactly the pings [kept] describes, a condition on the
    history before the pass in which no order occurs: however many circles there
    are and whatever their retention, the newest ping of a device is dropped only
    when it is beyond the global horizon. *)
Theorem retention_pass_exact wk w (Hf : w_faults w = []) :
  pings (w_db (snd (run (RunOnce wk) w))) = filter (kept wk (w_now w) (w_db w)) (pings (w_db w)).
Proof.
  unfold RunOnce. rewrite run_attempt. unfold time_Now. cbv beta iota zeta.
  rewrite run_do. unfold PruneAllPingsBefore. rewrite sql_nofault by done. cbn [snd].
  set (h := tv (AddDays (w_now w) (- wk_maxRetentionDays wk))). rewrite prune_horizon.
  set (w1 := set_db _ w).
  rewrite run_do. unfold PruneStalePings. rewrite (sql_nofault _ w1) by done. cbn [snd].
  change (w_now w1) with (w_now w). change (pings (w_db w1)) with (kept_by (pings (w_db w)) h (fun _ => True)).
  rewrite (prune_step _ h (fun _ => True)). set (w2 := set_db _ w1).
  unfold deleteExpiredPings. rewrite run_attempt. unfold AllCircleRetention. rewrite (query_nofault _ w2) by done.
  cbv beta iota.
  edestruct (run_delete_each (A := unit) (pings (w_db w)) h) with (w := w2) as (w' & -> & Hf' & Hn & Hd & Hp); [done|reflexivity|].
  pose proof (run_ok (on_db (pings_are (pings (w_db w')))) _ w' (other_steps _ wk (AddDays (w_now w) (- wk_maxRetentionDays wk)))
    eq_refl) as Hk. unfold on_db, pings_are in Hk. rewrite Hk, Hp. apply list_filter_iff. intros p.
  unfold kept. change (w_now w2) with (w_now w). change (circles (w_db w2)) with (circles (w_db w)).
  rewrite Forall_fmap. unfold compose. cbn [fst snd]. fold h.
  split; intros (Hh & Hk'); (split; [done|]); intros Hs; specialize (Hk' Hs); naive_solver lia.
Qed.

Lemma retention_pass_exact_witness :
  Ping_ID <$> pings (w_db (snd (run (RunOnce (New demo_cfg)) ping_world))) = [2; 3]%N.
Proof. rewrite (retention_pass_exact (New demo_cfg) ping_world eq_refl). vm_compute. reflexivity. Defined.
