(* ===== verification/PingsSpec.v ===== *)
(** * Ping ingestion: the batch as a whole

    The handler checks every item against a cache of memberships, then stores the
    batch in one transaction and announces the rows that are new.  [prepared_of]
    is what the cache computes; the theorems say what a batch does to the
    history and to the hub, refused, accepted or sent again. *)

From S2P Require Import Prelude Table GoTime Base64 Models Api Ext World Demo Hub StoreAccounts.
From S2P Require Import StoreCircles StorePings StoreWf Auth Server PingsApi.
Local Open Scope Z_scope.
Local Open Scope aul_scope.

(** The reference: every item looked up on its own. *)
Fixpoint prepared_of `{Ext} (members : list CircleMember) (a : Auth) (oldest future : time) (i : Z) (l : list pingItem) :
    response + list prepared :=
  match l with
  | [] => inr []
  | p :: l' =>
      match uuid_Parse (pi_CircleID p) with
      | None => inl (BadRequest (itemErr i "circle_id must be a valid id"))
      | Some cid =>
          if decide (Exists (is_member cid (a_UserID a)) members) then
            match prepare (a_DeviceID a) oldest future i cid p with
            | Err msg => inl (BadRequest msg)
            | Ok item =>
                match prepared_of members a oldest future (i + 1) l' with
                | inl r => inl r
                | inr items => inr (item :: items)
                end
            end
          else inl (Forbidden (itemErr i "not a member of circle_id"))
      end
  end.

Definition item_key (it : prepared) : uuid * string * time := (pp_DeviceID it, pp_ClientID it, tv (pp_CapturedAt it)).

(** A member's device sends two positions, one of them twice. *)
Definition demo_item (client : string) : pingItem :=
  mk_pingItem "00000000-0000-0000-0000-000000000007" client "AAAA" "AAAA" "2024-01-01T00:00:00.000Z" 0.

Definition batch_body : list pingItem := [demo_item "a"; demo_item "b"; demo_item "a"].

Definition batch_world : World :=
  set_db (set_circle_members [mkCircleMember 7 2 "owner" "precise" demo_now None]
    (set_circles [mkCircle 7 None 30 1 2 demo_now]
      (set_devices [mkDevice 3 2 "web" None None None demo_now None]
        (set_users [mkUser 2 "ann@example.org" "h" demo_now demo_now] empty_db)))) demo_world.

Definition batch_auth : Auth := mkAuth 2 3 4.

(** ** The membership cache *)

(** What [memberOf] remembers is right. *)
Definition cache_ok (members : list CircleMember) (u : uuid) (memberOf : gmap uuid bool) : Prop :=
  forall cid v, memberOf !! cid = Some v -> v = bool_decide (Exists (is_member cid u) members).

Lemma run_checkMember u cid memberOf k w : w_faults w = [] -> cache_ok (circle_members (w_db w)) u memberOf ->
  exists memberOf', cache_ok (circle_members (w_db w)) u memberOf' /\
    run (checkMember u cid memberOf k) w =
      run (k memberOf' (bool_decide (Exists (is_member cid u) (circle_members (w_db w))))) w.
Proof.
  intros Hf Hc. unfold checkMember. destruct (memberOf !! cid) as [v|] eqn:Hm.
  - exists memberOf. split; [done|]. by rewrite (Hc _ _ Hm).
  - cbn [run]. unfold GetMembership. rewrite query_nofault by done.
    set (v := bool_decide (Exists (is_member cid u) (circle_members (w_db w)))).
    assert (Hc' : cache_ok (circle_members (w_db w)) u (<[cid := v]> memberOf)).
    { intros c v' [[-> <-]|[_ Hv]]%lookup_insert_Some; [done|by apply Hc]. }
    exists (<[cid := v]> memberOf). split; [exact Hc'|]. destruct (one _) as [m|e] eqn:Ho.
    + apply one_Ok in Ho as [Hm' Hin]. assert (v = true) as -> by (apply bool_decide_eq_true, Exists_exists; eauto). done.
    + apply one_Err in Ho as [-> Hn]. assert (v = false) as ->; [|done].
      apply bool_decide_eq_false. intros (m & Hin & Hm')%Exists_exists. by apply (Hn m).
Qed.

(** The cache changes nothing but the number of queries. *)
Lemma run_prepare_all `{Ext} a oldest future l : forall i memberOf k w,
  w_faults w = [] -> cache_ok (circle_members (w_db w)) (a_UserID a) memberOf ->
  run (prepare_all a oldest future i memberOf l k) w =
    match prepared_of (circle_members (w_db w)) a oldest future i l with
    | inl r => (r, w)
    | inr items => run (k items) w
    end.
Proof.
  induction l as [|p l IH]; intros i memberOf k w Hf Hc; cbn [prepare_all prepared_of]; [done|].
  destruct (uuid_Parse _) as [cid|]; [|done].
  match goal with |- run (checkMember _ _ _ ?k') _ = _ =>
    destruct (run_checkMember (a_UserID a) cid memberOf k' w Hf Hc) as (memberOf' & Hc' & ->) end.
  case_decide as Hd; [rewrite bool_decide_eq_true_2 by done|by rewrite bool_decide_eq_false_2].
  cbn [negb decode]. destruct (prepare _ _ _ _ _ _) as [item|msg]; [|done]. cbn [decode].
  rewrite IH by done. by destruct (prepared_of _ _ _ _ _ _).
Qed.

Lemma cache_ok_empty members u : cache_ok members u ∅.
Proof. by intros cid v; rewrite lookup_empty. Qed.

Lemma prepared_of_refuses `{Ext} members a oldest future l : forall i r,
  prepared_of members a oldest future i l = inl r -> resp_status r <> 200.
Proof.
  induction l as [|p l IH]; intros i r; cbn [prepared_of]; [done|].
  destruct (uuid_Parse _); [|by intros [= <-]]. case_decide; [|by intros [= <-]].
  destruct (prepare _ _ _ _ _ _); [|by intros [= <-]].
  destruct (prepared_of _ _ _ _ _ _) as [r'|] eqn:Hp; [|done]. intros [= <-]. by eapply IH.
Qed.

(** caching memberships for the length of a batch is invisible: the batch is
    answered, item for item and error for error, as if the membership of every
    item were looked up on its own. *)
Theorem batch_cache_transparent `{Ext} a oldest future l k w (Hf : w_faults w = []) :
  run (prepare_all a oldest future 0 ∅ l k) w =
    match prepared_of (circle_members (w_db w)) a oldest future 0 l with
    | inl r => (r, w)
    | inr items => run (k items) w
    end.
Proof. apply run_prepare_all; [done|apply cache_ok_empty]. Qed.

Lemma batch_cache_transparent_witness :
  run (prepare_all batch_auth (demo_now - Day) (demo_now + Day) 0 ∅ batch_body (fun items => Ret (WriteJSON 200 (BBatch (len items) 0 0)))) batch_world
    = (WriteJSON 200 (BBatch 3 0 0), batch_world).
Proof. rewrite (@batch_cache_transparent demo_ext) by reflexivity. vm_compute. reflexivity. Defined.

(** ** Storing *)

Lemma InsertPing_cases c d client n ct cap ex w r w' :
  InsertPing c d client n ct cap ex w = (r, w') -> calm w w' /\
  match r with
  | Ok row => w_db w' = set_pings (pings (w_db w) ++ [row]) (w_db w) /\ ping_key row = (d, client, tv cap)
  | Err e => w_db w' = w_db w /\ (e = ErrNoRows -> (d, client, tv cap) ∈ ping_key <$> pings (w_db w))
  end.
Proof.
  unfold InsertPing, M_bind, uuid_New. intros (Hc & Hr)%sql_cases. split; [exact Hc|].
  cbn in Hr. destruct r as [row|e].
  - case_decide; [done|]. unfold require, guard_res in Hr. by repeat case_bool_decide; simplify_eq/=.
  - destruct Hr as [Hd [->|Hr]]; (split; [exact Hd|]); [done|]. intros ->. case_decide as Hk; [done|].
    unfold require, guard_res in Hr. by repeat case_bool_decide.
Qed.

Lemma insert_all_calm items : forall w r w', insert_all items w = (r, w') -> calm w w'.
Proof.
  induction items as [|it items IH]; intros w r w'; cbn [insert_all]; [by intros [= _ <-]|].
  unfold M_bind, try_, insert_prepared. destruct (InsertPing _ _ _ _ _ _ _ w) as [r1 w1] eqn:Hi.
  apply InsertPing_cases in Hi as [Hc _]. destruct r1 as [row|e].
  - destruct (insert_all items w1) as [r2 w2] eqn:Hr. apply IH in Hr.
    destruct r2; intros [= _ <-]; by etrans.
  - destruct (IsNotFound e); [intros Hr; apply IH in Hr; by etrans|]. by intros [= _ <-].
Qed.

(** Success: the new rows are appended, and every item is in the table. *)
Lemma insert_all_Ok items : forall w rows w', insert_all items w = (Ok rows, w') ->
  w_db w' = set_pings (pings (w_db w) ++ rows) (w_db w) /\
  Forall (fun it => item_key it ∈ ping_key <$> pings (w_db w')) items.
Proof.
  induction items as [|it items IH]; intros w rows w'; cbn [insert_all].
  { intros [= <- <-]. rewrite app_nil_r. split; [by destruct (w_db w)|constructor]. }
  unfold M_bind, try_, insert_prepared. destruct (InsertPing _ _ _ _ _ _ _ w) as [r1 w1] eqn:Hi.
  apply InsertPing_cases in Hi as [_ Hi]. destruct r1 as [row|e].
  - destruct Hi as [Hd Hk]. destruct (insert_all items w1) as [[rows'|e] w2] eqn:Hr; [|done].
    intros [= <- <-]. apply IH in Hr as [Hd2 Hall]. rewrite Hd2, Hd in *. cbn in *.
    rewrite <- app_assoc in *. split; [done|]. constructor; [|done].
    rewrite fmap_app. apply elem_of_app. right. cbn. unfold item_key. rewrite <- Hk. constructor.
  - destruct Hi as [Hd Hk]. destruct (IsNotFound e) eqn:He; [|done]. intros Hr. apply IH in Hr as [Hd2 Hall].
    rewrite Hd2, Hd. split; [done|]. constructor; [|by rewrite Hd2, Hd in Hall].
    cbn. rewrite fmap_app. apply elem_of_app. left. apply Hk. by destruct e.
Qed.

(** Items already stored are skipped. *)
Lemma insert_all_known items : forall w, w_faults w = [] ->
  Forall (fun it => item_key it ∈ ping_key <$> pings (w_db w)) items ->
  exists n, insert_all items w = (Ok [], set_draws n w).
Proof.
  induction items as [|it items IH]; intros w Hf Hall; cbn [insert_all].
  { exists (w_draws w). by destruct w. }
  apply Forall_cons in Hall as [Hk Hall].
  unfold M_bind, try_, insert_prepared, InsertPing, M_bind, uuid_New. rewrite sql_nofault by done.
  cbv zeta. cbn [w_db set_draws]. rewrite decide_True by exact Hk.
  destruct (IH (set_draws (S (w_draws w)) w) Hf Hall) as [n Hn]. exists n. exact Hn.
Qed.

Lemma TouchDevice_cases d w r w' : TouchDevice d w = (r, w') -> calm w w' /\
  pings (w_db w') = pings (w_db w) /\ circle_members (w_db w') = circle_members (w_db w).
Proof. intros (Hc & Hr)%sql_cases. split; [done|]. destruct r; [injection Hr as _ <-; done|by destruct Hr as [-> _]]. Qed.

(** The body of [batch_tx]. *)
Definition batch_body_tx (deviceID : uuid) (items : list prepared) : M (list Ping) :=
  let! inserted := insert_all items in let! _ := TouchDevice deviceID in ret inserted.

Lemma batch_body_calm d items w r w' : batch_body_tx d items w = (r, w') -> calm w w'.
Proof.
  unfold batch_body_tx, M_bind. destruct (insert_all items w) as [[rows|e] w1] eqn:Hi;
    pose proof (insert_all_calm _ _ _ _ Hi) as Hc; [|by intros [= _ <-]].
  destruct (TouchDevice d w1) as [r2 w2] eqn:Ht. apply TouchDevice_cases in Ht as [Hc2 _].
  destruct r2; intros [= _ <-]; by etrans.
Qed.

Lemma batch_tx_cases d items w r w' : batch_tx d items w = (r, w') -> calm w w' /\
  match r with
  | Ok rows => pings (w_db w') = pings (w_db w) ++ rows /\ circle_members (w_db w') = circle_members (w_db w) /\
      Forall (fun it => item_key it ∈ ping_key <$> pings (w_db w')) items
  | Err _ => w_db w' = w_db w
  end.
Proof.
  intros (Hc & Hr)%(WithTx_cases (batch_body_tx d items)); [|intros; by eapply batch_body_calm].
  split; [done|]. destruct r as [rows|e]; [|done]. destruct Hr as (w1 & w2 & _ & Hd1 & Hb & Hd2).
  unfold batch_body_tx in Hb. apply bind_Ok in Hb as (rows' & w3 & Hi & Hb).
  apply bind_Ok in Hb as (u & w4 & Ht & [= -> <-]). apply insert_all_Ok in Hi as [Hd3 Hall].
  apply TouchDevice_cases in Ht as (_ & Hp & Hm).
  rewrite Hd2, Hp, Hm, Hd3, Hd1. split; [done|]. split; [done|]. by rewrite Hd3, Hd1 in Hall.
Qed.

(** Stored again, a batch adds nothing. *)
Lemma batch_tx_known d items w : w_faults w = [] ->
  Forall (fun it => item_key it ∈ ping_key <$> pings (w_db w)) items ->
  exists w', batch_tx d items w = (Ok [], w') /\ calm w w' /\ pings (w_db w') = pings (w_db w).
Proof.
  intros Hf Hall. destruct (batch_tx d items w) as [r w'] eqn:Hb. pose proof Hb as Hb'.
  unfold batch_tx in Hb'. rewrite (WithTx_nofault (batch_body_tx d items)) in Hb'; [|done|].
  2: { intros r1 w1 Hr1. apply batch_body_calm in Hr1 as (_ & _ & Hr1). by apply Hr1. }
  unfold batch_body_tx, M_bind in Hb'. destruct (insert_all_known items w Hf Hall) as [n Hn]. rewrite Hn in Hb'.
  unfold TouchDevice in Hb'. rewrite sql_nofault in Hb' by done. injection Hb' as <- <-.
  eexists. split; [reflexivity|]. by apply batch_tx_cases in Hb as [Hc _].
Qed.

(** ** The handler *)

(** The event of a stored row, and the hub after a list of them. *)
Definition ping_event (row : Ping) : Event := mkEvent EventPing (Ping_CircleID row) (Some (PayloadPing (pingToDTO row))).
Definition announced (rows : list Ping) (h : Hub) : Hub := foldl (fun h row => Publish (ping_event row) h) h rows.

Lemma run_publish_all {A} rows (k : prog A) : forall w,
  run (publish_all rows k) w = run k (set_hub (announced rows (w_hub w)) w).
Proof.
  induction rows as [|row rows IH]; intros w; cbn [publish_all]; [by destruct w|].
  rewrite run_do. rewrite IH. reflexivity.
Qed.

(** The checks of a batch read and do not write; a refusal is never a 200. *)
Lemma run_prepare_cases `{Ext} a oldest future l : forall i memberOf k w,
  exists w1, calm w w1 /\ w_db w1 = w_db w /\
    ((exists r, run (prepare_all a oldest future i memberOf l k) w = (r, w1) /\ resp_status r <> 200) \/
     (exists items, run (prepare_all a oldest future i memberOf l k) w = run (k items) w1)).
Proof.
  induction l as [|p l IH]; intros i memberOf k w; cbn [prepare_all].
  { exists w. split; [done|]. split; [done|]. right. by exists []. }
  assert (Hrefuse : forall r w1, calm w w1 -> w_db w1 = w_db w -> resp_status r <> 200 ->
    exists w2, calm w w2 /\ w_db w2 = w_db w /\
    ((exists r', (r, w1) = (r', w2) /\ resp_status r' <> 200) \/ (exists items, (r, w1) = run (k items) w2))).
  { intros r w1 Hc Hd Hr. exists w1. eauto 8. }
  destruct (uuid_Parse _) as [cid|]; [|by apply Hrefuse]. unfold checkMember.
  assert (Hgo : forall memberOf' (v : bool) w1, calm w w1 -> w_db w1 = w_db w ->
    exists w2, calm w w2 /\ w_db w2 = w_db w /\
    ((exists r, run (if negb v then Ret (Forbidden (itemErr i "not a member of circle_id")) else
        let? item := prepare (a_DeviceID a) oldest future i cid p catch bad in
        prepare_all a oldest future (i + 1) memberOf' l (fun items => k (item :: items))) w1 = (r, w2) /\ resp_status r <> 200) \/
     (exists items, run (if negb v then Ret (Forbidden (itemErr i "not a member of circle_id")) else
        let? item := prepare (a_DeviceID a) oldest future i cid p catch bad in
        prepare_all a oldest future (i + 1) memberOf' l (fun items => k (item :: items))) w1 = run (k items) w2))).
  { intros memberOf' v w1 Hc Hd. destruct v; cbn [negb]; [|by apply Hrefuse].
    destruct (prepare _ _ _ _ _ _) as [item|msg]; cbn [decode]; [|by apply Hrefuse].
    destruct (IH (i + 1) memberOf' (fun items => k (item :: items)) w1) as (w2 & Hc2 & Hd2 & Hcase).
    exists w2. split; [by etrans|]. split; [congruence|]. destruct Hcase as [?|[items ?]]; eauto. }
  destruct (memberOf !! cid) as [v|]; [by apply Hgo|]. cbn [run].
  destruct (GetMembership cid (a_UserID a) w) as [r1 w1] eqn:Hq. apply query_cases in Hq as (Hc & Hd & _).
  destruct r1 as [m|e]; [by apply Hgo|]. destruct (IsNotFound e); [by apply Hgo|]. by apply Hrefuse.
Qed.

(** C20: a batch is stored whole or not at all, whatever statement the engine fails:
    any answer but 200 leaves the history and the hub as they were; a 200 has
    appended exactly the rows it counts as stored, each announced once, in order. *)
Theorem batch_all_or_nothing `{Ext} cfg a body w r w' (Hr : run (handlePingBatch cfg a body) w = (r, w')) :
  (resp_status r <> 200 -> pings (w_db w') = pings (w_db w) /\ w_hub w' = w_hub w) /\
  (resp_status r = 200 -> exists l rows, body = Ok l /\
    r = WriteJSON 200 (BBatch (len l) (len rows) (len l - len rows)) /\
    pings (w_db w') = pings (w_db w) ++ rows /\ w_hub w' = announced rows (w_hub w)).
Proof.
  revert Hr. unfold handlePingBatch. destruct body as [l|msg]; cbn [decode]; [|by intros [= <- <-]].
  unfold check. destruct (negb (len l =? 0)); [|by intros [= <- <-]].
  destruct (negb (maxBatchPings <? len l)); [|by intros [= <- <-]].
  rewrite run_attempt. unfold time_Now. cbv beta iota zeta.
  match goal with |- run (prepare_all ?a ?o ?f ?i ?m ?l ?k) w = _ -> _ =>
    destruct (run_prepare_cases a o f l i m k w) as (w1 & (Hh & _ & _) & Hd & [(r0 & -> & Hr0)|[items ->]]) end.
  { intros [= <- <-]. split; [intros _; by rewrite Hd, Hh|done]. }
  rewrite run_attempt. destruct (batch_tx (a_DeviceID a) items w1) as [[rows|e] w2] eqn:Hb;
    apply batch_tx_cases in Hb as [(Hh2 & _ & _) Hb].
  - destruct Hb as (Hp & _ & _). rewrite run_publish_all. cbn [run]. intros [= <- <-]. split; [done|]. intros _.
    exists l, rows. cbn. by rewrite Hp, Hd, Hh2, Hh.
  - intros [= <- <-]. split; [intros _; by rewrite Hb, Hd, Hh2, Hh|done].
Qed.

Lemma batch_all_or_nothing_witness :
  pings (w_db (snd (run (handlePingBatch demo_cfg batch_auth (Ok batch_body)) (set_faults [false; false; false; true] batch_world)))) = [].
Proof.
  destruct (run (handlePingBatch demo_cfg batch_auth (Ok batch_body)) (set_faults [false; false; false; true] batch_world)) as [r w'] eqn:Hr.
  refine (proj1 (proj1 (@batch_all_or_nothing demo_ext _ _ _ _ _ _ Hr) _)).
  change r with (fst (r, w')). rewrite <- Hr. vm_compute. discriminate.
Defined.

(** C21: sending an accepted batch again is harmless: with no failure in between it
    is accepted, every item is counted a duplicate, nothing is stored and nothing
    is announced. *)
Theorem batch_idempotent `{Ext} cfg a body w r w1 (Hf : w_faults w = [])
    (Hr : run (handlePingBatch cfg a body) w = (r, w1)) (Hs : resp_status r = 200) :
  exists l w2, body = Ok l /\
    run (handlePingBatch cfg a body) w1 = (WriteJSON 200 (BBatch (len l) 0 (len l)), w2) /\
    pings (w_db w2) = pings (w_db w1) /\ w_hub w2 = w_hub w1.
Proof.
  revert Hr. unfold handlePingBatch. destruct body as [l|msg]; cbn [decode]; [|by intros [= <- _]].
  unfold check. destruct (negb (len l =? 0)); [|by intros [= <- _]].
  destruct (negb (maxBatchPings <? len l)); [|by intros [= <- _]].
  rewrite !run_attempt. unfold time_Now. cbv beta iota zeta.
  rewrite run_prepare_all by (done || apply cache_ok_empty). destruct (prepared_of _ _ _ _ _ _) as [r0|items] eqn:Hp.
  { intros [= <- _]. by apply prepared_of_refuses in Hp. }
  rewrite run_attempt. destruct (batch_tx (a_DeviceID a) items w) as [[rows|e] wt] eqn:Hb;
    [|by intros [= <- _]].
  apply batch_tx_cases in Hb as [(_ & Hn & Hft) (_ & Hm & Hall)].
  rewrite run_publish_all. cbn [run]. intros [= _ <-]. set (w1 := set_hub _ wt).
  assert (Hf1 : w_faults w1 = []) by (by apply Hft).
  exists l. rewrite run_prepare_all by (done || apply cache_ok_empty). change (w_now w1) with (w_now wt).
  change (circle_members (w_db w1)) with (circle_members (w_db wt)). rewrite Hn, Hm, Hp.
  destruct (batch_tx_known (a_DeviceID a) items w1 Hf1 Hall) as (w2 & Hb2 & (Hh2 & _) & Hp2).
  exists w2. split; [done|]. rewrite run_attempt, Hb2. cbn [publish_all run]. split; [|done].
  change (len (@nil Ping)) with 0. by rewrite Z.sub_0_r.
Qed.

Lemma batch_idempotent_witness :
  exists w1 w2, run (handlePingBatch demo_cfg batch_auth (Ok batch_body)) batch_world = (WriteJSON 200 (BBatch 3 2 1), w1) /\
    run (handlePingBatch demo_cfg batch_auth (Ok batch_body)) w1 = (WriteJSON 200 (BBatch 3 0 3), w2).
Proof.
  destruct (run (handlePingBatch demo_cfg batch_auth (Ok batch_body)) batch_world) as [r w1] eqn:Hr.
  assert (Hs : r = WriteJSON 200 (BBatch 3 2 1)) by (apply (f_equal fst) in Hr; vm_compute in Hr; rewrite <- Hr; reflexivity).
  destruct (@batch_idempotent demo_ext demo_cfg batch_auth (Ok batch_body) batch_world r w1 eq_refl Hr (f_equal resp_status Hs)) as (l & w2 & Hl & Hw & _).
  injection Hl as <-. exists w1, w2. split; [by rewrite Hs|exact Hw].
Defined.
