(* ===== verification/PlacesSpec.v ===== *)
(** * Places and mutes: concurrent edits, and what a setting reads back as *)

From S2P Require Import Prelude Table GoTime Base64 Models Api Ext World Demo Hub StoreAccounts.
From S2P Require Import StoreCircles StorePings StoreWf Auth Server PlacesApi.
Local Open Scope Z_scope.
Local Open Scope aul_scope.

(** A user's mutes in one circle, and everyone else's. *)
Definition my_mutes (u c : uuid) (db : DB) : list NotificationMute := filter (mutes_of u c) (notification_mutes db).
Definition other_mutes (u c : uuid) (db : DB) : list NotificationMute :=
  filter (fun r => ~ mutes_of u c r) (notification_mutes db).

(** A circle of two with a place, and a mute of the other. *)
Definition ann : CircleMember := mkCircleMember 7 2 "owner" "precise" demo_now None.
Definition bob : CircleMember := mkCircleMember 7 5 "member" "precise" demo_now None.

Definition places_world : World :=
  set_db (set_notification_mutes [mkNotificationMute 5 7 (Some 2%N) demo_now]
    (set_places_enc [mkPlacesEnc 8 7 [] 3 false (Some 2%N) demo_now demo_now (Some 2%N)]
      (set_circle_members [ann; bob]
        (set_circles [mkCircle 7 None 30 1 2 demo_now]
          (set_users [mkUser 2 "ann@example.org" "h" demo_now demo_now; mkUser 5 "bob@example.org" "h" demo_now demo_now]
            empty_db))))) demo_world.

(** ** Places *)

(** The row a successful update leaves, and that no row of that version is left. *)
Lemma UpdatePlace_cases id ct by_ c v w r w' : uniq PlacesEnc_ID (places_enc (w_db w)) ->
  UpdatePlace id ct by_ c v w = (r, w') -> calm w w' /\
  match r with
  | Ok p => PlacesEnc_ID p = id /\ PlacesEnc_Version p = v + 1 /\ PlacesEnc_Ciphertext p = ct /\
      p ∈ places_enc (w_db w') /\ uniq PlacesEnc_ID (places_enc (w_db w'))
  | Err e => w_db w' = w_db w
  end.
Proof.
  intros Hu. unfold UpdatePlace, touch_place. intros (Hc & Hr)%sql_cases. split; [done|].
  destruct r as [p|e]; [|by destruct Hr]. cbv zeta in Hr.
  destruct (one _) as [r0|e] eqn:Ho; [|done]. apply one_Ok in Ho as [(Hid & Hci & Hv & Hdel) Hin].
  cbn [result_bind] in Hr. unfold require, guard_res in Hr. case_bool_decide as Hk; [|done]. injection Hr as <- Hdb.
  rewrite <- Hdb. cbn [places_enc set_places_enc]. cbn. split; [done|]. split; [by rewrite Hv|]. split; [done|]. split.
  - apply list_elem_of_fmap. exists r0. split; [|done]. by rewrite decide_True by done.
  - by apply uniq_update.
Qed.

(** C22: two members who edit the same version of a place cannot overwrite each
    other: once one update has been answered, with the version raised by one, the
    other is answered with a conflict and changes nothing, while the engine fails
    no statement. *)
Theorem place_no_lost_update `{Ext} m1 m2 placeID ct1 ct2 ct v w r1 w1 (Hf : w_faults w = [])
    (Hu : uniq PlacesEnc_ID (places_enc (w_db w)))
    (Hr : run (handleUpdatePlace m1 placeID (Ok (mk_placeReq ct1 v))) w = (r1, w1)) (Hs : resp_status r1 = 200)
    (Hct : decodeBlob "ciphertext" ct2 maxBlobBytes = Ok ct) :
  run (handleUpdatePlace m2 placeID (Ok (mk_placeReq ct2 v))) w1 =
    (Conflict "place not found or version mismatch; re-sync and retry", w1) /\
  exists p, r1 = WriteJSON 200 (BPlace (placeToDTO p)) /\ p ∈ places_enc (w_db w1) /\ PlacesEnc_Version p = v + 1.
Proof.
  revert Hr. unfold handleUpdatePlace. destruct (parseUUIDParam _ _) as [id|msg] eqn:Hid; cbn [decode]; [|by intros [= <- _]].
  cbn [plr_Ciphertext plr_Version]. rewrite Hct. cbn [decode].
  destruct (decodeBlob _ ct1 _) as [c1|msg]; cbn [decode]; [|by intros [= <- _]]. rewrite run_attempt.
  destruct (UpdatePlace _ _ _ _ _ w) as [r0 w0] eqn:Hup. apply UpdatePlace_cases in Hup as [Hc Hup]; [|done].
  destruct Hc as (Hh & Hn & Hf0).
  destruct r0 as [p|e]; [|destruct (IsNotFound e); by intros [= <- _]].
  destruct Hup as (Hpid & Hpv & _ & Hin & Hu0). rewrite run_do. cbn [run]. intros [= <- Hw1].
  assert (Hf1 : w_faults w1 = []) by (rewrite <- Hw1; by apply Hf0).
  assert (Hd1 : w_db w1 = w_db w0) by (by rewrite <- Hw1).
  split; [|exists p; by rewrite Hd1]. rewrite run_attempt. unfold UpdatePlace, touch_place.
  rewrite (sql_nofault _ w1) by done. cbv zeta. rewrite Hd1. destruct (one _) as [q|e] eqn:Ho.
  - apply one_Ok in Ho as [(Hqid & _ & Hqv & _) Hq]. exfalso.
    assert (q = p) as -> by (eapply (uniq_inj PlacesEnc_ID); [exact Hu0|done|done|congruence]). lia.
  - by apply one_Err in Ho as [-> _].
Qed.

Lemma place_no_lost_update_witness :
  exists w1, fst (run (handleUpdatePlace ann "00000000-0000-0000-0000-000000000008" (Ok (mk_placeReq "AAAA" 3))) w1) =
    Conflict "place not found or version mismatch; re-sync and retry".
Proof.
  destruct (run (handleUpdatePlace bob "00000000-0000-0000-0000-000000000008" (Ok (mk_placeReq "BBBB" 3))) places_world)
    as [r1 w1] eqn:Hr.
  assert (Hs : resp_status r1 = 200) by (change r1 with (fst (r1, w1)); rewrite <- Hr; vm_compute; reflexivity).
  exists w1.
  rewrite (proj1 (@place_no_lost_update demo_ext bob ann "00000000-0000-0000-0000-000000000008" "BBBB" "AAAA"
    [Byte.x00; Byte.x00; Byte.x00] 3 places_world r1 w1 eq_refl ltac:(decide_compute) Hr Hs ltac:(vm_compute; reflexivity))).
  reflexivity.
Defined.

(** ** Mutes *)

Lemma dedupe_mutes_spec self l : forall seen ids, dedupe_mutes self seen l = Some ids ->
  NoDup ids /\ (forall id, id ∈ ids <-> id ∈ l /\ id ∉ seen) /\ self ∉ l.
Proof.
  induction l as [|x l IH]; intros seen ids; cbn [dedupe_mutes].
  { intros [= <-]. split; [constructor|]. split; [intros id; by rewrite !elem_of_nil; naive_solver|apply not_elem_of_nil]. }
  case_decide as Hx; [done|]. case_decide as Hs.
  - intros (Hn & He & Hself)%IH. split; [done|]. split; [|rewrite not_elem_of_cons; by split; [congruence|]].
    intros id. rewrite He, elem_of_cons. split; [naive_solver|]. intros [[->|Hin] Hns]; [done|by split].
  - destruct (dedupe_mutes self (x :: seen) l) as [ids'|] eqn:Hd; [|done]. intros [= <-].
    apply IH in Hd as (Hn & He & Hself). split; [|split].
    + constructor; [|done]. rewrite He. intros [_ Hns]. apply Hns. constructor.
    + intros id. rewrite !elem_of_cons, He, not_elem_of_cons. destruct (decide (id = x)); naive_solver.
    + rewrite not_elem_of_cons. by split; [congruence|].
Qed.

Definition mute_row (u c : uuid) (now : time) (m : option uuid) : NotificationMute := mkNotificationMute u c m (sqNow now).

Lemma InsertMute_cases u c m w r w' : InsertMute u c m w = (r, w') ->
  (u, c, m) ∉ mute_key <$> notification_mutes (w_db w) -> calm w w' /\
  (r = Ok tt -> w_db w' = set_notification_mutes (notification_mutes (w_db w) ++ [mute_row u c (w_now w) m]) (w_db w)).
Proof.
  intros (Hc & Hr)%sql_cases Hn. split; [done|]. intros ->. cbn in Hr. rewrite decide_False in Hr by exact Hn.
  unfold require, guard_res in Hr. by repeat case_bool_decide; simplify_eq/=.
Qed.

Lemma insert_mutes_cases u c ids : forall w w', NoDup ids ->
  (forall id, id ∈ ids -> (u, c, Some id) ∉ mute_key <$> notification_mutes (w_db w)) ->
  insert_mutes u c ids w = (Ok tt, w') -> calm w w' /\
  w_db w' = set_notification_mutes (notification_mutes (w_db w) ++ (mute_row u c (w_now w) ∘ Some <$> ids)) (w_db w).
Proof.
  induction ids as [|id ids IH]; intros w w' Hnd Hn; cbn [insert_mutes].
  { intros [= <-]. split; [done|]. cbn. rewrite app_nil_r. by destruct (w_db w). }
  apply NoDup_cons in Hnd as [Hid Hnd]. intros ([] & w1 & Hi & Hr)%bind_Ok.
  apply InsertMute_cases in Hi as [Hc Hd]; [|apply Hn; constructor]. specialize (Hd eq_refl).
  apply IH in Hr as [Hc2 Hd2]; [|done|].
  - split; [by etrans|]. destruct Hc as (_ & Hnow & _). rewrite Hd2, Hd, Hnow. cbn. by rewrite <- app_assoc.
  - intros id' Hid'. rewrite Hd. cbn. rewrite fmap_app, not_elem_of_app. split; [apply Hn; by constructor|].
    cbn. rewrite list_elem_of_singleton. unfold mute_key. cbn. congruence.
Qed.

(** The rows a PUT writes. *)
Definition mute_rows (u c : uuid) (now : time) (circleMuted : bool) (ids : list uuid) : list NotificationMute :=
  (if circleMuted then [mute_row u c now None] else []) ++ (mute_row u c now ∘ Some <$> ids).

Lemma replace_mutes_cases u c b ids w w' : NoDup ids -> replace_mutes u c b ids w = (Ok tt, w') -> calm w w' /\
  notification_mutes (w_db w') = other_mutes u c (w_db w) ++ mute_rows u c (w_now w) b ids.
Proof.
  intros Hnd. unfold replace_mutes. intros ([] & w1 & Hd & Hr)%bind_Ok.
  unfold DeleteMutes in Hd. apply sql_cases in Hd as [Hc1 Hd1]. injection Hd1 as Hd1.
  assert (Hno : forall m, (u, c, m) ∉ mute_key <$> notification_mutes (w_db w1)).
  { intros m (r & Hk & Hin)%list_elem_of_fmap. rewrite <- Hd1 in Hin. cbn in Hin.
    apply list_elem_of_filter in Hin as [Hin _]. apply Hin. unfold mutes_of. unfold mute_key in Hk. by injection Hk. }
  apply bind_Ok in Hr as ([] & w2 & Hi & Hr).
  assert (Hmid : calm w1 w2 /\ notification_mutes (w_db w2) =
      notification_mutes (w_db w1) ++ (if b then [mute_row u c (w_now w1) None] else [])).
  { destruct b; [|injection Hi as <-; by rewrite app_nil_r]. apply InsertMute_cases in Hi as [Hc Hd]; [|apply Hno].
    by rewrite (Hd eq_refl). }
  destruct Hmid as [Hc2 Hm2]. apply insert_mutes_cases in Hr as [Hc3 Hm3]; [|done|].
  - split; [by etrans; [|etrans]|]. rewrite Hm3. cbn. rewrite Hm2, <- Hd1. cbn. rewrite <- app_assoc.
    unfold mute_rows. destruct Hc1 as (_ & <- & _), Hc2 as (_ & <- & _). done.
  - intros id _. rewrite Hm2, fmap_app, not_elem_of_app. split; [apply Hno|].
    destruct b; cbn; [|apply not_elem_of_nil]. rewrite list_elem_of_singleton. unfold mute_key. cbn. congruence.
Qed.

(** What GET makes of rows that hold no repeat. *)
Lemma mutesFromRows_spec rows :
  CircleMuted (mutesFromRows rows) = bool_decide (None ∈ rows) /\
  MutedUserIDs (mutesFromRows rows) = omap (fun x => x) rows.
Proof.
  induction rows as [|[id|] rows [IH1 IH2]]; cbn; [done| |]; rewrite IH2; (split; [|done]).
  - rewrite IH1. apply bool_decide_ext. rewrite elem_of_cons. naive_solver.
  - symmetry. apply bool_decide_eq_true. constructor.
Qed.

Lemma filter_all_rows {R} (P : R -> Prop) `{forall r, Decision (P r)} (l : list R) : Forall P l -> filter P l = l.
Proof. induction 1 as [|x l Hx _ IH]; [done|]. by rewrite filter_cons_True, IH by done. Qed.

Lemma omap_Some_id {A} (l : list A) : omap (fun x => x) (Some <$> l) = l.
Proof. induction l as [|x l IH]; [done|]. cbn. by rewrite IH. Qed.

Lemma InsertMute_calm u c m w r w' : InsertMute u c m w = (r, w') -> calm w w'.
Proof. by intros [Hc _]%sql_cases. Qed.

Lemma bind_calm {A B} (m : M A) (k : A -> M B) :
  (forall w r w', m w = (r, w') -> calm w w') -> (forall a w r w', k a w = (r, w') -> calm w w') ->
  forall w r w', M_bind m k w = (r, w') -> calm w w'.
Proof.
  intros Hm Hk w r w'. unfold M_bind. destruct (m w) as [[a|e] w1] eqn:He; apply Hm in He.
  - intros Hr%Hk. by etrans.
  - by intros [= _ <-].
Qed.

Lemma replace_mutes_calm u c b ids w r w' : replace_mutes u c b ids w = (r, w') -> calm w w'.
Proof.
  revert w r w'. unfold replace_mutes. apply bind_calm; [by intros w r w' [Hc _]%sql_cases|]. intros _.
  apply bind_calm; [destruct b; [apply InsertMute_calm|by intros w r w' [= _ <-]]|]. intros _.
  induction ids as [|id ids IH]; cbn [insert_mutes]; [by intros w r w' [= _ <-]|].
  apply bind_calm; [apply InsertMute_calm|done].
Qed.

(** A PUT that is answered 200 got as far as its transaction. *)
Lemma run_store_mutes m req ids w r w1 : w_faults w = [] -> resp_status r = 200 ->
  run (let store :=
         (try! _ := WithTx (replace_mutes (CircleMember_UserID m) (CircleMember_CircleID m) (CircleMuted req) ids) catch internal in
         Ret (WriteJSON 200 (BMutes (mk_mutesDTO (CircleMuted req) ids)))) in
       if 0 <? len ids then
         (try! n := CountMembersIn (CircleMember_CircleID m) ids catch internal in
         (if n =? len ids then store else Ret (BadRequest "muted_user_ids must all be members of this circle")))
       else store) w = (r, w1) ->
  exists w0, w_faults w0 = [] /\ w_db w0 = w_db w /\
    run (try! _ := WithTx (replace_mutes (CircleMember_UserID m) (CircleMember_CircleID m) (CircleMuted req) ids) catch internal in
      Ret (WriteJSON 200 (BMutes (mk_mutesDTO (CircleMuted req) ids)))) w0 = (r, w1).
Proof.
  intros Hf Hs. cbv zeta. destruct (0 <? len ids); [|intros Hr; by exists w].
  rewrite run_attempt. unfold CountMembersIn. case_decide; cbv beta iota delta [ret].
  - destruct (_ =? _); [|by intros [= <- _]]. intros Hr. by exists w.
  - rewrite query_nofault by done. cbv beta iota. destruct (_ =? _); [|by intros [= <- _]]. intros Hr. by exists w.
Qed.

Lemma mine_of_rows u c now b ids l :
  filter (mutes_of u c) (filter (fun r => ~ mutes_of u c r) l ++ mute_rows u c now b ids) = mute_rows u c now b ids /\
  filter (fun r => ~ mutes_of u c r) (filter (fun r => ~ mutes_of u c r) l ++ mute_rows u c now b ids) =
    filter (fun r => ~ mutes_of u c r) l.
Proof.
  assert (Hrows : Forall (mutes_of u c) (mute_rows u c now b ids)).
  { unfold mute_rows. apply Forall_app. split; [destruct b; repeat constructor|]. apply Forall_fmap, Forall_true. by split. }
  rewrite !filter_app, !list_filter_filter. split.
  - rewrite (filter_all_rows _ _ Hrows).
    assert (filter (fun r => mutes_of u c r /\ ~ mutes_of u c r) l = []) as ->; [|done].
    induction l as [|x l IH]; [done|]. rewrite filter_cons_False by tauto. done.
  - assert (filter (fun r => ~ mutes_of u c r) (mute_rows u c now b ids) = []) as ->.
    { induction Hrows as [|x rows Hx _ IH]; [done|]. rewrite filter_cons_False by tauto. done. }
    rewrite app_nil_r. apply list_filter_iff. tauto.
Qed.

(** a PUT of a member's mutes reads back: what the next GET answers is what the
    PUT answered, the requested ids without repeats and the whole-circle flag,
    whatever was there before; nobody else's mutes change. *)
Theorem mutes_round_trip m body w r w1 (Hf : w_faults w = [])
    (Hr : run (handleSetMutes m body) w = (r, w1)) (Hs : resp_status r = 200) :
  exists req ids dto, body = Ok req /\ r = WriteJSON 200 (BMutes (mk_mutesDTO (CircleMuted req) ids)) /\
    NoDup ids /\ (forall id, id ∈ ids <-> id ∈ MutedUserIDs req) /\
    run (handleGetMutes m) w1 = (WriteJSON 200 (BMutes dto), w1) /\
    CircleMuted dto = CircleMuted req /\ MutedUserIDs dto ≡ₚ ids /\
    other_mutes (CircleMember_UserID m) (CircleMember_CircleID m) (w_db w1) =
      other_mutes (CircleMember_UserID m) (CircleMember_CircleID m) (w_db w).
Proof.
  revert Hr. unfold handleSetMutes. destruct body as [req|msg]; cbn [decode]; [|by intros [= <- _]].
  unfold check. destruct (negb _); [|by intros [= <- _]].
  destruct (dedupe_mutes _ _ _) as [ids|] eqn:Hd; [|by intros [= <- _]]. apply dedupe_mutes_spec in Hd as (Hnd & He & _).
  intros (w0 & Hf0 & Hd0 & Hr)%(run_store_mutes m req ids); [|done|done]. rewrite run_attempt in Hr.
  destruct (WithTx _ w0) as [[[]|e] w2] eqn:Ht; cbn [run] in Hr; [|by injection Hr as <- _]. injection Hr as <- <-.
  apply WithTx_cases in Ht as [(_ & _ & Hf2) (w3 & w4 & (_ & Hn3 & _) & Hd3 & Ht & Hd4)]; [|intros; by eapply replace_mutes_calm].
  apply replace_mutes_cases in Ht as [_ Hm]; [|done]. rewrite <- Hd4, Hd3, Hd0 in Hm.
  destruct (mine_of_rows (CircleMember_UserID m) (CircleMember_CircleID m) (w_now w3) (CircleMuted req) ids (notification_mutes (w_db w))) as [Hmine Hother].
  set (rows := sort_by NotificationMute_CreatedAt (mute_rows (CircleMember_UserID m) (CircleMember_CircleID m) (w_now w3) (CircleMuted req) ids)).
  exists req, ids, (mutesFromRows (NotificationMute_MutedUserID <$> rows)).
  assert (Hp : NotificationMute_MutedUserID <$> rows ≡ₚ (if CircleMuted req then [None] else []) ++ (Some <$> ids)).
  { unfold rows. rewrite sort_by_perm. unfold mute_rows. rewrite fmap_app, <- list_fmap_compose. by destruct (CircleMuted req). }
  destruct (mutesFromRows_spec (NotificationMute_MutedUserID <$> rows)) as [H1 H2].
  split; [done|]. split; [done|]. split; [done|]. split.
  { intros id. rewrite He. split; [by intros []|]. intros ?. split; [done|apply not_elem_of_nil]. }
  split; [|split; [|split]].
  - unfold handleGetMutes. rewrite run_attempt. unfold ListMutes. rewrite query_nofault by by apply Hf2.
    cbv beta iota. rewrite Hm. unfold other_mutes. rewrite Hmine. done.
  - rewrite H1. destruct (CircleMuted req); [apply bool_decide_eq_true; rewrite Hp; constructor|].
    apply bool_decide_eq_false. rewrite Hp. by intros (? & ? & _)%list_elem_of_fmap.
  - rewrite H2, Hp. rewrite omap_app. destruct (CircleMuted req); cbn; by rewrite omap_Some_id.
  - unfold other_mutes in *. by rewrite Hm, Hother.
Qed.

Lemma mutes_round_trip_witness :
  exists w1 dto, fst (run (handleSetMutes ann (Ok (mk_mutesDTO true [5; 5]%N))) places_world) =
      WriteJSON 200 (BMutes (mk_mutesDTO true [5]%N)) /\
    run (handleGetMutes ann) w1 = (WriteJSON 200 (BMutes dto), w1) /\ MutedUserIDs dto ≡ₚ [5]%N.
Proof.
  destruct (run (handleSetMutes ann (Ok (mk_mutesDTO true [5; 5]%N))) places_world) as [r w1] eqn:Hr.
  assert (Hb : r = WriteJSON 200 (BMutes (mk_mutesDTO true [5]%N))).
  { change r with (fst (r, w1)). rewrite <- Hr. vm_compute. reflexivity. }
  destruct (mutes_round_trip ann _ places_world r w1 eq_refl Hr ltac:(rewrite Hb; reflexivity))
    as (req & ids & dto & Hreq & Hids & _ & _ & Hget & _ & Hp & _).
  rewrite Hb in Hids. injection Hids as _ <-. exists w1, dto. by split; [exact Hb|].
Defined.
