(* ===== verification/ShareSpec.v ===== *)
(** * Live-share links: one link, one device, bounded life *)

From S2P Require Import Prelude Table GoTime Base64 Models Api Ext World Demo Hub StoreAccounts.
From S2P Require Import StoreCircles StorePings StoreWf Token Auth Server ShareApi.
Local Open Scope Z_scope.
Local Open Scope aul_scope.

(** The link's session, with the last position its owner sent. *)
Definition demo_share : ShareSession := mkShareSession 9 2 demo_now (demo_now + 10 * Minute) None None None.

Definition share_world (l : list ShareSession) : World :=
  set_db (set_share_sessions l
    (set_users [mkUser 2 "ann@example.org" "h" demo_now demo_now] empty_db)) demo_world.

Definition share_url : string := "00000000-0000-0000-0000-000000000009".

(** The session after its first viewer. *)
Definition bound_to (hash : bytes) (now : time) (s : ShareSession) : ShareSession :=
  ShareSession_set_ViewerBoundAt (Some (sqNow now)) (ShareSession_set_ViewerTokenHash (Some hash) s).

(** What the viewer's page is answered once it is let in. *)
Definition position_of (s : ShareSession) (db : DB) : option sharePositionDTO :=
  match one (filter (fun p => SharePosition_SessionID p = ShareSession_ID s) (share_positions db)) with
  | Ok pos => Some (mk_sharePositionDTO (encodeBlob (SharePosition_Nonce pos))
                (encodeBlob (SharePosition_Ciphertext pos)) (SharePosition_CapturedAt pos))
  | Err _ => None
  end.

(** ** Life of a link *)

(** Outside the bounds the nearest one is taken; nothing, or less, means fifteen minutes. *)
Lemma clampShareTTL_bounds seconds :
  minShareTTL <= clampShareTTL seconds <= maxShareTTL /\
  (seconds <= 0 -> clampShareTTL seconds = defaultShareTTL) /\
  (60 <= seconds <= 3600 -> clampShareTTL seconds = seconds * Second).
Proof.
  unfold clampShareTTL. change (minShareTTL / Second) with 60. change (maxShareTTL / Second) with 3600.
  unfold minShareTTL, maxShareTTL, defaultShareTTL, Minute, Second, Millisecond in *.
  destruct (Z.leb_spec seconds 0); [split; [lia|]; split; [done|lia]|].
  destruct (Z.ltb_spec seconds 60); [split; [lia|]; split; lia|].
  destruct (Z.ltb_spec 3600 seconds); [split; [lia|]; split; lia|].
  unfold Duration_mul, wrap64. rewrite wrap_id; [split; [lia|]; split; [lia|done]|lia|].
  unfold in_int. lia.
Qed.

(** C25: whatever lifetime a client asks for (any 64-bit number), the link that is
    created is the caller's, unused, and expires between one minute and one hour
    later; a request inside those bounds is granted as asked, and a request for
    nothing, or for less, gets fifteen minutes. *)
Theorem created_shares_bounded a body w answer w' id expires
    (Hr : run (handleCreateShare a body) w = (answer, w')) (Hs : resp_body answer = BShare id expires) :
  exists seconds, default (Ok 0) body = Ok seconds /\
  share_sessions (w_db w') = (share_sessions (w_db w) ++
    [mkShareSession id (a_UserID a) (sqNow (w_now w)) expires None None None])%list /\
  tv (Add (w_now w) Minute) <= expires <= tv (Add (w_now w) Hour) /\
  (seconds <= 0 -> expires = tv (Add (w_now w) (15 * Minute))) /\
  (60 <= seconds <= 3600 -> expires = tv (Add (w_now w) (seconds * Second))).
Proof.
  unfold handleCreateShare, decode in Hr.
  destruct (match body with Some b => b | None => Ok 0 end) as [seconds|msg] eqn:Hb; [|by injection Hr as <- <-].
  exists seconds. split; [by destruct body|]. clear Hb.
  destruct (clampShareTTL_bounds seconds) as (Hbnd & Hdef & Hin).
  rewrite run_attempt in Hr. cbn [time_Now] in Hr. rewrite run_attempt in Hr.
  destruct (CreateShareSession _ _ w) as [[sess|e] w1] eqn:Hc; [|by injection Hr as <- <-].
  injection Hr as <- <-. injection Hs as <- <-.
  apply bind_Ok in Hc as (id & w0 & [= <- <-] & Hc). apply sql_Ok in Hc as (Hc & _). inv_stmt. simpl.
  split; [by match goal with H : _ = w_db w1 |- _ => rewrite <- H end|]. split; [|split].
  - split; apply tv_mono; unfold Add, Hour; unfold minShareTTL, maxShareTTL, Minute in *; lia.
  - intros ->%Hdef. done.
  - intros ->%Hin. done.
Qed.

Lemma created_shares_bounded_witness :
  let answer := fst (run (handleCreateShare (mkAuth 2 0 0) (Some (Ok 86400))) (share_world [])) in
  exists expires, resp_body answer = BShare 1 expires /\ expires <= tv (Add demo_now Hour).
Proof.
  cbv zeta. eexists. split; [vm_compute; reflexivity|].
  edestruct (created_shares_bounded (mkAuth 2 0 0) (Some (Ok 86400)) (share_world [])) as (seconds & _ & _ & H & _);
    [apply surjective_pairing|vm_compute; reflexivity|apply H].
Defined.

(** ** One device *)

Lemma share_row (P : ShareSession -> Prop) `{forall s, Decision (P s)} l s :
  uniq ShareSession_ID l -> s ∈ l -> P s -> (forall s', P s' -> ShareSession_ID s' = ShareSession_ID s) ->
  one (filter P l) = Ok s.
Proof.
  intros Hu Hs HP Hid. destruct (one (filter P l)) as [s'|e] eqn:Ho.
  - apply one_Ok in Ho as [HP' Hs']. f_equal. eapply (uniq_inj ShareSession_ID); eauto.
  - by apply one_Err in Ho as [_ Ho]; destruct (Ho s).
Qed.

Lemma run_answer set s w : w_faults w = [] ->
  run (Act (GetSharePosition (ShareSession_ID s)) (fun r =>
     let answer position := Ret (with_cookies set (WriteJSON 200 (BSharePosition (ShareSession_ExpiresAt s) position))) in
     match r with
     | Ok pos => answer (Some (mk_sharePositionDTO (encodeBlob (SharePosition_Nonce pos))
                   (encodeBlob (SharePosition_Ciphertext pos)) (SharePosition_CapturedAt pos)))
     | Err e => if IsNotFound e then answer None else Ret (with_cookies set (Internal e))
     end)) w =
  (with_cookies set (WriteJSON 200 (BSharePosition (ShareSession_ExpiresAt s) (position_of s (w_db w)))), w).
Proof.
  intros Hf. cbn [run]. unfold GetSharePosition, position_of. rewrite query_nofault by done. cbv zeta.
  destruct (one _) as [pos|e] eqn:Ho; [done|]. by apply one_Err in Ho as [-> _].
Qed.

(** Whether the request carries the token of that hash. *)
Definition carries (cfg : Config) (cookies : list (string * string)) (id : uuid) (hash : bytes) : Prop :=
  HashTokenBytes (cfg_SessionPepper cfg) <$> find_cookie (shareCookieName id) cookies = Some hash.

#[export] Instance carries_decision cfg cookies id hash : Decision (carries cfg cookies id hash).
Proof. unfold carries. apply _. Defined.

Lemma viewer_admitted_carries cfg cookies s hash : ShareSession_ViewerTokenHash s = Some hash ->
  viewer_admitted cfg cookies s = bool_decide (carries cfg cookies (ShareSession_ID s) hash).
Proof.
  intros Hb. apply eq_true_iff_eq. rewrite bool_decide_eq_true.
  unfold viewer_admitted, carries, ConstantTimeEqualBytes. rewrite Hb.
  destruct (find_cookie _ _); [|done]. rewrite bool_decide_eq_true. cbn. split; [by intros ->|congruence].
Qed.

Definition admit_or_refuse (cfg : Config) (cookies : list (string * string)) (s : ShareSession) (hash : bytes) (db : DB) : response :=
  if decide (carries cfg cookies (ShareSession_ID s) hash)
  then WriteJSON 200 (BSharePosition (ShareSession_ExpiresAt s) (position_of s db))
  else Forbidden "this link is already open on another device".

(** A live link that is bound. *)
Lemma run_bound_share `{Ext} cfg url cookies w s hash : w_faults w = [] -> uniq ShareSession_ID (share_sessions (w_db w)) ->
  uuid_Parse url = Some (ShareSession_ID s) -> s ∈ share_sessions (w_db w) -> shareLive s (w_now w) = true ->
  ShareSession_ViewerTokenHash s = Some hash ->
  run (handleGetShare cfg url cookies) w = (admit_or_refuse cfg cookies s hash (w_db w), w).
Proof.
  intros Hf Hu Hp Hs Hl Hb. unfold handleGetShare, parseUUIDParam. rewrite Hp. cbn [decode].
  rewrite run_attempt. unfold GetShareSession. rewrite query_nofault by done.
  rewrite (share_row _ _ s) by (done || by intros s' <-). cbv beta iota. rewrite run_attempt. unfold time_Now.
  cbv beta iota. unfold check. rewrite Hl. unfold bindShareViewer. rewrite Hb. cbv zeta. unfold check.
  rewrite (viewer_admitted_carries _ _ _ hash) by done. unfold admit_or_refuse. case_bool_decide as Hc.
  - rewrite decide_True by done. by rewrite (run_answer [] s).
  - by rewrite decide_False by done.
Qed.

(** C26: a live share link opens on one device, while the engine fails no statement.
    Its first visitor is let in, whatever cookies it sends, and is given the cookie
    of a token made of the next random bytes drawn, whose hash the session is
    bound to (that nobody else has it is up to the random source); after that exactly the requests that carry this token
    are let in and every other is refused with nothing changed, and so is a
    visitor who had read the session before it was bound and lost the race. *)
Theorem share_first_viewer_wins `{Ext} cfg url cookies w s b (Hf : w_faults w = [])
    (Hu : uniq ShareSession_ID (share_sessions (w_db w))) (Hp : uuid_Parse url = Some (ShareSession_ID s))
    (Hs : s ∈ share_sessions (w_db w)) (Hl : shareLive s (w_now w) = true)
    (Hb : ShareSession_ViewerTokenHash s = None) (Hrand : w_rand w (w_draws w) = Some b) :
  exists w1, let token := EncodeToString RawURLEncoding (firstn TokenBytes (b ++ repeat Byte.x00 TokenBytes)) in
    let hash := HashTokenBytes (cfg_SessionPepper cfg) token in let s' := bound_to hash (w_now w) s in
    w_draws w1 = S (w_draws w) /\
    run (handleGetShare cfg url cookies) w =
      (with_cookies [setShareCookie cfg s' token (w_now w)]
        (WriteJSON 200 (BSharePosition (ShareSession_ExpiresAt s) (position_of s (w_db w)))), w1) /\
    s' ∈ share_sessions (w_db w1) /\
    (forall cookies', run (handleGetShare cfg url cookies') w1 = (admit_or_refuse cfg cookies' s' hash (w_db w1), w1)) /\
    (forall cookies' next, ~ carries cfg cookies' (ShareSession_ID s) hash -> w_rand w1 (w_draws w1) <> None ->
      exists w2, run (bindShareViewer cfg cookies' s next) w1 =
        (Forbidden "this link is already open on another device", w2) /\ w_db w2 = w_db w1).
Proof.
  set (token := EncodeToString RawURLEncoding (firstn TokenBytes (b ++ repeat Byte.x00 TokenBytes))).
  set (hash := HashTokenBytes (cfg_SessionPepper cfg) token). set (s' := bound_to hash (w_now w) s).
  set (P := fun x => ShareSession_ID x = ShareSession_ID s /\ ShareSession_ViewerTokenHash x = None).
  set (f := fun x => bound_to hash (w_now w) x).
  set (w1 := set_db (set_share_sessions (update_where P f (share_sessions (w_db w))) (w_db w))
    (set_draws (S (w_draws w)) w)).
  assert (Hin : s' ∈ share_sessions (w_db w1)).
  { apply list_elem_of_fmap. exists s. split; [|done]. by rewrite decide_True. }
  assert (Hu1 : uniq ShareSession_ID (share_sessions (w_db w1))) by (apply uniq_update; done).
  exists w1. cbv zeta. fold token. split; [done|]. split; [|split; [exact Hin|split]].
  - unfold handleGetShare, parseUUIDParam. rewrite Hp. cbn [decode].
    rewrite run_attempt. unfold GetShareSession. rewrite query_nofault by done.
    rewrite (share_row _ _ s) by (done || by intros ? <-). cbv beta iota. rewrite run_attempt. unfold time_Now.
    cbv beta iota. unfold check. rewrite Hl. unfold bindShareViewer. rewrite Hb. rewrite run_attempt.
    unfold GenerateToken, M_bind, rand_Read. rewrite Hrand. cbv beta iota delta [ret].
    fold token. fold hash. unfold BindShareViewer, update_share.
    set (w0 := set_draws (S (w_draws w)) w). cbn [run]. rewrite (sql_nofault _ w0) by done.
    change (share_sessions (w_db w0)) with (share_sessions (w_db w)). rewrite (share_row P _ s) by (done || by intros ? []).
    cbv beta iota delta [result_bind]. rewrite run_attempt. cbv beta iota. change (set_db _ w0) with w1.
    exact (run_answer [setShareCookie cfg s' token (w_now w)] s' w1 Hf).
  - intros cookies'. by apply run_bound_share.
  - intros cookies' next Hnc Hr. unfold bindShareViewer. rewrite Hb. rewrite run_attempt.
    unfold GenerateToken, M_bind, rand_Read. destruct (w_rand w1 (w_draws w1)) as [b1|]; [|done]. cbv beta iota delta [ret].
    set (w2 := set_draws _ w1). exists w2. split; [|done]. unfold BindShareViewer, update_share. cbn [run].
    rewrite (sql_nofault _ w2) by done. destruct (one _) as [x|e] eqn:Ho.
    { exfalso. apply one_Ok in Ho as [[Hx Hxn] Hxin].
      assert (x = s') as -> by (eapply (uniq_inj ShareSession_ID); [exact Hu1|done|done|done]). done. }
    apply one_Err in Ho as [-> _]. cbv beta iota delta [result_bind IsNotFound]. rewrite run_attempt.
    unfold GetShareSession. rewrite (query_nofault _ w2) by done. rewrite (share_row _ _ s') by (done || by intros ? ->).
    cbv beta iota zeta. unfold check. rewrite (viewer_admitted_carries _ _ _ hash) by done.
    by rewrite bool_decide_eq_false_2.
Qed.

Lemma share_first_viewer_wins_witness :
  exists token w1, fst (run (handleGetShare demo_cfg share_url []) (share_world [demo_share])) =
      with_cookies [setShareCookie demo_cfg (bound_to (HashTokenBytes (cfg_SessionPepper demo_cfg) token) demo_now demo_share) token demo_now]
        (WriteJSON 200 (BSharePosition (demo_now + 10 * Minute) None)) /\
    run (handleGetShare demo_cfg share_url []) w1 = (Forbidden "this link is already open on another device", w1).
Proof.
  destruct (@share_first_viewer_wins demo_ext demo_cfg share_url [] (share_world [demo_share]) demo_share
    (repeat (demo_byte 0) 32) eq_refl ltac:(decide_compute) eq_refl ltac:(constructor) eq_refl eq_refl eq_refl)
    as (w1 & _ & H1 & _ & H2 & _).
  exists (EncodeToString RawURLEncoding (firstn TokenBytes (repeat (demo_byte 0) 32 ++ repeat Byte.x00 TokenBytes))), w1. split; [rewrite H1; reflexivity|]. rewrite H2. reflexivity.
Defined.
