(* ===== verification/ColumnsSpec.v ===== *)
(** * What is stored is read back

    Every value comes back, an instant at the resolution of its column, whether
    the driver hands texts back as strings or as bytes; and every row comes back
    field by field: the list of columns, the order of the destinations and the
    fields agree. *)

From S2P Require Import Prelude GoTime Base64 Models Api Ext Net Text Launcher World Demo ShareApi Columns.
Local Open Scope string_scope.
Local Open Scope Z_scope.
Local Open Scope aul_scope.

(** The driver hands a text back as it is or as bytes. *)
Inductive handed : driverValue -> driverValue -> Prop :=
| handed_same v : handed v v
| handed_bytes s : handed (DText s) (DBlob (list_byte_of_string s)).

Lemma string_of_list_byte_of_string s : string_of_list_byte (list_byte_of_string s) = s.
Proof. apply String.string_of_list_byte_of_string. Qed.

Lemma handed_text s v : handed (DText s) v -> asString v = Some s.
Proof. inversion 1; subst; [done|]. cbn. by rewrite string_of_list_byte_of_string. Qed.

(** google/uuid reads the canonical form of an id back. *)
Definition uuid_law `{Ext} : Prop := forall u, (u < 2 ^ 128)%N -> uuid_Parse (uuid_String u) = Some u.

Section columns.
Context `{Ext} (Hlaw : uuid_law).

(** [scan] reads back as [a] whatever the driver hands back for [v]. *)
Definition reads {A} (scan : driverValue -> result string A) (v : driverValue) (a : A) : Prop :=
  forall v', handed v v' -> scan v' = Ok a.

Lemma reads_uuid u : (u < 2 ^ 128)%N -> reads suuid (uv u) u.
Proof using Hlaw. intros Hu v Hv. unfold suuid. rewrite (handed_text _ _ Hv). by rewrite Hlaw. Qed.

Lemma reads_time t : in_years t -> reads stime (tv t) (GoTime.tv t).
Proof.
  intros Ht v Hv. inversion Hv; subst; unfold tv; cbn [stime]; rewrite ?string_of_list_byte_of_string; by rewrite parseTime_fmtTime.
Qed.

Lemma reads_text s : reads stext (DText s) s.
Proof. intros v Hv. unfold stext. by rewrite (handed_text _ _ Hv). Qed.

Lemma reads_blob b : reads sblob (DBlob b) b.
Proof. intros v Hv. by inversion Hv. Qed.

Lemma reads_bool b : reads sbool (bv b) b.
Proof. intros v Hv. inversion Hv; subst. by destruct b. Qed.

Lemma reads_int n : in_int 32 n -> reads sint (DInt n) n.
Proof. intros Hn v Hv. inversion Hv; subst. cbn. by rewrite bool_decide_eq_true_2. Qed.

Lemma reads_null {A} (scan : driverValue -> result string A) : reads (nullable scan) DNull None.
Proof. intros v Hv. by inversion Hv. Qed.

Lemma reads_some {A} (scan : driverValue -> result string A) v a : v <> DNull -> reads scan v a -> reads (nullable scan) v (Some a).
Proof.
  intros Hv Hr v' Hv'. unfold nullable. rewrite (Hr v' Hv'). destruct Hv'; [by destruct v|done].
Qed.

Definition small (u : uuid) : Prop := (u < 2 ^ 128)%N.

(** An instant as a column holds it. *)
Definition held (t : time) : Prop := in_years t /\ GoTime.tv t = t.

Lemma reads_held t : held t -> reads stime (tv t) t.
Proof. intros [Ht Heq]. rewrite <- Heq at 2. by apply reads_time. Qed.

Definition on_some {A} (P : A -> Prop) (o : option A) : Prop := match o with Some a => P a | None => True end.

Lemma reads_uuid_opt u : on_some small u -> reads snUUID (uvp u) u.
Proof using Hlaw. destruct u as [u|]; intros Hu; [apply reads_some; [done|by apply reads_uuid]|apply reads_null]. Qed.

Lemma reads_held_opt t : on_some held t -> reads snTime (tvp t) t.
Proof. destruct t as [t|]; intros Ht; [apply reads_some; [done|by apply reads_held]|apply reads_null]. Qed.

Lemma reads_text_opt s : reads sntext (textp s) s.
Proof. destruct s as [s|]; [apply reads_some; [done|apply reads_text]|apply reads_null]. Qed.

Lemma reads_blob_opt b : reads snblob (blobp b) b.
Proof. destruct b as [b|]; [apply reads_some; [done|apply reads_blob]|apply reads_null]. Qed.

(** ** Rows *)

(** The scanner reads the stored row back as [r]. *)
Definition row_reads {R} (scan : list driverValue -> result string R) (cols : string) (row : list (string * driverValue)) (r : R) : Prop :=
  exists l, select cols row = Some l /\ forall l', Forall2 handed l l' -> scan l' = Ok r.

Ltac read_columns :=
  repeat match goal with
  | Hv : handed (DText _) ?v |- context [stext ?v] => rewrite (reads_text _ _ Hv)
  | Hv : handed (DBlob _) ?v |- context [sblob ?v] => rewrite (reads_blob _ _ Hv)
  | Hv : handed (DInt ?n) ?v, Hn : in_int 32 ?n |- context [sint ?v] => rewrite (reads_int n Hn v Hv)
  | Hv : handed (bv _) ?v |- context [sbool ?v] => rewrite (reads_bool _ _ Hv)
  | Hv : handed (uv ?u) ?v, Hu : small ?u |- context [suuid ?v] => rewrite (reads_uuid u Hu v Hv)
  | Hv : handed (uvp ?u) ?v, Hu : on_some small ?u |- context [snUUID ?v] => rewrite (reads_uuid_opt u Hu v Hv)
  | Hv : handed (tv ?t) ?v, Ht : held ?t |- context [stime ?v] => rewrite (reads_held t Ht v Hv)
  | Hv : handed (tvp ?t) ?v, Ht : on_some held ?t |- context [snTime ?v] => rewrite (reads_held_opt t Ht v Hv)
  | Hv : handed (textp _) ?v |- context [sntext ?v] => rewrite (reads_text_opt _ _ Hv)
  | Hv : handed (blobp _) ?v |- context [snblob ?v] => rewrite (reads_blob_opt _ _ Hv)
  | |- context [result_bind (Ok _) _] => cbn [result_bind]
  end.

Ltac read_row :=
  intros Hok; hnf in Hok; destruct_and? Hok; eexists; split; [reflexivity|];
  intros l' Hl; repeat (apply Forall2_cons_inv_l in Hl as (? & ? & ? & Hl & ->)); apply Forall2_nil_inv_l in Hl as ->;
  cbv beta iota delta [scanDevice scanCircle scanMember scanInvite scanEnvelope scanSession scanShare scanSOS scanPlace scanPing];
  read_columns; match goal with |- Ok _ = Ok ?r => by destruct r end.

Definition device_ok (r : Device) : Prop :=
  small (Device_ID r) /\ small (Device_UserID r) /\ held (Device_CreatedAt r) /\
  on_some held (Device_LastSeen r).

Lemma device_reads r : device_ok r -> row_reads scanDevice deviceCols (device_row r) r.
Proof. read_row. Qed.

Definition circle_ok (r : Circle) : Prop :=
  small (Circle_ID r) /\ in_int 32 (Circle_RetentionDays r) /\ in_int 32 (Circle_KeyEpoch r) /\
  small (Circle_CreatedBy r) /\ held (Circle_CreatedAt r).

Lemma circle_reads r : circle_ok r -> row_reads scanCircle circleCols (circle_row r) r.
Proof. read_row. Qed.

Definition member_ok (r : CircleMember) : Prop :=
  small (CircleMember_CircleID r) /\ small (CircleMember_UserID r) /\ held (CircleMember_JoinedAt r).

Lemma member_reads r : member_ok r -> row_reads scanMember memberCols (member_row r) r.
Proof. read_row. Qed.

Definition invite_ok (r : Invite) : Prop :=
  small (Invite_ID r) /\ small (Invite_CircleID r) /\ small (Invite_CreatedBy r) /\
  in_int 32 (Invite_MaxUses r) /\ in_int 32 (Invite_Uses r) /\ held (Invite_ExpiresAt r) /\
  held (Invite_CreatedAt r).

Lemma invite_reads r : invite_ok r -> row_reads scanInvite inviteCols (invite_row r) r.
Proof. read_row. Qed.

Definition envelope_ok (r : KeyEnvelope) : Prop :=
  small (KeyEnvelope_ID r) /\ small (KeyEnvelope_CircleID r) /\ small (KeyEnvelope_RecipientDeviceID r) /\
  on_some small (KeyEnvelope_SenderDeviceID r) /\ in_int 32 (KeyEnvelope_KeyEpoch r) /\
  held (KeyEnvelope_CreatedAt r) /\ on_some held (KeyEnvelope_ConsumedAt r).

Lemma envelope_reads r : envelope_ok r -> row_reads scanEnvelope envelopeCols (envelope_row r) r.
Proof. read_row. Qed.

Definition session_ok (r : Session) : Prop :=
  small (Session_ID r) /\ small (Session_UserID r) /\ small (Session_DeviceID r) /\
  held (Session_AccessExpiresAt r) /\ held (Session_RefreshExpiresAt r) /\
  on_some held (Session_RevokedAt r) /\ held (Session_CreatedAt r) /\ held (Session_RotatedAt r).

Lemma session_reads r : session_ok r -> row_reads scanSession sessionCols (session_row r) r.
Proof. read_row. Qed.

Definition share_ok (r : ShareSession) : Prop :=
  small (ShareSession_ID r) /\ small (ShareSession_UserID r) /\ held (ShareSession_CreatedAt r) /\
  held (ShareSession_ExpiresAt r) /\ on_some held (ShareSession_RevokedAt r) /\
  on_some held (ShareSession_ViewerBoundAt r).

Lemma share_reads r : share_ok r -> row_reads scanShare shareCols (share_row r) r.
Proof. read_row. Qed.

Definition sos_ok (r : SosEvent) : Prop :=
  small (SosEvent_ID r) /\ small (SosEvent_CircleID r) /\ on_some small (SosEvent_DeviceID r) /\
  held (SosEvent_CreatedAt r) /\ on_some held (SosEvent_ResolvedAt r) /\
  on_some small (SosEvent_ResolvedBy r).

Lemma sos_reads r : sos_ok r -> row_reads scanSOS sosCols (sos_row r) r.
Proof. read_row. Qed.

Definition place_ok (r : PlacesEnc) : Prop :=
  small (PlacesEnc_ID r) /\ small (PlacesEnc_CircleID r) /\ in_int 32 (PlacesEnc_Version r) /\
  on_some small (PlacesEnc_UpdatedBy r) /\ held (PlacesEnc_UpdatedAt r) /\
  held (PlacesEnc_CreatedAt r) /\ on_some small (PlacesEnc_CreatedBy r).

Lemma place_reads r : place_ok r -> row_reads scanPlace placeCols (place_row r) r.
Proof. read_row. Qed.

Definition ping_ok (r : Ping) : Prop :=
  small (Ping_ID r) /\ small (Ping_CircleID r) /\ small (Ping_DeviceID r) /\ held (Ping_CapturedAt r) /\
  held (Ping_ReceivedAt r) /\ on_some held (Ping_ExpiresAt r).

Lemma ping_reads r : ping_ok r -> row_reads scanPing pingCols (ping_row r) r.
Proof. read_row. Qed.
End columns.

(** C16: the columns of the ten row scanners are faithful (devices, circles, members,
    invites, key envelopes, sessions, share links, SOS events, places and pings;
    not the users, share positions, push subscriptions, app versions and audit
    rows, whose columns are scanned in place): a row comes back with
    every field where it was, whatever the driver hands texts back as, if its ids
    have 128 bits, its integers fit and its instants are stored ones; any instant
    of the years 0 to 9999 comes back cut to the millisecond, and the texts order
    as the instants do at that resolution, so that the engine may compare them. *)
Theorem rows_read_back `{Ext} (Hlaw : uuid_law) :
  (forall r, device_ok r -> row_reads scanDevice deviceCols (device_row r) r) /\
  (forall r, circle_ok r -> row_reads scanCircle circleCols (circle_row r) r) /\
  (forall r, member_ok r -> row_reads scanMember memberCols (member_row r) r) /\
  (forall r, invite_ok r -> row_reads scanInvite inviteCols (invite_row r) r) /\
  (forall r, envelope_ok r -> row_reads scanEnvelope envelopeCols (envelope_row r) r) /\
  (forall r, session_ok r -> row_reads scanSession sessionCols (session_row r) r) /\
  (forall r, share_ok r -> row_reads scanShare shareCols (share_row r) r) /\
  (forall r, sos_ok r -> row_reads scanSOS sosCols (sos_row r) r) /\
  (forall r, place_ok r -> row_reads scanPlace placeCols (place_row r) r) /\
  (forall r, ping_ok r -> row_reads scanPing pingCols (ping_row r) r) /\
  (forall t, in_years t -> reads stime (tv t) (t / Millisecond * Millisecond)) /\
  (forall t u, in_years t -> in_years u -> exists s s', tv t = DText s /\ tv u = DText s' /\
     String.compare s s' = (t / Millisecond ?= u / Millisecond)).
Proof.
  split; [exact (device_reads Hlaw)|]. split; [exact (circle_reads Hlaw)|]. split; [exact (member_reads Hlaw)|].
  split; [exact (invite_reads Hlaw)|]. split; [exact (envelope_reads Hlaw)|]. split; [exact (session_reads Hlaw)|].
  split; [exact (share_reads Hlaw)|]. split; [exact (sos_reads Hlaw)|]. split; [exact (place_reads Hlaw)|].
  split; [exact (ping_reads Hlaw)|].
  split; [apply reads_time|]. intros t u Ht Hu. exists (fmtTime t), (fmtTime u). repeat (split; [done|]). by apply fmtTime_compare.
Qed.

(** ** The stand-in parser obeys the law *)

Lemma hex_value_digit d : 0 <= d < 16 -> hex_value (Token.hex_digit d) = Some (Z.to_N d) /\ Token.hex_digit d <> "-"%char.
Proof.
  intros Hd. assert (d = 0 \/ d = 1 \/ d = 2 \/ d = 3 \/ d = 4 \/ d = 5 \/ d = 6 \/ d = 7 \/ d = 8 \/ d = 9 \/ d = 10 \/
    d = 11 \/ d = 12 \/ d = 13 \/ d = 14 \/ d = 15) as Hcases by lia.
  by repeat destruct Hcases as [->|Hcases]; [..|subst].
Qed.

(** The digits the parser reads of a text: all but the hyphens. *)
Definition undashed (s : string) : list ascii := List.filter (fun c => negb (N_of_ascii c =? 45)%N) (String.list_ascii_of_string s).

Lemma undashed_app a b : undashed (a ++ b) = (undashed a ++ undashed b)%list.
Proof. unfold undashed. by rewrite list_ascii_app, List.filter_app. Qed.

Lemma undashed_cons d s : 0 <= d < 16 -> undashed (String (Token.hex_digit d) s) = Token.hex_digit d :: undashed s.
Proof.
  intros Hd. unfold undashed. cbn [String.list_ascii_of_string List.filter]. destruct (hex_value_digit d Hd) as [_ Hne].
  destruct (N_of_ascii (Token.hex_digit d) =? 45)%N eqn:He; [|done]. apply N.eqb_eq in He. exfalso. apply Hne.
  by rewrite <- (ascii_N_embedding (Token.hex_digit d)), He.
Qed.

Lemma read_hex_digits n z s acc : 0 <= z ->
  read_hex acc (undashed (hex_digits n z s)) = read_hex (acc * 16 ^ N.of_nat n + Z.to_N (z mod 16 ^ Z.of_nat n))%N (undashed s).
Proof.
  revert z s acc. induction n as [|n IH]; intros z s acc Hz.
  - cbn [hex_digits]. f_equal. rewrite Z.mod_1_r. lia.
  - cbn [hex_digits]. rewrite IH by (apply Z.div_pos; lia).
    pose proof (Z.mod_pos_bound z 16 ltac:(lia)). rewrite undashed_cons by done. cbn [read_hex].
    rewrite (proj1 (hex_value_digit _ ltac:(done))). f_equal.
    rewrite Nat2N.inj_succ, N.pow_succ_r', Nat2Z.inj_succ, Z.pow_succ_r by lia.
    rewrite Z.rem_mul_r by (try apply Z.pow_pos_nonneg; lia).
    pose proof (Z.mod_pos_bound (z / 16) (16 ^ Z.of_nat n) ltac:(apply Z.pow_pos_nonneg; lia)). lia.
Qed.

Lemma length_undashed n z s : 0 <= z -> length (undashed (hex_digits n z s)) = (n + length (undashed s))%nat.
Proof.
  revert z s. induction n as [|n IH]; intros z s Hz; [done|]. cbn [hex_digits]. rewrite IH by (apply Z.div_pos; lia).
  rewrite undashed_cons by (apply Z.mod_pos_bound; lia). cbn. lia.
Qed.

Lemma hex_digits_app n z a b : (hex_digits n z a ++ b)%string = hex_digits n z (a ++ b).
Proof. revert z a. induction n as [|n IH]; intros z a; [done|]. cbn [hex_digits]. by rewrite IH, string_app_cons. Qed.

(** Reading the next group of digits of [z] continues what the groups before it gave. *)
Lemma read_hex_group n k z s : 0 <= z -> 0 <= k ->
  read_hex (Z.to_N (Z.shiftr z (k + 4 * Z.of_nat n))) (undashed (hex_digits n (Z.shiftr z k) s)) =
  read_hex (Z.to_N (Z.shiftr z k)) (undashed s).
Proof.
  intros Hz Hk. pose proof (proj2 (Z.shiftr_nonneg z k) Hz) as Hs. rewrite read_hex_digits by done. f_equal.
  rewrite <- Z.shiftr_shiftr by lia. set (y := Z.shiftr z k) in *. rewrite Z.shiftr_div_pow2, Z.pow_mul_r by lia.
  change (2 ^ 4) with 16. pose proof (Z.pow_pos_nonneg 16 (Z.of_nat n) ltac:(lia) ltac:(lia)) as Hp.
  assert (16 ^ N.of_nat n = Z.to_N (16 ^ Z.of_nat n))%N as -> by (rewrite Z2N.inj_pow by lia; by rewrite <- nat_N_Z, N2Z.id).
  rewrite <- Z2N.inj_mul, <- Z2N.inj_add by (try apply Z.mul_nonneg_nonneg; try apply Z.div_pos; try apply Z.mod_pos_bound; lia).
  f_equal. rewrite (Z.div_mod y (16 ^ Z.of_nat n)) at 3 by lia. lia.
Qed.

Lemma undashed_hyphen s : undashed (String "-" s) = undashed s.
Proof. done. Qed.

Lemma uuid_String_groups u : let z := Z.of_N u in
  uuid_String u = hex_digits 8 (Z.shiftr z 96) (String "-" (hex_digits 4 (Z.shiftr z 80) (String "-"
    (hex_digits 4 (Z.shiftr z 64) (String "-" (hex_digits 4 (Z.shiftr z 48) (String "-" (hex_digits 12 (Z.shiftr z 0) "")))))))).
Proof. unfold uuid_String. repeat (rewrite hex_digits_app, ?string_app_nil, ?string_app_cons, ?string_app_nil). done. Qed.

Lemma demo_uuid_law : uuid_law (H := demo_ext).
Proof.
  intros u Hu. cbn [uuid_Parse demo_ext]. unfold demo_uuid_Parse. fold (undashed (uuid_String u)).
  assert (0 <= Z.of_N u) as Hz by lia. rewrite uuid_String_groups. cbv zeta.
  rewrite bool_decide_eq_true_2 by (repeat (rewrite length_undashed, ?undashed_hyphen by (by apply Z.shiftr_nonneg)); done).
  assert (0%N = Z.to_N (Z.shiftr (Z.of_N u) (96 + 4 * Z.of_nat 8))) as ->.
  { change (96 + 4 * Z.of_nat 8) with 128. rewrite Z.shiftr_div_pow2, Z.div_small by lia. done. }
  rewrite (read_hex_group 8 96), undashed_hyphen by lia. rewrite (read_hex_group 4 80), undashed_hyphen by lia.
  rewrite (read_hex_group 4 64), undashed_hyphen by lia. rewrite (read_hex_group 4 48), undashed_hyphen by lia.
  rewrite (read_hex_group 12 0) by lia. cbn [undashed String.list_ascii_of_string List.filter read_hex].
  by rewrite Z.shiftr_0_r, N2Z.id.
Qed.

Definition demo_envelope : KeyEnvelope :=
  mkKeyEnvelope 1 2 3 (Some 4%N) [Byte.x41] 7 (1700000000123 * Millisecond) None.

Lemma rows_read_back_witness : uuid_law (H := demo_ext) /\
  row_reads scanEnvelope envelopeCols (envelope_row demo_envelope) demo_envelope.
Proof.
  split; [exact demo_uuid_law|]. destruct (rows_read_back (H := demo_ext) demo_uuid_law) as (_ & _ & _ & _ & Henv & _).
  apply Henv. split; [vm_compute; reflexivity|]. split; [vm_compute; reflexivity|]. split; [vm_compute; reflexivity|].
  split; [vm_compute; reflexivity|]. split; [vm_compute; intuition discriminate|].
  split; [split; [vm_compute; intuition discriminate|vm_compute; reflexivity]|exact I].
Defined.
