(* ===== verification/StaticSpec.v ===== *)
(** * What a request can reach in the static roots *)

From S2P Require Import Prelude GoTime Net Text Static.
Local Open Scope string_scope.
Local Open Scope Z_scope.

(** ** Clean paths *)

(** An element of a clean path. *)
Definition normal (e : string) : Prop := no_char "/" e = true /\ e <> "" /\ e <> "." /\ e <> "..".

Lemma normal_plain l : Forall normal l -> Forall (fun e => no_char "/" e = true) l.
Proof. intros Hl. eapply Forall_impl; [done|]. by intros e []. Qed.

Lemma clean_step_normal out e : no_char "/" e = true -> Forall normal out -> Forall normal (clean_step true out e).
Proof.
  intros He Hout. unfold clean_step. case_bool_decide as H1; [done|]. case_bool_decide as H2.
  - destruct Hout as [|top rest Htop Hrest]; [done|]. rewrite bool_decide_eq_false_2; [done|]. by apply Htop.
  - constructor; [|done]. repeat split; tauto.
Qed.

Lemma clean_step_push out e : normal e -> clean_step true out e = e :: out.
Proof. intros (_ & H1 & H2 & H3). unfold clean_step. rewrite !bool_decide_eq_false_2; tauto. Qed.

Lemma clean_steps_normal l out : Forall (fun e => no_char "/" e = true) l -> Forall normal out ->
  Forall normal (foldl (clean_step true) out l).
Proof. intros Hl. revert out. induction Hl as [|e l He Hl IH]; intros out Hout; [done|]. cbn. by apply IH, clean_step_normal. Qed.

Lemma clean_steps_push l out : Forall normal l -> foldl (clean_step true) out l = (rev l ++ out)%list.
Proof.
  intros Hl. revert out. induction Hl as [|e l He Hl IH]; intros out; [done|].
  cbn [foldl rev]. rewrite clean_step_push, IH by done. by rewrite <- List.app_assoc.
Qed.

Definition rooted_path (l : list string) : string := "/" ++ Join l "/".

(** A rooted path is cleaned to its normal elements. *)
Lemma Clean_rooted s : exists l, Clean ("/" ++ s) = rooted_path l /\ Forall normal l.
Proof.
  unfold Clean. rewrite HasPrefix_app.
  exists (rev (foldl (clean_step true) [] (split_on "/" ("/" ++ s)))). split; [done|].
  apply Forall_rev, clean_steps_normal; [apply split_on_no_char|done].
Qed.

Lemma split_on_rooted l : Forall normal l -> split_on "/" (rooted_path l) = "" :: (if bool_decide (l = []) then [""] else l).
Proof.
  intros Hl. unfold rooted_path. rewrite string_app_cons, string_app_nil. cbn [split_on].
  destruct (ascii_dec "/" "/"); [|done]. f_equal. destruct l as [|e' l]; [done|].
  rewrite bool_decide_eq_false_2 by done. by apply split_on_Join, normal_plain.
Qed.

(** A clean path stays as it is. *)
Lemma Clean_normal l : Forall normal l -> Clean (rooted_path l) = rooted_path l.
Proof.
  intros Hl. unfold Clean. rewrite split_on_rooted by done. unfold rooted_path at 1 2. rewrite !HasPrefix_app.
  unfold rooted_path. f_equal. f_equal. cbn [foldl]. replace (clean_step true [] "") with (@nil string) by done.
  case_bool_decide as Hnil; [by subst|]. rewrite clean_steps_push by done. by rewrite app_nil_r, rev_involutive.
Qed.

(** Slashes in front do not matter. *)
Lemma Clean_double s : Clean ("/" ++ "/" ++ s) = Clean ("/" ++ s).
Proof. unfold Clean. rewrite !HasPrefix_app, !string_app_cons, !string_app_nil. cbn [split_on]. by destruct (ascii_dec "/" "/"). Qed.

(** ** Confinement *)

(** A relative path that stays below its root. *)
Definition below (name : string) : Prop := exists l, name = Join l "/" /\ l <> [] /\ Forall normal l.

Lemma below_index : below "index.html".
Proof. exists ["index.html"]. repeat split; try done. by repeat constructor. Qed.

Lemma below_nonempty name : below name -> name <> "".
Proof.
  intros (l & -> & Hne & Hl) Hempty. pose proof (split_on_Join "/" l Hne (normal_plain l Hl)) as Hs.
  rewrite Hempty in Hs. cbn in Hs. subst l. inversion Hl as [|? ? (_ & H & _)]; done.
Qed.

(** Opening a name that stays below the directory opens that name. *)
Lemma Dir_Open_below dir name : below name -> no_char zero name = true -> Dir_Open dir name = dir name.
Proof.
  intros Hb Hz. pose proof (below_nonempty _ Hb) as Hname. destruct Hb as (l & -> & Hne & Hl). unfold Dir_Open. fold (rooted_path l). rewrite Clean_normal by done. unfold rooted_path.
  by rewrite TrimPrefix_app, Hz, bool_decide_eq_false_2.
Qed.

Definition confined (o : opened) : Prop :=
  match o with
  | Web name => below name
  | APK name => normal name /\ ContainsAny name "/\" = false /\ Contains name ".." = false
  end.

(** The path the handler resolves. *)
Lemma request_path url_path : exists l, Clean ("/" ++ TrimPrefix url_path "/") = rooted_path l /\ Forall normal l.
Proof. apply Clean_rooted. Qed.

Lemma web_name l : Forall normal l ->
  below (if bool_decide (TrimPrefix (rooted_path l) "/" = "") then "index.html" else TrimPrefix (rooted_path l) "/").
Proof.
  intros Hl. case_bool_decide as He; [apply below_index|]. unfold rooted_path in *. rewrite TrimPrefix_app in *.
  exists l. repeat split; [|done]. by intros ->.
Qed.

Lemma ContainsAny_no_char c chars s : In c (String.list_ascii_of_string chars) -> ContainsAny s chars = false -> no_char c s = true.
Proof.
  intros Hc. unfold ContainsAny. induction s as [|d s IH]; [done|]. cbn [String.list_ascii_of_string existsb no_char].
  intros [Hd Hs]%orb_false_iff. destruct (ascii_dec d c) as [->|]; [|by apply IH]. exfalso.
  assert (existsb (Ascii.eqb c) (String.list_ascii_of_string chars) = true) as Hx; [|by rewrite Hx in Hd].
  apply existsb_exists. exists c. split; [done|apply Ascii.eqb_refl].
Qed.

(** What is left after the directory's name is a file name. *)
Lemma apk_name l name : Forall normal l -> rooted_path l = "/download/" ++ name -> no_char "/" name = true -> normal name.
Proof.
  intros Hl Heq Hname. pose proof (split_on_rooted l Hl) as Hs. rewrite Heq in Hs.
  change ("/download/" ++ name) with ("" ++ String "/" ("download" ++ String "/" name)) in Hs.
  rewrite !split_on_app in Hs by done.
  rewrite split_on_last in Hs by done. case_bool_decide; [by subst|]. injection Hs as <-.
  by repeat match goal with H : Forall _ (_ :: _) |- _ => inversion H; subst; clear H end.
Qed.

Section static.
Context (TypeByExtension : string -> string).

Lemma serveFSFile_opened fsys name fallback l a : below (if bool_decide (name = "") then "index.html" else name) ->
  serveFSFile TypeByExtension fsys name fallback = (l, a) -> Forall confined l.
Proof. intros Hb. unfold serveFSFile. intros [= <- _]. by repeat constructor. Qed.

Lemma serveAPK_opened dir l upath opened a : Forall normal l -> upath = rooted_path l -> HasPrefix upath "/download/" = true ->
  serveAPK dir (TrimPrefix upath "/download/") = (opened, a) -> Forall confined opened.
Proof.
  intros Hl -> Hp. apply HasPrefix_TrimPrefix in Hp. unfold serveAPK. set (name := TrimPrefix _ _) in *.
  destruct (_ || _) eqn:Hbare; intros [= <- _]; [done|].
  apply orb_false_iff in Hbare as [[_ Hany]%orb_false_iff Hdots]. constructor; [|done]. split; [|done].
  eapply apk_name; [done..|]. eapply ContainsAny_no_char; [|done]. by left.
Qed.

(** C29: no request reaches outside the two roots: whatever its path (dots, doubled
    slashes, backslashes, none), each name opened in the web root is a relative
    path of plain elements, and each opened in the APK directory is one plain
    file name; and opening such a name of the web root, if it holds no NUL, through
    http.Dir opens just that name ([Dir_Open] refuses one with a NUL). *)
Theorem static_confined h method url_path :
  let l := fst (ServeHTTP TypeByExtension h method url_path) in
  Forall confined l /\ (forall name dir, Web name ∈ l -> no_char zero name = true -> dirFS dir name = dir name).
Proof.
  destruct (ServeHTTP TypeByExtension h method url_path) as [l a] eqn:Hserve. cbn [fst].
  assert (Forall confined l) as Hl.
  { unfold ServeHTTP in Hserve. destruct (negb _); [by injection Hserve as <- _|]. cbv zeta in Hserve.
    destruct (request_path url_path) as (els & Hels & Hn). rewrite Hels in Hserve.
    destruct (if HasPrefix _ _ then _ else _) as [dir|] eqn:Hapk.
    { destruct (HasPrefix (rooted_path els) "/download/") eqn:Hp; [|done]. exact (serveAPK_opened dir els _ _ a Hn eq_refl Hp Hserve). }
    destruct (web h) as [fsys|]; [|by injection Hserve as <- _].
    destruct (serveFSFile _ fsys _ false) as [l1 a1] eqn:H1. apply serveFSFile_opened in H1; [|by apply web_name].
    destruct a1 as [a1|]; [by injection Hserve as <- _|].
    destruct (_ && _); [by injection Hserve as <- _|].
    destruct (serveFSFile _ fsys "index.html" true) as [l2 a2] eqn:H2. apply serveFSFile_opened in H2; [|apply below_index].
    injection Hserve as <- _. by apply Forall_app. }
  split; [done|]. intros name dir Hin Hz. pose proof (proj1 (Forall_forall _ _) Hl _ Hin) as Hb. cbn in Hb.
  assert (name <> "") as Hne by (by apply below_nonempty). unfold dirFS. rewrite bool_decide_eq_false_2 by done.
  unfold Dir_Open at 1. rewrite Clean_double. by apply Dir_Open_below.
Qed.

(** ** What is answered *)

(** The file a name denotes. *)
Definition found (fsys : FS) (name : string) : option file :=
  match fsys name with Some f => if f_IsDir f then None else Some f | None => None end.

Lemma serveFSFile_eq fsys name fallback : name <> "" ->
  snd (serveFSFile TypeByExtension fsys name fallback) =
  match found fsys name with
  | Some f => Some (Served [("Content-Type", let t := TypeByExtension (Ext_of name) in
                              if bool_decide (t = "") then "application/octet-stream" else t);
                            ("Cache-Control", cache_control fallback name)]
                (if f_Seekable f then ServeContent name (f_ModTime f) (f_Content f) else Copied (f_Content f)))
  | None => None
  end.
Proof.
  intros Hn. unfold serveFSFile, found. rewrite bool_decide_eq_false_2 by done. cbn [snd].
  destruct (fsys name) as [f|]; [|done]. by destruct (f_IsDir f).
Qed.

Definition immutable (a : static_answer) : Prop :=
  match a with Served hs _ => ("Cache-Control", "public, max-age=31536000, immutable") ∈ hs | ErrorPage _ => False end.

Definition content_is (a : static_answer) (o : option file) : Prop :=
  match a, o with
  | Served _ b, Some f => body_content b = f_Content f
  | ErrorPage st, None => st = 404
  | _, _ => False
  end.

Lemma cache_control_fallback name : cache_control true name = "no-cache".
Proof. done. Qed.

Lemma no_cache_not_immutable t b : ~ immutable (Served [("Content-Type", t); ("Cache-Control", "no-cache")] b).
Proof. cbn. intros [[=]|[[=]|Hin%elem_of_nil]%elem_of_cons]%elem_of_cons. done. Qed.

Lemma name_not_empty els : els <> [] -> Forall normal els -> Join els "/" <> "".
Proof. intros Hne Hl. apply below_nonempty. by exists els. Qed.

Lemma rooted_not_root els : els <> [] -> Forall normal els -> rooted_path els <> "/".
Proof.
  intros Hne Hels Heq. pose proof (name_not_empty els Hne Hels) as Hname. apply Hname.
  rewrite <- (TrimPrefix_app "/" (Join els "/")). fold (rooted_path els). by rewrite Heq.
Qed.

Lemma served_file name f t :
  let a := Served [("Content-Type", t); ("Cache-Control", cache_control false name)]
             (if f_Seekable f then ServeContent name (f_ModTime f) (f_Content f) else Copied (f_Content f)) in
  content_is a (Some f) /\ (immutable a -> is_Some (Some f) /\ HasSuffix name ".html" = false).
Proof.
  intros a. split; [cbn; by destruct (f_Seekable f)|]. intros Him. split; [done|].
  destruct (HasSuffix name ".html") eqn:Hs; [|done]. exfalso. revert Him. subst a. unfold cache_control. rewrite Hs, orb_true_r.
  apply no_cache_not_immutable.
Qed.

(** what the web root answers: the file of the path if there is one; otherwise
    a path with an extension is a missing asset, 404, and any other is a route of
    the client and gets index.html.  Only the file of the path itself, and never
    a page, may be cached for good, so that a new release is seen.  Other methods
    than GET and HEAD get 405 and touch no file. *)
Theorem static_answers h fsys method els (Hweb : web h = Some fsys) (Hels : Forall normal els) (Hne : els <> [])
    (Hapk : HasPrefix (rooted_path els) "/download/" = true -> apkDir h = None) :
  let name := Join els "/" in
  let '(l, a) := ServeHTTP TypeByExtension h method (rooted_path els) in
  if decide (method = "GET" \/ method = "HEAD") then
    content_is a (match found fsys name with
                  | Some f => Some f
                  | None => if decide (Ext_of (rooted_path els) = "") then found fsys "index.html" else None
                  end) /\
    (immutable a -> is_Some (found fsys name) /\ HasSuffix name ".html" = false)
  else l = [] /\ a = ErrorPage 405.
Proof.
  cbv zeta. unfold ServeHTTP.
  destruct (decide (method = "GET" \/ method = "HEAD")) as [Hm|Hm]; [|by rewrite bool_decide_eq_false_2].
  rewrite bool_decide_eq_true_2 by done. cbn [negb]. cbv zeta.
  assert (Clean ("/" ++ TrimPrefix (rooted_path els) "/") = rooted_path els) as ->.
  { unfold rooted_path at 1. rewrite TrimPrefix_app. by apply Clean_normal. }
  assert ((if HasPrefix (rooted_path els) "/download/" then apkDir h else None) = None) as ->.
  { destruct (HasPrefix _ _); [by apply Hapk|done]. }
  pose proof (name_not_empty els Hne Hels) as Hname. unfold rooted_path at 1. rewrite Hweb, TrimPrefix_app.
  pose proof (serveFSFile_eq fsys (Join els "/") false Hname) as Hfirst.
  destruct (serveFSFile _ fsys (Join els "/") false) as [l1 a1]. cbn [snd] in Hfirst. subst a1.
  destruct (found fsys (Join els "/")) as [f|]; [by apply served_file|].
  rewrite (bool_decide_eq_false_2 (rooted_path els = "/")) by (by apply rooted_not_root). rewrite andb_true_r.
  destruct (decide (Ext_of (rooted_path els) = "")) as [Hext|Hext];
    [rewrite bool_decide_eq_true_2 by done|rewrite bool_decide_eq_false_2 by done; by split]; cbn [negb].
  pose proof (serveFSFile_eq fsys "index.html" true ltac:(done)) as Hindex.
  destruct (serveFSFile _ fsys "index.html" true) as [l2 a2]. cbn [snd] in Hindex. subst a2.
  destruct (found fsys "index.html") as [f|]; [|by split]. rewrite cache_control_fallback.
  split; [cbn; by destruct (f_Seekable f)|]. by intros ?%no_cache_not_immutable.
Qed.
End static.

Definition demo_web : FS := fun name =>
  if decide (name = "index.html") then Some (mkFile false 0 "page" true)
  else if decide (name = "assets/app.js") then Some (mkFile false 0 "code" true) else None.

Definition demo_mime (ext : string) : string := if decide (ext = ".js") then "text/javascript" else "".

Lemma static_confined_witness :
  ServeHTTP demo_mime (mkStaticHandler (Some demo_web) (Some demo_web)) "GET" "/download/../../etc/passwd" =
    ([Web "etc/passwd"; Web "index.html"], Served [("Content-Type", "application/octet-stream"); ("Cache-Control", "no-cache")]
      (ServeContent "index.html" 0 "page")) /\
  Forall confined [Web "etc/passwd"; Web "index.html"].
Proof.
  split; [vm_compute; reflexivity|].
  apply (static_confined demo_mime (mkStaticHandler (Some demo_web) (Some demo_web)) "GET" "/download/../../etc/passwd").
Defined.

Lemma static_answers_witness :
  snd (ServeHTTP demo_mime (mkStaticHandler (Some demo_web) None) "GET" "/assets/gone.js") = ErrorPage 404 /\
  content_is (snd (ServeHTTP demo_mime (mkStaticHandler (Some demo_web) None) "GET" "/circles")) (found demo_web "index.html").
Proof.
  split; [vm_compute; reflexivity|].
  apply (static_answers demo_mime (mkStaticHandler (Some demo_web) None) demo_web "GET" ["circles"]);
    [reflexivity|by repeat constructor|done|done].
Defined.
