(* ===== verification/PushSpec.v ===== *)
(** * The fan-out, whatever its schedule *)

From S2P Require Import Prelude Table GoTime Models Api Ext Net Text Config Httpx Fcm World Demo StoreAccounts AuthApi Push.
Local Open Scope string_scope.
Local Open Scope Z_scope.
Local Open Scope aul_scope.

(** ** One subscription *)

Section one_subscription.
Context `{Ext}.
Context (json_apiError : bytes -> option apiError).
Context (SendNotification : string -> string -> string * string -> pushOptions -> outcome (result string Z)).

(** What became of a subscription, as the handlers see it. *)
Definition outcome_of (s : pushServer) (payload : string) (sub : PushSubscription) : send_outcome :=
  if decide (PushSubscription_Kind sub = kindFCM) then
    match ps_fcm s with
    | None => SendFailed
    | Some c =>
        match Send json_apiError c (PushSubscription_Endpoint sub) [(fcmDataKey, payload)] pushTTLSeconds with
        | Ok _ => Delivered
        | Err ErrUnregistered => SubscriptionGone
        | Err (SendError _) => SendFailed
        end
    end
  else
    match PushSubscription_P256dh sub, PushSubscription_Auth sub with
    | Some p256dh, Some auth =>
        match SendNotification payload (PushSubscription_Endpoint sub) (p256dh, auth) (push_options s) with
        | Panicked | Returned (Err _) => SendFailed
        | Returned (Ok status) =>
            if (status =? 404) || (status =? 410) then SubscriptionGone
            else if (200 <=? status) && (status <? 300) then Delivered else SendFailed
        end
    | _, _ => SendFailed
    end.

Definition delivered (o : send_outcome) : bool := match o with Delivered => true | _ => false end.
Definition gone (o : send_outcome) : bool := match o with SubscriptionGone => true | _ => false end.

Lemma sendPushSafe_outcome s sub payload w :
  run (sendPushSafe json_apiError SendNotification s sub payload) w =
  (delivered (outcome_of s payload sub),
   if gone (outcome_of s payload sub) then snd (DeletePushSubscriptionByID (PushSubscription_ID sub) w) else w).
Proof.
  unfold sendPushSafe, sendPush, outcome_of. case_decide.
  - unfold sendFCM. destruct (ps_fcm s) as [c|]; [|done].
    destruct (Send _ c _ _ _) as [[]|[|e]]; [done| |done]. cbn. by destruct (DeletePushSubscriptionByID _ w).
  - unfold sendWebPush. destruct (PushSubscription_P256dh sub) as [p|], (PushSubscription_Auth sub) as [a|]; try done.
    destruct (SendNotification _ _ _ _) as [[st|e]|]; [|done|done]. destruct (_ || _).
    { cbn. by destruct (DeletePushSubscriptionByID _ w). }
    by destruct (_ && _).
Qed.
End one_subscription.

(** ** Pruning *)

(** The world without the subscriptions of [ids]. *)
Definition prune_all (ids : list uuid) (w : World) : World :=
  set_db (set_push_subscriptions (delete_where (fun p => PushSubscription_ID p ∈ ids) (push_subscriptions (w_db w))) (w_db w)) w.

Lemma prune_all_ext ids ids' w : (forall i, i ∈ ids <-> i ∈ ids') -> prune_all ids w = prune_all ids' w.
Proof.
  intros Hi. unfold prune_all. f_equal. f_equal. unfold delete_where. apply list_filter_iff. intros p. by rewrite Hi.
Qed.

Lemma prune_all_nil w : prune_all [] w = w.
Proof.
  unfold prune_all, delete_where. replace (filter _ _) with (push_subscriptions (w_db w)); [by destruct w as [[] ? ? ? ? ? ?]|].
  induction (push_subscriptions (w_db w)) as [|p l IH]; [done|]. rewrite filter_cons_True by (intros []%not_elem_of_nil). by f_equal.
Qed.

Lemma prune_one id ids w : w_faults w = [] ->
  snd (DeletePushSubscriptionByID id (prune_all ids w)) = prune_all (ids ++ [id]) w.
Proof.
  intros Hf. unfold DeletePushSubscriptionByID, sql, next_fault, prune_all. cbn. rewrite Hf. cbn.
  unfold set_db, set_push_subscriptions. cbn. f_equal. f_equal. unfold delete_where. rewrite list_filter_filter.
  apply list_filter_iff. intros p. set_solver.
Qed.

Lemma prune_all_faults ids w : w_faults (prune_all ids w) = w_faults w.
Proof. done. Qed.

(** ** The sequential account *)

Definition delivered_of (send : PushSubscription -> send_outcome) (subs : list PushSubscription) : Z :=
  len (List.filter (fun s => delivered (send s)) subs).
Definition gone_of (send : PushSubscription -> send_outcome) (subs : list PushSubscription) : list uuid :=
  PushSubscription_ID <$> List.filter (fun s => gone (send s)) subs.

Lemma fanOutPush_run {A} send subs a f (k : Z -> Z -> prog A) ids w : w_faults w = [] ->
  run (fanOutPush send subs a f k) (prune_all ids w) =
  run (k (a + delivered_of send subs) (f + len subs - delivered_of send subs)) (prune_all (ids ++ gone_of send subs) w).
Proof.
  intros Hf. revert a f ids. induction subs as [|s subs IH]; intros a f ids.
  - unfold delivered_of, gone_of, len. cbn. rewrite app_nil_r. f_equal. f_equal; lia.
  - unfold delivered_of, gone_of, len in *. cbn [fanOutPush List.filter length].
    destruct (send s) eqn:Hs; cbn [delivered gone length fmap list_fmap].
    + rewrite IH. f_equal. f_equal; lia.
    + unfold do_. cbn [run]. pose proof (prune_one (PushSubscription_ID s) ids w Hf) as Hp.
      destruct (DeletePushSubscriptionByID _ _) as [r w']. cbn in Hp. subst w'. rewrite IH, <- app_assoc. f_equal. f_equal; lia.
    + rewrite IH. f_equal. f_equal; lia.
    + rewrite IH. f_equal. f_equal; lia.
Qed.

(** ** The pool *)

Definition busy_of (x : wstate) : list PushSubscription := match x with Sending s => [s] | _ => [] end.
Definition busy (ws : list wstate) : list PushSubscription := ws ≫= busy_of.

Lemma busy_insert ws i x y : ws !! i = Some x -> busy (<[i := y]> ws) ++ busy_of x ≡ₚ busy ws ++ busy_of y.
Proof.
  intros Hi. rewrite <- (take_drop_middle _ _ _ Hi) at 2. pose proof (lookup_lt_Some _ _ _ Hi) as Hlt.
  rewrite insert_take_drop by done. unfold busy. rewrite !bind_app. cbn. solve_Permutation.
Qed.

Section pools.
Context `{Ext}.
Context (json_apiError : bytes -> option apiError).
Context (SendNotification : string -> string -> string * string -> pushOptions -> outcome (result string Z)).
Context (srv : pushServer) (payload : string).

Abbreviation step := (pool_step json_apiError SendNotification srv payload).
Abbreviation fate := (outcome_of json_apiError SendNotification srv payload).

(** The subscriptions served so far. *)
Definition served (p : pool) : list PushSubscription := (pl_done p).*1.

Record pool_inv (subs : list PushSubscription) (w0 : World) (p : pool) : Prop := {
  pi_perm : served p ++ busy (pl_workers p) ++ pl_queue p ≡ₚ subs;
  pi_done : Forall (fun d => d.2 = delivered (fate d.1)) (pl_done p);
  pi_ok : pl_ok p = delivered_of fate (served p);
  pi_world : pl_world p = prune_all (gone_of fate (served p)) w0;
  pi_closed : pl_closed p = true -> pl_queue p = [] \/ pl_expired p = true;
  pi_workers : length (pl_workers p) = Nat.min pushWorkers (length subs);
  pi_exited : pl_closed p = false -> Forall (fun x => x <> Exited) (pl_workers p)
}.

Lemma pool_inv_start subs w0 : pool_inv subs w0 (start subs w0).
Proof.
  assert (forall n, busy (repeat Idle n) = []) as Hidle by (induction n; cbn; auto).
  constructor; cbn; try done.
  - by rewrite Hidle.
  - symmetry. apply prune_all_nil.
  - by rewrite repeat_length.
  - intros _. apply Forall_forall. by intros x ->%list_elem_of_In%repeat_spec.
Qed.

Ltac pool_fields := cbn [pl_queue pl_closed pl_workers pl_ok pl_expired pl_world pl_done] in *.

Lemma pool_inv_step subs w0 p p' : w_faults w0 = [] -> pool_inv subs w0 p -> step p p' -> pool_inv subs w0 p'.
Proof.
  intros Hf [Hperm Hdone Hok Hw Hcl Hn Hex]. destruct 1; cbn in *.
  - pose proof (busy_insert _ _ _ (Sending sub) H0) as Hb. cbn in Hb. rewrite app_nil_r in Hb.
    constructor; cbn; try done.
    + rewrite Hb, <- Hperm. solve_Permutation.
    + by rewrite length_insert.
    + intros Hc. apply Forall_insert; [by apply Hex|done].
  - constructor; cbn; auto.
  - constructor; cbn; auto.
  - rewrite sendPushSafe_outcome in H1. injection H1 as <- <-.
    pose proof (busy_insert _ _ _ Idle H0) as Hb. cbn in Hb. rewrite app_nil_r in Hb. unfold served in *. cbn in *.
    assert (gone_of fate (dn.*1 ++ [sub]) = gone_of fate dn.*1 ++ if gone (fate sub) then [PushSubscription_ID sub] else [])%list as Hg.
    { unfold gone_of. rewrite List.filter_app, fmap_app. f_equal. cbn. by destruct (gone (fate sub)). }
    constructor; unfold served; pool_fields; rewrite ?fmap_app; cbn [fmap list_fmap fst].
    + rewrite <- Hperm, <- Hb. solve_Permutation.
    + apply Forall_app. by repeat constructor.
    + rewrite Hok. unfold delivered_of, len. rewrite List.filter_app, length_app. cbn. destruct (delivered (fate sub)); cbn; lia.
    + rewrite Hg, Hw. destruct (gone (fate sub)); [by apply prune_one|by rewrite app_nil_r].
    + done.
    + by rewrite length_insert.
    + intros Hc. apply Forall_insert; [by apply Hex|done].
  - pose proof (busy_insert _ _ _ Exited H0) as Hb. cbn in Hb. rewrite !app_nil_r in Hb.
    constructor; cbn; try done.
    + by rewrite Hb.
    + by rewrite length_insert.
  - constructor; cbn; auto.
Qed.

Lemma pool_inv_reach subs w0 p : w_faults w0 = [] -> rtc step (start subs w0) p -> pool_inv subs w0 p.
Proof.
  intros Hf Hr. remember (start subs w0) as p0 eqn:Hp0. assert (pool_inv subs w0 p0) as Hi by (subst; apply pool_inv_start).
  clear Hp0. induction Hr as [|p1 p2 p3 Hstep _ IH]; [done|]. by eapply IH, pool_inv_step.
Qed.

(** ** Termination *)

Definition weight (x : wstate) : nat := match x with Idle => 1 | Sending _ => 2 | Exited => 0 end.

(** Steps left, at most. *)
Definition left_to_do (p : pool) : nat :=
  2 * length (pl_queue p) + sum_list_with weight (pl_workers p) +
  (if pl_closed p then 0 else 1) + (if pl_expired p then 0 else 1).

Lemma weight_insert ws i x y : ws !! i = Some x ->
  (sum_list_with weight (<[i := y]> ws) + weight x = sum_list_with weight ws + weight y)%nat.
Proof.
  intros Hi. rewrite <- (take_drop_middle _ _ _ Hi) at 2. pose proof (lookup_lt_Some _ _ _ Hi) as Hlt.
  rewrite insert_take_drop by done. rewrite !sum_list_with_app. cbn. lia.
Qed.

Lemma step_decreases p p' : step p p' -> (left_to_do p' < left_to_do p)%nat.
Proof.
  destruct 1; unfold left_to_do; cbn [pl_queue pl_workers pl_closed pl_expired length];
    try match goal with Hi : _ !! _ = Some _ |- context [<[_ := ?y]> _] => pose proof (weight_insert _ _ _ y Hi) as Hws; cbn in Hws end; lia.
Qed.

(** Until it is finished, something can happen. *)
Lemma pool_progress subs w0 p : pool_inv subs w0 p -> finished p \/ exists p', step p p'.
Proof.
  intros [Hperm _ _ _ Hcl Hn Hex]. destruct p as [q cl ws ok ex w dn]. pool_fields.
  assert (forall i x, ws !! i = Some x -> x <> Exited -> (cl = false -> q <> []) -> exists p', step (mkPool q cl ws ok ex w dn) p') as Hgo.
  { intros i [|sub|] Hi Hx Hq; [| |done].
    - destruct cl; [eexists; by eapply ps_exit|]. destruct q as [|sub q]; [by destruct Hq|]. eexists. by eapply ps_feed.
    - destruct (run (sendPushSafe json_apiError SendNotification srv sub payload) w) as [b w'] eqn:Hrun.
      eexists. by eapply ps_send. }
  destruct cl.
  - destruct (decide (Forall (eq Exited) ws)) as [Hall|Hall]; [by left|right].
    apply not_Forall_Exists in Hall; [|intros x; apply wstate_eq_dec]. apply Exists_exists in Hall as (x & Hin & Hx).
    apply list_elem_of_lookup in Hin as [i Hi]. eapply Hgo; [done|by intros ->|done].
  - right. destruct q as [|sub q]; [eexists; apply ps_fed|]. destruct ws as [|x ws].
    + exfalso. apply Permutation_length in Hperm. rewrite !length_app in Hperm. cbn [length] in *. unfold pushWorkers in Hn. lia.
    + eapply (Hgo 0%nat x); [done| |done]. by apply (Forall_cons_1 _ _ _ (Hex eq_refl)).
Qed.
End pools.

(** ** The counts do not depend on the order *)

Lemma delivered_of_app f l k : delivered_of f (l ++ k) = delivered_of f l + delivered_of f k.
Proof. unfold delivered_of, len. rewrite List.filter_app, length_app. lia. Qed.

Lemma delivered_of_perm f l l' : l ≡ₚ l' -> delivered_of f l = delivered_of f l'.
Proof. induction 1; unfold delivered_of, len in *; cbn in *; repeat case_match; cbn; lia. Qed.

Lemma gone_of_elem f l i : i ∈ gone_of f l <-> exists s, s ∈ l /\ gone (f s) = true /\ i = PushSubscription_ID s.
Proof.
  unfold gone_of. rewrite list_elem_of_fmap. split.
  - intros (s & -> & Hs%list_elem_of_In%List.filter_In). exists s. rewrite list_elem_of_In. tauto.
  - intros (s & Hs & Hg & ->). exists s. split; [done|]. apply list_elem_of_In, List.filter_In. by rewrite <- list_elem_of_In.
Qed.

(** Counting [served] by their fate and the others as never queued. *)
Lemma tally_split fate send l k :
  Forall (fun s => send s = fate s) l -> Forall (fun s => send s = NotQueued) k ->
  delivered_of send (l ++ k) = delivered_of fate l /\ (forall i, i ∈ gone_of send (l ++ k) <-> i ∈ gone_of fate l).
Proof.
  intros Hl Hk. rewrite delivered_of_app. split.
  - assert (delivered_of send k = 0) as ->.
    { induction Hk as [|s k Hs Hk IH]; [done|]. unfold delivered_of in *. cbn. by rewrite Hs. }
    induction Hl as [|s l Hs Hl IH]; [done|]. unfold delivered_of, len in *. cbn. rewrite Hs. destruct (delivered _); cbn; lia.
  - intros i. rewrite !gone_of_elem. rewrite Forall_forall in Hl, Hk. split.
    + intros (s & [Hs|Hs]%elem_of_app & Hg & Hi); [exists s; by rewrite <- Hl|]. by rewrite Hk in Hg.
    + intros (s & Hs & Hg & Hi). exists s. rewrite Hl by done. split; [|done]. apply elem_of_app. by left.
Qed.

Lemma busy_length ws : (length (busy ws) <= length ws)%nat.
Proof. induction ws as [|x ws IH]; [done|]. unfold busy in *. cbn. rewrite length_app. destruct x; cbn; lia. Qed.

Lemma busy_exited ws : Forall (eq Exited) ws -> busy ws = [].
Proof. by induction 1 as [|? ? <-]. Qed.

Lemma start_left subs w : (left_to_do (start subs w) <= 2 * length subs + 10)%nat.
Proof.
  unfold left_to_do, start. cbn [pl_queue pl_workers pl_closed pl_expired].
  assert (forall n, sum_list_with weight (repeat Idle n) = n) as -> by (induction n; cbn; auto). unfold pushWorkers. lia.
Qed.

(** C28: the fan-out ends and is exact, whatever the schedule of its workers, at
    whatever moment the deadline passes and whichever sends panic: it never takes
    more steps than twice the subscriptions and ten, can always go on until it has
    returned, and has at most eight sends in flight; when it returns, it has
    served each subscription at most once, each one if the deadline did not pass,
    and its counts and the pruned tables are those of sending to them one after
    another, those left over counted as failed. *)
Theorem fan_out_exact `{Ext} json_apiError SendNotification srv payload subs w0 (Hf : w_faults w0 = []) p n
    (Hrun : nsteps (pool_step json_apiError SendNotification srv payload) n (start subs w0) p) :
  let fate := outcome_of json_apiError SendNotification srv payload in
  (n <= 2 * length subs + 10)%nat /\
  (length (busy (pl_workers p)) <= 8)%nat /\
  (finished p \/ exists p', pool_step json_apiError SendNotification srv payload p p') /\
  (finished p -> exists unqueued, served p ++ unqueued ≡ₚ subs /\ (pl_expired p = false -> unqueued = []) /\
     forall send, Forall (fun s => send s = fate s) (served p) -> Forall (fun s => send s = NotQueued) unqueued ->
       run (fanOutPush send subs 0 0 (fun sent failed => Ret (sent, failed))) w0 = (pool_result subs p, pl_world p)).
Proof.
  cbv zeta. set (fate := outcome_of json_apiError SendNotification srv payload).
  assert (n + left_to_do p <= left_to_do (start subs w0))%nat as Hn.
  { clear -Hrun. induction Hrun as [|n p1 p2 p3 Hs _ IH]; [lia|]. apply step_decreases in Hs. lia. }
  pose proof (start_left subs w0).
  assert (pool_inv json_apiError SendNotification srv payload subs w0 p) as Hinv.
  { eapply pool_inv_reach; [done|]. by eapply rtc_nsteps_2. }
  split; [lia|]. split. { rewrite busy_length, (pi_workers _ _ _ _ _ _ _ Hinv). unfold pushWorkers. lia. }
  split; [by eapply pool_progress|]. intros [Hclosed Hexited].
  destruct Hinv as [Hperm _ Hok Hw Hcl _ _]. rewrite (busy_exited _ Hexited) in Hperm. cbn in Hperm.
  exists (pl_queue p). split; [done|]. split; [intros Hex; destruct (Hcl Hclosed) as [|Hx]; [done|by rewrite Hx in Hex]|].
  intros send Hs Hu. destruct (tally_split fate send _ _ Hs Hu) as [Hd Hg].
  pose proof (fanOutPush_run send subs 0 0 (fun sent failed => Ret (sent, failed)) [] w0 Hf) as Hseq.
  rewrite prune_all_nil in Hseq. rewrite Hseq. cbn [run app]. rewrite (delivered_of_perm send _ _ (symmetry Hperm)), Hd.
  unfold pool_result. rewrite Hok, Hw. fold fate. rewrite !Z.add_0_l. f_equal. apply prune_all_ext. intros i. rewrite <- Hg, !gone_of_elem.
  by setoid_rewrite Hperm.
Qed.

(** A browser's subscription, and a phone's on a server without FCM. *)
Definition demo_browser : PushSubscription :=
  mkPushSubscription 1 1 None "https://push.example" (Some "k") (Some "a") 0 kindWebPush.
Definition demo_phone : PushSubscription := mkPushSubscription 2 2 None "token" None None 0 kindFCM.

Definition demo_SendNotification (_ _ : string) (_ : string * string) (_ : pushOptions) : outcome (result string Z) :=
  Returned (Ok 201).
Definition demo_push_server : pushServer := mkPushServer demo_cfg None.

Definition demo_half : pool :=
  mkPool [demo_phone] false [Idle; Idle] 1 false demo_world [(demo_browser, true)].

Lemma demo_half_run : nsteps (pool_step (fun _ => None) demo_SendNotification demo_push_server "sealed") 2
  (start [demo_browser; demo_phone] demo_world) demo_half.
Proof.
  eapply nsteps_l; [by apply (ps_feed _ _ _ _ _ _ _ _ _ _ _ 0)|].
  eapply nsteps_l; [|apply nsteps_O].
  by apply (ps_send _ _ _ _ _ _ [Sending demo_browser; Idle] 0 false demo_world [] 0 demo_browser true demo_world).
Qed.

Lemma fan_out_exact_witness : w_faults demo_world = [] /\ ((2 <= 2 * length [demo_browser; demo_phone] + 10)%nat /\
  (finished demo_half \/ exists p', pool_step (fun _ => None) demo_SendNotification demo_push_server "sealed" demo_half p')).
Proof.
  split; [reflexivity|].
  destruct (fan_out_exact (fun _ => None) demo_SendNotification demo_push_server "sealed" [demo_browser; demo_phone]
    demo_world eq_refl demo_half 2 demo_half_run) as (Hn & _ & Hgo & _).
  exact (conj Hn Hgo).
Defined.

(** ** What a service learns, and what it can delete *)

(** The fields of a JSON object. *)
Definition fields_of (j : json) : list (string * json) := match j with JObject l => l | _ => [] end.

(** FCM says that a registration token is dead. *)
Definition fcm_dead (json_apiError : bytes -> option apiError) (status : Z) (body : bytes) : Prop :=
  ~ 200 <= status < 300 /\
  (status = 404 \/ exists e, json_apiError (firstn (Z.to_nat maxErrorBodyBytes) body) = Some e /\
     (ae_Status e = "NOT_FOUND" \/ "UNREGISTERED" ∈ ae_ErrorCodes e)).

Lemma Send_unregistered `{Ext} json_apiError c token data ttl :
  Send json_apiError c token data ttl = Err ErrUnregistered ->
  exists auth status body, ts c = Ok auth /\ hc c (send_request c auth token data ttl) = Ok (status, body) /\
    fcm_dead json_apiError status body.
Proof.
  unfold Send. destruct (url_Parse _); [|done]. destruct (ts c) as [auth|]; [|done].
  destruct (hc c _) as [[status body]|] eqn:Hans; [|done]. destruct (_ && _) eqn:Hok; [done|].
  destruct (isUnregistered _ _ _) eqn:Hu; [|done]. intros _. exists auth, status, body. repeat split; try done.
  { apply andb_false_iff in Hok. lia. }
  unfold isUnregistered in Hu. destruct (status =? 404) eqn:Hs; [left; lia|right]. destruct (json_apiError _) as [e|]; [|done].
  exists e. split; [done|]. by apply orb_true_iff in Hu as [?%bool_decide_eq_true|?%bool_decide_eq_true]; [left|right].
Qed.

(** a subscription is deleted only on its service's word: the fan-out prunes it
    only if FCM answered this very request, which carries the sealed blob as data
    and nothing for the system to display, that the token is dead, or a push
    service answered 404 or 410; another refusal, INVALID_ARGUMENT among them, a
    panic or a deadline prunes nothing. *)
Theorem pruned_only_dead `{Ext} json_apiError SendNotification s payload sub w :
  let fate := outcome_of json_apiError SendNotification s payload sub in
  let '(ok, w') := run (sendPushSafe json_apiError SendNotification s sub payload) w in
  (ok = true -> w' = w) /\
  (w' <> w -> if decide (PushSubscription_Kind sub = kindFCM)
    then exists c auth status body, ps_fcm s = Some c /\ ts c = Ok auth /\
      let rq := send_request c auth (PushSubscription_Endpoint sub) [("payload_enc", payload)] pushTTLSeconds in
      hc c rq = Ok (status, body) /\ fcm_dead json_apiError status body /\
      exists fields, hr_Body rq = JObject [("message", JObject fields)] /\ fields.*1 = ["token"; "data"; "android"] /\
        ("data", JObject [("payload_enc", JString payload)]) ∈ fields
    else exists p a status, PushSubscription_P256dh sub = Some p /\ PushSubscription_Auth sub = Some a /\
      SendNotification payload (PushSubscription_Endpoint sub) (p, a) (push_options s) = Returned (Ok status) /\
      (status = 404 \/ status = 410)).
Proof.
  cbv zeta. rewrite sendPushSafe_outcome. set (fate := outcome_of _ _ _ _ _). split; [by destruct fate|].
  intros Hw. assert (fate = SubscriptionGone) as Hgone by (by destruct fate). clear Hw. subst fate. unfold outcome_of in Hgone.
  case_decide.
  - destruct (ps_fcm s) as [c|]; [|done]. destruct (Send _ c _ _ _) as [|[|e]] eqn:Hsend; [done| |done].
    apply Send_unregistered in Hsend as (auth & status & body & Hts & Hans & Hdead).
    exists c, auth, status, body. repeat split; try done; try apply Hdead. eexists. split; [reflexivity|]. split; [reflexivity|].
    apply elem_of_cons. right. apply elem_of_cons. by left.
  - destruct (PushSubscription_P256dh sub) as [p|], (PushSubscription_Auth sub) as [a|]; try done.
    destruct (SendNotification _ _ _ _) as [[status|e]|] eqn:Hans; [|done|done].
    destruct (_ || _) eqn:Hd; [|by destruct (_ && _)]. exists p, a, status. repeat split; try done.
    apply orb_true_iff in Hd. lia.
Qed.

Lemma pruned_only_dead_witness : fst (run (sendPushSafe (fun _ => None) (fun _ _ _ _ => Returned (Ok 410)) demo_push_server
    demo_browser "sealed") demo_world) = false /\
  let '(ok, w') := run (sendPushSafe (fun _ => None) (fun _ _ _ _ => Returned (Ok 410)) demo_push_server
    demo_browser "sealed") demo_world in (ok = true -> w' = demo_world).
Proof.
  split; [vm_compute; reflexivity|].
  pose proof (pruned_only_dead (fun _ => None) (fun _ _ _ _ => Returned (Ok 410)) demo_push_server "sealed" demo_browser demo_world) as Hp.
  cbv zeta in Hp. destruct (run _ demo_world) as [ok w']. exact (proj1 Hp).
Defined.

(** webpush-go adds "mailto:" to a subscriber that is not an https: URI: the
    subject of the configuration comes back. *)
Lemma vapid_subject_restored subject :
  HasPrefix subject "mailto:" = true \/ HasPrefix subject "https:" = true ->
  HasPrefix (TrimPrefix subject "mailto:") "https:" = false ->
  let sub := vapidSubscriber subject in (if HasPrefix sub "https:" then sub else "mailto:" ++ sub) = subject.
Proof.
  unfold vapidSubscriber. intros Hs Hm. destruct (HasPrefix subject "https:") eqn:Hh; [by rewrite Hh|]. rewrite Hm.
  destruct Hs as [Hs|]; [|done]. by rewrite <- (HasPrefix_TrimPrefix subject "mailto:").
Qed.
