(* ===== verification/PartitionsSpec.v ===== *)
(** * What partition upkeep keeps and drops *)

From S2P Require Import Prelude GoTime Models Net Text Api Retention Partitions.
Local Open Scope string_scope.
Local Open Scope Z_scope.

(** ** Months *)

(** Every month of a March-based year starts on its first day. *)
Lemma civil_of_doy_first mp : 0 <= mp <= 11 ->
  civil_of_doy ((153 * mp + 2) / 5) = (if mp <? 10 then 0 else 1, if mp <? 10 then mp + 3 else mp - 9, 1) /\
  0 <= (153 * mp + 2) / 5 <= 337.
Proof.
  intros Hmp. assert (mp = 0 \/ mp = 1 \/ mp = 2 \/ mp = 3 \/ mp = 4 \/ mp = 5 \/ mp = 6 \/ mp = 7 \/ mp = 8 \/ mp = 9 \/
    mp = 10 \/ mp = 11) as Hcases by lia.
  repeat destruct Hcases as [->|Hcases]; [..|subst]; vm_compute; intuition discriminate.
Qed.

Lemma year_of_start yoe doy : 0 <= yoe < 400 -> 0 <= doy <= 337 ->
  year_of_doe (year_start yoe + doy) = yoe /\ 0 <= year_start yoe + doy < cycle.
Proof.
  intros Hy Hd. destruct (year_ends_ok yoe Hy) as [Hs He].
  assert (0 <= year_start yoe /\ year_start yoe + 365 <= year_start (yoe + 1) /\ year_start yoe + 338 <= cycle) as (H0 & H1 & H2).
  { unfold year_start, cycle. repeat split; Z.div_mod_to_equations; lia. }
  pose proof (year_of_doe_mono (year_start yoe) (year_start yoe + doy) ltac:(lia) ltac:(lia)).
  pose proof (year_of_doe_mono (year_start yoe + doy) (Z.min (year_start (yoe + 1)) cycle - 1) ltac:(lia) ltac:(lia)). lia.
Qed.

Lemma civil_of_first y m : 1 <= m <= 12 -> civil_of_days (days_of_civil y m 1) = (y, m, 1).
Proof.
  intros Hm. unfold days_of_civil. set (y' := if m <=? 2 then y - 1 else y). set (mp := if 2 <? m then m - 3 else m + 9).
  assert (0 <= mp <= 11) as Hmp by (subst mp; destruct (2 <? m) eqn:?; lia).
  destruct (civil_of_doy_first mp Hmp) as [Hc Hd]. set (doy := (153 * mp + 2) / 5) in *.
  pose proof (Z.mod_pos_bound y' 400 ltac:(lia)) as Hyoe. destruct (year_of_start _ _ Hyoe Hd) as [Hyear Hr].
  unfold civil_of_days. replace (y' / 400 * cycle + (year_start (y' mod 400) + (doy + 1 - 1)) - 719468 + 719468)
    with (year_start (y' mod 400) + doy + y' / 400 * cycle) by lia.
  rewrite Z.mod_add, Z.div_add, Z.mod_small, Z.div_small by (unfold cycle in *; lia).
  unfold civil_of_doe. rewrite Hyear. replace (year_start (y' mod 400) + doy - year_start (y' mod 400)) with doy by lia.
  rewrite Hc. pose proof (Z.div_mod y' 400 ltac:(lia)).
  assert (mp <? 10 = negb (m <=? 2)) as -> by (subst mp; destruct (2 <? m) eqn:?, (m <=? 2) eqn:?; cbn; lia).
  subst mp y'. destruct (m <=? 2) eqn:Hm2, (2 <? m) eqn:H2m; cbn; repeat f_equal; lia.
Qed.

Lemma Day_pos : 0 < Day.
Proof. done. Qed.

Lemma month_of_start i : month_of (month_start i) = i.
Proof.
  unfold month_of, month_start. rewrite Z.div_mul by done. pose proof (Z.mod_pos_bound i 12 ltac:(lia)).
  rewrite civil_of_first by lia. unfold month_index. pose proof (Z.div_mod i 12 ltac:(lia)). lia.
Qed.

(** The date of an instant is within its month. *)
Lemma month_date t : exists d, 1 <= d <= 31 /\
  civil_of_days (t / Day) = (month_of t / 12, month_of t mod 12 + 1, d) /\
  t / Day * Day = month_start (month_of t) + (d - 1) * Day.
Proof.
  unfold month_of, month_start. destruct (civil_of_days (t / Day)) as [[y m] d] eqn:Hc.
  destruct (civil_ranges _ _ _ _ Hc) as [Hm Hd]. exists d. split; [done|]. unfold month_index.
  assert ((12 * y + (m - 1)) / 12 = y) as -> by (Z.div_mod_to_equations; lia).
  assert ((12 * y + (m - 1)) mod 12 + 1 = m) as -> by (Z.div_mod_to_equations; lia).
  split; [done|]. rewrite <- (days_of_civil_of_days _ _ _ _ Hc). unfold days_of_civil. lia.
Qed.

Lemma month_of_mono t u : t <= u -> month_of t <= month_of u.
Proof.
  intros Htu. destruct (month_date t) as (d & Hd & Hc & _), (month_date u) as (d' & Hd' & Hc' & _).
  assert (t / Day <= u / Day) as Hdiv by (by apply Z.div_le_mono).
  assert (date_key (civil_of_days (t / Day)) <= date_key (civil_of_days (u / Day))) as Hkey.
  { destruct (Z.eq_dec (t / Day) (u / Day)) as [->|]; [done|]. apply Z.lt_le_incl, date_key_mono. lia. }
  rewrite Hc, Hc' in Hkey. unfold date_key in Hkey.
  pose proof (Z.mod_pos_bound (month_of t) 12 ltac:(lia)). pose proof (Z.mod_pos_bound (month_of u) 12 ltac:(lia)).
  pose proof (Z.div_mod (month_of t) 12 ltac:(lia)). pose proof (Z.div_mod (month_of u) 12 ltac:(lia)). lia.
Qed.

Lemma month_start_lt i j : i < j -> month_start i < month_start j.
Proof.
  intros Hij. destruct (Z.lt_ge_cases (month_start i) (month_start j)) as [|Hge]; [done|].
  apply month_of_mono in Hge. rewrite !month_of_start in Hge. lia.
Qed.

Lemma month_start_mono i j : i <= j -> month_start i <= month_start j.
Proof. intros Hij. destruct (Z.eq_dec i j) as [->|]; [done|]. apply Z.lt_le_incl, month_start_lt. lia. Qed.

(** A month is the instants from its start to the next one's, 31 days at most. *)
Lemma month_range t : month_start (month_of t) <= t < month_start (month_of t + 1).
Proof.
  destruct (month_date t) as (d & Hd & _ & Heq). pose proof (Z.div_mod t Day ltac:(done)).
  pose proof (Z.mod_pos_bound t Day Day_pos). split; [nia|].
  destruct (Z.lt_ge_cases t (month_start (month_of t + 1))) as [|Hge]; [done|].
  apply month_of_mono in Hge. rewrite month_of_start in Hge. lia.
Qed.

Lemma month_range_iff t i : month_start i <= t < month_start (i + 1) <-> month_of t = i.
Proof.
  split; [|intros <-; apply month_range]. intros [Hl Hu]. apply month_of_mono in Hl. rewrite month_of_start in Hl.
  destruct (Z.lt_ge_cases (month_of t) (i + 1)); [lia|]. exfalso.
  pose proof (month_start_mono (i + 1) (month_of t) ltac:(lia)).
  pose proof (month_range t). lia.
Qed.

Lemma month_length i : month_start (i + 1) <= month_start i + 31 * Day.
Proof.
  destruct (month_date (month_start (i + 1) - 1)) as (d & Hd & _ & Heq).
  assert (month_of (month_start (i + 1) - 1) = i) as Hi.
  { apply month_range_iff. pose proof (month_start_lt i (i + 1)). lia. }
  rewrite Hi in Heq. pose proof (Z.div_mod (month_start (i + 1) - 1) Day ltac:(done)).
  pose proof (Z.mod_pos_bound (month_start (i + 1) - 1) Day Day_pos). nia.
Qed.

(** ** Names *)

Lemma length_digits n z : String.length (digits n z) = n.
Proof.
  revert z. induction n as [|n IH]; intros z; [done|]. cbn [digits]. rewrite length_app_string, IH. cbn. lia.
Qed.

Lemma digits_are_digits n z : all_chars is_digit (digits n z) = true.
Proof.
  revert z. induction n as [|n IH]; intros z; [done|]. cbn [digits]. rewrite all_chars_app, IH. cbn.
  pose proof (Z.mod_pos_bound z 10 ltac:(lia)) as Hz. unfold is_digit, digit. rewrite N_ascii_embedding by lia.
  rewrite andb_true_r. apply andb_true_iff. split; apply N.leb_le; lia.
Qed.

Lemma digit_value_digit_mod z : digit_value (digit (z mod 10)) = Some (z mod 10).
Proof. apply digit_value_digit. pose proof (Z.mod_pos_bound z 10 ltac:(lia)). lia. Qed.

Lemma atoi_from_app s t acc : all_chars is_digit s = true -> atoi_from acc (s ++ t) = atoi_from (atoi_from acc s) t.
Proof.
  revert acc. induction s as [|c s IH]; intros acc Hs; [done|]. rewrite string_app_cons. cbn [all_chars] in Hs.
  apply andb_true_iff in Hs as [Hc Hs]. cbn [atoi_from]. unfold digit_value, is_digit in *.
  apply andb_true_iff in Hc as [H1%N.leb_le H2%N.leb_le].
  rewrite (proj2 (andb_true_iff _ _)); [by apply IH|]. split; apply Z.leb_le; lia.
Qed.

Lemma atoi_digits n z : 0 <= z < 10 ^ Z.of_nat n -> atoi (digits n z) = z.
Proof.
  unfold atoi. revert z. induction n as [|n IH]; intros z Hz; [cbn in *; lia|].
  rewrite Nat2Z.inj_succ, Z.pow_succ_r in Hz by lia. cbn [digits].
  rewrite atoi_from_app by apply digits_are_digits. rewrite IH by (Z.div_mod_to_equations; lia). cbn [atoi_from].
  rewrite digit_value_digit_mod. pose proof (Z.div_mod z 10 ltac:(lia)). lia.
Qed.

Lemma substring_app_r a b n : String.substring (String.length a) n (a ++ b) = String.substring 0 n b.
Proof. induction a as [|c a IH]; [done|]. by rewrite string_app_cons. Qed.

Lemma substring_app_l a b : String.substring 0 (String.length a) (a ++ b) = a.
Proof. induction a as [|c a IH]; [by destruct b|]. rewrite string_app_cons. cbn. by rewrite IH. Qed.

(** The names of the years 0 to 9999. *)
Definition in_range (i : Z) : Prop := 0 <= i < 120000.

Lemma partition_name_matches i : in_range i ->
  partitionNameRe (partition_name i) = Some (digits 4 (i / 12), digits 2 (i mod 12 + 1)).
Proof.
  intros Hi. unfold partitionNameRe, partition_name. rewrite HasPrefix_app, TrimPrefix_app.
  set (y := digits 4 (i / 12)). set (m := digits 2 (i mod 12 + 1)).
  assert (String.substring 0 4 (y ++ "_" ++ m) = y) as ->.
  { replace 4%nat with (String.length y) by apply length_digits. apply substring_app_l. }
  assert (String.substring 5 2 (y ++ "_" ++ m) = m) as ->.
  { rewrite <- string_app_assoc. replace 5%nat with (String.length (y ++ "_")) by (rewrite length_app_string; by unfold y; rewrite length_digits).
    rewrite substring_app_r. replace 2%nat with (String.length m) by apply length_digits. apply substring_all. }
  rewrite bool_decide_eq_true_2 by done. unfold y, m. by rewrite !length_digits, !digits_are_digits.
Qed.

Lemma name_fields i : in_range i -> 0 <= i / 12 < 10 ^ 4 /\ 0 <= i mod 12 + 1 < 10 ^ 2.
Proof. intros Hi. unfold in_range in Hi. split; Z.div_mod_to_equations; lia. Qed.

Lemma expired_partition_name horizon i : in_range i ->
  expired_partition horizon (partition_name i) = (month_start (i + 1) <=? horizon).
Proof.
  intros Hi. unfold expired_partition. rewrite partition_name_matches by done. destruct (name_fields i Hi) as [Hy Hm].
  rewrite !atoi_digits by done. pose proof (Z.mod_pos_bound i 12 ltac:(lia)).
  assert ((i mod 12 + 1 <? 1) || (12 <? i mod 12 + 1) = false) as -> by (apply orb_false_iff; lia).
  unfold month_index, After. replace (12 * (i / 12) + (i mod 12 + 1 - 1) + 1) with (i + 1) by (pose proof (Z.div_mod i 12); lia).
  destruct (Z.ltb_spec horizon (month_start (i + 1))), (Z.leb_spec (month_start (i + 1)) horizon); cbn; lia.
Qed.

Lemma partition_name_inj i j : in_range i -> in_range j -> partition_name i = partition_name j -> i = j.
Proof.
  intros Hi Hj Heq. pose proof (partition_name_matches i Hi) as Hmi. rewrite Heq, partition_name_matches in Hmi by done.
  destruct (name_fields i Hi), (name_fields j Hj).
  apply (f_equal (fun o => match o with Some (y, m) => (atoi y, atoi m) | None => (0, 0) end)) in Hmi.
  cbv beta iota in Hmi. rewrite !atoi_digits in Hmi by done. injection Hmi as Hy Hm. Z.div_mod_to_equations; lia.
Qed.

(** ** The steps *)

(** A child this server made, with rows of its month. *)
Definition ours (p : partition) : Prop :=
  exists i, in_range i /\ pt_name p = partition_name i /\ pt_from p = month_start i /\ pt_to p = month_start (i + 1) /\
    Forall (fun r => month_of (Ping_CapturedAt r) = i) (pt_rows p).

Lemma drop_each_eq exec horizon names t n :
  fst (drop_each exec horizon names t n) =
  List.filter (fun p => negb (expired_partition horizon (pt_name p) && exec (pt_name p) && bool_decide (pt_name p ∈ names))) t.
Proof.
  assert (forall (f g : partition -> bool) l, (forall p, f p = g p) -> List.filter f l = List.filter g l) as Hext.
  { intros f g l Hfg. induction l as [|p l IH]; [done|]. cbn. by rewrite Hfg, IH. }
  assert (forall (f g : partition -> bool) l, List.filter f (List.filter g l) = List.filter (fun p => g p && f p) l) as Hff.
  { intros f g l. induction l as [|p l IH]; [done|]. cbn. destruct (g p); cbn; by rewrite IH. }
  revert t n. induction names as [|name names IH]; intros t n; cbn [drop_each].
  - cbn. induction t as [|p t IHt]; [done|]. cbn [List.filter].
    rewrite bool_decide_eq_false_2 by apply not_elem_of_nil. rewrite andb_false_r. cbn. by f_equal.
  - destruct (expired_partition horizon name && exec name) eqn:He; rewrite IH; [rewrite Hff|]; apply Hext; intros p.
    + destruct (decide (pt_name p = name)) as [Hp|Hp].
      * rewrite Hp, He, (bool_decide_eq_true_2 (name = name)), (bool_decide_eq_true_2 (name ∈ name :: names)) by (done || by left). done.
      * rewrite (bool_decide_eq_false_2 (pt_name p = name)) by done. cbn [negb andb]. f_equal. f_equal. apply bool_decide_ext.
        rewrite elem_of_cons. tauto.
    + f_equal. destruct (decide (pt_name p = name)) as [Hp|Hp].
      * by rewrite Hp, He.
      * f_equal. apply bool_decide_ext. rewrite elem_of_cons. tauto.
Qed.

Section ensure.
Context (others : list string) (Hothers : forall i, in_range i -> partition_name i ∉ others).

Lemma ensure_one i t : in_range i -> Forall ours t ->
  exists extra, aul_ensure_ping_partition others i t = Some (t ++ extra)%list /\ Forall ours (t ++ extra) /\
    Forall (fun p => pt_rows p = [] /\ pt_name p = partition_name i) extra /\
    Exists (fun p => pt_name p = partition_name i) (t ++ extra).
Proof.
  intros Hi Ht. unfold aul_ensure_ping_partition. case_decide as Hin.
  - apply elem_of_app in Hin as [Hin|Hin]; [by destruct (Hothers i Hi)|]. exists []. rewrite app_nil_r. repeat split; try done.
    apply Exists_exists. apply list_elem_of_fmap in Hin as (p & Hn & Hp). by exists p.
  - rewrite not_elem_of_app in Hin. destruct Hin as [_ Hin].
    destruct (existsb _ t) eqn:Hover.
    { apply existsb_exists in Hover as (p & Hp & Ho). exfalso. apply Hin, list_elem_of_fmap. apply list_elem_of_In in Hp. exists p. split; [|done].
      eapply Forall_forall in Ht as (j & Hj & Hn & Hf & Hto & _); [|exact Hp]. unfold overlaps in Ho. rewrite Hf, Hto in Ho. apply Z.ltb_lt in Ho.
      rewrite Hn. f_equal. destruct (Z.lt_trichotomy i j) as [Hij|[Hij|Hij]].
      - pose proof (month_start_mono (i + 1) j ltac:(lia)). lia.
      - done.
      - pose proof (month_start_mono (j + 1) i ltac:(lia)). lia. }
    eexists. split; [done|]. split; [|split; [by repeat constructor|]].
    + apply Forall_app. split; [done|]. constructor; [|done]. exists i. repeat (split; [done|]). constructor.
    + apply Exists_app. right. by constructor.
Qed.

Lemma ensure_all n m t : (forall k, m <= k < m + Z.of_nat n -> in_range k) -> Forall ours t ->
  exists extra, ensure_months others n m t = Some (t ++ extra)%list /\ Forall ours (t ++ extra) /\
    Forall (fun p => pt_rows p = [] /\ exists k, m <= k < m + Z.of_nat n /\ pt_name p = partition_name k) extra /\
    forall k, m <= k < m + Z.of_nat n -> Exists (fun p => pt_name p = partition_name k) (t ++ extra).
Proof.
  revert m t. induction n as [|n IH]; intros m t Hr Ht.
  - exists []. rewrite app_nil_r. repeat split; [done|constructor|intros; lia].
  - destruct (ensure_one m t (Hr m ltac:(lia)) Ht) as (e1 & He & Ht1 & Hrows & Hex).
    destruct (IH (m + 1) (t ++ e1)%list ltac:(intros; apply Hr; lia) Ht1) as (e2 & He2 & Ht2 & Hrows2 & Hex2).
    exists (e1 ++ e2)%list. rewrite app_assoc. cbn [ensure_months]. rewrite He. cbn. split; [done|]. split; [done|]. split.
    { apply Forall_app. split; [eapply Forall_impl; [exact Hrows|]|eapply Forall_impl; [exact Hrows2|]].
      - intros p [Hp Hn]. split; [done|]. exists m. split; [lia|done].
      - intros p [Hp (k & Hk & Hn)]. split; [done|]. exists k. split; [lia|done]. }
    intros k Hk. destruct (Z.eq_dec k m) as [->|]; [apply Exists_app; by left|apply Hex2; lia].
Qed.
End ensure.

Lemma AddMonths_eq now k : AddMonths now k = month_start (month_of now + k) + (now - month_start (month_of now)).
Proof.
  unfold AddMonths. destruct (month_date now) as (d & Hd & Hc & Heq). rewrite Hc.
  replace (month_index (month_of now / 12) (month_of now mod 12 + 1)) with (month_of now)
    by (unfold month_index; pose proof (Z.div_mod (month_of now) 12); lia).
  pose proof (Z.div_mod now Day ltac:(done)). lia.
Qed.

(** The months that have their partition after [EnsurePingPartitions]: at least
    this one and the two after it. *)
Lemma ensured_window now : month_of now - 1 <= month_of (AddMonths now (-1)) <= month_of now /\
  month_of now + 2 <= month_of (AddMonths now 2) <= month_of (now + 62 * Day).
Proof.
  rewrite !AddMonths_eq. set (i := month_of now). pose proof (month_range now) as Hr. fold i in Hr.
  split; split.
  - rewrite <- (month_of_start (i - 1)) at 1. apply month_of_mono. replace (i + -1) with (i - 1) by lia. lia.
  - apply month_of_mono. pose proof (month_start_lt (i + -1) i ltac:(lia)). lia.
  - rewrite <- (month_of_start (i + 2)) at 1. apply month_of_mono. lia.
  - apply month_of_mono. pose proof (month_length i). pose proof (month_length (i + 1)). replace (i + 1 + 1) with (i + 2) in * by lia. lia.
Qed.

(** A row is in the table. *)
Definition stored (r : Ping) (t : partitioned) : Prop := Exists (fun p => r ∈ pt_rows p) t.

(** Among partitions of this server, the one an instant belongs to is its month's. *)
Lemma holds_month t c : Forall ours t -> in_range (month_of c) ->
  Exists (fun p => holds p c = true) t <-> Exists (fun p => pt_name p = partition_name (month_of c)) t.
Proof.
  intros Ht Hc. rewrite !Exists_exists. split; intros (p & Hp & H); exists p; (split; [done|]);
    destruct (proj1 (Forall_forall _ _) Ht _ Hp) as (i & Hi & Hn & Hf & Hto & _); unfold holds in *; rewrite Hf, Hto in *.
  - apply andb_true_iff in H as [H1%Z.leb_le H2%Z.ltb_lt]. by rewrite Hn, (proj1 (month_range_iff c i)) by lia.
  - assert (i = month_of c) as -> by (apply partition_name_inj; [done..|by rewrite <- Hn]).
    pose proof (month_range c). apply andb_true_iff. split; [apply Z.leb_le|apply Z.ltb_lt]; lia.
Qed.

(** The partitions after upkeep: those there were and the months of the window,
    less the ones over at the horizon. *)
Lemma maintain_eq w others now t (Hothers : forall i, in_range i -> partition_name i ∉ others)
    (Ht : Forall ours t) (Hlow : 1 <= month_of now) (Hhigh : month_of (now + 62 * Day) < 120000) :
  let horizon := AddDays now (- wk_maxRetentionDays w) in
  exists extra, Forall ours (t ++ extra) /\ Forall (fun p => pt_rows p = []) extra /\
    (forall k, in_range k -> Exists (fun p => pt_name p = partition_name k) (t ++ extra)%list <->
      Exists (fun p => pt_name p = partition_name k) t \/ month_of (AddMonths now (-1)) <= k <= month_of (AddMonths now 2)) /\
    forall p, p ∈ maintain_partitions w others (fun _ => true) now t <->
      p ∈ (t ++ extra)%list /\ forall i, in_range i -> pt_name p = partition_name i -> horizon < month_start (i + 1).
Proof.
  cbv zeta. set (horizon := AddDays now (- wk_maxRetentionDays w)). destruct (ensured_window now) as [Hw1 Hw2].
  unfold maintain_partitions. fold horizon. unfold EnsurePingPartitions.
  set (lo := month_of (AddMonths now (-1))) in *. set (hi := month_of (AddMonths now 2)) in *.
  destruct (ensure_all others Hothers (Z.to_nat (hi - lo + 1)) lo t) as (extra & Hens & Hours & Hextra & Hcover);
    [intros k Hk; unfold in_range; lia|done|].
  exists extra. split; [done|]. split; [eapply Forall_impl; [exact Hextra|]; by intros p []|]. split.
  { intros k Hk. rewrite Exists_app. split; [intros [|H]; [by left|right]|intros [|H]; [by left|]].
    - apply Exists_exists in H as (p & Hp & Hn). destruct (proj1 (Forall_forall _ _) Hextra _ Hp) as (_ & i & Hi & Hn').
      rewrite Hn in Hn'. apply partition_name_inj in Hn' as ->; [lia|done|unfold in_range; lia].
    - apply Exists_app, Hcover. lia. }
  rewrite Hens. cbn [default]. unfold dropOldPartitions. rewrite drop_each_eq. change (id (t ++ extra)%list) with (t ++ extra)%list.
  intros p. rewrite list_elem_of_In, List.filter_In, <- list_elem_of_In. split; intros [Hp Hk]; (split; [done|]);
    destruct (proj1 (Forall_forall _ _) Hours _ Hp) as (i & Hi & Hn & _).
  - intros j Hj Hnj. rewrite Hnj, expired_partition_name in Hk by done.
    rewrite bool_decide_eq_true_2 in Hk by (apply list_elem_of_fmap; by exists p).
    destruct (Z.leb_spec (month_start (j + 1)) horizon); [done|lia].
  - rewrite Hn, expired_partition_name by done. by rewrite (proj2 (Z.leb_gt _ _) (Hk i Hi Hn)).
Qed.

(** C30: partition upkeep is exact, at any instant and with any retention, with
    no engine failure and over partitions this server made: of the pings in
    them, those stay whose month is not over at the horizon, and only those, so
    that every ping newer than the horizon stays and every one more than 31 days
    older goes; partitions of other names are never dropped; and an instant not
    before the horizon has a partition to go to afterwards exactly if it had one
    before or its month is one of those from the month of a calendar month ago
    ([AddDate], whose days run over) to the month of two calendar months ahead.
    So there is one for every instant from now to the end of the second month
    after this one; an older one, although still within the retention, has
    one only if it was made earlier. *)
Theorem partition_upkeep_exact w others now t
    (Hothers : forall i, in_range i -> partition_name i ∉ others)
    (Ht : Forall ours t) (Hlow : 1 <= month_of now) (Hhigh : month_of (now + 62 * Day) < 120000) :
  let horizon := AddDays now (- wk_maxRetentionDays w) in
  let t' := maintain_partitions w others (fun _ => true) now t in
  (forall r, stored r t' <-> stored r t /\ horizon < month_start (month_of (Ping_CapturedAt r) + 1)) /\
  (forall r, stored r t -> horizon <= Ping_CapturedAt r -> stored r t') /\
  (forall r, stored r t' -> horizon - 31 * Day < Ping_CapturedAt r) /\
  (forall c, horizon <= c -> in_range (month_of c) ->
    Exists (fun p => holds p c = true) t' <->
    Exists (fun p => holds p c = true) t \/ month_of (AddMonths now (-1)) <= month_of c <= month_of (AddMonths now 2)) /\
  (forall c, horizon <= c -> now <= c -> month_of c <= month_of now + 2 -> Exists (fun p => holds p c = true) t') /\
  (forall name, partitionNameRe name = None -> expired_partition horizon name = false).
Proof.
  cbv zeta. destruct (maintain_eq w others now t Hothers Ht Hlow Hhigh) as (extra & Hours & Hempty & Hnames & Hkeep).
  set (horizon := AddDays now (- wk_maxRetentionDays w)) in *. set (t' := maintain_partitions _ _ _ _ _) in *.
  assert (Forall ours t') as Ht' by (apply Forall_forall; intros p [Hp _]%Hkeep; by eapply Forall_forall in Hours).
  assert (forall r, stored r t' <-> stored r t /\ horizon < month_start (month_of (Ping_CapturedAt r) + 1)) as Hrows.
  { intros r. unfold stored. rewrite !Exists_exists. split.
    - intros (p & [Hp Hh]%Hkeep & Hin). destruct (proj1 (Forall_forall _ _) Hours _ Hp) as (i & Hi & Hn & _ & _ & Hr).
      rewrite (proj1 (Forall_forall _ _) Hr r Hin). split; [|by apply Hh]. exists p. split; [|done].
      apply elem_of_app in Hp as [Hp|Hp]; [done|]. rewrite (proj1 (Forall_forall _ _) Hempty _ Hp) in Hin. by apply not_elem_of_nil in Hin.
    - intros [(p & Hp & Hin) Hh]. exists p. split; [|done]. apply Hkeep. split; [apply elem_of_app; by left|]. intros i Hi Hn.
      destruct (proj1 (Forall_forall _ _) Ht _ Hp) as (j & Hj & Hnj & _ & _ & Hr). rewrite Hn in Hnj.
      apply partition_name_inj in Hnj as ->; [|done..]. by rewrite (proj1 (Forall_forall _ _) Hr r Hin) in Hh. }
  assert (forall c, horizon <= c -> in_range (month_of c) -> Exists (fun p => holds p c = true) t' <->
    Exists (fun p => holds p c = true) t \/ month_of (AddMonths now (-1)) <= month_of c <= month_of (AddMonths now 2)) as Hcover.
  { intros c Hc Hr. rewrite !holds_month, <- Hnames, !Exists_exists by done. pose proof (month_range c).
    split; intros (p & Hp & Hn); exists p; (split; [|done]); [by apply Hkeep|]. apply Hkeep. split; [done|]. intros i Hi Hni.
    rewrite Hn in Hni. apply partition_name_inj in Hni as <-; [lia|done..]. }
  split; [exact Hrows|]. repeat split.
  - intros r Hr Hh. apply Hrows. split; [done|]. pose proof (month_range (Ping_CapturedAt r)). lia.
  - intros r [_ Hh]%Hrows. pose proof (month_length (month_of (Ping_CapturedAt r))). pose proof (month_range (Ping_CapturedAt r)). lia.
  - by apply Hcover.
  - by apply Hcover.
  - intros c Hc Hnow Hm. destruct (ensured_window now). pose proof (month_of_mono _ _ Hnow). apply Hcover; [done|unfold in_range|right]; lia.
  - intros name Hn. unfold expired_partition. by rewrite Hn.
Qed.

Definition demo_retention : Worker := mkWorker 90 6 0 Hour.
Definition demo_august : time := days_of_civil 2025 8 15 * Day.
Definition demo_ping_at (y m d : Z) : Ping := mkPing 1 1 1 "p" [] [] (days_of_civil y m d * Day) 0 None.

(** With a year's retention the handler accepts a ping of March; five months after it,
    a new database, which the migration gives the months from May on, has no
    partition for it, and upkeep makes none. *)
Example old_ping_homeless :
  let seeded := default [] (EnsurePingPartitions [] (AddMonths demo_august (-3)) (AddMonths demo_august 2) []) in
  let t' := maintain_partitions (mkWorker 365 6 0 Hour) [] (fun _ => true) demo_august seeded in
  let march := Ping_CapturedAt (demo_ping_at 2025 3 1) in
  (AddDays demo_august (- 365) <=? march) = true /\ existsb (fun p => holds p march) t' = false /\
  pt_name <$> t' = ["pings_p2025_05"; "pings_p2025_06"; "pings_p2025_07"; "pings_p2025_08"; "pings_p2025_09"; "pings_p2025_10"].
Proof. vm_compute. auto. Qed.

(** On 15 August with 90 days, April's partition goes and May's, past its horizon of 17 May, stays. *)
Definition demo_partitions : partitioned :=
  [mkPartition "pings_p2025_04" (month_start (month_index 2025 4)) (month_start (month_index 2025 5)) [demo_ping_at 2025 4 30];
   mkPartition "pings_p2025_05" (month_start (month_index 2025 5)) (month_start (month_index 2025 6)) [demo_ping_at 2025 5 1]].

Lemma demo_partitions_ours : Forall ours demo_partitions.
Proof.
  assert (forall i rows, in_range i -> Forall (fun r => month_of (Ping_CapturedAt r) = i) rows ->
    ours (mkPartition (partition_name i) (month_start i) (month_start (i + 1)) rows)) as Hmk.
  { intros i rows Hi Hr. exists i. by repeat (split; [done|]). }
  constructor; [apply (Hmk (month_index 2025 4))|constructor; [apply (Hmk (month_index 2025 5))|constructor]].
  - vm_compute. intuition discriminate.
  - constructor; [vm_compute; reflexivity|constructor].
  - vm_compute. intuition discriminate.
  - constructor; [vm_compute; reflexivity|constructor].
Qed.

Lemma partition_upkeep_exact_witness :
  pt_name <$> maintain_partitions demo_retention ["users"] (fun _ => true) demo_august demo_partitions =
    ["pings_p2025_05"; "pings_p2025_07"; "pings_p2025_08"; "pings_p2025_09"; "pings_p2025_10"] /\
  stored (demo_ping_at 2025 5 1) (maintain_partitions demo_retention ["users"] (fun _ => true) demo_august demo_partitions).
Proof.
  split; [vm_compute; reflexivity|].
  assert (forall i, in_range i -> partition_name i ∉ ["users"]) as Hothers.
  { intros i Hi Hin. apply list_elem_of_singleton in Hin. pose proof (partition_name_matches i Hi) as Hm. rewrite Hin in Hm. discriminate Hm. }
  destruct (partition_upkeep_exact demo_retention ["users"] demo_august demo_partitions Hothers demo_partitions_ours) as [Hrows _];
    [vm_compute; discriminate|vm_compute; reflexivity|].
  apply Hrows. split; [|vm_compute; reflexivity]. right. left. by left.
Defined.
