(* ===== verification/LatestSpec.v ===== *)
(** * The latest pings, in both dialects

    SQLite numbers the rows of each device by a window function and keeps the
    first; Postgres sorts by device and keeps the first of each run (DISTINCT ON).
    The two selections are the same list. *)

From S2P Require StorePings PgPings.
From S2P Require Import Prelude GoTime Models.
From stdpp Require Import sorting.
Local Open Scope Z_scope.

Import StorePings(first_per_device). Import PgPings(distinct_on).

Section latest.
Implicit Types (l s : list Ping) (p q x : Ping) (seen : list uuid).

Abbreviation dev := Ping_DeviceID.
Definition by_dev p : Z := Z.of_N (dev p).
Abbreviation others x := (filter (fun p => dev p <> dev x)).

Lemma first_ext l seen seen' : (forall d, d ∈ seen <-> d ∈ seen') -> first_per_device seen l = first_per_device seen' l.
Proof.
  revert seen seen'. induction l as [|p l IH]; intros seen seen' Hs; [done|]. cbn [first_per_device]. specialize (Hs (dev p)) as Hp.
  destruct (decide (dev p ∈ seen)), (decide (dev p ∈ seen')); try tauto; [by apply IH|].
  f_equal. apply IH. intros d. rewrite !elem_of_cons. by rewrite Hs.
Qed.

Lemma first_others x l seen : first_per_device (dev x :: seen) l = others x (first_per_device seen l).
Proof.
  revert seen. induction l as [|p l IH]; intros seen; [done|]. cbn [first_per_device].
  destruct (decide (dev p ∈ seen)) as [Hp|Hp].
  - rewrite decide_True by (by right). apply IH.
  - destruct (decide (dev p = dev x)) as [Hpx|Hpx].
    + rewrite decide_True by (rewrite Hpx; by left). rewrite filter_cons_False by (by intros []). rewrite Hpx, IH.
      rewrite list_filter_filter. apply list_filter_iff. tauto.
    + rewrite decide_False by (by intros [|]%elem_of_cons). rewrite filter_cons_True by done. f_equal. rewrite <- IH.
      apply first_ext. intros d. rewrite !elem_of_cons. tauto.
Qed.

(** ** Sorted lists *)

Abbreviation sorted := (StronglySorted (key_le by_dev)).

Lemma filter_insert x s (P : Ping -> Prop) `{forall p, Decision (P p)} : P x -> sorted s ->
  filter P (insert_by by_dev x s) = insert_by by_dev x (filter P s).
Proof.
  intros Hx. induction 1 as [|y s Hs IH Hy]; cbn [insert_by]; [by rewrite filter_cons_True|].
  destruct (Z.leb_spec (by_dev x) (by_dev y)) as [Hle|Hlt].
  - rewrite filter_cons_True by done. symmetry. assert (Forall (fun z => by_dev x <= by_dev z) (filter P (y :: s))) as Hall.
    { apply Forall_forall. intros z [_ Hz]%list_elem_of_filter. apply elem_of_cons in Hz as [->|Hz]; [done|].
      eapply Forall_forall in Hy; [|exact Hz]. unfold key_le in Hy. lia. }
    destruct (filter P (y :: s)) as [|z r]; [done|]. cbn [insert_by]. inversion Hall; subst.
    by rewrite (proj2 (Z.leb_le _ _)).
  - rewrite !filter_cons. destruct (decide (P y)); [|done]. cbn [insert_by].
    rewrite (proj2 (Z.leb_gt _ _)) by done. by rewrite IH.
Qed.

Lemma filter_insert_not x s (P : Ping -> Prop) `{forall p, Decision (P p)} : ~ P x ->
  filter P (insert_by by_dev x s) = filter P s.
Proof.
  intros Hx. induction s as [|y s IH]; cbn [insert_by]; [by rewrite filter_cons_False|].
  destruct (_ <=? _); [by rewrite filter_cons_False|]. rewrite !filter_cons, IH. done.
Qed.

Lemma filter_sort l (P : Ping -> Prop) `{forall p, Decision (P p)} :
  filter P (sort_by by_dev l) = sort_by by_dev (filter P l).
Proof.
  induction l as [|p l IH]; [done|]. change (sort_by by_dev (p :: l)) with (insert_by by_dev p (sort_by by_dev l)).
  rewrite filter_cons. destruct (decide (P p)).
  - rewrite filter_insert by (done || apply sort_by_sorted). by rewrite IH.
  - by rewrite filter_insert_not, IH.
Qed.

(** Without the run of [y] in front. *)
Definition after y s : list Ping := match s with q :: rest => if decide (dev q = dev y) then rest else q :: rest | [] => [] end.

Lemma distinct_on_cons y s : distinct_on (y :: s) = y :: after y (distinct_on s).
Proof. done. Qed.

Lemma distinct_on_sub s p : p ∈ distinct_on s -> p ∈ s.
Proof.
  revert p. induction s as [|y s IH]; intros p; [done|]. rewrite distinct_on_cons. intros [->|Hp]%elem_of_cons; [by left|]. right.
  apply IH. destruct (distinct_on s) as [|q rest]; [done|]. cbn in Hp. destruct (decide _); [by right|done].
Qed.

(** Past its first row, the devices of a sorted selection are strictly greater. *)
Lemma after_greater y s : sorted (y :: s) -> Forall (fun p => by_dev y < by_dev p) (after y (distinct_on s)).
Proof.
  revert y. induction s as [|z s IH]; intros y Hs; [constructor|]. inversion Hs as [|? ? Hs' Hy]; subst.
  rewrite distinct_on_cons. cbn [after]. pose proof (IH z Hs') as Hz. apply Forall_cons_1 in Hy as [Hyz _]. unfold key_le in Hyz.
  destruct (decide (dev z = dev y)) as [He|He].
  - eapply Forall_impl; [exact Hz|]. intros p Hp. cbn in Hp. unfold by_dev in *. by rewrite <- He.
  - assert (by_dev y < by_dev z) by (unfold by_dev in *; lia). constructor; [done|]. eapply Forall_impl; [exact Hz|]. intros p Hp. cbn in Hp. lia.
Qed.

Lemma others_greater x s : Forall (fun p => by_dev x < by_dev p) s -> others x s = s /\ insert_by by_dev x s = x :: s.
Proof.
  intros Hs. split.
  - induction Hs as [|p s Hp Hs IH]; [done|]. rewrite filter_cons_True, IH; [done|]. intros He. unfold by_dev in Hp. rewrite He in Hp. lia.
  - destruct Hs as [|p s Hp Hs]; [done|]. cbn [insert_by]. by rewrite (proj2 (Z.leb_le _ _)) by lia.
Qed.

Lemma after_no_head y s : Forall (fun p => by_dev y < by_dev p) s -> after y s = s.
Proof. destruct 1 as [|p s Hp Hs]; [done|]. cbn. rewrite decide_False; [done|]. intros He. unfold by_dev in Hp. rewrite He in Hp. lia. Qed.

Lemma Forall_insert_by P x s : P x -> Forall P s -> Forall P (insert_by by_dev x s).
Proof. intros Hx Hs. rewrite insert_by_perm. by constructor. Qed.

Lemma distinct_on_insert x s : sorted s -> distinct_on (insert_by by_dev x s) = insert_by by_dev x (others x (distinct_on s)).
Proof.
  induction 1 as [|y s Hs IH Hy]; [done|]. pose proof (after_greater y s (SSorted_cons y Hs Hy)) as Hgt. cbn [insert_by].
  destruct (Z.leb_spec (by_dev x) (by_dev y)) as [Hle|Hlt].
  - rewrite distinct_on_cons, (distinct_on_cons y). destruct (decide (dev y = dev x)) as [He|He].
    + cbn [after]. rewrite decide_True by done. rewrite filter_cons_False by (by intros []).
      assert (Forall (fun p => by_dev x < by_dev p) (after y (distinct_on s))) as Hgt' by (unfold by_dev in *; by rewrite <- He).
      destruct (others_greater _ _ Hgt') as [-> ->]. done.
    + cbn [after]. rewrite decide_False by done. rewrite filter_cons_True by done.
      assert (Forall (fun p => by_dev x < by_dev p) (y :: after y (distinct_on s))) as Hgt'.
      { assert (by_dev x < by_dev y) by (unfold by_dev in *; lia). constructor; [done|]. eapply Forall_impl; [exact Hgt|]. intros p Hp. cbn in Hp. lia. }
      apply Forall_cons_1 in Hgt' as [Hxy Hgt']. rewrite (proj1 (others_greater _ _ Hgt')).
      cbn [insert_by]. by rewrite (proj2 (Z.leb_le _ _)) by lia.
  - rewrite !distinct_on_cons, IH. rewrite filter_cons_True by (intros He; unfold by_dev in Hlt; rewrite He in Hlt; lia).
    cbn [insert_by]. rewrite (proj2 (Z.leb_gt _ _)) by done. f_equal.
    destruct (distinct_on s) as [|q rest] eqn:Hd.
    { cbn. rewrite decide_False; [done|]. intros He. unfold by_dev in Hlt. rewrite He in Hlt. lia. }
    cbn [after] in *. destruct (decide (dev q = dev y)) as [He|He].
    + rewrite filter_cons_True by (intros Hq; unfold by_dev in Hlt; rewrite <- Hq, He in Hlt; lia). cbn [insert_by].
      rewrite (proj2 (Z.leb_gt _ _)) by (unfold by_dev in *; by rewrite He). cbn [after]. by rewrite decide_True.
    + apply after_no_head, Forall_insert_by; [done|]. apply Forall_forall. intros z [_ Hz]%list_elem_of_filter. by eapply Forall_forall in Hgt; [|exact Hz].
Qed.

(** The two selections agree. *)
Lemma distinct_on_first l : distinct_on (sort_by by_dev l) = sort_by by_dev (first_per_device [] l).
Proof.
  induction l as [|x l IH]; [done|]. change (sort_by by_dev (x :: l)) with (insert_by by_dev x (sort_by by_dev l)).
  rewrite distinct_on_insert by apply sort_by_sorted. rewrite IH, filter_sort, <- first_others. done.
Qed.

(** ** Whatever order the rows come in

    Sorted by device and, within one, by the latest first: two such orders of rows
    no two of which agree in both are the same. *)

Definition row_order p : uuid * Z := (dev p, Ping_CapturedAt p).
Definition by_time p : Z := - Ping_CapturedAt p.
Definition lex p q : Prop := by_dev p < by_dev q \/ by_dev p = by_dev q /\ by_time p <= by_time q.

Lemma lex_insert x s : Forall (key_le by_time x) s -> StronglySorted lex s -> StronglySorted lex (insert_by by_dev x s).
Proof.
  intros Hx. induction 1 as [|y s Hs IH Hy]; cbn [insert_by]; [repeat constructor|].
  inversion Hx as [|? ? Hxy Hxs]; subst. unfold key_le in Hxy. destruct (Z.leb_spec (by_dev x) (by_dev y)) as [Hle|Hlt].
  - constructor; [by constructor|]. constructor; [unfold lex; lia|]. apply Forall_forall. intros z Hz.
    eapply Forall_forall in Hy, Hxs; [|exact Hz..]. unfold lex, key_le in *. lia.
  - constructor; [by apply IH|]. rewrite insert_by_perm. constructor; [unfold lex; lia|done].
Qed.

Lemma lex_sort l : StronglySorted (key_le by_time) l -> StronglySorted lex (sort_by by_dev l).
Proof.
  induction 1 as [|x l Hl IH Hx]; [constructor|]. change (sort_by by_dev (x :: l)) with (insert_by by_dev x (sort_by by_dev l)).
  apply lex_insert; [by rewrite sort_by_perm|done].
Qed.

Lemma latest_order_unique l l' : l ≡ₚ l' -> NoDup (row_order <$> l) ->
  sort_by by_dev (sort_by by_time l) = sort_by by_dev (sort_by by_time l').
Proof.
  intros Hl Hn. apply (StronglySorted_unique_strong lex).
  - intros p q Hp Hq. rewrite !sort_by_perm in Hp. rewrite !sort_by_perm, <- Hl in Hq. unfold lex. intros H1 H2.
    apply list_elem_of_lookup in Hp as [i Hi], Hq as [j Hj]. assert (i = j) as <-; [|congruence].
    eapply (NoDup_lookup _ i j (row_order p) Hn); rewrite list_lookup_fmap; [by rewrite Hi|]. rewrite Hj. cbn. f_equal.
    unfold row_order, by_dev, by_time in *. f_equal; lia.
  - apply lex_sort, sort_by_sorted.
  - apply lex_sort, sort_by_sorted.
  - by rewrite !sort_by_perm.
Qed.
End latest.
