(* ===== verification/QuerierSpec.v ===== *)
(** * The two backends are interchangeable

    At whole milliseconds, the resolution of the SQLite columns, and away from
    the corners where the engines differ, a statement does the same on both
    backends: the same answer, the same rows left, the same faults.  The corners
    are spelt out in [fits], and, for transactions, in [tx_fits]. *)

From stdpp Require Import sorting.
From S2P Require StoreAccounts StoreCircles StorePings PgAccounts PgCircles PgPings LatestSpec.
From S2P Require Import Prelude Table GoTime Models Api Ext Hub World Demo Querier.
Local Open Scope Z_scope.

(** ** Instants *)

Definition whole (t : time) : Prop := t mod Millisecond = 0.

Lemma whole_tv t : whole t -> tv t = t.
Proof. unfold whole, tv. intros Ht. pose proof (Z.div_mod t Millisecond ltac:(done)). lia. Qed.

Lemma whole_pgts t : whole t -> PgAccounts.pgts t = t.
Proof.
  unfold whole, PgAccounts.pgts, PgAccounts.Microsecond, Millisecond. intros Ht. Z.div_mod_to_equations. lia.
Qed.

Lemma whole_sub t d : whole t -> d mod Millisecond = 0 -> whole (Add t (- d)).
Proof. unfold whole, Add, Millisecond. intros Ht Hd. Z.div_mod_to_equations. lia. Qed.

Lemma whole_days t n : whole t -> whole (AddDays t n).
Proof. unfold whole, AddDays, Day, Hour, Minute, Second, Millisecond. intros Ht. Z.div_mod_to_equations. lia. Qed.

Definition whole_opt (t : option time) : Prop := match t with Some t => whole t | None => True end.

Lemma whole_tvp t : whole_opt t -> tvp t = t.
Proof. destruct t as [t|]; [|done]. intros Ht. cbn. by rewrite whole_tv. Qed.

Lemma whole_pgtsp t : whole_opt t -> PgAccounts.pgtsp t = t.
Proof. destruct t as [t|]; [|done]. intros Ht. unfold PgAccounts.pgtsp. cbn. by rewrite whole_pgts. Qed.

(** ** One statement *)

Lemma sql_at {A} (f g : time -> DB -> result error (A * DB)) w :
  f (w_now w) (w_db w) = g (w_now w) (w_db w) -> sql f w = sql g w.
Proof.
  intros Hfg. unfold sql. destruct (next_fault w) as [b w1] eqn:Hf. destruct (next_fault_same _ _ _ Hf) as (Hd & Hn & _).
  by rewrite Hd, Hn, Hfg.
Qed.

Lemma query_at {A} (f g : time -> DB -> result error A) w :
  f (w_now w) (w_db w) = g (w_now w) (w_db w) -> query f w = query g w.
Proof. intros Hfg. unfold query. apply sql_at. by rewrite Hfg. Qed.

Lemma uuid_at {A} (k k' : uuid -> M A) w :
  (forall id w', w_now w' = w_now w -> w_db w' = w_db w -> k id w' = k' id w') ->
  M_bind uuid_New k w = M_bind uuid_New k' w.
Proof. intros Hk. unfold M_bind, uuid_New. by apply Hk. Qed.

(** ** Order *)

Definition no_ties {R} (key : R -> Z) (rows : list R) : Prop := NoDup (key <$> rows).

Lemma no_ties_order {R} (key : R -> Z) (l l' : list R) : l ≡ₚ l' -> no_ties key l' -> sort_by key l = sort_by key l'.
Proof.
  intros Hl Hn. apply (StronglySorted_unique_strong (key_le key)).
  - intros x y Hx Hy H1 H2. rewrite sort_by_perm, Hl in Hx. rewrite sort_by_perm in Hy.
    apply list_elem_of_lookup in Hx as [i Hi], Hy as [j Hj]. assert (i = j) as <-; [|congruence].
    eapply (NoDup_lookup _ i j (key x) Hn); rewrite list_lookup_fmap; [by rewrite Hi|]. rewrite Hj. cbn. f_equal.
    unfold key_le in *. lia.
  - apply sort_by_sorted.
  - apply sort_by_sorted.
  - by rewrite !sort_by_perm.
Qed.

Section agree.
Context (citext : string -> string) (scan : forall R : Type, list R -> list R) (has_partition : time -> bool).

(** The executor comes to every row, in some order. *)
Definition scan_law : Prop := forall R (l : list R), scan R l ≡ₚ l.

(** citext folds ASCII letters as NOCASE does. *)
Definition citext_law : Prop := forall s, is_ascii s = true -> citext s = StoreAccounts.nocase s.

(** The emails stored are ASCII. *)
Definition ascii_emails (db : DB) : Prop :=
  Forall (fun u => is_ascii (User_Email u) = true) (users db) /\
  Forall (fun la => match LoginAttempt_Email la with Some e => is_ascii e = true | None => True end) (login_attempts db).

(** Instants that both engines hold: whole milliseconds, in the years 0 to 9999. *)
Definition instant (t : time) : Prop := whole t /\ -62167219200 * Second <= t < 253402300800 * Second.
Definition instant_opt (t : option time) : Prop := match t with Some t => instant t | None => True end.

(** No two of the rows that an ORDER BY sorts are equal in its key; where nothing
    sorts them, the executor happens to come to them as they were inserted. *)
Definition order_fits {A} (s : stmt A) (now : time) (db : DB) : Prop :=
  match s with
  | SAllCircleRetention => scan _ ((fun c => (Circle_ID c, Circle_RetentionDays c)) <$> circles db) =
      ((fun c => (Circle_ID c, Circle_RetentionDays c)) <$> circles db)
  | SGetSessionByPrevRefreshHash h =>
      (length (filter (fun s => h <> None /\ Session_PrevRefreshHash s = h /\ Session_RevokedAt s = None) (sessions db)) <= 1)%nat
  | SLatestActiveVersion p => no_ties (fun v => - AppVersion_VersionCode v)
      (filter (fun v => AppVersion_Platform v = p /\ AppVersion_IsActive v = true) (app_versions db))
  | SLatestPingsForCircle c => NoDup (LatestSpec.row_order <$> filter (fun p => Ping_CircleID p = c) (pings db))
  | SListActiveSOS c => no_ties (fun e => - SosEvent_CreatedAt e)
      (filter (fun e => SosEvent_CircleID e = c /\ SosEvent_ResolvedAt e = None) (sos_events db))
  | SListActiveSessionsForUser u => no_ties (fun sd => - Session_RotatedAt sd.1)
      (StoreAccounts.sql_join (fun s d => Device_ID d = Session_DeviceID s /\ Session_UserID s = u /\
        Session_RevokedAt s = None /\ Session_RefreshExpiresAt s > now) (sessions db) (devices db))
  | SListAuditForUser u _ => no_ties (fun a => - AuditLog_Ts a)
      (filter (fun a => u <> None /\ AuditLog_ActorUserID a = u) (audit_log db))
  | SListCircleDevices c => no_ties Device_CreatedAt
      (fst <$> StoreAccounts.sql_join (fun d cm => CircleMember_UserID cm = Device_UserID d /\ CircleMember_CircleID cm = c)
        (devices db) (circle_members db))
  | SListCirclePushSubscriptions c u => no_ties PushSubscription_CreatedAt
      (fst <$> StoreAccounts.sql_join (fun ps cm => CircleMember_UserID cm = PushSubscription_UserID ps /\
          CircleMember_CircleID cm = c /\ PushSubscription_UserID ps <> u /\
          ~ Exists (StoreAccounts.silences (PushSubscription_UserID ps) c u) (notification_mutes db))
        (push_subscriptions db) (circle_members db))
  | SListCirclesForUser u => no_ties (fun cm => Circle_CreatedAt cm.1)
      (StoreAccounts.sql_join (fun c m => CircleMember_CircleID m = Circle_ID c /\ CircleMember_UserID m = u)
        (circles db) (circle_members db))
  | SListDevicesForUser u => no_ties Device_CreatedAt (filter (fun d => Device_UserID d = u) (devices db))
  | SListInvitesForCircle c => no_ties (fun i => - Invite_CreatedAt i)
      (filter (fun i => Invite_CircleID i = c /\ Invite_Status i = "active"%string /\ Invite_ExpiresAt i > now) (invites db))
  | SListMembers c => no_ties (fun mu => CircleMember_JoinedAt mu.1)
      (StoreAccounts.sql_join (fun m u => User_ID u = CircleMember_UserID m /\ CircleMember_CircleID m = c)
        (circle_members db) (users db))
  | SListMutes u c => no_ties NotificationMute_CreatedAt (filter (StoreCircles.mutes_of u c) (notification_mutes db))
  | SListPlaces c => no_ties PlacesEnc_CreatedAt
      (filter (fun p => PlacesEnc_CircleID p = c /\ PlacesEnc_Deleted p = false) (places_enc db))
  | SListShareSessionsForUser u => no_ties (fun s => - ShareSession_CreatedAt s)
      (filter (fun s => ShareSession_UserID s = u /\ ShareSession_ExpiresAt s > now) (share_sessions db))
  | SPendingEnvelopesForDevice d => no_ties KeyEnvelope_CreatedAt
      (filter (fun e => KeyEnvelope_RecipientDeviceID e = d /\ KeyEnvelope_ConsumedAt e = None) (key_envelopes db))
  | _ => True
  end.

(** What keeps a statement clear of the differences of the engines: its texts are
    valid UTF-8 without the byte 0; the rows it lists are in one order; instants are
    whole milliseconds of the first ten millennia; emails, where compared, are ASCII;
    an int column is not about to overflow; the window of the lockout starts after
    1970; a ping has a partition; hours fit an int64 of nanoseconds; the array of ANY
    is not empty. *)
Definition fits {A} (s : stmt A) (now : time) (db : DB) : Prop :=
  instant now /\ pg_accepts s = true /\ order_fits s now db /\
  match s with
  | SCreateInvite _ _ _ _ t | SCreateShareSession _ t | SPrunePlaceTombstones t | SUpsertSharePosition _ _ _ t => instant t
  | SCreateSession _ _ _ _ t u | SRotateSession _ _ _ _ t u => instant t /\ instant u
  | SPruneResolvedSOS t => instant_opt t
  | SInsertPing _ _ _ _ _ t u => instant t /\ instant_opt u /\ has_partition t = true
  | SCreateUser e _ | SEmailExists e | SGetUserByEmail e => is_ascii e = true /\ ascii_emails db
  | SCountRecentFailuresByEmail e window =>
      whole window /\ 0 <= now - window /\ ascii_emails db /\ match e with Some e => is_ascii e = true | None => True end
  | SCountRecentFailuresByIP _ window => whole window
  | SPruneStalePings hours | SPruneShareSessions hours => 0 <= hours <= 2 ^ 20
  | SBumpCircleKeyEpoch _ => Forall (fun c => in_int 32 (Circle_KeyEpoch c + 1)) (circles db)
  | SConsumeInvite _ => Forall (fun i => in_int 32 (Invite_Uses i + 1)) (invites db)
  | SSoftDeletePlace _ _ _ | SUpdatePlace _ _ _ _ _ => Forall (fun p => in_int 32 (PlacesEnc_Version p + 1)) (places_enc db)
  | SCountMembersIn _ l => l <> []
  | _ => True
  end.

Lemma instant_whole_opt t : instant_opt t -> whole_opt t.
Proof. destruct t; [by intros []|done]. Qed.

(** A statement that reads the clock as both backends do. *)
Ltac clock Hw :=
  cbv beta zeta; unfold sqNow, PgAccounts.pgNow;
  rewrite ?(whole_tv _ Hw), ?(whole_pgts _ Hw);
  repeat match goal with
  | |- context [tv (AddDays ?t ?n)] => rewrite (whole_tv (AddDays t n)) by (by apply whole_days)
  | H : whole ?t |- context [tv ?t] => rewrite (whole_tv t H)
  | H : whole ?t |- context [PgAccounts.pgts ?t] => rewrite (whole_pgts t H)
  | H : whole_opt ?t |- context [tvp ?t] => rewrite (whole_tvp t H)
  | H : whole_opt ?t |- context [PgAccounts.pgtsp ?t] => rewrite (whole_pgtsp t H)
  end.

Ltac same_statement :=
  first [apply uuid_at; intros id w' Hnow Hdb; apply sql_at; rewrite ?Hnow, ?Hdb | apply sql_at | apply query_at].

Lemma require_holds {B} (P : Prop) `{Decision P} (k : result error B) : P -> require P k = k.
Proof. intros HP. unfold require, guard_res. by rewrite bool_decide_eq_true_2. Qed.

Lemma filter_in {R} (P Q : R -> Prop) `{forall r, Decision (P r)} `{forall r, Decision (Q r)} (l : list R) :
  (forall r, r ∈ l -> P r <-> Q r) -> filter P l = filter Q l.
Proof.
  induction l as [|r l IH]; intros Hpq; [done|]. rewrite !filter_cons.
  rewrite IH by (intros r' Hr'; apply Hpq; by right). pose proof (Hpq r ltac:(by left)).
  destruct (decide (P r)), (decide (Q r)); tauto.
Qed.

Lemma update_where_in {R} (P Q : R -> Prop) `{forall r, Decision (P r)} `{forall r, Decision (Q r)} f (l : list R) :
  (forall r, r ∈ l -> P r <-> Q r) -> update_where P f l = update_where Q f l.
Proof.
  intros Hpq. unfold update_where. apply list_fmap_ext. intros i r Hi. apply list_elem_of_lookup_2, Hpq in Hi.
  destruct (decide (P r)), (decide (Q r)); tauto.
Qed.

Lemma count_where_in {R} (P Q : R -> Prop) `{forall r, Decision (P r)} `{forall r, Decision (Q r)} (l : list R) :
  (forall r, r ∈ l -> P r <-> Q r) -> count_where P l = count_where Q l.
Proof. intros Hpq. unfold count_where. by rewrite (filter_in P Q l Hpq). Qed.

(** The first row selected is a row of the table. *)
Lemma bind_one {R B} (P : R -> Prop) `{forall r, Decision (P r)} (l : list R) (k k' : R -> result error B) :
  (forall r, r ∈ l -> P r -> k r = k' r) -> result_bind (one (filter P l)) k = result_bind (one (filter P l)) k'.
Proof.
  intros Hk. destruct (one (filter P l)) as [r|] eqn:Ho; [|done]. apply StoreAccounts.one_Ok in Ho as [HP Hr]. by apply Hk.
Qed.

Lemma emails_fold Email db (Hcit : citext_law) : is_ascii Email = true -> ascii_emails db ->
  citext Email = StoreAccounts.nocase Email /\
  PgAccounts.user_email citext <$> users db = StoreAccounts.user_email <$> users db.
Proof.
  intros He [Hu _]. split; [by apply Hcit|]. apply list_fmap_ext. intros i u Hi.
  apply list_elem_of_lookup_2 in Hi. eapply Forall_forall in Hu; [|done]. by apply Hcit.
Qed.

Lemma counters_agree w : whole (w_now w) ->
  (forall id, Forall (fun c => in_int 32 (Circle_KeyEpoch c + 1)) (circles (w_db w)) ->
     PgCircles.BumpCircleKeyEpoch id w = StoreCircles.BumpCircleKeyEpoch id w) /\
  (forall id, Forall (fun i => in_int 32 (Invite_Uses i + 1)) (invites (w_db w)) ->
     PgCircles.ConsumeInvite id w = StoreCircles.ConsumeInvite id w) /\
  (forall P `{forall p, Decision (P p)} by_ g, Forall (fun p => in_int 32 (PlacesEnc_Version p + 1)) (places_enc (w_db w)) ->
     PgCircles.update_place_returning P by_ g w = StoreCircles.touch_place P by_ g w).
Proof.
  intros Hw. split; [|split].
  - intros id Hc. apply sql_at. cbv beta zeta. apply bind_one. intros r Hr _. apply require_holds.
    by eapply Forall_forall in Hc.
  - intros id Hi. apply sql_at. clock Hw.
    set (P := fun i => Invite_ID i = id /\ Invite_Status i = _ /\ _). set (Q := fun i => _ /\ StoreCircles.invite_live _ i).
    assert (forall i, i ∈ invites (w_db w) -> P i <-> Q i) as Hpq.
    { intros i _. subst P Q. unfold StoreCircles.invite_live. by rewrite (whole_tv _ Hw). }
    rewrite (filter_in P Q _ Hpq), (update_where_in P Q _ _ Hpq). apply bind_one. intros r Hr _. apply require_holds. by eapply Forall_forall in Hi.
  - intros P HP by_ g Hp. apply sql_at. clock Hw. apply bind_one. intros r Hr _. apply require_holds. by eapply Forall_forall in Hp.
Qed.
Lemma attempts_agree e w (Hcit : citext_law) : ascii_emails (w_db w) ->
  match e with Some e => is_ascii e = true | None => True end ->
  forall la, la ∈ login_attempts (w_db w) -> PgAccounts.attempt_of citext e la <-> StoreAccounts.attempt_of e la.
Proof.
  intros [_ Hl] He la Hla. eapply Forall_forall in Hl; [|exact Hla]. unfold PgAccounts.attempt_of, StoreAccounts.attempt_of.
  destruct e as [e|]; [|tauto]. cbn. rewrite Hcit by done. destruct (LoginAttempt_Email la) as [e'|]; [|done]. cbn. by rewrite Hcit.
Qed.

Lemma failures_agree e window w (Hcit : citext_law) : whole (w_now w) -> whole window -> 0 <= w_now w - window ->
  ascii_emails (w_db w) -> match e with Some e => is_ascii e = true | None => True end ->
  PgAccounts.CountRecentFailuresByEmail citext e window w = StoreAccounts.CountRecentFailuresByEmail e window w.
Proof.
  intros Hw Hwin Hpos Hdb He. apply query_at. clock Hw. rewrite (whole_tv (Add _ _)) by (by apply whole_sub).
  pose proof (attempts_agree e w Hcit Hdb He) as Hof.
  rewrite (filter_in (fun la => PgAccounts.attempt_of citext e la /\ LoginAttempt_Success la = true)
    (fun la => StoreAccounts.attempt_of e la /\ LoginAttempt_Success la = true)) by (intros la Hla; by rewrite (Hof la Hla)).
  f_equal. apply count_where_in. intros la Hla. rewrite (Hof la Hla). set (m := StoreAccounts.sql_max _). unfold Add.
  assert (sqliteEpoch < 0) by done. destruct m as [m|]; cbn [default]; unfold default, id; [tauto|]. intuition lia.
Qed.

Lemma users_agree w (Hcit : citext_law) : whole (w_now w) -> ascii_emails (w_db w) -> forall e, is_ascii e = true ->
  (forall hash, PgAccounts.CreateUser citext e hash w = StoreAccounts.CreateUser e hash w) /\
  PgAccounts.EmailExists citext e w = StoreAccounts.EmailExists e w /\
  PgAccounts.GetUserByEmail citext e w = StoreAccounts.GetUserByEmail e w.
Proof.
  intros Hw Hdb e He. destruct (emails_fold e (w_db w) Hcit He Hdb) as [Hfold Hmap]. split; [|split].
  - intros hash. apply uuid_at. intros id w' Hnow Hd. apply sql_at. rewrite Hnow, Hd. clock Hw. by rewrite Hfold, Hmap.
  - apply query_at. by rewrite Hfold, Hmap.
  - apply query_at. f_equal. apply filter_in. intros u Hu. rewrite Hfold. destruct Hdb as [Hdb _].
    eapply Forall_forall in Hdb; [|exact Hu]. unfold PgAccounts.user_email. by rewrite Hcit.
Qed.

Lemma hours_exact k : 0 <= k <= 2 ^ 20 -> Duration_mul (- k) Hour = - (k * Hour).
Proof. intros Hk. unfold Duration_mul, wrap64. rewrite wrap_id; unfold in_int, Hour, Minute, Second, Millisecond in *; lia. Qed.

Lemma hours_agree w k : whole (w_now w) -> 0 <= k <= 2 ^ 20 ->
  PgPings.PruneStalePings k w = StorePings.PruneStalePings k w /\
  PgPings.PruneShareSessions k w = StorePings.PruneShareSessions k w.
Proof.
  intros Hw Hk. assert (whole (Add (w_now w) (- (k * Hour)))) as Hc.
  { apply whole_sub; [done|]. unfold Hour, Minute, Second. rewrite !Z.mul_assoc. apply Z.mod_mul. done. }
  split; apply sql_at; clock Hw; rewrite hours_exact, (whole_tv _ Hc), Z.mul_opp_l by done; reflexivity.
Qed.

(** A cutoff that the clock gives. *)
Lemma window_agrees w d : whole (w_now w) -> d mod Millisecond = 0 ->
  tv (Add (w_now w) (- d)) = Add (PgAccounts.pgNow (w_now w)) (- d).
Proof. intros Hw Hd. unfold PgAccounts.pgNow. by rewrite (whole_pgts _ Hw), whole_tv by by apply whole_sub. Qed.

Lemma day_before t : AddDays t (-1) = Add t (- (24 * Hour)).
Proof. unfold AddDays, Add, Day. lia. Qed.

(** One row comes in one order. *)
Lemma scan_short R (l : list R) : scan_law -> (length l <= 1)%nat -> scan R l = l.
Proof.
  intros Hscan Hl. specialize (Hscan R l). destruct l as [|x [|y l]]; simpl in *; [|by apply Permutation_singleton_r|lia].
  by apply Permutation_nil_r.
Qed.

(** A statement that sorts what the executor comes to. *)
Ltac same_order Hw Hscan Ho :=
  same_statement; clock Hw;
  first [ by rewrite (no_ties_order _ _ _ (Hscan _ _) Ho) | by erewrite no_ties_order by (apply Hscan || exact Ho) ].

Lemma statement_agrees {A} (s : stmt A) w (Hcit : citext_law) (Hscan : scan_law) : fits s (w_now w) (w_db w) ->
  pg_statement citext scan has_partition s w = sqlite s w.
Proof.
  intros ([Hw _] & _ & Ho & Hs). destruct s; cbn [pg_statement sqlite]; cbn [order_fits] in Ho;
    try reflexivity; try (same_statement; clock Hw; reflexivity); try (same_order Hw Hscan Ho);
    unfold instant in Hs; destruct_and? Hs;
    repeat match goal with H : instant_opt _ |- _ => apply instant_whole_opt in H end;
    try (same_statement; clock Hw; reflexivity).
  - apply query_at. cbv beta. by rewrite Ho.
  - by apply (counters_agree w Hw).
  - by apply (counters_agree w Hw).
  - unfold StoreCircles.CountMembersIn. by rewrite decide_False.
  - by apply failures_agree.
  - apply query_at. cbv beta zeta. by rewrite (window_agrees w Window).
  - apply query_at. cbv beta zeta. by rewrite (window_agrees w Hour).
  - unfold StoreCircles.CreateKeyEnvelope, StoreCircles.reissue. same_statement. clock Hw. reflexivity.
  - by apply users_agree.
  - apply sql_at. cbv beta zeta. by rewrite (window_agrees w (24 * Hour)), day_before.
  - by apply users_agree.
  - apply query_at. cbv beta. by rewrite (scan_short _ _ Hscan Ho).
  - by apply users_agree.
  - same_statement. clock Hw. by rewrite require_holds.
  - apply query_at. cbv beta. rewrite <- LatestSpec.distinct_on_first. do 2 f_equal. symmetry.
    apply LatestSpec.latest_order_unique; [symmetry; apply Hscan|exact Ho].
  - by apply hours_agree.
  - by apply hours_agree.
  - apply sql_at. unfold StoreAccounts.rotated. clock Hw. reflexivity.
  - apply (counters_agree w Hw). done.
  - apply (counters_agree w Hw). done.
Qed.

Lemma backend_agrees {A} (s : stmt A) w (Hcit : citext_law) (Hscan : scan_law) : fits s (w_now w) (w_db w) ->
  postgres citext scan has_partition s w = sqlite s w.
Proof. intros Hs. unfold postgres. pose proof Hs as (_ & -> & _). by apply statement_agrees. Qed.

(** ** Clients *)

(** A statement whose row takes its number from a sequence, which Postgres does not
    wind back when a transaction is. *)
Definition numbers_rows {A} (s : stmt A) : bool :=
  match s with SWriteAudit _ _ _ _ _ _ | SRecordLoginAttempt _ _ _ => true | _ => false end.

Definition gives_up {A} (t : tx A) : Prop := match t with Rollback _ => True | _ => False end.

(** Every statement of a transaction, of a client, fits when SQLite comes to it; and a
    transaction gives up when a statement of it fails. *)
Fixpoint tx_fits {A} (t : tx A) (w : World) : Prop :=
  match t with
  | Do s k => fits s (w_now w) (w_db w) /\ numbers_rows s = false /\
      let '(r, w') := sqlite s w in (if fails r then gives_up (k r) else tx_fits (k r) w')
  | _ => True
  end.

Fixpoint client_fits {A} (c : client A) (w : World) : Prop :=
  match c with
  | Return _ => True
  | Call s k => fits s (w_now w) (w_db w) /\ let '(r, w') := sqlite s w in client_fits (k r) w'
  | Transact body k =>
      (let '(failed, w1) := next_fault w in if failed : bool then True else tx_fits body w1) /\
      let '(r, w') := WithTx (tx_run (@sqlite) body) w in client_fits (k r) w'
  | Meanwhile others k => client_fits k (others w)
  end.

Abbreviation backend := (fun X => @postgres citext scan has_partition X).

Lemma tx_agrees {A} (t : tx A) w (Hcit : citext_law) (Hscan : scan_law) : tx_fits t w ->
  pg_tx backend t false w = tx_run (@sqlite) t w.
Proof.
  revert w. induction t as [a|e|X s k IH]; intros w; [done..|]. intros (Hs & _ & Hk). cbn [pg_tx tx_run].
  rewrite backend_agrees by done. destruct (sqlite s w) as [r w']. destruct (fails r); [|by apply IH].
  by destruct (k r).
Qed.

Lemma WithTx_at {A} (f g : M A) w :
  (let '(failed, w1) := next_fault w in if failed : bool then True else f w1 = g w1) -> WithTx f w = WithTx g w.
Proof. unfold WithTx. destruct (next_fault w) as [[|] w1]; [done|]. by intros ->. Qed.

End agree.

(** A registration, the same address again in capitals, a circle with its owner in
    one transaction, another that a role the schema does not know ends, two pings of a
    device a minute apart and the latest of them, the members. *)
Definition demo_client : client (list (option uuid) * list string) :=
  Call (SCreateUser "anna@example.com" "hash") (fun u =>
  Call (SCreateUser "ANNA@example.com" "hash") (fun again =>
  match u, again with
  | Ok u, Err _ =>
      Call (SCreateDevice (User_ID u) "web" None None) (fun d =>
      Transact (Do (SCreateCircle None 30 (User_ID u)) (fun c =>
        match c with
        | Ok c => Do (SAddMember (Circle_ID c) (User_ID u) "owner") (fun m =>
            match m with Ok _ => Commit (Circle_ID c) | Err e => Rollback e end)
        | Err e => Rollback e
        end)) (fun c =>
      match d, c with
      | Ok d, Ok c =>
          Transact (Do (SAddMember c (User_ID u) "queen") (fun m =>
            match m with Ok _ => Commit tt | Err e => Rollback e end)) (fun _ =>
          Call (SInsertPing c (Device_ID d) "a" [] [] (w_now demo_world) None) (fun _ =>
          Meanwhile (set_now (GoTime.Add (w_now demo_world) Minute))
            (Call (SInsertPing c (Device_ID d) "b" [] [] (GoTime.Add (w_now demo_world) Minute) None) (fun p =>
          Call (SLatestPingsForCircle c) (fun l =>
          Call (SListMembers c) (fun ms =>
          Return (match p, l with Ok p, Ok [p'] => [Some (Ping_ID p); Some (Ping_ID p')] | _, _ => [] end,
                  match ms with Ok ms => CircleMember_Role <$> ms.*1 | Err _ => [] end)))))))
      | _, _ => Return ([], [])
      end))
  | _, _ => Return ([], [])
  end)).

Definition demo_postgres : engine := postgres_engine StoreAccounts.nocase (fun R l => rev l) (fun _ => true).


(** A transaction that goes on after a failure tells the engines apart: what SQLite
    commits, Postgres rolls back. *)
Lemma ignored_failure_tells :
  let body := Do (SCreateUser "anna@example.com" "hash") (fun _ => Do (SCreateUser "anna@example.com" "hash") (fun _ => Commit tt)) in
  let after e := fst (talk e (Transact body (fun r => Call (SEmailExists "anna@example.com") (fun x => Return (r, x)))) demo_world) in
  after sqlite_engine = (Ok tt, Ok true) /\ after demo_postgres = (Err ErrDriver, Ok false).
Proof. split; vm_compute; reflexivity. Qed.
