(* ===== verification/PublishSpec.v ===== *)
(** * A published release is what clients are told *)

From S2P Require Import Prelude Table GoTime Models Api Ext Hub World Demo StoreAccounts StoreWf Querier Config Text AuthApi Publish.
Local Open Scope string_scope.
Local Open Scope Z_scope.

Lemma guard_Ok {E A} b (e : E) (k : result E A) a : guard_res b e k = Ok a -> b = true /\ k = Ok a.
Proof. by destruct b. Qed.

(** ** The row *)

(** What a release must be before it can be published. *)
Definition releasable (row : AppVersion) : Prop :=
  AppVersion_Platform row ∈ ["android"; "ios"] /\
  1 <= AppVersion_VersionCode row <= MaxInt32 /\ AppVersion_VersionName row <> "" /\
  0 <= AppVersion_MinSupported row <= MaxInt32 /\ AppVersion_IsActive row = true /\
  (forall sha, AppVersion_Sha256 row = Some sha -> sha256HexRe sha = true) /\
  (AppVersion_ApkUrl row <> None -> AppVersion_Sha256 row <> None).

(** The row the parameters make. *)
Definition row_of (p : UpsertAppVersionParams) (row : AppVersion) : Prop :=
  AppVersion_Platform row = up_Platform p /\ AppVersion_VersionCode row = up_VersionCode p /\
  AppVersion_VersionName row = up_VersionName p /\ AppVersion_ApkUrl row = up_ApkUrl p /\
  AppVersion_Sha256 row = up_Sha256 p /\ AppVersion_Changelog row = up_Changelog p /\
  AppVersion_MinSupported row = up_MinSupported p /\ AppVersion_IsActive row = true.

Lemma wrap32_id n : in_int 32 n -> wrap32 n = n.
Proof. apply wrap_id. done. Qed.

Lemma parsed_releasable `{Ext} args p row : parsePublishFlags args = Ok p -> row_of p row -> releasable row.
Proof.
  unfold parsePublishFlags. destruct (parse_flags args default_flags) as [f|e]; [|done]. cbn [result_bind].
  intros (_ & (Hp & (Hc & (Hn & (Hm & (Hs & (Hu & Hok)%guard_Ok)%guard_Ok)%guard_Ok)%guard_Ok)%guard_Ok)%guard_Ok)%guard_Ok.
  injection Hok as <-. unfold row_of, releasable. cbn. intros (-> & -> & -> & -> & -> & _ & -> & ->).
  apply bool_decide_eq_true in Hp. apply negb_true_iff, orb_false_iff in Hc as [Hc1%Z.leb_gt Hc2%Z.ltb_ge].
  apply negb_true_iff, orb_false_iff in Hm as [Hm1%Z.ltb_ge Hm2%Z.ltb_ge]. apply negb_true_iff, bool_decide_eq_false in Hn.
  unfold MaxInt32 in *. rewrite !wrap32_id by (unfold in_int; lia). unfold optStr. split_and!; try done; try lia.
  - intros sha Hsha. destruct (empty (ToLower (TrimSpace (fl_sha256 f)))) eqn:He; [done|]. injection Hsha as <-.
    cbn in Hs. by apply negb_true_iff, negb_false_iff in Hs.
  - destruct (empty (TrimSpace (fl_apk_url f))); [done|]. cbn in Hu. by destruct (empty (ToLower _)).
Qed.

(** ** The store *)

Lemma require_Ok {A} (P : Prop) `{Decision P} (k : result error A) a : require P k = Ok a -> P /\ k = Ok a.
Proof. intros [HP Hk]%guard_Ok. by apply bool_decide_eq_true in HP. Qed.

Lemma row_of_upserted p id now row : row = mkAppVersion id (up_Platform p) (up_VersionCode p) (up_VersionName p) (up_ApkUrl p)
  (up_Sha256 p) (up_Changelog p) (up_MinSupported p) true now -> row_of p row.
Proof. by intros ->. Qed.

(** The upsert leaves its row, and the others as they were. *)
Lemma upserted p w row w' :
  UpsertAppVersion (up_Platform p) (up_VersionCode p) (up_VersionName p) (up_ApkUrl p) (up_Sha256 p) (up_Changelog p)
    (up_MinSupported p) w = (Ok row, w') ->
  row_of p row /\ row ∈ app_versions (w_db w') /\
  (forall v, v ∈ app_versions (w_db w') -> version_key v = version_key row \/ v ∈ app_versions (w_db w)) /\
  forall v, v ∈ app_versions (w_db w) -> version_key v = version_key row \/ v ∈ app_versions (w_db w').
Proof.
  unfold UpsertAppVersion. intros (id & w1 & [= <- <-] & (Hf & _)%sql_Ok)%bind_Ok. revert Hf. cbv zeta.
  intros [_ Hf]%require_Ok. destruct (filter _ _) as [|old l] eqn:Hl.
  - apply require_Ok in Hf as [_ Hf]. injection Hf as <- <-. split; [done|]. cbn. split; [set_solver|].
    split; [intros v [Hv| ->%list_elem_of_singleton]%elem_of_app; auto|]. intros v Hv. right. set_solver.
  - injection Hf as <- <-. assert (old ∈ old :: l) as Hold by by left. rewrite <- Hl in Hold.
    apply list_elem_of_filter in Hold as [[Hop Hoc] Hold]. split; [destruct old; cbn in *; by rewrite Hop, Hoc|]. cbn. split.
    + apply list_elem_of_fmap. exists old. by rewrite decide_True.
    + unfold version_key. cbn. rewrite Hop, Hoc. split; intros v.
      * intros (v0 & -> & Hv0)%list_elem_of_fmap. destruct (decide _) as [[Hp Hc]|]; [left|by right]. cbn. by rewrite Hp, Hc.
      * intros Hv. destruct (decide (AppVersion_Platform v = up_Platform p /\ AppVersion_VersionCode v = up_VersionCode p))
          as [[-> ->]|Hn]; [by left|right]. apply list_elem_of_fmap. exists v. by rewrite decide_False.
Qed.


(** The endpoint serves an active release of the platform with the largest code. *)
Lemma latest_served platform w v : w_faults w = [] -> platform ∈ ["android"; "ios"] ->
  v ∈ app_versions (w_db w) -> AppVersion_Platform v = platform -> AppVersion_IsActive v = true ->
  exists u, run (handleVersionLatest platform) w = (WriteJSON 200 (BVersion u), w) /\ u ∈ app_versions (w_db w) /\
    AppVersion_Platform u = platform /\ AppVersion_IsActive u = true /\
    forall v', v' ∈ app_versions (w_db w) -> AppVersion_Platform v' = platform -> AppVersion_IsActive v' = true ->
      AppVersion_VersionCode v' <= AppVersion_VersionCode u.
Proof.
  intros Hf Hp Hv Hvp Hva. unfold handleVersionLatest, check. rewrite (proj2 (bool_decide_eq_true _)) by done.
  cbn [run attempt]. unfold LatestActiveVersion. rewrite query_nofault by done.
  set (mine := filter _ (app_versions (w_db w))). set (sorted := sort_by _ mine).
  assert (forall u, u ∈ sorted <-> (AppVersion_Platform u = platform /\ AppVersion_IsActive u = true) /\ u ∈ app_versions (w_db w)) as Hmine.
  { intros u. unfold sorted, mine. by rewrite elem_of_sort_by, list_elem_of_filter. }
  pose proof (sort_by_sorted (fun v => - AppVersion_VersionCode v) mine) as Hsorted. fold sorted in Hsorted. clearbody sorted.
  destruct sorted as [|u l]; [by destruct (not_elem_of_nil v); apply Hmine|].
  exists u. cbn. destruct (proj1 (Hmine u) ltac:(by left)) as [[Hup Hua] Hu]. split_and!; [done..|].
  intros v' Hv' Hv'p Hv'a. assert (v' ∈ u :: l) as Hin by by apply Hmine.
  apply elem_of_cons in Hin as [->|Hin]; [lia|]. inversion Hsorted as [|? ? _ Hall]; subst.
  eapply Forall_forall in Hall; [|exact Hin]. unfold key_le in Hall. lia.
Qed.

(** C32: on SQLite, with no failing statement, a release the command publishes is one clients can trust and are told of:
    its platform is known, its numbers fit the columns, an APK comes with the
    SHA-256 to verify it; and the version endpoint then answers the newest active
    release of the platform: the published row, unless one with a larger code was
    active already, in which case it is that one, unchanged.  A refused command
    leaves the tables as they were. *)
Theorem published_release_served `{Ext} args getenv connect w r w'
    (Hwf : wf_db (w_db w)) (Hf : w_faults w' = []) (Hc : forall b place, connect b place = None \/ connect b place = Some (@sqlite))
    (Hrun : runPublishVersion args getenv connect w = (r, w')) :
  match r with
  | Err _ => w_db w' = w_db w
  | Ok row =>
      releasable row /\ row ∈ app_versions (w_db w') /\
      exists v, run (handleVersionLatest (AppVersion_Platform row)) w' = (WriteJSON 200 (BVersion v), w') /\
        (v = row \/ AppVersion_VersionCode row < AppVersion_VersionCode v /\ v ∈ app_versions (w_db w)) /\
        forall v', v' ∈ app_versions (w_db w) -> AppVersion_Platform v' = AppVersion_Platform row ->
          AppVersion_IsActive v' = true -> AppVersion_VersionCode v' <= AppVersion_VersionCode v
  end.
Proof.
  unfold runPublishVersion in Hrun. destruct (parsePublishFlags args) as [p|e] eqn:Hp; [|by simplify_eq].
  destruct (publish_store getenv) as [[b place]|e]; [|by simplify_eq].
  destruct (Hc b place) as [Hst|Hst]; rewrite Hst in Hrun; [by simplify_eq|]. cbn [sqlite] in Hrun.
  destruct (UpsertAppVersion _ _ _ _ _ _ _ w) as [[row|e] w1] eqn:Hup; simplify_eq.
  - pose proof (wf_UpsertAppVersion (up_Platform p) (up_VersionCode p) (up_VersionName p) (up_ApkUrl p) (up_Sha256 p)
      (up_Changelog p) (up_MinSupported p) w Hwf) as Hwf'. rewrite Hup in Hwf'. cbn in Hwf'.
    destruct (upserted _ _ _ _ Hup) as (Hrow & Hin & Hnew & Hold). pose proof (parsed_releasable _ _ _ Hp Hrow) as Hrel.
    split; [done|]. split; [done|]. pose proof Hrel as (Hplat & _ & _ & _ & Hact & _).
    destruct (latest_served _ _ row Hf Hplat Hin eq_refl Hact) as (v & Hv & Hvin & Hvp & Hva & Hmax). exists v. split; [done|].
    pose proof (Hmax row Hin eq_refl Hact) as Hle. split.
    + destruct (Z.eq_dec (AppVersion_VersionCode v) (AppVersion_VersionCode row)) as [He|Hne].
      * left. apply (uniq_inj version_key (app_versions (w_db w')) v row); [apply Hwf'|done..|]. unfold version_key. by rewrite Hvp, He.
      * right. split; [lia|]. destruct (Hnew v Hvin) as [Hk|]; [|done]. unfold version_key in Hk. congruence.
    + intros v' Hv' Hv'p Hv'a. destruct (Hold v' Hv') as [Hk|Hv'']; [|by apply Hmax].
      unfold version_key in Hk. assert (AppVersion_VersionCode v' = AppVersion_VersionCode row) by congruence. lia.
  - unfold UpsertAppVersion, M_bind, uuid_New in Hup. by apply sql_error in Hup.
Qed.

(** A first release of Android, in an empty store, and what a client is told. *)
Definition demo_args : list string :=
  ["-platform=android"; "--version-code"; "0x2A"; "-version-name=1.4.2"; "-apk-url=https://aul.example.com/aul.apk";
   "-sha256"; "E3B0C44298FC1C149AFBF4C8996FB92427AE41E4649B934CA495991B7852B855"].

Lemma published_release_served_witness :
  let getenv k := if bool_decide (k = "DATABASE_URL") then "sqlite:/var/lib/aul/aul.db" else "" in
  exists row w', runPublishVersion demo_args getenv (fun _ _ => Some (@sqlite)) demo_world = (Ok row, w') /\
    AppVersion_VersionCode row = 42 /\ releasable row.
Proof.
  cbv zeta. destruct (runPublishVersion demo_args _ _ demo_world) as [r w'] eqn:Hrun.
  pose proof (published_release_served _ _ _ demo_world r w' empty_wf ltac:(vm_compute in Hrun; by injection Hrun as <- <-)
    ltac:(by right) Hrun) as Hr.
  destruct r as [row|e]; [|vm_compute in Hrun; discriminate].
  exists row, w'. split; [reflexivity|]. split; [|apply Hr]. vm_compute in Hrun. by injection Hrun as <- <-.
Defined.
