(* ===== verification/HubSys.v ===== *)
(** * The hub, its connections and its callers, interleaved

    [handleRealtime] (internal/httpapi/ws.go) admits a connection, reads the
    user's circles, upgrades, registers a fresh client, forwards frames until
    the socket or the channel closes, then unregisters and releases.  Each of
    these meets the hub at a separate moment: between any two of them the loop
    may dispatch, evict or stop, and other goroutines may publish.  [step] is
    one such moment; every interleaving is a sequence of steps. *)

From S2P Require Import Prelude GoTime Models Api Hub HubInv.
From stdpp Require Import relations.
Local Open Scope Z_scope.

Definition wsSendBuffer : Z := 128.

(** Where a connection's handler is. *)
Inductive phase :=
| Admitted_ (u : uuid)                     (** [Admit] said yes *)
| Listed (u : uuid) (circles : list uuid)  (** [ListCirclesForUser] returned *)
| Created (u : uuid)                       (** [NewClient]; blocked in [Register] *)
| Streaming (u : uuid)                     (** registered *)
| Unregistered (u : uuid).                 (** [Unregister] returned; [Release] is next *)

Definition phase_user (ph : phase) : uuid :=
  match ph with
  | Admitted_ u | Listed u _ | Created u | Streaming u | Unregistered u => u
  end.

Record sys := mkSys { s_hub : Hub; s_conns : gmap ptr phase }.

Definition init (perUser total : Z) : sys := mkSys (SetConnLimits perUser total NewHub) ∅.

Inductive step : sys -> sys -> Prop :=
| st_admit h cs p u h' :
    h_heap h !! p = None -> cs !! p = None -> Admit_conn u h = (true, h') ->
    step (mkSys h cs) (mkSys h' (<[p := Admitted_ u]> cs))
| st_list h cs p u circles :
    cs !! p = Some (Admitted_ u) -> step (mkSys h cs) (mkSys h (<[p := Listed u circles]> cs))
| st_abort h cs p ph :
    cs !! p = Some ph -> (forall u, ph <> Created u /\ ph <> Streaming u) ->
    step (mkSys h cs) (mkSys (Release (phase_user ph) h) (delete p cs))
| st_create h cs p u circles id :
    cs !! p = Some (Listed u circles) ->
    step (mkSys h cs)
      (mkSys (set_heap (<[p := NewClient id u circles wsSendBuffer]> (h_heap h)) h)
             (<[p := Created u]> cs))
| st_register h cs p u h' :
    cs !! p = Some (Created u) -> select_case (CaseRegister p) h = Some h' ->
    step (mkSys h cs) (mkSys h' (<[p := Streaming u]> cs))
| st_unregister h cs p u h' :
    cs !! p = Some (Streaming u) -> select_case (CaseUnregister p) h = Some h' ->
    step (mkSys h cs) (mkSys h' (<[p := Unregistered u]> cs))
| st_receive h cs p u :
    cs !! p = Some (Streaming u) -> step (mkSys h cs) (mkSys (snd (drain p h)) cs)
| st_loop h cs k h' :
    (forall p, k <> CaseRegister p /\ k <> CaseUnregister p) -> select_case k h = Some h' ->
    step (mkSys h cs) (mkSys h' cs)
| st_publish h cs ev : step (mkSys h cs) (mkSys (Publish ev h) cs)
| st_evict_user h cs c u : step (mkSys h cs) (mkSys (EvictUser c u h) cs)
| st_evict_circle h cs c : step (mkSys h cs) (mkSys (EvictCircle c h) cs).

Definition reachable (perUser total : Z) : sys -> Prop := rtc step (init perUser total).

(** ** The invariant *)

Definition user_conns (u : uuid) (cs : gmap ptr phase) : gmap ptr phase :=
  filter (fun kv => phase_user kv.2 = u) cs.

(** Admission accounting: the counters are the number of connections. *)
Record counted (h : Hub) (cs : gmap ptr phase) : Prop := {
  ct_total : h_totalConns h = Z.of_nat (size cs);
  ct_user : forall u, per_user h u = Z.of_nat (size (user_conns u cs));
  ct_max_total : h_totalConns h <= h_maxTotal h;
  ct_max_user : forall u, per_user h u <= h_maxPerUser h
}.

(** Only the clients of streaming connections are registered, and a client
    waiting to register has an open channel. *)
Definition clients_stream (h : Hub) (cs : gmap ptr phase) : Prop :=
  forall p, p ∈ h_clients h -> exists u, cs !! p = Some (Streaming u).

Definition created_open (h : Hub) (cs : gmap ptr phase) : Prop :=
  forall p u, cs !! p = Some (Created u) -> registrable h p.

Record sys_inv (s : sys) : Prop := {
  si_hub : hub_inv (s_hub s);
  si_stream : clients_stream (s_hub s) (s_conns s);
  si_created : created_open (s_hub s) (s_conns s);
  si_counted : counted (s_hub s) (s_conns s)
}.

(** Moving a connection of one user to another phase keeps the count. *)
Lemma user_conns_move cs p ph ph' u :
  cs !! p = Some ph -> phase_user ph' = phase_user ph ->
  size (user_conns u (<[p := ph']> cs)) = size (user_conns u cs).
Proof.
  intros Hp Hu. unfold user_conns. destruct (decide (phase_user ph = u)) as [He|Hne].
  - rewrite map_filter_insert_True by (simpl; congruence).
    apply map_size_insert_Some. exists ph. by apply map_lookup_filter_Some.
  - rewrite map_filter_insert_False by (simpl; congruence).
    rewrite map_filter_delete, map_size_delete_None; [done|].
    apply map_lookup_filter_None. right. intros x Hx. simpl. congruence.
Qed.

Lemma user_conns_new cs p ph u :
  cs !! p = None ->
  size (user_conns u (<[p := ph]> cs)) =
    (if decide (phase_user ph = u) then S (size (user_conns u cs)) else size (user_conns u cs)).
Proof.
  intros Hp. unfold user_conns. case_decide.
  - rewrite map_filter_insert_True by done. apply map_size_insert_None.
    apply map_lookup_filter_None. by left.
  - rewrite map_filter_insert_False by done. rewrite delete_id by done. done.
Qed.

Lemma user_conns_drop cs p ph u :
  cs !! p = Some ph ->
  size (user_conns u (delete p cs)) =
    (if decide (phase_user ph = u) then pred (size (user_conns u cs)) else size (user_conns u cs)).
Proof.
  intros Hp. unfold user_conns. rewrite map_filter_delete. case_decide.
  - apply map_size_delete_Some. exists ph. by apply map_lookup_filter_Some.
  - apply map_size_delete_None, map_lookup_filter_None. right. intros x Hx. simpl. congruence.
Qed.

Lemma counted_same h h' cs : same_conns h h' -> counted h cs -> counted h' cs.
Proof.
  intros (Ht & Hu & Hm1 & Hm2) [Hc1 Hc2 Hc3 Hc4].
  split; unfold per_user in *; rewrite ?Ht, ?Hu, ?Hm1, ?Hm2; done.
Qed.

Lemma counted_move h cs p ph ph' :
  cs !! p = Some ph -> phase_user ph' = phase_user ph -> counted h cs -> counted h (<[p := ph']> cs).
Proof.
  intros Hp Hu [Hc1 Hc2 Hc3 Hc4]. split; [|intros u|done|done].
  - by rewrite map_size_insert_Some by (by exists ph).
  - by rewrite (user_conns_move _ _ ph).
Qed.

Lemma counted_admit h h' cs p u :
  cs !! p = None -> Admit_conn u h = (true, h') -> counted h cs -> counted h' (<[p := Admitted_ u]> cs).
Proof.
  intros Hp Ha [Hc1 Hc2 Hc3 Hc4]. unfold Admit_conn in Ha.
  destruct (_ || _) eqn:Hg; [done|]. simplify_eq.
  apply orb_false_iff in Hg as [Hg1%Z.leb_gt Hg2%Z.leb_gt].
  assert (Hper : forall v, per_user (set_conns (h_totalConns h + 1)
      (<[u:=per_user h u + 1]> (h_perUser h)) h) v = if decide (u = v) then per_user h v + 1 else per_user h v).
  { intros v. unfold per_user. simpl. rewrite lookup_insert. case_decide; [subst|]; done. }
  split; simpl.
  - rewrite map_size_insert_None by done. lia.
  - intros v. rewrite Hper, user_conns_new by done. simpl. specialize (Hc2 v). case_decide; lia.
  - lia.
  - intros v. rewrite Hper. specialize (Hc4 v). case_decide; subst; lia.
Qed.

Lemma counted_release h cs p ph :
  cs !! p = Some ph -> counted h cs -> counted (Release (phase_user ph) h) (delete p cs).
Proof.
  intros Hp [Hc1 Hc2 Hc3 Hc4]. set (u := phase_user ph).
  assert (Hpos : (0 < size (user_conns u cs))%nat).
  { apply Nat.neq_0_lt_0. rewrite map_size_non_empty_iff. intros He.
    assert (Hl : user_conns u cs !! p = Some ph) by (by apply map_lookup_filter_Some).
    by rewrite He in Hl. }
  assert (Hpos2 : (0 < size cs)%nat).
  { apply Nat.neq_0_lt_0. rewrite map_size_non_empty_iff. intros He. by rewrite He in Hp. }
  assert (Hper : forall v, per_user (Release u h) v = if decide (u = v) then per_user h v - 1 else per_user h v).
  { intros v. pose proof (Hc2 u) as Hu. unfold Release. rewrite (proj2 (Z.ltb_lt 0 (per_user h u))) by lia.
    unfold per_user at 1. simpl. destruct (Z.eqb_spec (per_user h u - 1) 0) as [H0|H0].
    - rewrite lookup_delete. case_decide; [subst v; simpl; lia|done].
    - rewrite lookup_insert. case_decide; [subst v; simpl; lia|done]. }
  assert (Htot : h_totalConns (Release u h) = h_totalConns h - 1).
  { unfold Release. simpl. destruct (Z.ltb_spec 0 (h_totalConns h)); lia. }
  split; rewrite ?Htot.
  - rewrite map_size_delete_Some by (by exists ph). lia.
  - intros v. rewrite Hper, (user_conns_drop _ _ ph) by done. fold u. specialize (Hc2 v).
    case_decide; [subst v; lia|done].
  - simpl. lia.
  - intros v. rewrite Hper. specialize (Hc4 v). simpl. case_decide; lia.
Qed.

(** ** Every step preserves the invariant *)

Lemma registrable_frame h h' p :
  h_heap h' !! p = h_heap h !! p -> registrable h p -> registrable h' p.
Proof. unfold registrable. by intros ->. Qed.

Lemma open_non_client h cs p u :
  clients_stream h cs -> cs !! p = Some (Created u) -> p ∉ h_clients h.
Proof. intros Hs Hp Hc. destruct (Hs p Hc). congruence. Qed.

(** A connection outside the streaming phase moves; the others keep theirs. *)
Lemma stream_move h h' cs p ph :
  (forall q, q ∈ h_clients h' -> q ∈ h_clients h /\ q <> p) -> clients_stream h cs ->
  clients_stream h' (<[p := ph]> cs).
Proof.
  intros Hsub Hs q Hq. destruct (Hsub q Hq) as [Hq1 Hne]. rewrite lookup_insert_ne by done. by apply Hs.
Qed.

Lemma created_insert h h' cs p ph :
  (forall q, q <> p -> h_heap h' !! q = h_heap h !! q \/ q ∈ h_clients h) ->
  (forall u, ph = Created u -> registrable h' p) ->
  clients_stream h cs -> created_open h cs -> created_open h' (<[p := ph]> cs).
Proof.
  intros Hh Hph Hs Hc q u. rewrite lookup_insert. case_decide as He.
  - subst q. intros [= ->]. by eapply Hph.
  - intros Hq. destruct (Hh q (not_eq_sym He)) as [Hf|Hcl]; [|by destruct (open_non_client _ _ _ _ Hs Hq)].
    eapply registrable_frame; eauto.
Qed.

Lemma created_frame h h' cs :
  (forall q, h_heap h' !! q = h_heap h !! q \/ q ∈ h_clients h) ->
  clients_stream h cs -> created_open h cs -> created_open h' cs.
Proof.
  intros Hh Hs Hc q u Hq. destruct (Hh q) as [Hf|Hcl]; [|by destruct (open_non_client _ _ _ _ Hs Hq)].
  eapply registrable_frame; eauto.
Qed.

Lemma frame_cell k h h' : frame_ok k h h' -> forall q, h_heap h' !! q = h_heap h !! q \/ q ∈ h_clients h.
Proof. intros [Hf _] q. destruct (decide (q ∈ h_clients h)); auto. Qed.

Lemma heap_new_inv p c h :
  hub_inv h -> p ∉ h_clients h -> Client_send c = [] ->
  hub_inv (set_heap (<[p := c]> (h_heap h)) h).
Proof.
  intros [[Ho Hi Hcap Hp] Ht] Hn Hc. split; [split; simpl|exact Ht].
  - intros q Hq. rewrite lookup_insert_ne by (by intros ->). auto.
  - intros cid q. transitivity (subscribed h q cid); [apply Hi|]. unfold subscribed. simpl.
    destruct (decide (q = p)) as [->|]; [tauto|]. by rewrite lookup_insert_ne.
  - intros q d. rewrite lookup_insert. case_decide; [|apply Hcap].
    intros [= <-]. rewrite Hc. simpl. lia.
  - done.
Qed.

Lemma drain_inv p h : hub_inv h -> hub_inv (snd (drain p h)).
Proof.
  intros [[Ho Hi Hcap Hp] Ht]. unfold drain. destruct (h_heap h !! p) as [c|] eqn:Hc; [|done].
  destruct (Client_send c) as [|f rest] eqn:Hs; [done|]. split; [split; simpl|exact Ht].
  - intros q Hq. destruct (decide (q = p)) as [->|]; [|rewrite lookup_insert_ne by done; auto].
    rewrite lookup_insert_eq. destruct (Ho p Hq) as (d & ? & ?). simplify_eq. by eexists.
  - intros cid q. rewrite subscribed_heap_update by done. apply Hi.
  - intros q d. rewrite lookup_insert. case_decide; [|apply Hcap].
    intros [= <-]. subst q. specialize (Hcap p c Hc). rewrite Hs in Hcap. simpl in *. lia.
  - done.
Qed.

Lemma drain_clients p h : h_clients (snd (drain p h)) = h_clients h.
Proof. unfold drain. by repeat case_match. Qed.

Lemma drain_created p h cs : created_open h cs -> created_open (snd (drain p h)) cs.
Proof.
  intros Hc q u Hq. destruct (Hc q u Hq) as (c & Hcell & Ho). unfold registrable, drain.
  destruct (h_heap h !! p) as [d|] eqn:Hd; [|by exists c].
  destruct (Client_send d) as [|f rest]; [by exists c|]. simpl. rewrite lookup_insert.
  case_decide; [|by exists c]. subst q. simplify_eq. by eexists.
Qed.

Lemma drain_conns p h : same_conns h (snd (drain p h)).
Proof. unfold drain. by repeat case_match. Qed.

Lemma sys_inv_ext h h' cs :
  h_heap h' = h_heap h -> h_clients h' = h_clients h -> h_circles h' = h_circles h ->
  h_panicked h' = h_panicked h -> same_conns h h' -> sys_inv (mkSys h cs) -> sys_inv (mkSys h' cs).
Proof.
  intros H1 H2 H3 H4 H5 [Hh Hs Hc Hn]. simpl in *. split; simpl.
  - by eapply hub_inv_ext, Hh.
  - intros p. rewrite H2. apply Hs.
  - intros p u Hp. eapply registrable_frame, Hc; [by rewrite H1|done].
  - by eapply counted_same, Hn.
Qed.

(** *** One step at a time: admission *)

Lemma admit_inv h cs p u h' : h_heap h !! p = None -> cs !! p = None -> Admit_conn u h = (true, h') ->
  sys_inv (mkSys h cs) -> sys_inv (mkSys h' (<[p := Admitted_ u]> cs)).
Proof.
  intros Hnew Hp Ha [Hh Hs Hc Hn]. simpl in *.
  assert (Hsame : h_heap h' = h_heap h /\ h_clients h' = h_clients h /\ h_circles h' = h_circles h
    /\ h_panicked h' = h_panicked h).
  { unfold Admit_conn in Ha. case_match; by simplify_eq. }
  destruct Hsame as (E1 & E2 & E3 & E4). split; simpl.
  - by eapply hub_inv_ext, Hh.
  - eapply stream_move, Hs. intros q. rewrite E2. intros Hq. split; [done|]. intros ->.
    destruct (Hs p Hq). congruence.
  - eapply created_insert; [rewrite E1; by left|done|done|done].
  - by eapply counted_admit.
Qed.

Lemma list_inv h cs p u circles : cs !! p = Some (Admitted_ u) ->
  sys_inv (mkSys h cs) -> sys_inv (mkSys h (<[p := Listed u circles]> cs)).
Proof.
  intros Hp [Hh Hs Hc Hn]. simpl in *. split; simpl; [done| | |by eapply counted_move].
  - eapply stream_move, Hs. intros q Hq. split; [done|]. intros ->. destruct (Hs p Hq). congruence.
  - eapply created_insert; [by left|done|done|done].
Qed.

Lemma abort_inv h cs p ph : cs !! p = Some ph -> (forall u, ph <> Created u /\ ph <> Streaming u) ->
  sys_inv (mkSys h cs) -> sys_inv (mkSys (Release (phase_user ph) h) (delete p cs)).
Proof.
  intros Hp Hph [Hh Hs Hc Hn]. simpl in *. split; simpl; [by eapply hub_inv_ext, Hh| | |by apply counted_release].
  - intros q Hq. destruct (Hs q Hq) as [u Hu]. exists u. rewrite lookup_delete_ne; [done|].
    intros ->. destruct (Hph u). congruence.
  - intros q u Hq. apply lookup_delete_Some in Hq as [_ Hq]. by apply (Hc q u).
Qed.

Lemma create_inv h cs p u circles id : cs !! p = Some (Listed u circles) -> sys_inv (mkSys h cs) ->
  sys_inv (mkSys (set_heap (<[p := NewClient id u circles wsSendBuffer]> (h_heap h)) h) (<[p := Created u]> cs)).
Proof.
  intros Hp [Hh Hs Hc Hn]. simpl in *.
  assert (Hpn : p ∉ h_clients h) by (intros Hq; destruct (Hs p Hq); congruence).
  split; simpl; [by apply heap_new_inv| | |].
  - eapply stream_move, Hs. intros q Hq. split; [done|]. by intros ->.
  - eapply created_insert; [|intros v [= <-]|done|done].
    + intros q Hq. left. simpl. by rewrite lookup_insert_ne.
    + exists (NewClient id u circles wsSendBuffer). simpl. by rewrite lookup_insert_eq.
  - eapply counted_same; [|by eapply counted_move]. done.
Qed.

(** *** The loop *)

Lemma register_inv h cs p u h' : cs !! p = Some (Created u) -> select_case (CaseRegister p) h = Some h' ->
  sys_inv (mkSys h cs) -> sys_inv (mkSys h' (<[p := Streaming u]> cs)).
Proof.
  intros Hp Hk [Hh Hs Hc Hn]. simpl in *. pose proof (select_case_frame _ _ _ Hh Hk) as Hf.
  assert (Hh' : hub_inv h').
  { eapply (select_case_inv (CaseRegister p)); [done| |done]. intros q [= <-]. by eapply Hc. }
  split; simpl; [done| | |eapply counted_same; [by eapply select_case_conns|by eapply counted_move]].
  - intros q Hq. rewrite lookup_insert. case_decide; [by eexists|].
    destruct (proj2 Hf q Hq) as [Hq'|[= ->]]; [by apply Hs|done].
  - eapply created_insert; [intros q _; by eapply frame_cell|done|done|done].
Qed.

Lemma unregister_inv h cs p u h' : cs !! p = Some (Streaming u) -> select_case (CaseUnregister p) h = Some h' ->
  sys_inv (mkSys h cs) -> sys_inv (mkSys h' (<[p := Unregistered u]> cs)).
Proof.
  intros Hp Hk [Hh Hs Hc Hn]. simpl in *. pose proof (select_case_frame _ _ _ Hh Hk) as Hf.
  assert (Hh' : hub_inv h') by (eapply (select_case_inv (CaseUnregister p)); [done|by intros q [=]|done]).
  split; simpl; [done| | |eapply counted_same; [by eapply select_case_conns|by eapply counted_move]].
  - eapply stream_move, Hs. intros q Hq.
    destruct (proj2 Hf q Hq) as [Hq'|[=]]; split; [done|]; intros ->.
    unfold select_case in Hk. destruct (_ || _); [done|]. simplify_eq.
    rewrite removeClient_clients in Hq. set_solver.
  - eapply created_insert; [intros q _; by eapply frame_cell|done|done|done].
Qed.

Lemma loop_inv h cs k h' : (forall p, k <> CaseRegister p /\ k <> CaseUnregister p) -> select_case k h = Some h' ->
  sys_inv (mkSys h cs) -> sys_inv (mkSys h' cs).
Proof.
  intros Hk Hl [Hh Hs Hc Hn]. simpl in *. pose proof (select_case_frame _ _ _ Hh Hl) as Hf. split; simpl.
  - eapply (select_case_inv k); [done| |done]. intros p ->. by destruct (Hk p).
  - intros q Hq. destruct (proj2 Hf q Hq) as [Hq'|Hkq]; [by apply Hs|by destruct (Hk q)].
  - eapply created_frame; [by eapply frame_cell|done|done].
  - eapply counted_same, Hn. by eapply select_case_conns.
Qed.

Lemma receive_inv h cs p : sys_inv (mkSys h cs) -> sys_inv (mkSys (snd (drain p h)) cs).
Proof.
  intros [Hh Hs Hc Hn]. simpl in *.
  split; simpl; [by apply drain_inv|by unfold clients_stream; rewrite drain_clients|by apply drain_created|].
  eapply counted_same, Hn. apply drain_conns.
Qed.

Lemma step_inv s s' : step s s' -> sys_inv s -> sys_inv s'.
Proof.
  intros Hst Hinv. destruct Hst as
    [h cs p u h' Hnew Hp Ha|h cs p u circles Hp|h cs p ph Hp Hph|h cs p u circles id Hp
    |h cs p u h' Hp Hk|h cs p u h' Hp Hk|h cs p u Hp|h cs k h' Hk Hl|h cs ev|h cs c u|h cs c].
  - by eapply admit_inv.
  - by eapply list_inv.
  - by apply abort_inv.
  - by eapply create_inv.
  - by eapply register_inv.
  - by eapply unregister_inv.
  - by apply receive_inv.
  - by eapply loop_inv.
  - unfold Publish. destruct (_ <? _)%nat; [|done]. by eapply sys_inv_ext, Hinv.
  - unfold EvictUser. destruct (_ <? _)%nat; [|done]. by eapply sys_inv_ext, Hinv.
  - unfold EvictCircle. destruct (_ <? _)%nat; [|done]. by eapply sys_inv_ext, Hinv.
Qed.

Lemma init_inv perUser total : sys_inv (init perUser total).
Proof.
  split; simpl.
  - eapply hub_inv_ext, NewHub_inv; done.
  - by intros p ?%elem_of_empty.
  - intros p u. by rewrite lookup_empty.
  - split; simpl; [done|done| |].
    + unfold defaultMaxConnsTotal. destruct (Z.ltb_spec 0 total); lia.
    + intros u. unfold per_user. simpl. rewrite lookup_empty. simpl.
      unfold defaultMaxConnsPerUser. destruct (Z.ltb_spec 0 perUser); lia.
Qed.

Lemma sys_reachable_inv perUser total s : reachable perUser total s -> sys_inv s.
Proof.
  intros Hr. unfold reachable in Hr. remember (init perUser total) as s0 eqn:H0.
  assert (sys_inv s0) as Hi by (subst; apply init_inv). clear H0.
  induction Hr; [done|]. eauto using step_inv.
Qed.

(** ** After an eviction *)

Definition was_registered (s : sys) (p : ptr) : Prop :=
  forall u cs, s_conns s !! p <> Some (Admitted_ u) /\ s_conns s !! p <> Some (Listed u cs) /\
    s_conns s !! p <> Some (Created u).

(** [p]'s client exists, has been registered, and is not subscribed to [cid]. *)
Record gone (cid : uuid) (p : ptr) (s : sys) (c : Client) : Prop := {
  gn_cell : h_heap (s_hub s) !! p = Some c;
  gn_unsub : ~ subscribed (s_hub s) p cid;
  gn_reg : was_registered s p
}.

Definition no_more (cid : uuid) (c c' : Client) : Prop := events_of cid c' `suffix_of` events_of cid c.

#[export] Instance no_more_preorder cid : PreOrder (no_more cid).
Proof. unfold no_more. split; [by intros c|]. intros c1 c2 c3. by intros; etrans. Qed.

Lemma gone_case cid p c k h h' cs cs' :
  hub_inv h -> select_case k h = Some h' -> k <> CaseRegister p ->
  was_registered (mkSys h' cs') p -> gone cid p (mkSys h cs) c ->
  exists c', gone cid p (mkSys h' cs') c' /\ no_more cid c c'.
Proof.
  intros Hinv Hk Hne Hreg [Hc Hn _]. simpl in *.
  pose proof (select_case_frame _ _ _ Hinv Hk) as [Hf Hcl].
  destruct (decide (p ∈ h_clients h)) as [Hp|Hp].
  - destruct (select_case_le cid k h h' Hinv Hk p c Hc) as (c' & Hc' & [Hu Hs He]).
    assert (Hcid : cid ∉ Client_circles c).
    { intros Hcid. apply Hn. by apply (subscribed_cell h p c). }
    exists c'. split; [|by apply He]. split; simpl; [done| |done].
    rewrite (subscribed_cell h' p c') by done. intros [_ H]. by apply Hcid, Hs.
  - exists c. split; [|done]. split; simpl; [by rewrite Hf| |done].
    intros [Hp' _]. destruct (Hcl p Hp'); done.
Qed.

Lemma gone_same cid p c s s' :
  h_heap (s_hub s') !! p = h_heap (s_hub s) !! p -> h_clients (s_hub s') = h_clients (s_hub s) ->
  was_registered s' p -> gone cid p s c -> exists c', gone cid p s' c' /\ no_more cid c c'.
Proof.
  intros Hh Hcl Hreg [Hc Hn _]. exists c. split; [|done]. split; [by rewrite Hh| |done].
  unfold subscribed in *. by rewrite Hcl, Hh.
Qed.

Lemma was_registered_other h h' cs p q ph :
  q <> p -> was_registered (mkSys h cs) p -> was_registered (mkSys h' (<[q := ph]> cs)) p.
Proof. intros Hne Hr u l. simpl. rewrite lookup_insert_ne by done. apply (Hr u l). Qed.

Lemma drain_gone cid p c q h cs :
  gone cid p (mkSys h cs) c ->
  exists c', gone cid p (mkSys (snd (drain q h)) cs) c' /\ no_more cid c c'.
Proof.
  intros Hg. pose proof Hg as [Hc Hn Hr]. simpl in *. destruct (decide (q = p)) as [->|Hne].
  - destruct (Client_send c) as [|f rest] eqn:Hs.
    + unfold drain. rewrite Hc, Hs. by exists c.
    + exists (Client_set_send rest c). unfold drain. rewrite Hc, Hs. split; [split|]; simpl.
      * by rewrite lookup_insert_eq.
      * by rewrite (subscribed_heap_update h p c).
      * exact Hr.
      * unfold no_more, events_of. rewrite Hs. simpl. rewrite filter_cons.
        case_decide; [by apply suffix_cons_r|done].
  - eapply gone_same; [| | |done]; simpl; [|by rewrite drain_clients|done].
    unfold drain. destruct (h_heap h !! q) as [d|]; [|done]. destruct (Client_send d); [done|].
    simpl. by rewrite lookup_insert_ne.
Qed.

Lemma step_gone cid p c s s' :
  sys_inv s -> step s s' -> gone cid p s c -> exists c', gone cid p s' c' /\ no_more cid c c'.
Proof.
  intros Hinv Hst Hg. pose proof (gn_reg _ _ _ _ Hg) as Hr. pose proof (gn_cell _ _ _ _ Hg) as Hcell.
  destruct Hst as
    [h cs q u h' Hnew Hq Ha|h cs q u circles Hq|h cs q ph Hq Hph|h cs q u circles id Hq
    |h cs q u h' Hq Hk|h cs q u h' Hq Hk|h cs q u Hq|h cs k h' Hk Hl|h cs ev|h cs e u|h cs e];
    pose proof Hinv as [Hh Hs Hc Hn]; simpl in *.
  - assert (q <> p) by (intros ->; congruence).
    eapply gone_same; [| | |done]; [| |by eapply was_registered_other]; simpl;
      unfold Admit_conn in Ha; by case_match; simplify_eq.
  - assert (q <> p) by (intros ->; by destruct (Hr u [])).
    eapply gone_same; [| | |done]; [done|done|by eapply was_registered_other].
  - eapply gone_same; [| | |done]; [done|done|]. intros u l. simpl. rewrite lookup_delete.
    case_decide; [done|apply (Hr u l)].
  - assert (q <> p) by (intros ->; by destruct (Hr u circles) as (_ & ? & _)).
    eapply gone_same; [| | |done]; simpl; [by rewrite lookup_insert_ne|done|by eapply was_registered_other].
  - assert (q <> p) by (intros ->; by destruct (Hr u []) as (_ & _ & ?)).
    eapply gone_case; [done|done|congruence|by eapply was_registered_other|done].
  - eapply gone_case; [done|done|done| |done]. intros v l. simpl. rewrite lookup_insert.
    case_decide; [done|apply (Hr v l)].
  - by apply drain_gone.
  - eapply gone_case; [done|done|by destruct (Hk p)|exact Hr|done].
  - eapply gone_same; [| |exact Hr|done]; unfold Publish; by case_match.
  - eapply gone_same; [| |exact Hr|done]; unfold EvictUser; by case_match.
  - eapply gone_same; [| |exact Hr|done]; unfold EvictCircle; by case_match.
Qed.

Lemma steps_gone cid p c s s' :
  sys_inv s -> rtc step s s' -> gone cid p s c -> exists c', gone cid p s' c' /\ no_more cid c c'.
Proof.
  intros Hinv Hst. revert c. induction Hst as [s|s s1 s' H1 _ IH]; intros c Hg; [by exists c|].
  destruct (step_gone cid p c s s1 Hinv H1 Hg) as (c1 & Hg1 & Hle1).
  destruct (IH (step_inv _ _ H1 Hinv) c1 Hg1) as (c2 & Hg2 & Hle2).
  exists c2. split; [done|]. by etrans.
Qed.

(** The loop takes a request: a client it names is out. *)
Lemma evict_gone p c req rest h h' cs' : hub_inv h -> h_evict h = req :: rest -> select_case CaseEvict h = Some h' ->
  evicts h req p -> h_heap h !! p = Some c -> was_registered (mkSys h' cs') p ->
  exists c', gone (evict_circleID req) p (mkSys h' cs') c'.
Proof.
  intros Hinv Hq Hk Hev Hc Hreg'. destruct (select_case_le (evict_circleID req) CaseEvict _ _ Hinv Hk p c Hc) as (c1 & Hc1 & _).
  exists c1. split; [done| |done]. simpl. intros Hsub. unfold select_case in Hk. destruct (_ || _); [done|]. rewrite Hq in Hk.
  injection Hk as <-. assert (Hinv0 : hub_inv (set_evict rest h)) by by eapply hub_inv_ext, Hinv.
  destruct (doEvict_spec req (set_evict rest h) (proj1 Hinv0)) as [Hcore Hcl Hu Hs _].
  apply (hc_index _ Hcore), Hs in Hsub as [Hsub Hno]. apply Hno. by rewrite elem_of_elements.
Qed.

(** ** Properties *)

(** C2: whatever the interleaving of connections, publishers, evictions and the
    loop, the hub never sends on or closes a closed channel: the loop goroutine
    does not panic, every registered client's channel is open and holds at most
    its capacity. *)
Theorem hub_never_panics perUser total s (Hr : reachable perUser total s) :
  h_panicked (s_hub s) = false /\
  forall p, p ∈ h_clients (s_hub s) -> exists c, h_heap (s_hub s) !! p = Some c /\
    Client_closed c = false /\ (length (Client_send c) <= Client_cap c)%nat.
Proof.
  destruct (sys_reachable_inv _ _ _ Hr) as [[[Ho Hi Hcap Hp] _] _ _ _]. split; [done|].
  intros p Hc. destruct (Ho p Hc) as (c & ? & ?). eauto 6.
Qed.

(** C3: in every reachable state the per-circle index the hub dispatches by is
    exactly the subscription relation of the live clients, and it keeps no
    empty entry (the map does not leak circles). *)
Theorem hub_index_exact perUser total s (Hr : reachable perUser total s) :
  (forall cid p, p ∈ default ∅ (h_circles (s_hub s) !! cid) <-> subscribed (s_hub s) p cid) /\
  (forall cid set, h_circles (s_hub s) !! cid = Some set -> set <> ∅).
Proof.
  destruct (sys_reachable_inv _ _ _ Hr) as [[Hc Ht] _ _ _]. split; [apply (hc_index _ Hc)|exact Ht].
Qed.

(** the admission counters are exact: the total is the number of admitted
    connections and each user's entry the number of theirs, none is above its
    ceiling, and the counters return to zero when the connections are gone. *)
Theorem admission_counts perUser total s (Hr : reachable perUser total s) :
  h_totalConns (s_hub s) = Z.of_nat (size (s_conns s)) /\
  h_totalConns (s_hub s) <= h_maxTotal (s_hub s) /\
  forall u, per_user (s_hub s) u = Z.of_nat (size (user_conns u (s_conns s))) /\
            per_user (s_hub s) u <= h_maxPerUser (s_hub s).
Proof. destruct (sys_reachable_inv _ _ _ Hr) as [_ _ _ [Hc1 Hc2 Hc3 Hc4]]. auto. Qed.

(** when the loop takes an event, every client subscribed to its circle
    either has it appended to its queue, or, its buffer being full, is dropped
    with its channel closed; every other cell is untouched; nobody else is
    registered or dropped. *)
Theorem dispatch_delivers perUser total s ev rest h' (Hr : reachable perUser total s)
    (Hq : h_broadcast (s_hub s) = ev :: rest) (Hk : select_case CaseBroadcast (s_hub s) = Some h') :
  forall p c, h_heap (s_hub s) !! p = Some c ->
    h_heap h' !! p = Some
      (if decide (subscribed (s_hub s) p (Event_CircleID ev))
       then if has_room c then Client_set_send (Client_send c ++ [FrameEvent ev]) c else Client_close c
       else c) /\
    (p ∈ h_clients h' <-> p ∈ h_clients (s_hub s) /\
       (subscribed (s_hub s) p (Event_CircleID ev) -> has_room c = true)).
Proof.
  destruct (sys_reachable_inv _ _ _ Hr) as [Hinv _ _ _]. set (h := s_hub s) in *.
  unfold select_case in Hk. destruct (_ || _); [done|]. rewrite Hq in Hk. injection Hk as <-.
  set (h0 := set_broadcast rest h). assert (Hinv0 : hub_inv h0) by by eapply hub_inv_ext, Hinv.
  intros p c Hc.
  destruct (dispatch_fold ev (elements (subs h0 (Event_CircleID ev))) h0 Hinv0) as (_ & Hout & Hin & Hcl).
  { apply NoDup_elements. }
  { intros q Hq'. apply elem_of_elements, (hc_index h0 (proj1 Hinv0)) in Hq'. apply Hq'. }
  assert (Hiff : p ∈ elements (subs h0 (Event_CircleID ev)) <-> subscribed h p (Event_CircleID ev)).
  { rewrite elem_of_elements. apply (hc_index h (proj1 Hinv)). }
  split.
  - case_decide as Hs; [apply Hin; [by apply Hiff|done]|].
    rewrite <- Hc. apply Hout. by rewrite Hiff.
  - etransitivity; [apply Hcl|]. rewrite Hiff. change (h_clients h0) with (h_clients h).
    change (h_heap h0) with (h_heap h). rewrite Hc. naive_solver.
Qed.

(** C10: when the loop takes an eviction request, exactly the clients it names
    lose exactly that circle, in the index and in their own set, and no client
    is dropped. *)
Theorem eviction_exact perUser total s req rest h' (Hr : reachable perUser total s)
    (Hq : h_evict (s_hub s) = req :: rest) (Hk : select_case CaseEvict (s_hub s) = Some h') :
  h_clients h' = h_clients (s_hub s) /\
  forall cid p, subscribed h' p cid <->
    subscribed (s_hub s) p cid /\ ~ (cid = evict_circleID req /\ evicts (s_hub s) req p).
Proof.
  destruct (sys_reachable_inv _ _ _ Hr) as [Hinv _ _ _]. set (h := s_hub s) in *.
  unfold select_case in Hk. destruct (_ || _); [done|]. rewrite Hq in Hk. injection Hk as <-.
  set (h0 := set_evict rest h). assert (Hinv0 : hub_inv h0) by by eapply hub_inv_ext, Hinv.
  destruct (doEvict_spec req h0 (proj1 Hinv0)) as [Hc Hcl Hu Hs _]. split; [done|].
  intros cid p. rewrite <- (hc_index _ Hc cid p), Hs, elem_of_elements.
  rewrite !(hc_index h0 (proj1 Hinv0)). unfold evicts. change (user_of h0 p) with (user_of h p).
  change (subscribed h0 p) with (subscribed h p). naive_solver.
Qed.

(** C8: the eviction guarantee: once the loop has taken an eviction that names
    a registered client, no frame of that circle's events is ever added to the
    client's channel again, whatever steps follow (publishing to the circle
    included): what is queued for it later is a suffix of what was queued at
    that moment. *)
Theorem evicted_receives_no_more perUser total s s1 s2 p c req rest h1
    (Hr : reachable perUser total s)
    (Hq : h_evict (s_hub s) = req :: rest) (Hk : select_case CaseEvict (s_hub s) = Some h1)
    (Hs1 : s1 = mkSys h1 (s_conns s))
    (Hreg : was_registered s p) (Hc : h_heap (s_hub s) !! p = Some c)
    (Hev : evicts (s_hub s) req p) (Hlater : rtc step s1 s2) :
  exists c1 c2, h_heap (s_hub s1) !! p = Some c1 /\ h_heap (s_hub s2) !! p = Some c2 /\
    ~ subscribed (s_hub s2) p (evict_circleID req) /\
    events_of (evict_circleID req) c2 `suffix_of` events_of (evict_circleID req) c1.
Proof.
  pose proof (sys_reachable_inv _ _ _ Hr) as Hsys. pose proof (si_hub _ Hsys) as Hinv.
  assert (Hst : step s s1).
  { destruct s as [h cs]. rewrite Hs1. by apply (st_loop h cs CaseEvict h1). }
  destruct s as [h cs]. subst s1.
  destruct (evict_gone p c req rest h h1 cs Hinv Hq Hk Hev Hc Hreg) as [c1 Hg].
  destruct (steps_gone _ _ _ _ _ (step_inv _ _ Hst Hsys) Hlater Hg) as (c2 & Hg2 & Hle).
  exists c1, c2. split; [apply Hg|]. split; [apply Hg2|]. split; [apply Hg2|done].
Qed.

(** ** A concrete run

    User 5 connects as client 1 and listens to circle 7. *)
Definition demo_ev : Event := mkEvent EventMemberChanged 7 None.

Definition demo_admitted : Hub := snd (Admit_conn 5 (SetConnLimits 0 0 NewHub)).
Definition demo_created : Hub :=
  set_heap (<[1%N := NewClient 9 5 [7%N] wsSendBuffer]> (h_heap demo_admitted)) demo_admitted.
Definition demo_conns : gmap ptr phase :=
  <[1%N := Streaming 5]> (<[1%N := Created 5]> (<[1%N := Listed 5 [7%N]]> (<[1%N := Admitted_ 5]> ∅))).
Definition demo : sys := mkSys (addClient 1 demo_created) demo_conns.

Lemma demo_listening : reachable 0 0 demo.
Proof.
  eapply rtc_l; [eapply (st_admit _ _ 1 5 demo_admitted); done|].
  eapply rtc_l; [by eapply (st_list _ _ 1 5 [7%N])|].
  eapply rtc_l; [by eapply (st_create _ _ 1 5 [7%N] 9)|].
  eapply rtc_l; [by eapply (st_register _ _ 1 5)|]. done.
Qed.

Definition demo_published : sys := mkSys (Publish demo_ev (s_hub demo)) demo_conns.

Lemma demo_published_reachable : reachable 0 0 demo_published.
Proof. eapply rtc_r; [apply demo_listening|apply (st_publish (s_hub demo) demo_conns)]. Qed.

Definition demo_evicting : sys := mkSys (EvictUser 7 5 (s_hub demo_published)) demo_conns.

Lemma demo_evicting_reachable : reachable 0 0 demo_evicting.
Proof.
  eapply rtc_r; [apply demo_published_reachable|].
  apply (st_evict_user (s_hub demo_published) demo_conns).
Qed.

Definition demo_evicted : Hub :=
  doEvict (mkEvictReq 7 5 false) (set_evict [] (s_hub demo_evicting)).

(** The event published before the eviction is dispatched after it. *)
Definition demo_after : Hub := dispatch demo_ev (set_broadcast [] demo_evicted).

Lemma hub_never_panics_witness :
  reachable 0 0 demo_evicting /\ h_panicked (s_hub demo_evicting) = false.
Proof.
  split; [exact demo_evicting_reachable|]. apply (hub_never_panics 0 0 demo_evicting demo_evicting_reachable).
Defined.

Lemma hub_index_exact_witness : subscribed (s_hub demo_evicting) 1 7.
Proof.
  apply (proj1 (hub_index_exact 0 0 demo_evicting demo_evicting_reachable) 7%N 1%N).
  decide_compute.
Defined.

Lemma admission_counts_witness : h_totalConns (s_hub demo_evicting) = Z.of_nat (size demo_conns).
Proof. exact (proj1 (admission_counts 0 0 demo_evicting demo_evicting_reachable)). Defined.

Lemma dispatch_delivers_witness :
  exists h' c, select_case CaseBroadcast (s_hub demo_published) = Some h' /\
    h_heap h' !! 1%N = Some c /\ Client_send c = [FrameEvent demo_ev].
Proof.
  eexists _, _. split; [reflexivity|]. split.
  - apply (dispatch_delivers 0 0 demo_published demo_ev [] _ demo_published_reachable eq_refl eq_refl 1%N
      (NewClient 9 5 [7%N] wsSendBuffer)). vm_compute. reflexivity.
  - vm_compute. reflexivity.
Defined.

Lemma eviction_exact_witness :
  ~ subscribed demo_evicted 1 7 /\ subscribed (s_hub demo_evicting) 1 7.
Proof.
  assert (Hs : subscribed (s_hub demo_evicting) 1 7) by (decide_compute).
  split; [|exact Hs]. intros Ha.
  apply (proj2 (eviction_exact 0 0 demo_evicting (mkEvictReq 7 5 false) [] demo_evicted
    demo_evicting_reachable eq_refl eq_refl) 7%N 1%N) in Ha as [_ Hn].
  apply Hn. split; [reflexivity|]. right. vm_compute. reflexivity.
Defined.

Lemma evicted_receives_no_more_witness :
  exists c1 c2, h_heap demo_evicted !! 1%N = Some c1 /\ h_heap demo_after !! 1%N = Some c2 /\
    ~ subscribed demo_after 1 7 /\ events_of 7 c2 `suffix_of` events_of 7 c1.
Proof.
  refine (evicted_receives_no_more 0 0 demo_evicting (mkSys demo_evicted demo_conns)
    (mkSys demo_after demo_conns) 1 (NewClient 9 5 [7%N] wsSendBuffer) (mkEvictReq 7 5 false) []
    demo_evicted demo_evicting_reachable eq_refl eq_refl eq_refl _ eq_refl _ _).
  - intros u cs. split_and!; vm_compute; congruence.
  - right. vm_compute. reflexivity.
  - eapply rtc_l; [|apply rtc_refl]. apply (st_loop _ _ CaseBroadcast); [split; discriminate|].
    vm_compute. reflexivity.
Defined.

(** ** Where the guarantee stops

    A connection reads its circles before it registers.  An eviction taken in
    between finds no client, and the stale list is registered afterwards. *)
Definition stale_created : Hub :=
  set_heap (<[1%N := NewClient 9 5 [7%N] wsSendBuffer]> (h_heap demo_admitted))
    (doEvict (mkEvictReq 7 5 false) (set_evict [] (EvictUser 7 5 demo_admitted))).

Definition stale : sys := mkSys (addClient 1 stale_created) demo_conns.

(** the eviction guarantee does not cover a connection that has read its
    circle list but not yet registered: the hub takes the eviction of user 5
    from circle 7, and the connection is then registered with the list it read
    before, and is subscribed to the circle. *)
Example stale_listing_outlives_eviction :
  exists s, rtc step (init 0 0) s /\ s_hub s = s_hub stale /\
    h_evict (s_hub s) = [] /\ subscribed (s_hub s) 1 7.
Proof.
  exists stale. split; [|split; [done|split; [done|decide_compute]]].
  eapply rtc_l; [eapply (st_admit _ _ 1 5 demo_admitted); done|].
  eapply rtc_l; [by eapply (st_list _ _ 1 5 [7%N])|].
  eapply rtc_l; [eapply (st_evict_user _ _ 7 5)|].
  eapply rtc_l; [by eapply (st_loop _ _ CaseEvict); [split|]|].
  eapply rtc_l; [by eapply (st_create _ _ 1 5 [7%N] 9)|].
  eapply rtc_l; [by eapply (st_register _ _ 1 5)|]. done.
Qed.

(** an eviction is lost when the queue is full: [EvictUser] and
    [EvictCircle] then change nothing, so the loop never sees the request. *)
Theorem full_queue_drops_eviction h circleID userID
    (Hfull : (evictBuffer <= length (h_evict h))%nat) :
  EvictUser circleID userID h = h /\ EvictCircle circleID h = h.
Proof.
  unfold EvictUser, EvictCircle. destruct (Nat.ltb_spec (length (h_evict h)) evictBuffer); [lia|done].
Qed.

Lemma full_queue_drops_eviction_witness :
  exists h, (evictBuffer <= length (h_evict h))%nat /\ EvictUser 7 5 h = h.
Proof.
  exists (set_evict (replicate 64 (mkEvictReq 7 5 false)) NewHub).
  assert (Hl : (evictBuffer <= length (h_evict (set_evict (replicate 64 (mkEvictReq 7 5 false)) NewHub)))%nat)
    by (vm_compute; lia).
  split; [exact Hl|]. exact (proj1 (full_queue_drops_eviction _ 7%N 5%N Hl)).
Defined.
