(* ===== verification/RemovalSpec.v ===== *)
(** * Removing a member, from the request to the last frame

    The handler deletes the row and hands the hub an eviction; the hub's loop takes
    it in its turn, among everything else it does.  What the removed user can still
    see is bounded by the two: nothing through the API from the answer on, nothing
    new on an open connection once the loop has worked off its evictions. *)

From S2P Require Import Prelude Table GoTime Base64 Models Api Ext World Demo Hub HubInv StoreAccounts.
From S2P Require Import StoreCircles StorePings Auth Server CirclesApi PingsApi Router CirclesSpec PingsSpec HubSys.
From stdpp Require Import relations.
Local Open Scope Z_scope.

(** ** The queue of evictions *)

Lemma foldl_evict {X} (f : Hub -> X -> Hub) l h :
  (forall h x, h_evict (f h x) = h_evict h) -> h_evict (foldl f h l) = h_evict h.
Proof. intros Hf. revert h. induction l as [|x l IH]; intros h; simpl; [done|]. by rewrite IH, Hf. Qed.

Lemma close_send_evict p h : h_evict (close_send p h) = h_evict h.
Proof. unfold close_send. by repeat case_match. Qed.

Lemma try_send_evict p f h : h_evict (snd (try_send p f h)) = h_evict h.
Proof. unfold try_send. by repeat case_match. Qed.

Lemma removeClient_evict p h : h_evict (removeClient p h) = h_evict h.
Proof. unfold removeClient. case_decide; [|done]. by rewrite close_send_evict. Qed.

Lemma dispatch_one_evict ev h p : h_evict (dispatch_one ev h p) = h_evict h.
Proof.
  unfold dispatch_one. pose proof (try_send_evict p (FrameEvent ev) h) as Hs. destruct (try_send _ _ _) as [taken h'].
  destruct taken; [done|]. by rewrite removeClient_evict.
Qed.

Lemma evict_one_evict req h p : h_evict (evict_one req h p) = h_evict h.
Proof.
  unfold evict_one. destruct (h_heap h !! p) as [c|]; [|done]. destruct (_ && _); [done|]. by rewrite try_send_evict.
Qed.

Lemma doEvict_evict req h : h_evict (doEvict req h) = h_evict h.
Proof.
  unfold doEvict. case_decide; [done|].
  pose proof (foldl_evict (evict_one req) (elements (default ∅ (h_circles h !! evict_circleID req))) h (evict_one_evict req)) as Hf.
  by case_decide.
Qed.

(** Only the loop's eviction case takes a request out, the oldest. *)
Lemma select_case_evict k h h' : select_case k h = Some h' ->
  h_evict h' = match k with CaseEvict => tail (h_evict h) | _ => h_evict h end.
Proof.
  unfold select_case. destruct (_ || _); [done|]. destruct k; simpl.
  - intros [= <-]. unfold shutdown. simpl. apply foldl_evict. intros. apply close_send_evict.
  - by intros [= <-].
  - intros [= <-]. apply removeClient_evict.
  - destruct (h_broadcast h) as [|ev rest]; intros [= <-]. unfold dispatch. by rewrite foldl_evict by apply dispatch_one_evict.
  - destruct (h_evict h) as [|req rest]; intros [= <-]. by rewrite doEvict_evict.
  - by intros [= <-].
Qed.

(** ** Waiting for the eviction *)

Record waiting (c id : uuid) (p : ptr) (s : sys) : Prop := {
  wt_queued : mkEvictReq c id false ∈ h_evict (s_hub s);
  wt_user : user_of (s_hub s) p = Some id;
  wt_reg : was_registered s p
}.

Lemma waiting_case c id p k h h' cs cs' : hub_inv h -> select_case k h = Some h' -> was_registered (mkSys h' cs') p ->
  waiting c id p (mkSys h cs) -> waiting c id p (mkSys h' cs') \/ exists cl, gone c p (mkSys h' cs') cl.
Proof.
  intros Hinv Hk Hreg' [Hq Hu Hreg]. simpl in *. pose proof (select_case_evict k h h' Hk) as Hev.
  unfold user_of in Hu. destruct (h_heap h !! p) as [cl|] eqn:Hc; [|done]. injection Hu as Hu.
  assert (user_of h' p = Some id) as Hu'.
  { destruct (select_case_le c k h h' Hinv Hk p cl Hc) as (cl' & Hc' & [Hue _ _]). unfold user_of. rewrite Hc'. simpl. by rewrite Hue, Hu. }
  destruct k; try by left; split; simpl; rewrite ?Hev.
  destruct (h_evict h) as [|req rest] eqn:Hqe; [by apply elem_of_nil in Hq|]. simpl in Hev.
  apply elem_of_cons in Hq as [<-|Hq]; [right|by left; split; simpl; rewrite ?Hev].
  eapply (evict_gone p cl (mkEvictReq c id false) rest h h' cs'); [done|done|done| |done|done].
  right. unfold user_of. rewrite Hc. simpl. by rewrite Hu.
Qed.

Lemma drain_user p q h : user_of (snd (drain q h)) p = user_of h p.
Proof.
  unfold drain, user_of. destruct (h_heap h !! q) as [d|] eqn:Hd; [|done]. destruct (Client_send d); [done|]. simpl.
  rewrite lookup_insert. case_decide; [|done]. subst. by rewrite Hd.
Qed.

Lemma waiting_same c id p s s' : h_heap (s_hub s') !! p = h_heap (s_hub s) !! p ->
  (forall req, req ∈ h_evict (s_hub s) -> req ∈ h_evict (s_hub s')) -> was_registered s' p ->
  waiting c id p s -> waiting c id p s' \/ exists cl, gone c p s' cl.
Proof. intros Hh Hq Hreg [Hq' Hu _]. left. split; [by apply Hq| |done]. unfold user_of in *. by rewrite Hh. Qed.

Lemma waiting_step c id p s s' : sys_inv s -> step s s' -> waiting c id p s ->
  waiting c id p s' \/ exists cl, gone c p s' cl.
Proof.
  intros Hinv Hst Hw. pose proof (wt_reg _ _ _ _ Hw) as Hr. pose proof (wt_user _ _ _ _ Hw) as Hu.
  destruct Hst as
    [h cs q u h' Hnew Hq Ha|h cs q u circles Hq|h cs q ph Hq Hph|h cs q u circles i Hq
    |h cs q u h' Hq Hk|h cs q u h' Hq Hk|h cs q u Hq|h cs k h' Hk Hl|h cs ev|h cs e u|h cs e];
    pose proof Hinv as [Hh Hs Hc Hn]; simpl in *.
  - assert (q <> p) by (intros ->; unfold user_of in Hu; by rewrite Hnew in Hu).
    eapply waiting_same; [| | |done]; [| |by eapply was_registered_other]; simpl;
      unfold Admit_conn in Ha; case_match; by simplify_eq.
  - assert (q <> p) by (intros ->; by destruct (Hr u [])).
    eapply waiting_same; [| | |done]; [done|done|by eapply was_registered_other].
  - eapply waiting_same; [| | |done]; [done|done|]. intros u l. simpl. rewrite lookup_delete.
    case_decide; [done|apply (Hr u l)].
  - assert (q <> p) by (intros ->; by destruct (Hr u circles) as (_ & ? & _)).
    eapply waiting_same; [| | |done]; simpl; [by rewrite lookup_insert_ne|done|by eapply was_registered_other].
  - assert (q <> p) by (intros ->; by destruct (Hr u []) as (_ & _ & ?)).
    eapply waiting_case; [done|done|by eapply was_registered_other|done].
  - eapply waiting_case; [done|done| |done]. intros v l. simpl. rewrite lookup_insert.
    case_decide; [done|apply (Hr v l)].
  - left. destruct Hw as [Hqd _ _]. split; simpl in *; [|by rewrite drain_user|exact Hr].
    unfold drain. by repeat case_match.
  - by eapply waiting_case.
  - eapply waiting_same; [| |exact Hr|done]; unfold Publish; by case_match.
  - eapply waiting_same; [| |exact Hr|done]; unfold EvictUser; case_match; simpl; try done. intros req ?. apply elem_of_app. by left.
  - eapply waiting_same; [| |exact Hr|done]; unfold EvictCircle; case_match; simpl; try done. intros req ?. apply elem_of_app. by left.
Qed.

Lemma waiting_steps c id p s s' : sys_inv s -> rtc step s s' -> waiting c id p s ->
  waiting c id p s' \/ exists cl, gone c p s' cl.
Proof.
  intros Hinv Hst Hw. assert (waiting c id p s \/ exists cl, gone c p s cl) as Hd by by left. clear Hw.
  induction Hst as [|s s1 s' H1 _ IH]; [done|]. apply IH; [by eapply step_inv|].
  destruct Hd as [Hw|[cl Hg]]; [by eapply waiting_step|]. right.
  destruct (step_gone c p cl s s1 Hinv H1 Hg) as (cl' & Hg' & _). by exists cl'.
Qed.

(** Once no eviction waits, the client is out for good. *)
Lemma drained_gone c id p s s1 : sys_inv s -> waiting c id p s -> rtc step s s1 -> h_evict (s_hub s1) = [] ->
  exists c1, gone c p s1 c1 /\ forall s2, rtc step s1 s2 -> exists c2, gone c p s2 c2 /\ no_more c c1 c2.
Proof.
  intros Hinv Hw Hst He. assert (sys_inv s1) as Hinv1 by (clear Hw He; induction Hst; eauto using step_inv).
  destruct (waiting_steps c id p s s1 Hinv Hst Hw) as [[Hq _ _]|[c1 Hg]]; [rewrite He in Hq; by apply elem_of_nil in Hq|].
  exists c1. split; [done|]. intros s2 Hst2. by eapply steps_gone.
Qed.

(** ** Uploads *)

Lemma prepared_of_non_member `{Ext} members a oldest future l c p : (forall m, m ∈ members -> ~ is_member c (a_UserID a) m) ->
  p ∈ l -> uuid_Parse (pi_CircleID p) = Some c -> forall i, exists r, prepared_of members a oldest future i l = inl r.
Proof.
  intros Hn Hp Hc. induction l as [|q l IH]; [by apply elem_of_nil in Hp|]. intros i. cbn [prepared_of].
  apply elem_of_cons in Hp as [<-|Hp].
  - rewrite Hc. rewrite decide_False; [by eexists|]. intros (m & Hin & Hm)%Exists_exists. by apply (Hn m).
  - destruct (uuid_Parse (pi_CircleID q)); [|by eexists]. case_decide; [|by eexists]. destruct (prepare _ _ _ _ _ _); [|by eexists].
    destruct (IH Hp (i + 1)) as [r ->]. by eexists.
Qed.

Lemma run_batch_refused `{Ext} cfg a pings p c w : w_faults w = [] ->
  (forall m, m ∈ circle_members (w_db w) -> ~ is_member c (a_UserID a) m) ->
  p ∈ pings -> uuid_Parse (pi_CircleID p) = Some c ->
  exists answer, run (handlePingBatch cfg a (Ok pings)) w = (answer, w) /\ resp_status answer <> 200.
Proof.
  intros Hf Hn Hp Hc. unfold handlePingBatch, World.check. cbn [decode].
  destruct (negb _); [|by eexists]. destruct (negb _); [|by eexists]. rewrite run_attempt. cbn [time_Now].
  rewrite run_prepare_all by (done || apply cache_ok_empty).
  match goal with |- context [prepared_of ?ms a ?o ?f 0 pings] =>
    destruct (prepared_of_non_member ms a o f pings c p Hn Hp Hc 0) as [r Hr] end.
  rewrite Hr. exists r. split; [done|]. by eapply prepared_of_refuses.
Qed.

(** ** The whole of it *)

(** C9: a removal takes effect, from the request to the last frame.  An owner
    removes a member, with no failing statement, while the hub is in any state it can be
    in, its eviction queue not full.  From the answer on, every route of the circle is a 404 to the removed
    user and no upload that names the circle is accepted, with nothing changed by
    either; and each of their connections that streams is unsubscribed once the
    loop has worked off its evictions, whatever happens in between, and what is
    ever added to its channel after that is nothing of the circle. *)
Theorem removal_takes_effect `{Ext} cfg m ip target w (Hf : w_faults w = [])
    (Ho : CircleMember_Role m = "owner"%string) (id : uuid) (Hp : uuid_Parse target = Some id)
    (Hne : id <> CircleMember_UserID m) perUser total s
    (Hr : reachable perUser total s) (Hhub : w_hub w = s_hub s)
    (He : (length (h_evict (s_hub s)) < evictBuffer)%nat) :
  let c := CircleMember_CircleID m in
  exists w', run (handleRemoveMember cfg m ip target) w = (WriteJSON 200 (BStatus "removed"), w') /\
  (forall d r allow a circleID cr, a_UserID a = id -> uuid_Parse circleID = Some c ->
     run (serve_authed d r allow a (InCircle circleID cr)) w' = (NotFound "circle not found", w')) /\
  (forall cfg a pings p, a_UserID a = id -> p ∈ pings -> uuid_Parse (pi_CircleID p) = Some c ->
     exists answer, run (handlePingBatch cfg a (Ok pings)) w' = (answer, w') /\ resp_status answer <> 200) /\
  let s' := mkSys (w_hub w') (s_conns s) in
  reachable perUser total s' /\
  (forall p, user_of (s_hub s) p = Some id -> was_registered s p ->
   forall s1, rtc step s' s1 -> h_evict (s_hub s1) = [] ->
   exists c1, h_heap (s_hub s1) !! p = Some c1 /\ ~ subscribed (s_hub s1) p c /\
   forall s2, rtc step s1 s2 -> exists c2, h_heap (s_hub s2) !! p = Some c2 /\ ~ subscribed (s_hub s2) p c /\
     events_of c c2 `suffix_of` events_of c c1).
Proof.
  intros c. destruct (run_remove_member cfg m ip target w Hf Ho id Hp Hne) as (w' & Hrun & Hf' & Hm & Hh).
  fold c in Hm, Hh. rewrite Hhub in Hh. exists w'.
  assert (forall r, r ∈ circle_members (w_db w') -> ~ is_member c id r) as Hn.
  { intros r. rewrite Hm. unfold delete_where. by intros [? _]%list_elem_of_filter. }
  assert (rtc step s (mkSys (w_hub w') (s_conns s))) as Hst.
  { rewrite Hh. destruct s as [h cs]. eapply rtc_l; [apply (st_evict_user h cs c id)|]. apply rtc_once, st_publish. }
  assert (reachable perUser total (mkSys (w_hub w') (s_conns s))) as Hr' by (unfold reachable in *; by transitivity s).
  cbv zeta. split_and!; [done| | |done|].
  - intros d r allow a circleID cr <- Hc. apply run_non_member; [done|]. intros cid m' Hc' Hin. assert (cid = c) as -> by congruence. by apply Hn.
  - intros cfg' a pings p <- Hin Hc. by eapply run_batch_refused.
  - intros p Hu Hreg s1 Hst1 He1.
    assert (waiting c id p (mkSys (w_hub w') (s_conns s))) as Hw.
    { assert (forall h, h_evict (Publish (mkEvent EventMemberChanged c None) h) = h_evict h) as Hpe by (intros h; unfold Publish; by case_match).
      assert (forall h, h_heap (Publish (mkEvent EventMemberChanged c None) h) = h_heap h) as Hph by (intros h; unfold Publish; by case_match).
      unfold EvictUser in Hh. rewrite (proj2 (Nat.ltb_lt _ _) He) in Hh. split; simpl.
      - rewrite Hh, Hpe. simpl. apply elem_of_app. right. by apply list_elem_of_singleton.
      - unfold user_of in *. by rewrite Hh, Hph.
      - exact Hreg. }
    destruct (drained_gone c id p _ s1 (sys_reachable_inv _ _ _ Hr') Hw Hst1 He1) as (c1 & [Hc1 Hs1 _] & Hlater).
    exists c1. split_and!; [done|done|]. intros s2 Hst2. destruct (Hlater s2 Hst2) as (c2 & [Hc2 Hs2 _] & Hle). by exists c2.
Qed.

(** Ann removes Bob, who is listening to her circle. *)
Lemma removal_takes_effect_witness :
  let w := set_hub (s_hub demo_published) (circle_world [ann_member; bob_member]) in
  let w' := snd (run (handleRemoveMember demo_cfg ann_member "" (demo_id 5)) w) in
  run (serve_authed circle_dep client true (as_user 5) (InCircle (demo_id 7) GetMembers)) w' = (NotFound "circle not found", w') /\
  (forall s1, rtc step (mkSys (w_hub w') demo_conns) s1 -> h_evict (s_hub s1) = [] -> ~ subscribed (s_hub s1) 1 7).
Proof.
  intros w w'. destruct (@removal_takes_effect demo_ext demo_cfg ann_member "" (demo_id 5) w eq_refl eq_refl 5 eq_refl
    ltac:(vm_compute; congruence) 0 0 demo_published demo_published_reachable eq_refl ltac:(vm_compute; lia))
    as (w1 & Hrun & Hapi & _ & _ & Hstream).
  assert (w1 = w') as -> by (unfold w'; by rewrite Hrun). split.
  - apply Hapi; reflexivity.
  - intros s1 Hst He. destruct (Hstream 1%N ltac:(vm_compute; reflexivity)
      ltac:(intros u cs; split_and!; vm_compute; congruence) s1 Hst He) as (c1 & _ & Hs & _). exact Hs.
Defined.
