(* ===== verification/HubSpec.v ===== *)
(** * What the hub promises: a board

    The hub's contract without its maps, queues and channels: who listens to
    which circle, and what each listener has been sent and has not yet read.
    [hub_refines_board] shows that every step of the system is one move of this
    board, so that what holds of its moves holds of the hub. *)

From S2P Require Import Prelude GoTime Models Api Hub HubInv HubSys.
From stdpp Require Import relations.
Local Open Scope Z_scope.

Record board := mkBoard {
  b_listens : ptr -> uuid -> Prop;
  b_inbox : ptr -> list frame
}.

Inductive move :=
| Quiet                                     (** nothing a listener could see *)
| Join (p : ptr) (circles : gset uuid)
| Leave (p : ptr)
| New (p : ptr)                             (** an empty inbox *)
| Take (p : ptr)                            (** the reader takes its oldest frame *)
| Post (ev : Event) (dropped : ptr -> Prop) (** an event; the listeners it drops *)
| Evict (c : uuid) (who : ptr -> Prop)
| Stop.

(** What a move does, listener by listener. *)
Definition moves (mv : move) (b b' : board) : Prop :=
  match mv with
  | Quiet => forall p, (forall c, b_listens b' p c <-> b_listens b p c) /\ b_inbox b' p = b_inbox b p
  | Join q circles => forall p,
      (forall c, b_listens b' p c <-> b_listens b p c \/ (p = q /\ c ∈ circles)) /\ b_inbox b' p = b_inbox b p
  | Leave q => forall p,
      (forall c, b_listens b' p c <-> b_listens b p c /\ p <> q) /\ b_inbox b' p = b_inbox b p
  | New q => forall p,
      (forall c, b_listens b' p c <-> b_listens b p c) /\
      (p = q -> b_inbox b' p = []) /\ (p <> q -> b_inbox b' p = b_inbox b p)
  | Take q => forall p,
      (forall c, b_listens b' p c <-> b_listens b p c) /\
      (p = q -> b_inbox b' p = tail (b_inbox b p)) /\ (p <> q -> b_inbox b' p = b_inbox b p)
  | Post ev dropped => forall p,
      (dropped p -> b_listens b p (Event_CircleID ev)) /\
      (forall c, b_listens b' p c <-> b_listens b p c /\ ~ dropped p) /\
      (b_listens b p (Event_CircleID ev) -> ~ dropped p -> b_inbox b' p = b_inbox b p ++ [FrameEvent ev]) /\
      (~ b_listens b p (Event_CircleID ev) \/ dropped p -> b_inbox b' p = b_inbox b p)
  | Evict c who => forall p,
      (forall c', b_listens b' p c' <-> b_listens b p c' /\ ~ (c' = c /\ who p)) /\
      (b_inbox b' p = b_inbox b p \/
       (b_listens b p c /\ who p /\ b_inbox b' p = b_inbox b p ++ [FrameUnsubscribed c]))
  | Stop => forall p, (forall c, ~ b_listens b' p c) /\ b_inbox b' p = b_inbox b p
  end.

Definition inbox (h : Hub) (p : ptr) : list frame :=
  match h_heap h !! p with Some c => Client_send c | None => [] end.

Definition board_of (h : Hub) : board := mkBoard (subscribed h) (inbox h).

(** ** Inboxes under each operation *)

Lemma inbox_cell h h' p : h_heap h' !! p = h_heap h !! p -> inbox h' p = inbox h p.
Proof. unfold inbox. by intros ->. Qed.

Lemma evict_one_inbox req h p : hub_core h -> p ∈ h_clients h ->
  inbox (evict_one req h p) p = inbox h p \/
  (evicts h req p /\ inbox (evict_one req h p) p = inbox h p ++ [FrameUnsubscribed (evict_circleID req)]).
Proof.
  intros [Ho _ _ _] Hp. destruct (Ho p Hp) as (c & Hc & Hopen).
  assert (Hev : negb (evict_allUsers req) && negb (Client_UserID c =? evict_userID req)%N = false -> evicts h req p).
  { unfold evicts, user_of. rewrite Hc. intros [He%negb_false_iff|He%negb_false_iff]%andb_false_iff; [by left|].
    apply N.eqb_eq in He. right. simpl. by rewrite He. }
  unfold evict_one. rewrite Hc. destruct (negb _ && _) eqn:Hskip; [by left|]. specialize (Hev eq_refl).
  unfold try_send. cbn [h_heap set_subs set_heap]. rewrite lookup_insert_eq.
  cbn [Client_closed Client_set_circles Client_send Client_cap]. rewrite Hopen.
  unfold inbox. destruct (_ <? _)%nat; cbn [snd h_heap set_heap set_subs]; rewrite ?lookup_insert_eq, Hc; cbn; [right|left]; done.
Qed.

Lemma evict_fold_inbox req l : forall h p, hub_core h -> NoDup l -> (forall q, q ∈ l -> q ∈ h_clients h) -> p ∈ l ->
  inbox (foldl (evict_one req) h l) p = inbox h p \/
  (evicts h req p /\ inbox (foldl (evict_one req) h l) p = inbox h p ++ [FrameUnsubscribed (evict_circleID req)]).
Proof.
  induction l as [|q l IH]; intros h p Hc Hnd Hl Hp; [by apply not_elem_of_nil in Hp|].
  apply NoDup_cons in Hnd as [Hq Hnd]. cbn [foldl].
  destruct (evict_one_spec req h q Hc) as [Hc1 Hcl1 Hu1 _ _]; [apply Hl; constructor|].
  apply elem_of_cons in Hp as [->|Hp].
  - rewrite (inbox_cell (evict_one req h q)) by by apply evict_fold_frame.
    apply evict_one_inbox; [done|apply Hl; constructor].
  - assert (Hne : p <> q) by (by intros ->).
    rewrite <- (inbox_cell h (evict_one req h q) p) by by apply evict_one_frame.
    destruct (IH (evict_one req h q) p) as [?|[He ?]]; [done|done| |done|by left|].
    + intros r Hr. rewrite Hcl1. apply Hl. by constructor.
    + right. split; [|done]. unfold evicts in *. by rewrite <- Hu1.
Qed.

Lemma doEvict_inbox req h p : hub_core h ->
  inbox (doEvict req h) p = inbox h p \/
  (subscribed h p (evict_circleID req) /\ evicts h req p /\
   inbox (doEvict req h) p = inbox h p ++ [FrameUnsubscribed (evict_circleID req)]).
Proof.
  intros Hc. pose proof (hc_index h Hc) as Hi. unfold doEvict. case_decide; [by left|].
  set (l := elements _). assert (Hin : inbox (if decide (default ∅ (h_circles (foldl (evict_one req) h l) !! evict_circleID req) = ∅)
    then set_subs (delete (evict_circleID req) (h_circles (foldl (evict_one req) h l))) (foldl (evict_one req) h l)
    else foldl (evict_one req) h l) p = inbox (foldl (evict_one req) h l) p) by by case_decide.
  rewrite Hin. destruct (decide (p ∈ l)) as [Hp|Hp].
  - destruct (evict_fold_inbox req l h p Hc) as [?|[? ?]]; [apply NoDup_elements| |done|by left|].
    + intros q Hq. apply elem_of_elements, Hi in Hq. apply Hq.
    + right. split; [|done]. apply Hi. by apply elem_of_elements.
  - left. apply inbox_cell. by apply evict_fold_frame.
Qed.

Lemma removeClient_board h p : hub_core h -> moves (Leave p) (board_of h) (board_of (removeClient p h)).
Proof.
  intros Hc q. destruct (decide (p ∈ h_clients h)) as [Hp|Hp].
  - destruct (hc_open h Hc p Hp) as (c & Hcell & Hopen). rewrite (removeClient_in p c) by done. cbn. split.
    + intros cid. unfold subscribed. cbn. rewrite elem_of_difference, elem_of_singleton.
      destruct (decide (q = p)) as [->|Hne]; [naive_solver|]. rewrite lookup_insert_ne by done. naive_solver.
    + unfold inbox. cbn. rewrite lookup_insert. case_decide as He; [|done]. subst q. by rewrite Hcell.
  - unfold removeClient. rewrite decide_False by done. cbn. split; [|done]. intros cid. split; [|by intros []].
    intros Hs. split; [done|]. intros ->. by destruct Hs.
Qed.

Lemma dispatch_board ev h : hub_inv h ->
  moves (Post ev (fun p => subscribed h p (Event_CircleID ev) /\ exists c, h_heap h !! p = Some c /\ has_room c = false))
    (board_of h) (board_of (dispatch ev h)).
Proof.
  intros Hinv p. pose proof (hc_index h (proj1 Hinv)) as Hi. cbn [moves board_of b_listens b_inbox]. unfold dispatch.
  fold (subs_of (h_circles h) (Event_CircleID ev)). fold (subs h (Event_CircleID ev)).
  destruct (dispatch_fold ev (elements (subs h (Event_CircleID ev))) h Hinv) as (_ & Hout & Hin & Hcl); [apply NoDup_elements| |].
  { intros q Hq. apply elem_of_elements, Hi in Hq. apply Hq. }
  set (h' := foldl _ _ _) in *.
  assert (Hmem : p ∈ elements (subs h (Event_CircleID ev)) <-> subscribed h p (Event_CircleID ev))
    by (rewrite elem_of_elements; apply Hi).
  destruct (decide (subscribed h p (Event_CircleID ev))) as [Hs|Hs].
  - pose proof Hs as [Hp (c & Hc & _)]. pose proof (Hin p c (proj2 Hmem Hs) Hc) as Hc'.
    split; [by intros []|]. split; [|split].
    + intros cid. unfold subscribed at 1. rewrite Hcl, Hc', Hmem. unfold delivered. fold (has_room c). split.
      * intros [[_ Hr] (c0 & [= <-] & Hcid)]. destruct (Hr Hs) as (c1 & Hc1 & Hroom). assert (c1 = c) as -> by congruence. rewrite Hroom in Hcid.
        split; [by split; [|eexists]|]. intros [_ (c2 & Hc2 & Hroom2)]. assert (c2 = c) as -> by congruence. congruence.
      * intros [[_ (c1 & Hc1 & Hcid)] Hnd]. assert (c1 = c) as -> by congruence. destruct (has_room c) eqn:Hroom.
        { split; [split; [done|]; by eexists|]. by eexists. }
        destruct Hnd. split; [done|]. by eexists.
    + intros _ Hnd. unfold inbox. rewrite Hc', Hc. unfold delivered. fold (has_room c).
      destruct (has_room c) eqn:Hroom; [done|]. destruct Hnd. split; [done|]. exists c. by split.
    + intros [?|[_ (c2 & Hc2 & Hroom)]]; [done|]. assert (c2 = c) as -> by congruence. unfold inbox. rewrite Hc', Hc. unfold delivered. fold (has_room c).
      by rewrite Hroom.
  - assert (Hc' : h_heap h' !! p = h_heap h !! p) by (apply Hout; by rewrite Hmem).
    split; [by intros []|]. split; [|split; [done|intros _; by apply inbox_cell]].
    intros cid. unfold subscribed at 1 2. rewrite Hcl, Hc', Hmem. split.
    + intros [[Hp _] Hx]. split; [by split|]. by intros [].
    + intros [[Hp Hx] _]. split; [by split|done].
Qed.

Lemma shutdown_board h : hub_inv h -> moves Stop (board_of h) (board_of (shutdown h)).
Proof.
  intros [[Ho Hi Hcap Hp] Ht] p. unfold shutdown. cbn. split.
  { intros c [[]%not_elem_of_empty _]. }
  destruct (close_fold (elements (h_clients h)) h) as (_ & _ & Hin & Hout); [apply NoDup_elements| |done|].
  { intros q Hq. apply Ho, elem_of_elements, Hq. }
  unfold inbox. cbn. destruct (decide (p ∈ elements (h_clients h))) as [Hq|Hq]; [|by rewrite Hout].
  pose proof Hq as Hq'. apply elem_of_elements in Hq'. destruct (Ho p Hq') as (c & Hc & _).
  by rewrite (Hin p c Hq Hc), Hc.
Qed.

(** ** Refinement *)

(** Hubs that differ in their queues, counters and limits show the same board. *)
Lemma same_board h h' : h_heap h' = h_heap h -> h_clients h' = h_clients h -> moves Quiet (board_of h) (board_of h').
Proof. intros Hh Hc p. cbn. unfold subscribed, inbox. rewrite Hh, Hc. done. Qed.

Lemma board_ext h0 h mv h' : h_heap h0 = h_heap h -> h_clients h0 = h_clients h ->
  moves mv (board_of h0) (board_of h') -> moves mv (board_of h) (board_of h').
Proof.
  intros Hh Hc. unfold board_of. assert (subscribed h0 = subscribed h) as -> by (unfold subscribed; by rewrite Hh, Hc).
  assert (inbox h0 = inbox h) as -> by (unfold inbox; by rewrite Hh). done.
Qed.

(** A listener of the circle whose buffer is full. *)
Definition full_listener (h : Hub) (cid : uuid) (p : ptr) : Prop :=
  subscribed h p cid /\ exists c, h_heap h !! p = Some c /\ has_room c = false.

(** The move of one iteration of the loop. *)
Definition move_of (k : hub_case) (h : Hub) (mv : move) : Prop :=
  match k with
  | CaseDone => mv = Stop
  | CaseRegister p => exists c, h_heap h !! p = Some c /\ mv = Join p (Client_circles c)
  | CaseUnregister p => mv = Leave p
  | CaseBroadcast => exists ev rest, h_broadcast h = ev :: rest /\ mv = Post ev (full_listener h (Event_CircleID ev))
  | CaseEvict => exists req rest, h_evict h = req :: rest /\ mv = Evict (evict_circleID req) (evicts h req)
  | CaseStats => mv = Quiet
  end.

Lemma select_case_board k h h' : hub_inv h -> (forall p, k = CaseRegister p -> registrable h p) ->
  select_case k h = Some h' -> exists mv, move_of k h mv /\ moves mv (board_of h) (board_of h').
Proof.
  intros Hinv Hreg. unfold select_case. destruct (_ || _); [done|]. destruct k as [|p|p| | |]; cbn [move_of].
  - intros [= <-]. eexists. split; [done|]. by apply shutdown_board.
  - intros [= <-]. destruct (Hreg p eq_refl) as (c & Hc & _). eexists. split; [by exists c|]. intros q. cbn. split; [|done].
    intros cid. unfold subscribed. cbn. rewrite elem_of_union, elem_of_singleton.
    destruct (decide (q = p)) as [->|Hne]; [|naive_solver]. rewrite Hc. naive_solver.
  - intros [= <-]. eexists. split; [done|]. apply removeClient_board, Hinv.
  - destruct (h_broadcast h) as [|ev rest]; [done|]. intros [= <-]. eexists. split; [by exists ev, rest|].
    eapply (board_ext (set_broadcast rest h) h); [done|done|]. apply (dispatch_board ev (set_broadcast rest h)). by eapply hub_inv_ext, Hinv.
  - destruct (h_evict h) as [|req rest]; [done|]. intros [= <-]. eexists. split; [by exists req, rest|].
    set (h0 := set_evict rest h). assert (Hcore : hub_core h0) by (apply (hub_inv_ext h h0); done).
    destruct (doEvict_spec req h0 Hcore) as [Hcore' Hcl Hu Hs _]. intros p. cbn [moves board_of b_listens b_inbox]. split.
    + intros cid. rewrite <- (hc_index _ Hcore' cid p), Hs, elem_of_elements, !(hc_index h0 Hcore).
      change (subscribed h0 p) with (subscribed h p). change (evicts h0 req p) with (evicts h req p). naive_solver.
    + apply (doEvict_inbox req h0 p Hcore).
  - intros [= <-]. eexists. split; [done|]. by apply same_board.
Qed.

(** C27: the hub refines the board: in every reachable state each step of the system,
    whoever takes it, is one move of the board, and a step of the loop is the move
    it stands for; in particular an event reaches exactly the listeners of its
    circle, once, in the order it was taken, and nobody listens before joining,
    after leaving, after an eviction that names them, or after the end. *)
Theorem hub_refines_board perUser total s s' (Hr : reachable perUser total s) (Hst : step s s') :
  (exists mv, moves mv (board_of (s_hub s)) (board_of (s_hub s'))) /\
  (forall k h', select_case k (s_hub s) = Some h' -> (forall p, k <> CaseRegister p) ->
    exists mv, move_of k (s_hub s) mv /\ moves mv (board_of (s_hub s)) (board_of h')).
Proof.
  pose proof (sys_reachable_inv _ _ _ Hr) as [Hinv Hs Hc _]. split.
  2: { intros k h' Hk Hne. apply select_case_board; [done| |done]. by intros p ->; destruct (Hne p). }
  destruct Hst as
    [h cs p u h' Hnew Hp Ha|h cs p u circles Hp|h cs p ph Hp Hph|h cs p u circles id Hp
    |h cs p u h' Hp Hk|h cs p u h' Hp Hk|h cs p u Hp|h cs k h' Hk Hl|h cs ev|h cs c u|h cs c]; cbn [s_hub] in *.
  - exists Quiet. unfold Admit_conn in Ha. case_match; [done|]. injection Ha as <-. by apply same_board.
  - exists Quiet. by apply same_board.
  - exists Quiet. by apply same_board.
  - exists (New p). intros q. cbn. assert (Hpn : p ∉ h_clients h) by (intros Hq; destruct (Hs p Hq); simplify_eq/=; congruence).
    split; [|split].
    + intros cid. unfold subscribed. cbn. destruct (decide (q = p)) as [->|Hne]; [naive_solver|]. by rewrite lookup_insert_ne.
    + intros ->. unfold inbox. cbn. by rewrite lookup_insert_eq.
    + intros Hne. apply inbox_cell. cbn. by rewrite lookup_insert_ne.
  - apply select_case_board in Hk as (mv & _ & Hmv); [by exists mv|done|]. intros q [= <-]. by eapply Hc.
  - apply select_case_board in Hk as (mv & _ & Hmv); [by exists mv|done|]. by intros q [=].
  - exists (Take p). intros q. cbn. unfold drain. destruct (h_heap h !! p) as [c|] eqn:Hcell;
      [destruct (Client_send c) as [|f rest] eqn:Hsend|]; cbn.
    + split; [done|]. split; [|done]. intros ->. unfold inbox. by rewrite Hcell, Hsend.
    + split; [intros cid; by rewrite subscribed_heap_update|]. unfold inbox. cbn. split.
      * intros ->. by rewrite lookup_insert_eq, Hcell, Hsend.
      * intros Hne. by rewrite lookup_insert_ne.
    + split; [done|]. split; [|done]. intros ->. unfold inbox. by rewrite Hcell.
  - apply select_case_board in Hl as (mv & _ & Hmv); [by exists mv|done|]. intros q ->. by destruct (Hk q).
  - exists Quiet. unfold Publish. destruct (_ <? _)%nat; by apply same_board.
  - exists Quiet. unfold EvictUser. destruct (_ <? _)%nat; by apply same_board.
  - exists Quiet. unfold EvictCircle. destruct (_ <? _)%nat; by apply same_board.
Qed.

(** The demo's client is sent the published event. *)
Lemma hub_refines_board_witness :
  exists mv, move_of CaseBroadcast (s_hub demo_published) mv /\
    moves mv (board_of (s_hub demo_published)) (board_of (dispatch demo_ev (set_broadcast [] (s_hub demo_published)))).
Proof.
  refine (proj2 (hub_refines_board 0 0 demo_published _ demo_published_reachable (st_publish (s_hub demo_published) demo_conns demo_ev))
    CaseBroadcast _ eq_refl _). discriminate.
Defined.
