(* ===== verification/LauncherSpec.v ===== *)
(** * The launcher's promises

    What the child finds in its environment; that this environment is one the
    server boots with; a pepper that never rotates; a supervisor that returns on
    shutdown and on a clean exit only, and backs off in between; and a Funnel that
    is only believed when it is live. *)

From S2P Require Import Prelude GoTime Base64 Models Api Ext World Demo Net Text Config ConfigSpec Launcher.
Local Open Scope string_scope.
Local Open Scope Z_scope.
Local Open Scope aul_scope.

(** ** The environment of a child *)

(** os/exec keeps the last entry of a key; [os.Getenv] answers "" for an absent one. *)
Definition entry (key kv : string) : option string :=
  match cut "=" kv with Some (k, v) => if decide (k = key) then Some v else None | None => None end.

Definition child_getenv (env : list string) (key : string) : string := default "" (last (omap (entry key) env)).

Lemma cut_entry k v : cut "=" k = None -> cut "=" (k ++ "=" ++ v) = Some (k, v).
Proof. intros Hk. rewrite string_app_cons, string_app_nil. by apply cut_app. Qed.

Lemma last_const {A} (l : list A) (v : A) : l <> [] -> (forall x, x ∈ l -> x = v) -> last l = Some v.
Proof.
  intros Hne Hall. destruct (last l) as [x|] eqn:Hl; [|by apply last_None in Hl].
  f_equal. apply Hall. by apply last_Some_elem_of.
Qed.

Lemma insert_string_perm x l : insert_string x l ≡ₚ x :: l.
Proof.
  induction l as [|y l IH]; [done|]. cbn. case_match; [done|done|]. rewrite IH. apply Permutation_swap.
Qed.

Lemma sort_strings_perm l : sort_strings l ≡ₚ l.
Proof. induction l as [|x l IH]; [done|]. cbn. by rewrite insert_string_perm, IH. Qed.

Section environment.
Context (base : list string) (overrides : gmap string string).
Hypothesis keys_ok : forall k v, overrides !! k = Some v -> cut "=" k = None.

Definition ours : list string :=
  (fun k => k ++ "=" ++ default "" (overrides !! k)) <$> sort_strings (elements (dom overrides)).

Lemma entry_ours key kv v : kv ∈ ours -> entry key kv = Some v <-> overrides !! key = Some v /\ kv = key ++ "=" ++ v.
Proof using keys_ok.
  intros (k & -> & Hk)%list_elem_of_fmap. rewrite sort_strings_perm in Hk. apply elem_of_elements, elem_of_dom in Hk as [v' Hk].
  rewrite Hk. unfold entry. rewrite cut_entry by by eapply keys_ok. unfold default, id. split.
  - case_decide; [|done]. by intros [= <-]; subst.
  - intros [Hv Heq]. pose proof (cut_app "=" k v' ltac:(by eapply keys_ok)) as H1.
    pose proof (cut_app "=" key v ltac:(by eapply keys_ok)) as H2.
    change (String "=" v') with ("=" ++ v') in H1. rewrite Heq in H1. change ("=" ++ v) with (String "=" v) in H1.
    rewrite H2 in H1. injection H1 as <- <-. by rewrite decide_True.
Qed.

Lemma mergeEnv_ours key v : overrides !! key = Some v -> child_getenv (mergeEnv base overrides) key = v.
Proof using keys_ok.
  intros Hk. unfold child_getenv. rewrite (last_const _ v); [done| |].
  - assert (v ∈ omap (entry key) (mergeEnv base overrides)) as Hin; [|by intros Heq; rewrite Heq in Hin; apply not_elem_of_nil in Hin].
    apply list_elem_of_omap. exists (key ++ "=" ++ v). split.
    + apply elem_of_app. right. apply list_elem_of_fmap. exists key. rewrite Hk. split; [done|].
      rewrite sort_strings_perm. by apply elem_of_elements, elem_of_dom.
    + unfold entry. rewrite cut_entry by by eapply keys_ok. by rewrite decide_True.
  - intros x (kv & [Hb|Ho]%elem_of_app & He)%list_elem_of_omap.
    + apply list_elem_of_In, filter_In in Hb as [_ Hb]. exfalso. unfold overridden, entry in *.
      destruct (cut "=" kv) as [[k v']|]; [|done]. case_decide; [subst k|done]. by rewrite Hk in Hb.
    + by apply entry_ours in He as [He _]; [|done]; simplify_eq.
Qed.

Lemma mergeEnv_inherited key : overrides !! key = None -> child_getenv (mergeEnv base overrides) key = child_getenv base key.
Proof using keys_ok.
  intros Hk. unfold child_getenv, mergeEnv. rewrite omap_app.
  assert (omap (entry key) ours = []) as Ho.
  { destruct (omap (entry key) ours) as [|v l] eqn:Hv; [done|].
    assert (v ∈ omap (entry key) ours) as (kv & Hin & He)%list_elem_of_omap by (rewrite Hv; by left).
    apply entry_ours in He as [He _]; [congruence|done]. }
  unfold ours in Ho. rewrite Ho, app_nil_r. do 2 f_equal.
  induction base as [|kv l IH]; [done|]. cbn [List.filter]. destruct (overridden overrides kv) eqn:Ho'; cbn [negb omap list_omap].
  - rewrite IH. assert (entry key kv = None) as ->; [|done]. unfold overridden, entry in *.
    destruct (cut "=" kv) as [[k v]|]; [|done]. apply bool_decide_eq_true in Ho'. apply decide_False.
    intros ->. rewrite Hk in Ho'. by destruct Ho'.
  - cbn. by rewrite IH.
Qed.
End environment.

(** ** The pepper *)

(** Both ways to a pepper give at least sixteen bytes. *)
Lemma provisionPepper_long `{Ext} file random pepper file' : length random = 32%nat ->
  provisionPepper file random = (Ok pepper, file') -> minPepperBytes <= str_len pepper.
Proof.
  intros Hr. unfold provisionPepper. destruct file as [raw|].
  - destruct (str_len (TrimSpace raw) <? minPepperBytes) eqn:Hl; [done|]. intros [= <- _]. by apply Z.ltb_ge in Hl.
  - intros [= <- _]. pose proof (EncodeToString_length StdEncoding random). unfold str_len, minPepperBytes. lia.
Qed.

(** the pepper never rotates: whatever the first start did, a later one, with
    whatever randomness, leaves the file alone and answers the same pepper, of at
    least sixteen bytes; a start that finds a file, even one it refuses, does not
    touch it. *)
Theorem pepper_never_rotates `{Ext} file random random' pepper file' (Hr : length random = 32%nat)
    (H1 : provisionPepper file random = (Ok pepper, file')) :
  provisionPepper file' random' = (Ok pepper, file') /\ minPepperBytes <= str_len pepper /\
  (forall raw, file = Some raw -> snd (provisionPepper file random') = file).
Proof.
  pose proof (provisionPepper_long _ _ _ _ Hr H1) as Hlong. split; [|split; [done|by intros raw ->]].
  unfold provisionPepper in *. destruct file as [raw|].
  - destruct (str_len (TrimSpace raw) <? minPepperBytes) eqn:Hl; [done|]. injection H1 as <- <-. by rewrite Hl.
  - injection H1 as <- <-. rewrite TrimSpace_graphic by apply EncodeToString_graphic.
    by rewrite (proj2 (Z.ltb_ge _ _)).
Qed.

Lemma pepper_never_rotates_witness :
  let random := repeat (demo_byte 7) 32 in
  let '(first, file) := provisionPepper None random in
  exists pepper, first = Ok pepper /\ provisionPepper file (repeat (demo_byte 8) 32) = (Ok pepper, file).
Proof.
  cbv zeta. destruct (provisionPepper None _) as [first file] eqn:H1. injection H1 as <- <-.
  eexists. split; [reflexivity|].
  exact (proj1 (@pepper_never_rotates demo_ext None (repeat (demo_byte 7) 32) (repeat (demo_byte 8) 32) _ _ eq_refl eq_refl)).
Defined.

(** ** The supervisor *)

(** How an attempt ends the loop, if it does. *)
Definition ends (a : attempt_outcome) : option run_result :=
  match a with
  | Cancelled | ExitedCancelled => Some CtxErr
  | ExitedCleanly => Some CleanExit
  | StartFailed slept | Crashed _ slept => if slept then None else Some CtxErr
  end.

(** The sleep after an attempt, [k] failures after the last stable run: the
    smallest backoff doubled [k] times, or the largest. *)
Definition delay (s : supervisor) (k : nat) : duration := Z.min (su_minBackoff s * 2 ^ Z.of_nat k) (su_maxBackoff s).

Fixpoint delays (s : supervisor) (k : nat) (attempts : list attempt_outcome) : list duration :=
  match attempts with
  | StartFailed slept :: rest => delay s k :: (if slept then delays s (S k) rest else [])
  | Crashed ran slept :: rest =>
      let k := if su_stableRun s <=? ran then O else k in
      delay s k :: (if slept then delays s (S k) rest else [])
  | _ => []
  end.

(** The bounds of a supervisor that make the doubling exact at 64 bits. *)
Record supervisor_ok (s : supervisor) : Prop := {
  so_min : 0 < su_minBackoff s <= su_maxBackoff s; so_max : su_maxBackoff s < 2 ^ 62 }.

Lemma delay_bounds s k : supervisor_ok s -> su_minBackoff s <= delay s k <= su_maxBackoff s.
Proof.
  intros [? _]. unfold delay. pose proof (Z.pow_pos_nonneg 2 (Z.of_nat k) ltac:(lia) ltac:(lia)).
  split; [apply Z.min_glb; nia|lia].
Qed.

Lemma nextBackoff_delay s k : supervisor_ok s -> nextBackoff (delay s k) (su_maxBackoff s) = delay s (S k).
Proof.
  intros Hok. pose proof (delay_bounds s k Hok) as Hb. destruct Hok as [Hm HM]. unfold nextBackoff, Duration_mul, wrap64.
  rewrite wrap_id; [|lia|unfold in_int; lia]. cbv zeta. unfold delay in *.
  rewrite Nat2Z.inj_succ, Z.pow_succ_r by lia. pose proof (Z.pow_pos_nonneg 2 (Z.of_nat k) ltac:(lia) ltac:(lia)).
  destruct (Z.ltb_spec (su_maxBackoff s) (Z.min (su_minBackoff s * 2 ^ Z.of_nat k) (su_maxBackoff s) * 2)); nia.
Qed.

Lemma supervise_delays s k attempts : supervisor_ok s ->
  let '(result, sleeps, _) := supervise s (delay s k) attempts in
  result = head (omap ends attempts) /\ sleeps = delays s k attempts.
Proof.
  intros Hok. assert (Hz : su_minBackoff s = delay s 0).
  { unfold delay. destruct Hok as [? _]. rewrite Z.pow_0_r. lia. }
  revert k. induction attempts as [|a rest IH]; intros k; [done|].
  destruct a as [slept| | | |ran slept]; cbn [supervise delays omap list_omap ends]; try done.
  - destruct slept; cbn [negb]; [|done]. rewrite nextBackoff_delay by done. specialize (IH (S k)).
    destruct (supervise s _ rest) as [[r sl] b]. destruct IH as [-> ->]. done.
  - cbv zeta. destruct (su_stableRun s <=? ran); [rewrite Hz|]; (destruct slept; cbn [negb]; [|done]);
      rewrite nextBackoff_delay by done; [specialize (IH 1%nat)|specialize (IH (S k))];
      destruct (supervise s _ rest) as [[r sl] b]; destruct IH as [-> ->]; done.
Qed.

Lemma delays_bounds s k attempts : supervisor_ok s -> Forall (fun d => su_minBackoff s <= d <= su_maxBackoff s) (delays s k attempts).
Proof.
  intros Hok. revert k. induction attempts as [|a rest IH]; intros k; [done|].
  destruct a as [[]| | | |ran []]; cbn; repeat constructor; try done; by apply delay_bounds.
Qed.

(** C35: the supervisor: it returns exactly when an attempt ends it, with a
    cancellation for a shutdown and without an error for a clean exit, and
    otherwise restarts for ever, however often the child crashes; the wait after
    the k-th failure since the last stable run is 500 ms doubled k times, never
    more than 30 s. *)
Theorem supervisor_restarts attempts :
  let '(result, sleeps, _) := run_supervisor Run_supervisor attempts in
  result = head (omap ends attempts) /\ sleeps = delays Run_supervisor 0 attempts /\
  Forall (fun d => 500 * Millisecond <= d <= 30 * Second) sleeps.
Proof.
  assert (Hok : supervisor_ok Run_supervisor) by by repeat split.
  pose proof (supervise_delays Run_supervisor 0 attempts Hok) as Hd. change (delay Run_supervisor 0) with (500 * Millisecond) in Hd.
  unfold run_supervisor. cbn [su_minBackoff Run_supervisor]. destruct (supervise _ _ attempts) as [[r sleeps] b].
  destruct Hd as [-> ->]. repeat (split; [done|]). exact (delays_bounds Run_supervisor 0 attempts Hok).
Qed.

Example crash_loop :
  run_supervisor Run_supervisor (repeat (Crashed 0 true) 8 ++ [Crashed (60 * Second) true; Crashed 0 true; ExitedCleanly])%list =
  (Some CleanExit, (fun ms => ms * Millisecond) <$> [500; 1000; 2000; 4000; 8000; 16000; 30000; 30000; 500; 1000], 2 * Second).
Proof. vm_compute. reflexivity. Qed.

(** ** The Funnel *)

(** A HostPort of this node that is allowed, terminates TLS and proxies something,
    at the top or in some session. *)
Inductive funnels (magic : string) : serveConfig -> string -> Prop :=
| funnels_here sc hp host port handlers :
    (hp, true) ∈ sc_AllowFunnel sc -> SplitHostPort hp = Some (host, port) ->
    EqualFold (TrimSuffix host ".") magic = true -> assoc port (sc_TCP sc) = Some true ->
    assoc hp (sc_Web sc) = Some handlers -> handlers <> [] -> funnels magic sc hp
| funnels_session sc name fg hp : (name, Some fg) ∈ sc_Foreground sc -> funnels magic fg hp -> funnels magic sc hp.

Lemma serveConfig_nested_ind (P : serveConfig -> Prop)
    (Hmk : forall tcp web allow fgs, Forall (fun kv => match kv.2 with Some fg => P fg | None => True end) fgs ->
      P (mk_serveConfig tcp web allow fgs)) :
  forall sc, P sc.
Proof.
  fix IH 1. intros [tcp web allow fgs]. apply Hmk. induction fgs as [|[name [fg|]] fgs IHf]; constructor; try done. apply IH.
Qed.

(** What one HostPort has to satisfy. *)
Definition live_here (magic : string) (sc : serveConfig) (hp : string) : Prop :=
  exists host port handlers, SplitHostPort hp = Some (host, port) /\ EqualFold (TrimSuffix host ".") magic = true /\
    assoc port (sc_TCP sc) = Some true /\ assoc hp (sc_Web sc) = Some handlers /\ handlers <> [].

Lemma live_funnel_spec sc magic hp : is_Some (live_funnel sc magic hp) <-> live_here magic sc hp.
Proof.
  unfold live_funnel, live_here. split.
  - intros [proxy Hl]. destruct (SplitHostPort hp) as [[host port]|]; [|done].
    destruct (EqualFold _ _) eqn:He; [|done]. cbn [negb] in Hl.
    destruct (assoc port _) as [[]|] eqn:Ht; [|done..]. cbn in Hl.
    destruct (assoc hp _) as [[|h l]|] eqn:Hw; [done| |done]. by exists host, port, (h :: l).
  - intros (host & port & handlers & -> & -> & -> & -> & Hne). destruct handlers; [done|]. cbn. eauto.
Qed.

Lemma first_live_spec sc magic allow :
  match first_live sc magic allow with
  | Some (hp, _) => (hp, true) ∈ allow /\ live_here magic sc hp
  | None => forall hp, (hp, true) ∈ allow -> ~ live_here magic sc hp
  end.
Proof.
  induction allow as [|[hp allowed] rest IH]; [by intros hp ?%not_elem_of_nil|]. cbn [first_live].
  assert (Hskip : (allowed = true -> ~ live_here magic sc hp) ->
    match first_live sc magic rest with
    | Some (hp', _) => (hp', true) ∈ (hp, allowed) :: rest /\ live_here magic sc hp'
    | None => forall hp', (hp', true) ∈ (hp, allowed) :: rest -> ~ live_here magic sc hp'
    end).
  { intros Hno. destruct (first_live sc magic rest) as [[hp' proxy]|].
    - destruct IH. split; [by apply elem_of_cons; right|done].
    - intros hp' [[= -> <-]|Hin]%elem_of_cons; [by apply Hno|by apply IH]. }
  destruct allowed; [|by apply Hskip]. destruct (live_funnel sc magic hp) as [proxy|] eqn:Hl.
  - split; [by left|]. apply live_funnel_spec. eauto.
  - apply Hskip. intros _ Hlive%live_funnel_spec. rewrite Hl in Hlive. by destruct Hlive.
Qed.

Lemma first_session_spec search l :
  match first_session search l with
  | Some (hp, proxy) => exists name fg, (name, Some fg) ∈ l /\ search fg = Some (hp, proxy)
  | None => forall name fg, (name, Some fg) ∈ l -> search fg = None
  end.
Proof.
  induction l as [|[name [fg|]] l IH]; [by intros ?? ?%not_elem_of_nil|..]; cbn [first_session].
  - destruct (search fg) as [[hp proxy]|] eqn:Hs; [exists name, fg; split; [by left|done]|].
    destruct (first_session search l) as [[hp proxy]|].
    + destruct IH as (n & f & Hin & Hf). exists n, f. split; [by right|done].
    + intros n f [[= -> ->]|Hin]%elem_of_cons; [done|by eapply IH].
  - destruct (first_session search l) as [[hp proxy]|].
    + destruct IH as (n & f & Hin & Hf). exists n, f. split; [by right|done].
    + intros n f [?|Hin]%elem_of_cons; [done|by eapply IH].
Qed.

Lemma funnelHostPort_spec sc magic :
  match funnelHostPort sc magic with
  | Some (hp, _) => funnels magic sc hp
  | None => forall hp, ~ funnels magic sc hp
  end.
Proof.
  induction sc as [tcp web allow fgs IH] using serveConfig_nested_ind. cbn [funnelHostPort].
  set (sc := mk_serveConfig tcp web allow fgs). pose proof (first_live_spec sc magic allow) as Hf.
  change (sc_AllowFunnel sc) with allow. change (sc_Foreground sc) with fgs.
  destruct (first_live sc magic allow) as [[hp proxy]|].
  { destruct Hf as [Hin (host & port & handlers & H1 & H2 & H3 & H4 & H5)]. by eapply funnels_here. }
  pose proof (first_session_spec (fun fg => funnelHostPort fg magic) fgs) as Hs. rewrite Forall_forall in IH.
  destruct (first_session _ fgs) as [[hp proxy]|].
  - destruct Hs as (name & fg & Hin & Hfg). specialize (IH _ Hin). cbn in IH. rewrite Hfg in IH. by eapply funnels_session.
  - intros hp Hfun. inversion Hfun as [? ? host port handlers Ha H1 H2 H3 H4 H5|? name fg ? Hin Hsub]; subst.
    + eapply Hf; [exact Ha|]. by exists host, port, handlers.
    + specialize (IH _ Hin). cbn in IH. specialize (Hs _ _ Hin). cbn in Hs. rewrite Hs in IH. by eapply IH.
Qed.

(** a Funnel is used exactly when there is one: tailscale runs on this node
    under a name, and some HostPort of that name is allowed, terminates TLS and
    proxies something, at the top level or in a foreground session at any depth;
    the origin is then the https URL of such a HostPort, with the port unless it
    is 443. *)
Theorem funnel_exact `{Ext} ts :
  match FunnelOrigin ts with
  | Ok found => exists st sc hp host port, tl_installed ts = true /\ tl_status ts = Ok st /\ ts_BackendState st = "Running" /\
      tl_serve ts = Ok sc /\ funnels (TrimSuffix (ts_DNSName st) ".") sc hp /\ SplitHostPort hp = Some (host, port) /\
      fu_Origin found = (if bool_decide (port = "443") then "https://" ++ TrimSuffix host "."
        else ("https://" ++ TrimSuffix host ".") ++ ":" ++ port)
  | Err _ => forall st sc hp, tl_installed ts = true -> tl_status ts = Ok st -> ts_BackendState st = "Running" ->
      TrimSuffix (ts_DNSName st) "." <> "" -> tl_serve ts = Ok sc -> ~ funnels (TrimSuffix (ts_DNSName st) ".") sc hp
  end.
Proof.
  unfold FunnelOrigin. destruct ts as [installed status serve]. cbn [tl_installed tl_status tl_serve].
  destruct installed; cbn [negb]; [|done]. destruct status as [st|]; [|done].
  destruct (bool_decide_reflect (ts_BackendState st = "Running")) as [Hrun|]; cbn [negb]; [|by intros ?? ? _ [= <-]].
  cbv zeta. destruct (empty _) eqn:He; [apply empty_true in He; by intros ?? ? _ [= <-]|].
  destruct serve as [sc|]; [|done]. pose proof (funnelHostPort_spec sc (TrimSuffix (ts_DNSName st) ".")) as Hf.
  destruct (funnelHostPort sc _) as [[hp proxy]|]; [|by intros ?? ? _ [= <-] _ _ [= <-]].
  assert (exists host port, SplitHostPort hp = Some (host, port)) as (host & port & Hsp) by by induction Hf; eauto.
  unfold funnelOrigin. rewrite Hsp. by exists st, sc, hp, host, port.
Qed.

(** ** The environment boots the server *)

Lemma bind_pure {A B} (m : W A) (k : A -> W B) a errs : m errs = (a, errs) -> W_bind m k errs = k a errs.
Proof. unfold W_bind. by intros ->. Qed.

Lemma substring_past s n : (String.length s <= n)%nat -> String.substring 0 n s = s.
Proof.
  revert n. induction s as [|c s IH]; intros n Hn; [by destruct n|]. destruct n as [|n]; [cbn in Hn; lia|].
  cbn in *. by rewrite IH by lia.
Qed.

(** What follows a double slash. *)
Lemma after_slashes s : String.substring 2 (String.length ("//" ++ s)) ("//" ++ s) = s.
Proof.
  rewrite !string_app_cons, string_app_nil. cbn [String.length].
  transitivity (String.substring 0 (S (S (String.length s))) s); [done|]. apply substring_past. lia.
Qed.

Lemma lower_char_slash c : lower_char c = "/"%char -> c = "/"%char.
Proof. destruct c as [[] [] [] [] [] [] [] []]; done. Qed.

Lemma SQLitePathOf_sqlite p : HasPrefix p "//" = false -> SQLitePathOf ("sqlite:" ++ p) = p.
Proof.
  intros Hp. unfold SQLitePathOf. rewrite !string_app_cons, string_app_nil. cbn [cut_prefix].
  match goal with |- (if ?b then _ else _) = _ => assert (b = false) as -> end.
  { apply andb_false_iff. right. apply bool_decide_eq_false. cbn. unfold lower_ascii. cbn. intros Heq.
    destruct p as [|a [|b p]]; [done|done|]. cbn in Heq. injection Heq as Ha Hb.
    apply lower_char_slash in Ha, Hb. subst. by destruct p. }
  match goal with |- (if ?b then _ else _) = _ => assert (b = true) as -> end.
  { cbn. destruct p; done. }
  cbn [String.length]. change (String.length "sqlite:") with 7%nat. cbn. rewrite Nat.sub_0_r. by apply substring_past.
Qed.

Lemma lower_ascii_app a b : lower_ascii (a ++ b) = lower_ascii a ++ lower_ascii b.
Proof.
  unfold lower_ascii. rewrite list_ascii_app, fmap_app. induction (lower_char <$> _) as [|c l IH]; [done|].
  cbn. by rewrite string_app_cons, IH.
Qed.

Lemma TrimSpace_empty `{Ext} : TrimSpace "" = "".
Proof. done. Qed.

Section unset.
Context `{Ext} (getenv : string -> string) (key : string) (Hk : getenv key = "").

Lemma getInt_unset def lo hi : getInt getenv key def lo hi [] = (def, []).
Proof using Hk. unfold getInt. by rewrite Hk, TrimSpace_empty. Qed.

Lemma getDuration_unset def : getDuration getenv key def [] = (def, []).
Proof using Hk. unfold getDuration. by rewrite Hk, TrimSpace_empty. Qed.
End unset.

(** The settings an inherited value of which could keep the server from booting. *)
Definition fallible : list string :=
  ["AUL_DB_BACKEND"; "IP_LOG_RETENTION_DAYS"; "DEFAULT_RETENTION_DAYS"; "MAX_RETENTION_DAYS"; "PING_RETENTION_HOURS";
   "VAPID_PUBLIC_KEY"; "VAPID_PRIVATE_KEY"; "FCM_SERVICE_ACCOUNT_FILE"; "ACCESS_TTL"; "REFRESH_TTL"; "REQUEST_TIMEOUT";
   "SHUTDOWN_TIMEOUT"; "BODY_LIMIT_BYTES"; "RATE_AUTH_PER_MIN"; "RATE_INVITES_PER_HOUR"; "RATE_PINGS_PER_MIN"].

Lemma in_fallible key : bool_decide (key ∈ fallible) = true -> key ∈ fallible.
Proof. apply bool_decide_eq_true. Qed.

(** What the launcher and the server rely on of net/url: an origin taken from a
    parsed URL parses again to the same scheme and host; the local origin parses;
    the empty text has no host. *)
Record url_laws `{Ext} : Prop := {
  ul_again : forall s u, url_Parse s = Some u -> url_Host u <> "" ->
    url_Parse (TrimSpace (originString u)) = Some (mkURL (url_Scheme u) (url_Host u));
  ul_localhost : forall p, 0 <= p ->
    url_Parse ("http://localhost:" ++ itoa p) = Some (mkURL "http" ("localhost:" ++ itoa p));
  ul_empty : forall u, url_Parse "" = Some u -> url_Host u = "" }.

(** The environment and the cookies fit the scheme of the origin, which parses. *)
Definition coherent `{Ext} (res : resolved) : Prop :=
  exists u, url_Parse (TrimSpace (re_Origin res)) = Some u /\ url_Host u <> "" /\
    (url_Scheme u = "https" /\ re_Env res = "production" /\ re_SecureCookies res = true \/
     url_Scheme u = "http" /\ re_Env res = "development" /\ re_SecureCookies res = false).

Lemma resolveOrigin_coherent `{Ext} origin port detect res (Hu : url_laws) (Hp : 0 <= port)
    (Hd : forall f, detect = Some f -> exists h, h <> "" /\ url_Parse (TrimSpace (fu_Origin f)) = Some (mkURL "https" h)) :
  resolveOrigin origin port detect = Ok res -> coherent res.
Proof.
  unfold resolveOrigin, coherent. destruct (empty origin) eqn:Ho; cbn [negb].
  - destruct detect as [f|]; cbn.
    + intros [= <-]. destruct (Hd f eq_refl) as (h & Hh & Hf). exists (mkURL "https" h).
      split; [done|]. split; [done|]. by left.
    + intros [= <-]. cbn [re_Origin re_Env re_SecureCookies]. exists (mkURL "http" ("localhost:" ++ itoa port)).
      rewrite TrimSpace_graphic; [|by rewrite all_chars_app, itoa_graphic]. split; [by apply (ul_localhost Hu)|].
      split; [done|]. by right.
  - destruct (url_Parse origin) as [u|] eqn:Hpu; [|done]. destruct (empty (url_Host u) || _) eqn:Hb; [done|].
    apply orb_false_iff in Hb as [Hh%empty_false Hs]. apply negb_false_iff, orb_true_iff in Hs.
    unfold classifyOrigin. intros Hres. exists (mkURL (url_Scheme u) (url_Host u)).
    destruct Hs as [Hs%bool_decide_eq_true|Hs%bool_decide_eq_true]; rewrite Hs in Hres; injection Hres as <-;
      cbn [re_Origin re_Env re_SecureCookies]; (split; [by eapply (ul_again Hu)|]); (split; [done|]); [by right|by left].
Qed.

(** The seven settings of the child. *)
Section child.
Context `{Ext} (base : list string) (res : resolved) (pepper dir : string).
Context (Hu : url_laws) (Hco : coherent res) (Hpepper : 16 <= str_len pepper) (Hdir : is_ascii dir = true).
Context (Hquiet : forall key, key ∈ fallible -> child_getenv base key = "").

Definition child : string -> string := child_getenv (composeEnv base res pepper (dir ++ "aul.db")).

Lemma child_settings :
  child "PUBLIC_ORIGIN" = re_Origin res /\ child "AUL_ENV" = re_Env res /\
  child "SECURE_COOKIES" = (if re_SecureCookies res then "true" else "false") /\
  child "DATABASE_URL" = "sqlite:" ++ dir ++ "aul.db" /\ child "SESSION_HASH_PEPPER" = pepper /\
  child "RUN_MIGRATIONS" = "true" /\ child "HTTP_ADDR" = "127.0.0.1:" ++ itoa (re_BindPort res) /\
  (forall key, key ∈ fallible -> child key = "").
Proof using Hquiet.
  unfold child, composeEnv. set (ov := <["PUBLIC_ORIGIN" := _]> _).
  assert (Hov : forall k v, ov !! k = Some v -> cut "=" k = None).
  { intros k v. subst ov. rewrite !lookup_insert_Some, lookup_empty. intros Hk.
    repeat (destruct Hk as [[<- _]|[_ Hk]]; [reflexivity|]). discriminate Hk. }
  repeat (split; [apply mergeEnv_ours; [done|reflexivity]|]). intros key Hk.
  rewrite mergeEnv_inherited; [by apply Hquiet|done|].
  unfold fallible in Hk. repeat (apply elem_of_cons in Hk as [->|Hk]; [reflexivity|]). by apply not_elem_of_nil in Hk.
Qed.

Lemma child_database :
  TrimSpace (child "DATABASE_URL") = "sqlite:" ++ dir ++ "aul.db" /\
  load_backend child (TrimSpace (child "DATABASE_URL")) [] = (BackendSQLite, []).
Proof using Hquiet Hdir.
  destruct child_settings as (_ & _ & _ & -> & _ & _ & _ & Hq).
  assert (Ht : TrimSpace ("sqlite:" ++ dir ++ "aul.db") = "sqlite:" ++ dir ++ "aul.db") by by apply TrimSpace_between.
  rewrite Ht. split; [done|]. unfold load_backend, detectDBBackend. rewrite (Hq "AUL_DB_BACKEND") by by left.
  rewrite TrimSpace_empty, Ht.
  assert (ToLower ("sqlite:" ++ dir ++ "aul.db") = "sqlite:" ++ lower_ascii (dir ++ "aul.db")) as ->.
  { unfold ToLower. rewrite !is_ascii_app, Hdir. apply (lower_ascii_app "sqlite:"). }
  rewrite HasPrefix_app. rewrite !string_app_cons, string_app_nil. reflexivity.
Qed.

Lemma child_origin dev : dev = bool_decide (re_Env res = EnvDevelopment) ->
  exists u, url_Parse (TrimSpace (re_Origin res)) = Some u /\ load_origin child dev [] = (Some u, []) /\
    (re_SecureCookies res = true -> url_Scheme u = "https").
Proof using Hu Hco Hquiet.
  intros ->. destruct child_settings as (Ho & _). destruct Hco as (u & Hp & Hh & Hcase). exists u. split; [done|].
  split; [|by intros Hs; destruct Hcase as [(? & _)|(_ & _ & ?)]; congruence].
  unfold load_origin. rewrite Ho.
  assert (empty (TrimSpace (re_Origin res)) = false) as Hne.
  { apply bool_decide_eq_false. intros Heq. rewrite Heq in Hp. by apply (ul_empty Hu) in Hp. }
  rewrite Hne. cbn [W_bind pure]. unfold W_bind, pure. rewrite Hne, Hp.
  assert (empty (url_Host u) = false) as -> by by apply bool_decide_eq_false.
  destruct Hcase as [(-> & -> & _)|(-> & -> & _)]; reflexivity.
Qed.

Lemma child_env : load_env child [] = (re_Env res, []).
Proof using Hco Hquiet.
  destruct child_settings as (_ & He & _). unfold load_env. rewrite He.
  destruct Hco as (u & _ & _ & [(_ & -> & _)|(_ & -> & _)]); reflexivity.
Qed.

Lemma child_pepper dev : load_pepper child dev [] = (pepper, []).
Proof using Hpepper Hquiet.
  destruct child_settings as (_ & _ & _ & _ & Hp & _). unfold load_pepper. rewrite Hp.
  assert (empty pepper = false) as ->; [apply bool_decide_eq_false; by intros ->|]. cbn [andb].
  rewrite (bind_pure _ _ tt []); [done|]. by rewrite (proj2 (Z.ltb_ge _ _)).
Qed.

Lemma child_push readFile o :
  loadVAPID child o [] = (("", "", ""), []) /\ loadFCM child readFile [] = (("", "", []), []).
Proof using Hquiet.
  destruct child_settings as (_ & _ & _ & _ & _ & _ & _ & Hq). unfold loadVAPID, loadFCM.
  rewrite (Hq "VAPID_PUBLIC_KEY"), (Hq "VAPID_PRIVATE_KEY"), (Hq "FCM_SERVICE_ACCOUNT_FILE") by by apply in_fallible.
  rewrite TrimSpace_empty. done.
Qed.

Lemma child_bool key def b : child key = (if b : bool then "true" else "false") -> getBool child key def = b.
Proof. unfold getBool. intros ->. by destruct b. Qed.

Lemma child_loads readFile : HasPrefix (dir ++ "aul.db") "//" = false -> exists c, LoadFrom child readFile = Ok c /\
    cfg_HTTPAddr c = "127.0.0.1:" ++ itoa (re_BindPort res) /\ cfg_PublicOrigin c = url_Parse (TrimSpace (re_Origin res)) /\
    cfg_Env c = re_Env res /\ cfg_SecureCookies c = re_SecureCookies res /\
    cfg_DBBackend c = BackendSQLite /\ SQLitePath c = dir ++ "aul.db" /\
    cfg_SessionPepper c = list_byte_of_string pepper /\ cfg_RunMigrations c = true.
Proof using Hu Hco Hpepper Hdir Hquiet.
  intros Hunc. destruct child_database as [Hurl Hback]. destruct (child_origin _ eq_refl) as (u & Hparse & Horigin & Hsec).
  destruct child_settings as (_ & _ & Hcookies & _ & _ & Hmig & Haddr & Hq).
  pose proof (fun o => child_push readFile o) as Hpush.
  assert (Hint : forall key def lo hi, key ∈ fallible -> getInt child key def lo hi [] = (def, [])).
  { intros. by apply getInt_unset, Hq. }
  assert (Hdur : forall key def, key ∈ fallible -> getDuration child key def [] = (def, [])).
  { intros. by apply getDuration_unset, Hq. }
  unfold LoadFrom, load. rewrite (bind_pure _ _ _ _ child_env). cbv zeta. rewrite (bind_pure _ _ _ _ Horigin).
  rewrite (bind_pure _ _ tt []) by by rewrite Hurl.
  rewrite (bind_pure _ _ _ _ Hback), (bind_pure _ _ _ _ (child_pepper _)).
  do 3 (erewrite bind_pure; [|apply Hint; by apply in_fallible]).
  rewrite (bind_pure _ _ tt []) by done.
  erewrite bind_pure; [|apply Hint; by apply in_fallible].
  rewrite (bind_pure _ _ _ _ (proj1 (Hpush _))), (bind_pure _ _ _ _ (proj2 (Hpush None))).
  do 4 (erewrite bind_pure; [|apply Hdur; by apply in_fallible]).
  do 4 (erewrite bind_pure; [|apply Hint; by apply in_fallible]).
  rewrite (child_bool "SECURE_COOKIES" _ (re_SecureCookies res) Hcookies), (child_bool "RUN_MIGRATIONS" _ true Hmig).
  assert (getenvDefault child "HTTP_ADDR" ":8080" = "127.0.0.1:" ++ itoa (re_BindPort res)) as ->.
  { unfold getenvDefault. by rewrite Haddr, TrimSpace_graphic by by rewrite all_chars_app, itoa_graphic. }
  rewrite (bind_pure _ _ tt []).
  - eexists. split; [reflexivity|]. unfold SQLitePath.
    cbn [cfg_HTTPAddr cfg_PublicOrigin cfg_Env cfg_SecureCookies cfg_DBBackend cfg_DatabaseURL cfg_SessionPepper cfg_RunMigrations].
    rewrite Hurl, Hparse.
    rewrite SQLitePathOf_sqlite by done.
    by repeat split.
  - unfold cookieSecureButInsecureOrigin. cbn [cfg_SecureCookies cfg_PublicOrigin].
    destruct (re_SecureCookies res); [|done]. by rewrite Hsec.
Qed.
End child.

(** C34: what the launcher composes boots the server: on a machine whose environment
    sets none of the optional settings that can be wrong, whatever else it holds,
    whose data directory has an ASCII path that is not of the form //host, and
    with net/url parsing as documented ([url_laws]),
    the child's environment is one [LoadFrom] accepts, with the values the
    launcher chose: the loopback address, so that the plain-text port is not
    exposed; the SQLite database in the data directory; the pepper of the pepper
    file; production with secure cookies if the origin is https, development
    without them otherwise. *)
Theorem launcher_environment_boots `{Ext} o detect pepperFile random base dir env readFile
    (Hu : url_laws) (Hport : 0 <= op_Port o) (Hr : length random = 32%nat)
    (Hdir : is_ascii dir = true) (Hunc : HasPrefix (dir ++ "aul.db") "//" = false)
    (Hd : forall f, detect = Some f -> exists h, h <> "" /\ url_Parse (TrimSpace (fu_Origin f)) = Some (mkURL "https" h))
    (Hquiet : forall key, key ∈ fallible -> child_getenv base key = "")
    (He : Run_env o detect pepperFile random base (dir ++ "aul.db") = Ok env) :
  exists c res pepper, LoadFrom (child_getenv env) readFile = Ok c /\
    resolveOrigin (op_Origin o) (op_Port (withDefaults o)) detect = Ok res /\
    fst (provisionPepper pepperFile random) = Ok pepper /\
    cfg_HTTPAddr c = "127.0.0.1:" ++ itoa (re_BindPort res) /\ cfg_PublicOrigin c = url_Parse (TrimSpace (re_Origin res)) /\
    cfg_Env c = re_Env res /\ cfg_SecureCookies c = re_SecureCookies res /\
    cfg_DBBackend c = BackendSQLite /\ SQLitePath c = dir ++ "aul.db" /\
    cfg_SessionPepper c = list_byte_of_string pepper /\ cfg_RunMigrations c = true.
Proof.
  unfold Run_env in He. destruct (provisionPepper pepperFile random) as [[pepper|] file] eqn:Hpep; [|done]. cbn [fst] in *.
  cbn [op_Origin withDefaults] in He. destruct (resolveOrigin _ _ detect) as [res|] eqn:Hres; [|done]. injection He as <-.
  pose proof (provisionPepper_long _ _ _ _ Hr Hpep) as Hlong.
  assert (Hco : coherent res).
  { eapply resolveOrigin_coherent; [done| |exact Hd|exact Hres]. cbn. destruct (op_Port o =? 0); lia. }
  destruct (child_loads base res pepper dir Hu Hco Hlong Hdir Hquiet readFile Hunc) as (c & Hload & Hc).
  exists c, res, pepper. split; [exact Hload|]. split; [reflexivity|]. by split.
Qed.

(** A tailnet name, no pepper yet, and an operator's shell that exports a stale origin. *)
Definition demo_detect : option funnelResult := Some (mk_funnelResult "https://box.tail1234.ts.net" "9090").
Definition demo_base : list string := ["PATH=/usr/bin"; "PUBLIC_ORIGIN=http://stale.example"; "AUL_ENV=development"].

(** The stand-in parser obeys the laws. *)
Lemma demo_url_laws : @url_laws demo_ext.
Proof.
  split; cbn [url_Parse demo_ext].
  - intros s u. unfold demo_url_Parse at 1. destruct (all_chars graphic s) eqn:Hg; cbn [negb]; [|done].
    destruct (cut ":" s) as [[scheme rest]|] eqn:Hc; [|by intros [= <-]]. cbv zeta.
    case_bool_decide as Hrest; [|by intros [= <-]]. intros [= <-] _.
    assert (originString (mkURL scheme (String.substring 2 (String.length rest) rest)) = s) as ->.
    { unfold originString. cbn [url_String demo_ext url_Scheme url_Host]. rewrite (cut_Some _ _ _ _ Hc). f_equal.
      rewrite !string_app_cons, string_app_nil. f_equal. rewrite Hrest at 3. by rewrite !string_app_cons, string_app_nil. }
    rewrite TrimSpace_graphic by done. unfold demo_url_Parse. rewrite Hg, Hc. cbn [negb]. cbv zeta.
    by rewrite bool_decide_eq_true_2.
  - intros p _. unfold demo_url_Parse. rewrite all_chars_app, itoa_graphic. cbn [negb].
    assert (cut ":" ("http://localhost:" ++ itoa p) = Some ("http", "//localhost:" ++ itoa p)) as -> by done.
    cbv zeta. change ("//localhost:" ++ itoa p) with ("//" ++ ("localhost:" ++ itoa p)). rewrite after_slashes.
    by rewrite bool_decide_eq_true_2.
  - by intros u [= <-].
Qed.

Lemma launcher_environment_boots_witness :
  exists env c, @Run_env demo_ext (mk_Options "" 0 0) demo_detect None (repeat (demo_byte 7) 32) demo_base "/var/lib/aul/aul.db" = Ok env /\
    LoadFrom (child_getenv env) no_file = Ok c /\ cfg_HTTPAddr c = "127.0.0.1:9090" /\ cfg_Env c = "production".
Proof.
  destruct (@Run_env demo_ext (mk_Options "" 0 0) demo_detect None (repeat (demo_byte 7) 32) demo_base "/var/lib/aul/aul.db")
    as [env|e] eqn:He; [|vm_compute in He; discriminate He].
  pose proof (@launcher_environment_boots demo_ext (mk_Options "" 0 0) demo_detect None (repeat (demo_byte 7) 32) demo_base
    "/var/lib/aul/" env no_file demo_url_laws) as Hboot.
  destruct Hboot as (c & res & pepper & Hload & Hres & _ & Haddr & _ & Henv & _).
  1, 2, 3, 4: vm_compute; congruence.
  - intros f [= <-]. exists "box.tail1234.ts.net". split; [done|reflexivity].
  - intros key Hk. unfold fallible in Hk. repeat (apply elem_of_cons in Hk as [->|Hk]; [reflexivity|]). by apply not_elem_of_nil in Hk.
  - exact He.
  - injection Hres as <-. by exists env, c.
Defined.
