(* ===== verification/FilesSpec.v ===== *)
(** * The pepper across power losses

    A file replaced by [atomicWriteFile] is, whatever call fails and wherever the
    power goes, its old contents or the new ones, never a part; and a pepper once
    handed to the server is the one every later launch hands out. *)

From S2P Require Launcher.
From S2P Require Import Prelude GoTime Models Api Ext Base64 Config ConfigSpec Text Demo Files.
From stdpp Require Import relations.
Local Open Scope Z_scope.

(** ** What a name may hold after a crash *)

Definition holds (d : disk) (e : option nat) (c : option string) : Prop :=
  match e with
  | None => c = None
  | Some i => exists x, dk_inodes d !! i = Some x /\ in_synced x = true /\ c = Some (in_data x)
  end.

Definition possible (d : disk) (name : string) (cs : list (option string)) : Prop :=
  entries d name <> [] /\ Forall (fun e => Exists (holds d e) cs) (entries d name).

Lemma possible_weaken d name cs cs' : possible d name cs -> cs ⊆ cs' -> possible d name cs'.
Proof.
  intros [Hn Hp] Hs. split; [done|]. eapply Forall_impl; [exact Hp|]. intros e. cbn. rewrite !Exists_exists. intros (c & Hc & He).
  exists c. split; [by apply Hs|done].
Qed.

Lemma possible_content d name cs : possible d name cs -> content d name ∈ cs.
Proof.
  intros [Hn Hp]. unfold content, entry. destruct (entries d name) as [|e es]; [done|]. cbn.
  apply Forall_cons_1 in Hp as [He _]. apply Exists_exists in He as (c & Hc & Hh). destruct e as [i|]; cbn in *; [|by subst].
  destruct Hh as (x & Hx & _ & ->). by rewrite Hx.
Qed.

Lemma possible_crash d d' name cs : possible d name cs -> crashes d d' -> exists c, c ∈ cs /\ possible d' name [c].
Proof.
  intros [_ Hp] [Hnames Hinodes]. destruct (Hnames name) as (e & He & Hd'). eapply Forall_forall in Hp; [|exact He].
  apply Exists_exists in Hp as (c & Hc & Hh). exists c. split; [done|]. unfold possible. rewrite Hd'. split; [done|].
  apply Forall_singleton, Exists_cons. left. destruct e as [i|]; cbn in *; [|done]. destruct Hh as (x & Hx & Hs & ->).
  destruct (Hinodes _ _ Hx) as (x' & -> & Hs' & Hdata). exists x'. by rewrite Hdata.
Qed.

Lemma entries_set_inode i x d name : entries (set_inode i x d) name = entries d name.
Proof. done. Qed.

Lemma entries_set_entry name e d name' :
  entries (set_entry name e d) name' = if decide (name' = name) then e :: entries d name else entries d name'.
Proof. unfold entries, set_entry. cbn. destruct (decide (name' = name)) as [->|Hn]; [by rewrite lookup_insert_eq|by rewrite lookup_insert_ne]. Qed.

Lemma possible_set_inode i x d name cs : possible d name cs -> Some i ∉ entries d name -> possible (set_inode i x d) name cs.
Proof.
  intros [Hn Hp] Hi. split; [done|]. rewrite entries_set_inode. apply Forall_forall. intros e He. eapply Forall_forall in Hp; [|exact He].
  eapply Exists_impl; [exact Hp|]. intros c. destruct e as [j|]; [|done]. cbn. rewrite lookup_insert_ne; [done|]. by intros ->.
Qed.

Lemma possible_set_entry_other name' e d name cs : name <> name' -> possible d name cs -> possible (set_entry name' e d) name cs.
Proof. intros Hne [Hn Hp]. unfold possible. rewrite entries_set_entry. by rewrite decide_False. Qed.

Lemma possible_set_entry e d name c cs : possible d name cs -> holds d e c -> possible (set_entry name e d) name (c :: cs).
Proof.
  intros Hp Hh. unfold possible. rewrite entries_set_entry, decide_True by done. split; [done|]. constructor.
  - apply Exists_cons. by left.
  - eapply Forall_impl; [exact (proj2 Hp)|]. intros e'. cbn. rewrite Exists_cons. auto.
Qed.

(** ** Programs: what holds at every point, and at the end *)

Section always.
Context (unix : bool) (allowed : forall X, syscall X -> fate -> Prop).

Fixpoint always {A} (C : disk -> Prop) (Q : A -> disk -> Prop) (p : program A) (d : disk) : Prop :=
  C d /\
  match p with
  | Done a => Q a d
  | Sys c k => forall f r d', allowed _ c f -> perform unix c f d = (r, d') -> always C Q (k r) d'
  end.

Lemma always_sound {A} C Q (p p' : program A) d d' : rtc (step unix allowed) (p, d) (p', d') -> always C Q p d ->
  always C Q p' d'.
Proof.
  intros Hr. remember (p, d) as s eqn:Hs. remember (p', d') as s' eqn:Hs'. revert p d Hs.
  induction Hr as [s|s s1 s2 Hstep Hr IH]; intros p d ->; [by simplify_eq|]. intros Ha.
  inversion Hstep; subst. eapply IH; [done|done|]. destruct Ha as [_ Ha]. eauto.
Qed.

Lemma always_now {A} C Q (p : program A) d : always C Q p d -> C d.
Proof. by destruct p; intros []. Qed.

Lemma always_bind {A B} C Q (p : program A) (k : A -> program B) d :
  always C (fun a d' => always C Q (k a) d') p d -> always C Q (program_bind p k) d.
Proof.
  revert d. induction p as [a|X c k' IH]; intros d; cbn [program_bind].
  - by intros [_ H].
  - intros [Hc Hk]. split; [done|]. intros f r d' Hf Hp. apply IH. eauto.
Qed.

Lemma always_weaken {A} (C C' : disk -> Prop) (Q Q' : A -> disk -> Prop) (p : program A) d :
  (forall d', C d' -> C' d') -> (forall a d', C d' -> Q a d' -> Q' a d') -> always C Q p d -> always C' Q' p d.
Proof. intros HC HQ. revert d. induction p as [a|X c k IH]; intros d [Hc Hk]; split; eauto. Qed.
End always.

(** ** [atomicWriteFile] *)

Lemma temp_not_pepper r : temp_name r <> pepper_file.
Proof. done. Qed.

Section atomic.
Context (unix : bool) (allowed : forall X, syscall X -> fate -> Prop).
Context (path : string) (Hpath : forall r, temp_name r <> path) (old : option string) (data : string).

Abbreviation either := (fun d => possible d path [old; Some data]).

(** The temporary file, apart from the target. *)
Definition apart (tmp : string) (i : nat) (x : inode) (d : disk) : Prop :=
  possible d path [old] /\ tmp <> path /\ Some i ∉ entries d path /\ entry d tmp = Some i /\ dk_inodes d !! i = Some x.

Lemma apart_either tmp i x d : apart tmp i x d -> either d.
Proof. intros [Hp _]. eapply possible_weaken; [exact Hp|]. set_solver. Qed.

Lemma apart_set tmp i x y d : apart tmp i x d -> apart tmp i y (set_inode i y d).
Proof.
  intros (Hp & Hne & Hi & He & _). split_and!; [by apply possible_set_inode|done..|]. cbn. by rewrite lookup_insert_eq.
Qed.

(** The cleanup leaves the target alone. *)
Lemma discard_always {A} tmp i e (cs : list (option string)) (C : disk -> Prop) d :
  (forall d, possible d path cs -> C d) -> tmp <> path -> possible d path cs ->
  always unix allowed C (fun (r : result fs_error A) d' => r = Err e /\ possible d' path cs) (discard tmp i e) d.
Proof.
  intros HC Hne Hp. split; [auto|]. intros f r d' _ Hperf.
  assert (d' = d) as -> by by destruct f; cbn in Hperf; simplify_eq. split; [auto|]. intros f' r' d'' _ Hperf'.
  assert (possible d'' path cs) as Hd''.
  { destruct f'; cbn in Hperf'; [destruct (entry d tmp)|]; simplify_eq; auto. by apply possible_set_entry_other. }
  split; auto.
Qed.

Lemma sys_or_always {X A} (C : disk -> Prop) (Q : A -> disk -> Prop) (c : syscall X) on_error k d : C d ->
  (forall f x d', allowed _ c f -> perform unix c f d = (Ok x, d') -> always unix allowed C Q (k x) d') ->
  (forall f e d', allowed _ c f -> perform unix c f d = (Err e, d') -> always unix allowed C Q (on_error e) d') ->
  always unix allowed C Q (sys_or c on_error k) d.
Proof. intros Hc Hok Herr. split; [done|]. intros f [x|e] d' Hf Hp; eauto. Qed.

Definition finished (r : result fs_error unit) (d : disk) : Prop :=
  match r with
  | Ok _ => possible d path (if unix then [Some data] else [Some data; old])
  | Err _ => possible d path [old] \/ (exists n, allowed _ SyncDir (Breaks n)) /\ either d
  end.

Lemma discard_apart tmp i e x d : apart tmp i x d -> always unix allowed either finished (discard tmp i e) d.
Proof.
  intros (Hp & Hne & _). 
  apply (always_weaken unix allowed either either (fun r d' => r = Err e /\ possible d' path [old])); [done| |].
  { intros r d' _ [-> Hd']. by left. }
  apply discard_always; [|done..].
  intros d' Hd'. eapply possible_weaken; [exact Hd'|]. set_solver.
Qed.

(** A call on the temporary file, the error of which discards it. *)
Lemma temp_call (c : syscall unit) tmp i x y k d : apart tmp i x d ->
  (forall f r d', perform unix c f d = (r, d') ->
     match r with Ok _ => apart tmp i y d' | Err _ => exists y', apart tmp i y' d' end) ->
  (forall d', apart tmp i y d' -> always unix allowed either finished (k tt) d') ->
  always unix allowed either finished (sys_or c (discard tmp i) k) d.
Proof.
  intros Ha Hc Hk. apply sys_or_always; [by eapply apart_either|..].
  - intros f [] d' _ Hp. apply Hk. exact (Hc _ _ _ Hp).
  - intros f e d' _ Hp. destruct (Hc _ _ _ Hp) as [y' Hy]. by eapply discard_apart.
Qed.

Ltac temp_call y :=
  lazymatch goal with Ha : apart _ _ _ _ |- _ =>
    apply (temp_call _ _ _ _ y _ _ Ha);
    [ let f := fresh in intros f ? ? Hperf; pose proof Ha as (_ & _ & _ & _ & Hx); destruct f; cbn in Hperf; rewrite ?Hx in Hperf; simplify_eq;
      first [by eapply apart_set | exact Ha | eexists; by eapply apart_set | by eexists]
    | clear Ha; intros ? Ha ]
  end.

(** The rename publishes the synced contents. *)
Lemma rename_temp tmp i x d : apart tmp i x d -> in_synced x = true -> in_data x = data ->
  possible (set_entry tmp None (set_entry path (Some i) d)) path [Some data; old] /\
  entry (set_entry tmp None (set_entry path (Some i) d)) path = Some i.
Proof.
  intros (Hp & Hne & Hi & He & Hx) Hs Hd. split.
  - apply possible_set_entry_other; [done|]. apply possible_set_entry; [done|]. exists x. by rewrite <- Hd.
  - unfold entry. rewrite !entries_set_entry. rewrite decide_False by done. by rewrite decide_True.
Qed.

Lemma sync_directory d e cs c : possible d path cs -> entry d path = e -> holds d e c ->
  possible (mk_disk (dk_inodes d) ((fun es => [default None (head es)]) <$> dk_names d)) path [c].
Proof.
  intros _ <- Hh. unfold possible, entry, entries in *. cbn. rewrite lookup_fmap. revert Hh.
  destruct (dk_names d !! path) as [es|]; intros Hh; (split; [done|]); apply Forall_singleton, Exists_cons; left; exact Hh.
Qed.

Lemma atomic_write perm d : possible d path [old] ->
  always unix allowed either finished (atomicWriteFile path data perm) d.
Proof.
  intros Hp. apply sys_or_always.
  { eapply possible_weaken; [exact Hp|]. set_solver. }
  2:{ intros f e d' _ Hperf. assert (d' = d) as -> by (destruct f; cbn in Hperf; [destruct (decide _)|]; by simplify_eq).
      split; [eapply possible_weaken; [exact Hp|]; set_solver|by left]. }
  intros f [tmp i] d1 _ Hperf. assert (apart tmp i (mk_inode "" false 384) d1) as H1.
  { destruct f as [r|]; cbn in Hperf; [|done]. destruct (decide _) as [Hfree|]; [|done]. simplify_eq.
    set (i := fresh (dom (dk_inodes d))). assert (dk_inodes d !! i = None) as Hi by apply not_elem_of_dom_1, is_fresh.
    assert (Some i ∉ entries d path) as Hni.
    { intros Hin. destruct Hp as [_ Hp]. eapply Forall_forall in Hp; [|exact Hin]. apply Exists_cons in Hp as [(x & Hx & _)|Hp].
      - congruence. - by apply Exists_nil in Hp. }
    split_and!; [apply possible_set_entry_other; [done|by apply possible_set_inode]|done| | |].
    - rewrite entries_set_entry. by rewrite decide_False.
    - unfold entry. by rewrite entries_set_entry, decide_True.
    - cbn. by rewrite lookup_insert_eq. }
  clear Hperf f. revert d1 H1. intros d1 H1.
  temp_call (mk_inode "" false perm).
  temp_call (mk_inode data false perm).
  temp_call (mk_inode data true perm).
  temp_call (mk_inode data true perm).
  rename H1 into Ha. pose proof Ha as (_ & _ & _ & Htmp & Hx). apply sys_or_always; [by eapply apart_either| |].
  2:{ intros f e dr _ Hperf. eapply discard_apart. destruct f; cbn in Hperf; rewrite ?Htmp in Hperf; simplify_eq. exact Ha. }
  intros f x dr _ Hperf. destruct f; cbn in Hperf; [|done]. rewrite Htmp in Hperf. simplify_eq.
  destruct (rename_temp _ _ _ _ Ha) as [Hr He]; [done..|]. revert Hr He. set (dr := set_entry _ _ _). intros Hr He.
  assert (either dr) as Hdr by (eapply possible_weaken; [exact Hr|]; set_solver).
  assert (holds dr (Some i) (Some data)) as Hh by by eexists.
  clearbody dr.
  apply sys_or_always; [exact Hdr| |].
  - intros f u ds _ Hs. destruct f; cbn in Hs; [|done]. simplify_eq. split; unfold finished; cbn; destruct unix.
    + eapply possible_weaken; [by eapply sync_directory|]. set_solver.
    + done.
    + by eapply sync_directory.
    + done.
  - intros f e ds Hal Hs. destruct f as [|n]; cbn in Hs; simplify_eq.
    apply (always_weaken unix allowed either either (fun r d' => r = Err IO /\ possible d' path [old; Some data])); [done| |].
    + intros r' ? _ [-> Hd']. right. eauto.
    + apply discard_always; [done| |done]. by destruct Ha as (_ & ? & _).
Qed.
End atomic.

(** ** Launches *)

Section launches.
Context (unix : bool) (allowed : forall X, syscall X -> fate -> Prop) `{Ext}.

(** What [provisionPepper] does from a directory that holds [c] for sure. *)
Definition provisioned (c : option string) (random : option bytes) (r : result fs_error string) (d : disk) : Prop :=
  match c, random with
  | Some raw, _ => possible d pepper_file [c] /\ (r = Err IO \/ r = if str_len (TrimSpace raw) <? Launcher.minPepperBytes then Err Short else Ok (TrimSpace raw))
  | None, None => possible d pepper_file [c] /\ exists e, r = Err e
  | None, Some buf =>
      let pepper := EncodeToString StdEncoding buf in
      match r with
      | Ok p => p = pepper /\ possible d pepper_file (if unix then [Some pepper] else [Some pepper; None])
      | Err _ => possible d pepper_file [None] \/ (exists n, allowed _ SyncDir (Breaks n)) /\ possible d pepper_file [None; Some pepper]
      end
  end.

Definition candidates (c : option string) (random : option bytes) : list (option string) :=
  match c, random with None, Some buf => [None; Some (EncodeToString StdEncoding buf)] | _, _ => [c] end.

Lemma provision_always c random d : possible d pepper_file [c] ->
  always unix allowed (fun d' => possible d' pepper_file (candidates c random)) (provisioned c random) (provisionPepper random) d.
Proof.
  intros Hp. assert (possible d pepper_file (candidates c random)) as Hcand.
  { eapply possible_weaken; [exact Hp|]. destruct c, random; set_solver. }
  split; [done|]. intros f r d' _ Hperf.
  assert (d' = d /\ (r = Err IO \/ r = match c with Some s => Ok s | None => Err NotExist end)) as [-> Hr].
  { apply possible_content in Hp as Hc. apply list_elem_of_singleton in Hc. destruct f; cbn in Hperf; simplify_eq; [|by auto].
    auto. }
  assert (forall e, r = Err e -> e = NotExist -> c = None) as Hnone by (intros e -> ->; destruct c; naive_solver).
  destruct r as [raw|e].
  { assert (c = Some raw) as -> by (destruct c; naive_solver). split; [done|]. split; [done|]. by right. }
  destruct (decide (e = NotExist)) as [->|He].
  2:{ assert (e = IO) as -> by (destruct c; naive_solver). split; [done|]. destruct c as [raw|]; [by split; auto|].
      destruct random; [by left|]. split; eauto. }
  specialize (Hnone _ eq_refl eq_refl) as ->. destruct random as [buf|]; [|split; [done|split; [done|eauto]]].
  apply always_bind. eapply always_weaken; [| |by apply (atomic_write unix allowed pepper_file temp_not_pepper None)].
  - done.
  - intros [u|e] d' Hd' Hf; (split; [done|]); cbn in *; [by split|]. destruct Hf; auto.
Qed.
End launches.

(** A launch that ends, from a directory that holds [c] for sure, when the sync
    of the directory works: whether it succeeds or not, the directory holds one
    contents for sure, the old ones if there were any. *)
Lemma launch_settles `{Ext} (allowed : forall X, syscall X -> fate -> Prop) c random r d : (forall n, ~ allowed _ SyncDir (Breaks n)) -> random_32 random ->
  provisioned true allowed c random r d ->
  exists c', possible d pepper_file [c'] /\ (c <> None -> c' = c) /\
    forall p, r = Ok p -> Launcher.minPepperBytes <= str_len p /\ exists raw, c' = Some raw /\ TrimSpace raw = p.
Proof.
  intros Hsync Hr. unfold provisioned. destruct c as [raw|].
  - intros [Hp Hres]. exists (Some raw). split_and!; [done..|]. intros p ->. destruct Hres as [|Hres]; [done|].
    destruct (Z.ltb_spec (str_len (TrimSpace raw)) Launcher.minPepperBytes); simplify_eq. eauto.
  - destruct random as [buf|]; [|by intros [Hp [e ->]]; exists None].
    destruct r as [p|e].
    + intros [-> Hp]. eexists. split_and!; [exact Hp|done|]. intros p [= <-]. split.
      * pose proof (EncodeToString_length StdEncoding buf). cbn in Hr. unfold str_len, Launcher.minPepperBytes. lia.
      * eexists. split; [done|]. apply TrimSpace_graphic, EncodeToString_graphic.
    + intros [Hp|[[n Hn] _]]; [|by destruct (Hsync n)]. by exists None.
Qed.

Lemma provisioning `{Ext} unix allowed c random p d d' : possible d pepper_file [c] ->
  rtc (step unix allowed) (provisionPepper random, d) (p, d') ->
  possible d' pepper_file (candidates c random) /\ forall r, p = Done r -> provisioned unix allowed c random r d'.
Proof.
  intros Hp Hrun. pose proof (always_sound _ _ _ _ _ _ _ _ Hrun (provision_always unix allowed c random d Hp)) as Ha.
  split; [exact (always_now _ _ _ _ _ _ Ha)|]. intros r ->. apply Ha.
Qed.

Lemma launches_settled `{Ext} (allowed : forall X, syscall X -> fate -> Prop) d c rs d1 : (forall n, ~ allowed _ SyncDir (Breaks n)) ->
  possible d pepper_file [c] -> launches true allowed d rs d1 ->
  exists c', possible d1 pepper_file [c'] /\ (c <> None -> c' = c) /\
    forall p, Ok p ∈ rs -> Launcher.minPepperBytes <= str_len p /\ exists raw, c' = Some raw /\ TrimSpace raw = p.
Proof.
  intros Hsync Hp Hl. revert c Hp.
  induction Hl as [d|d random r d1 rs d2 Hr Hrun Hl IH|d random p d1 d2 rs d3 Hr Hrun Hcrash Hl IH]; intros c Hp.
  - exists c. split_and!; [done..|]. by intros p ?%elem_of_nil.
  - destruct (provisioning _ _ _ _ _ _ _ Hp Hrun) as [_ Hres]. specialize (Hres r eq_refl).
    destruct (launch_settles _ _ _ _ _ Hsync Hr Hres) as (c1 & Hp1 & Hc1 & Hq1).
    destruct (IH c1 Hp1) as (c2 & Hp2 & Hc2 & Hps). exists c2. split_and!; [done| |].
    + intros Hc. rewrite <- (Hc1 Hc). apply Hc2. by rewrite Hc1.
    + intros q [Hq|Hq]%elem_of_cons; [|auto]. destruct (Hq1 q (eq_sym Hq)) as (Hlong & raw & -> & Hraw).
      split; [done|]. exists raw. split; [by apply Hc2|done].
  - destruct (provisioning _ _ _ _ _ _ _ Hp Hrun) as [Hcand _].
    destruct (possible_crash _ _ _ _ Hcand Hcrash) as (c1 & Hin & Hp1). destruct (IH c1 Hp1) as (c2 & Hp2 & Hc2 & Hps).
    exists c2. split_and!; [done| |done]. intros Hc. assert (c1 = c) as -> by (destruct c, random; cbn in Hin; set_solver). auto.
Qed.

(** C36: the pepper, which every session hash depends on, survives crashes: from a
    directory whose pepper file is settled, present or absent, whatever call of a
    launch fails and wherever the power goes, the file then holds the old contents
    or a whole new pepper, never a part; and over any number of launches and power
    losses on Unix, as long as the sync of the directory works, all the launches
    that hand out a pepper hand out the same one, that of the file if there was
    one, long enough for the next launch to accept, and it is the one on the disk. *)
Theorem pepper_survives_crashes `{Ext} d c (Hd : possible d pepper_file [c]) :
  (forall unix random p d1 d2, rtc (step unix any_fate) (provisionPepper random, d) (p, d1) -> crashes d1 d2 ->
     content d2 pepper_file ∈ candidates c random) /\
  (forall rs d1 p, launches true directory_syncs d rs d1 -> Ok p ∈ rs ->
     (forall p', Ok p' ∈ rs -> p' = p) /\ (forall raw, c = Some raw -> p = TrimSpace raw) /\
     Launcher.minPepperBytes <= str_len p /\ exists raw, content d1 pepper_file = Some raw /\ TrimSpace raw = p).
Proof.
  split.
  - intros unix random p d1 d2 Hrun Hcrash. destruct (provisioning _ _ _ _ _ _ _ Hd Hrun) as [Hcand _].
    destruct (possible_crash _ _ _ _ Hcand Hcrash) as (c1 & Hin & Hp1%possible_content).
    apply list_elem_of_singleton in Hp1. by rewrite Hp1.
  - intros rs d1 p Hl Hp. destruct (launches_settled directory_syncs d c rs d1 ltac:(by intros n []) Hd Hl) as (c1 & Hp1 & Hc1 & Hps).
    destruct (Hps p Hp) as (Hlong & raw & -> & Hraw). split_and!.
    + intros p' (_ & raw' & [= <-] & Hraw')%Hps. congruence.
    + intros raw' ->. specialize (Hc1 ltac:(done)). by simplify_eq.
    + done.
    + exists raw. apply possible_content, list_elem_of_singleton in Hp1. by rewrite Hp1.
Qed.

(** ** Concrete launches *)

Lemma execute_steps {A} unix (allowed : forall X, syscall X -> fate -> Prop) (p : program A) fates d :
  (forall f X c, f ∈ fates -> allowed X c f) -> rtc (step unix allowed) (p, d) (execute unix p fates d).
Proof.
  revert fates d. induction p as [a|X c k IH]; intros fates d Hf; [by destruct fates|].
  destruct fates as [|f fates]; [done|]. cbn [execute]. destruct (perform unix c f d) as [r d1] eqn:Hp.
  eapply rtc_l; [by eapply (Step_call unix allowed _ _ _ _ f); [apply Hf; left|]|]. apply IH.
  intros f' X' c' Hin. apply Hf. by right.
Qed.

Definition works : list fate := replicate 9 (Works "1").
Definition no_files : disk := mk_disk ∅ ∅.
Definition first_pepper : bytes := repeat (demo_byte 7) 32.
Definition second_pepper : bytes := repeat (demo_byte 9) 32.

(** A launch cut after the rename and before the sync, the power loss undoing the
    rename, and two launches. *)
Definition cut : disk := snd (execute true (@provisionPepper demo_ext (Some first_pepper)) (take 7 works) no_files).
Definition lost (d : disk) : disk :=
  mk_disk ((fun x => mk_inode (if in_synced x then in_data x else "?") true (in_mode x)) <$> dk_inodes d)
    ((fun es => [default None (last es)]) <$> dk_names d).
Definition launched (random : bytes) (fates : list fate) (d : disk) : disk :=
  snd (execute true (@provisionPepper demo_ext (Some random)) fates d).
Definition returned (p : program (result fs_error string)) : result fs_error string := match p with Done r => r | _ => Err IO end.

Lemma lost_crash d : forallb (fun kv => negb (bool_decide (kv.2 = []))) (map_to_list (dk_names d)) = true -> crashes d (lost d).
Proof.
  intros Hd. split.
  - intros name. unfold entries, lost. cbn. rewrite lookup_fmap. destruct (dk_names d !! name) as [es|] eqn:He; cbn.
    + eexists. split; [|done]. assert (es <> []) as Hn.
      { apply elem_of_map_to_list, list_elem_of_In in He. apply (proj1 (forallb_forall _ _) Hd), negb_true_iff, bool_decide_eq_false in He. exact He. }
      destruct (last es) as [e|] eqn:Hl; [|by apply last_None in Hl]. cbn.
      apply last_Some in Hl as [l ->]. set_solver.
    + exists None. split; [by left|done].
  - intros i x Hx. cbn. rewrite lookup_fmap, Hx. eexists. split; [done|]. split; [done|]. by intros ->.
Qed.

Lemma works_sync n f X (c : syscall X) : f ∈ take n works -> directory_syncs X c f.
Proof. intros Hf. apply subseteq_take, elem_of_replicate_inv in Hf as ->. by destruct c. Qed.

Lemma launch_of unix (allowed : forall X, syscall X -> fate -> Prop) d random fates r rs d' :
  (forall f X c, f ∈ fates -> allowed X c f) -> length random = 32%nat ->
  fst (execute unix (@provisionPepper demo_ext (Some random)) fates d) = Done r ->
  @launches unix allowed demo_ext (snd (execute unix (@provisionPepper demo_ext (Some random)) fates d)) rs d' ->
  @launches unix allowed demo_ext d (r :: rs) d'.
Proof.
  intros Hf Hr Hd Hl. eapply (Launch_ran _ _ _ (Some random)); [exact Hr| |exact Hl].
  pose proof (execute_steps unix allowed (@provisionPepper demo_ext (Some random)) fates d Hf) as Hrun.
  rewrite (surjective_pairing (execute _ _ _ _)), Hd in Hrun. exact Hrun.
Qed.

Lemma pepper_survives_crashes_witness :
  let p := EncodeToString StdEncoding second_pepper in
  Launcher.minPepperBytes <= str_len p /\ forall p', (Ok p' : result fs_error string) ∈ [Ok p; Ok p] -> p' = p.
Proof.
  cbv zeta. assert (possible no_files pepper_file [None]) as Hd by (split; [done|repeat constructor]).
  assert (exists d1, @launches true directory_syncs demo_ext no_files
    [Ok (EncodeToString StdEncoding second_pepper); Ok (EncodeToString StdEncoding second_pepper)] d1) as [d1 Hl].
  { eexists. eapply (Launch_cut _ _ _ (Some first_pepper)); [done| |apply (lost_crash cut); vm_compute; reflexivity|].
    - unfold cut. rewrite <- surjective_pairing. apply execute_steps, (works_sync 7).
    - eapply (launch_of _ _ _ second_pepper (take 9 works)); [apply works_sync|done|vm_compute; reflexivity|].
      eapply (launch_of _ _ _ first_pepper (take 9 works)); [apply works_sync|done|vm_compute; reflexivity|apply Launch_none]. }
  destruct (proj2 (@pepper_survives_crashes demo_ext no_files None Hd) _ _ _ Hl ltac:(by left)) as (Hsame & _ & Hlong & _).
  by split.
Defined.

(** A launch that fails because the sync of the directory did has published its
    pepper all the same; the next launch hands it out, though a power loss can
    still take it back, and the one after that makes another. *)
Lemma unsynced_pepper_lost : exists p p' d, p <> p' /\
  @launches true any_fate demo_ext no_files [Err IO; Ok p; Ok p'] d.
Proof.
  set (fates := take 7 works ++ [Breaks 0; Works "1"; Works "1"]).
  eexists (EncodeToString StdEncoding first_pepper), (EncodeToString StdEncoding second_pepper), _. split; [by vm_compute|].
  eapply (launch_of _ _ _ first_pepper fates); [done|done|vm_compute; reflexivity|].
  eapply (launch_of _ _ _ second_pepper [Works "1"]); [done|done|vm_compute; reflexivity|].
  eapply (Launch_cut _ _ _ None); [done|reflexivity|apply lost_crash; vm_compute; reflexivity|].
  eapply (launch_of _ _ _ second_pepper works); [done|done|vm_compute; reflexivity|apply Launch_none].
Qed.

(** ** The calls, when none fails *)

Lemma sys_works {X A B} unix (c : syscall X) on_error (k : X -> program A) (K : A -> program B) f fates d x d' :
  perform unix c f d = (Ok x, d') ->
  execute unix (program_bind (sys_or c on_error k) K) (f :: fates) d = execute unix (program_bind (k x) K) fates d'.
Proof. intros Hp. cbn [sys_or program_bind execute]. by rewrite Hp. Qed.

Lemma perform_inode {d i x y} : dk_inodes d !! i = Some x -> dk_inodes (set_inode i y d) !! i = Some y.
Proof. intros _. cbn. by rewrite lookup_insert_eq. Qed.

Lemma content_sync d name :
  content (mk_disk (dk_inodes d) ((fun es => [default None (head es)]) <$> dk_names d)) name = content d name.
Proof.
  unfold content, entry, entries. cbn. rewrite lookup_fmap. by destruct (dk_names d !! name).
Qed.

(** Then a launch is the function of the file that the rest of the launcher's
    model composes. *)
Lemma provision_refines `{Ext} unix d buf r : entry d (temp_name r) = None ->
  let '(p, d') := execute unix (provisionPepper (Some buf)) (replicate 8 (Works r)) d in
  let '(q, file) := Launcher.provisionPepper (content d pepper_file) buf in
  content d' pepper_file = file /\ match q with Ok s => p = Done (Ok s) | Err _ => p = Done (Err Short) end.
Proof.
  intros Hr. unfold provisionPepper, Launcher.provisionPepper. cbn [execute replicate perform].
  destruct (content d pepper_file) as [raw|] eqn:Hc; [by destruct (_ <? _)|].
  cbv zeta. generalize (EncodeToString StdEncoding buf). intros pepper. unfold atomicWriteFile.
  set (i := fresh (dom (dk_inodes d))).
  erewrite sys_works by (cbn [perform]; rewrite decide_True by done; reflexivity). cbv beta iota. fold i.
  set (d1 := set_entry (temp_name r) (Some i) _).
  assert (dk_inodes d1 !! i = Some (mk_inode "" false 384)) as H1 by (cbn; by rewrite lookup_insert_eq).
  assert (entry d1 (temp_name r) = Some i) as He by (unfold entry, d1; by rewrite entries_set_entry, decide_True).
  clearbody d1.
  erewrite sys_works by (cbn [perform]; rewrite H1; cbn [in_data in_synced in_mode]; reflexivity). apply (perform_inode (y := mk_inode "" false 384)) in H1 as H2.
  erewrite sys_works by (cbn [perform]; rewrite H2; cbn [in_data in_synced in_mode]; reflexivity). apply (perform_inode (y := mk_inode ("" ++ pepper) false 384)) in H2 as H3.
  erewrite sys_works by (cbn [perform]; rewrite H3; cbn [in_data in_synced in_mode]; reflexivity). apply (perform_inode (y := mk_inode ("" ++ pepper) true 384)) in H3 as H4.
  erewrite sys_works by reflexivity.
  erewrite sys_works by (cbn [perform]; unfold entry in *; rewrite !entries_set_inode, He; reflexivity).
  erewrite sys_works by reflexivity. cbn [program_bind execute]. split; [|done].
  set (d2 := set_inode i _ (set_inode i _ (set_inode i _ d1))) in *.
  assert (content (set_entry (temp_name r) None (set_entry pepper_file (Some i) d2)) pepper_file = Some pepper) as Hd2.
  { unfold content, entry. rewrite !entries_set_entry, decide_False, decide_True by done. cbn [default head mbind option_bind id].
    change (dk_inodes (set_entry _ _ _)) with (dk_inodes d2). by rewrite H4. }
  destruct unix; [by rewrite content_sync|exact Hd2].
Qed.
