(* ===== verification/CommandSpec.v ===== *)
(** * Processes clean up after themselves *)

From S2P Require Import Prelude GoTime Models Api Ext Net World Demo Config Launcher Doctor Publish Command.
Local Open Scope string_scope.
Local Open Scope list_scope.
Local Open Scope Z_scope.

(** ** The server *)

Definition is_store (e : server_event) : bool :=
  match e with StoreOpened _ _ | StoreClosed => true | _ => false end.

(** Nothing of the store, or an opening, later the closing, and nothing after it. *)
Definition store_bracketed (tr : list server_event) : Prop :=
  Forall (fun e => is_store e = false) tr \/
  exists pre b place mid, tr = pre ++ StoreOpened b place :: mid ++ [StoreClosed] /\
    Forall (fun e => is_store e = false) (pre ++ mid).

Lemma bracketed_after e tr : is_store e = false -> store_bracketed tr -> store_bracketed (e :: tr).
Proof.
  intros He [Ht|(pre & b & place & mid & -> & Ht)]; [left; by constructor|right]. exists (e :: pre), b, place, mid.
  split; [done|]. by constructor.
Qed.

Abbreviation quiet := (Forall (fun e => is_store e = false)).

(** How [openStore] goes on, if it does. *)
Lemma openStore_cases cfg c k :
  (openStore cfg c k).1 ∈ [[]; [StoreMigrated BackendPostgres]; [StoreOpened BackendSQLite (SQLitePath cfg); StoreClosed]] \/
  exists pre b place mid, (openStore cfg c k).1 = pre ++ StoreOpened b place :: mid ++ k.1 /\ quiet (pre ++ mid) /\
    (forall addr, Listening addr ∉ pre ++ mid) /\ (cfg_RunMigrations cfg = true -> StoreMigrated b ∈ pre ++ StoreOpened b place :: mid).
Proof.
  unfold openStore, fails_unless, emits, stops.
  destruct (bool_decide _), (cfg_RunMigrations cfg), (sc_open c), (sc_migrate c); cbn; try (left; set_solver); right.
  - eexists [], _, _, [StoreMigrated _]. split_and!; [done|by repeat constructor|set_solver|set_solver].
  - eexists [], _, _, []. split_and!; [done|by repeat constructor|set_solver|done].
  - eexists [], _, _, []. split_and!; [done|by repeat constructor|set_solver|done].
  - eexists [StoreMigrated _], _, _, []. split_and!; [done|by repeat constructor|set_solver|set_solver].
  - eexists [], _, _, []. split_and!; [done|by repeat constructor|set_solver|done].
  - eexists [], _, _, []. split_and!; [done|by repeat constructor|set_solver|done].
Qed.

(** Whatever fails and whenever a signal comes, a store the server opened is
    closed, once and last; and it listens only where the configuration says, with
    the store open and, when migrations are on, migrated, and the hub, the
    janitors and the retention worker running. *)
Theorem server_closes_store loaded c :
  store_bracketed (run_server loaded c).1 /\
  forall addr, Listening addr ∈ (run_server loaded c).1 ->
    exists cfg b place before after, loaded = Ok cfg /\ addr = cfg_HTTPAddr cfg /\
      (run_server loaded c).1 = before ++ Listening addr :: after /\
      StoreOpened b place ∈ before /\ (cfg_RunMigrations cfg = true -> StoreMigrated b ∈ before) /\
      HubStarted ∈ before /\ WorkerStarted ∈ before.
Proof.
  destruct loaded as [cfg|e]; [|split; [by left; constructor|intros addr Ha; by apply not_elem_of_nil in Ha]].
  unfold run_server. set (body := fails_unless (sc_NewService c) _ _).
  assert (body.1 = [] \/ exists rest, body.1 = HubStarted :: JanitorsStarted 7 :: WorkerStarted :: Listening (cfg_HTTPAddr cfg) :: rest /\
    (rest = [] \/ exists g, rest = [ShutDown g])) as Hbody.
  { unfold body, fails_unless, emits, stops. destruct (sc_NewService c), (negb (FCMEnabled cfg) || sc_fcm_New c); cbn; try by left.
    right. eexists. split; [done|]. destruct (sc_listen c); [by left|right; by eexists]. }
  clearbody body.
  destruct (openStore_cases cfg c (defers StoreClosed body)) as [Hnone|(pre & b & place & mid & -> & Hq & Hl & Hm)].
  { assert (store_bracketed (openStore cfg c (defers StoreClosed body)).1 /\
      forall addr, Listening addr ∉ (openStore cfg c (defers StoreClosed body)).1) as [Hb Hl].
    { revert Hnone. generalize (openStore cfg c (defers StoreClosed body)).1. intros tr Htr.
      apply elem_of_cons in Htr as [->|[->|[->|[]%elem_of_nil]%elem_of_cons]%elem_of_cons]; (split; [|set_solver]).
      - left. constructor. - left. by repeat constructor. - right. by exists [], BackendSQLite, (SQLitePath cfg), []. }
    split; [done|]. intros addr Ha. by apply Hl in Ha. }
  cbn [defers fst]. split.
  - right. exists pre, b, place, (mid ++ body.1). split; [by rewrite <- app_assoc|]. rewrite app_assoc. apply Forall_app. split; [done|].
    destruct Hbody as [->|(rest & -> & Hrest)]; [constructor|]. repeat (constructor; [done|]).
    destruct Hrest as [->|[g ->]]; by repeat constructor.
  - intros addr Ha. destruct Hbody as [Hb|(rest & Hb & Hrest)]; rewrite Hb in *; [set_solver|].
    assert (addr = cfg_HTTPAddr cfg) as -> by (destruct Hrest as [->|[g ->]]; set_solver).
    exists cfg, b, place, (pre ++ StoreOpened b place :: mid ++ [HubStarted; JanitorsStarted 7; WorkerStarted]), (rest ++ [StoreClosed]).
    split_and!; try done.
    + rewrite <- !app_assoc. cbn. by rewrite <- !app_assoc.
    + set_solver.
    + intros Hmig. specialize (Hm Hmig). set_solver.
    + set_solver.
    + set_solver.
Qed.

(** ** The launcher *)

Definition is_lock (e : launcher_event) : bool := match e with LockTaken | LockReleased => true | _ => false end.

(** What the launcher tells people, or its own records, about where the server is. *)
Definition shown (e : launcher_event) : option string :=
  match e with
  | StatusPrinted o | Announced o | OriginPinned o => Some o
  | BrowserOpened cmd => last cmd
  | _ => None
  end.

(** The events while the server runs. *)
Definition telling (res : resolved) (e : launcher_event) : Prop :=
  is_lock e = false /\ shown e = Some (re_Origin res) /\ (forall bin env d, e <> ServerSpawned bin env d).

Lemma serve_child_events `{Ext} os h environ noOpen onReady c dir bin pepper res :
  let '(tr, r) := serve_child os h environ noOpen onReady c dir bin pepper res in
  (tr = [] /\ launcher_main r <> 0) \/
  exists log mid, tr = LogOpened log :: ServerSpawned bin (composeEnv environ res pepper (ho_Join h dir "aul.db")) dir ::
    mid ++ [ServerStopped; LogClosed] /\ Forall (telling res) mid.
Proof.
  unfold serve_child, fails_unless, emits, defers, stops. destruct (lc_OpenLog c); [|by left]. right.
  assert (forall cmd, openBrowser os (re_Origin res) = Ok cmd -> telling res (BrowserOpened cmd)) as Hb.
  { unfold openBrowser. destruct (url_Parse _); [|done]. destruct (_ && _); [done|]. intros cmd [= <-]. by destruct os. }
  assert (telling res (StatusPrinted (re_Origin res)) /\ telling res (Announced (re_Origin res))) as [Hs Ha] by done.
  destruct (waitReady _ _); cbn; [|by exists (ho_Join h dir "server.log"), []].
  exists (ho_Join h dir "server.log"). destruct (openBrowser os (re_Origin res)) as [cmd|e].
  - exists (StatusPrinted (re_Origin res) :: (if onReady then [Announced (re_Origin res)] else []) ++ (if noOpen then [] else [BrowserOpened cmd])).
    split; [by destruct onReady, noOpen|]. destruct onReady, noOpen; repeat (constructor; auto).
  - exists (StatusPrinted (re_Origin res) :: (if onReady then [Announced (re_Origin res)] else [])).
    split; [by destruct onReady, noOpen|]. destruct onReady; repeat (constructor; auto).
Qed.

(** What holds of the part of [Run] under the lock, step by step. *)
Section locked.
Context (good : string -> Prop) (spawned : string -> list string -> string -> Prop).

Definition locked (b : run_of launcher_event launch_exit) : Prop :=
  Forall (fun e => is_lock e = false) b.1 /\
  (forall bin env d, ServerSpawned bin env d ∈ b.1 -> spawned bin env d /\ exists pre, b.1 = pre ++ [ServerStopped; LogClosed]) /\
  (forall origin, origin ∈ omap shown b.1 -> good origin) /\
  (launcher_main b.2 = 0 -> exists bin env d, ServerSpawned bin env d ∈ b.1).

Lemma locked_stops why : locked (stops (Refused why)).
Proof. split_and!; [constructor|intros ? ? ? []%elem_of_nil|intros ? []%elem_of_nil|done]. Qed.

Lemma locked_emits e b : is_lock e = false -> (forall bin env d, e <> ServerSpawned bin env d) ->
  (forall o, shown e = Some o -> good o) -> locked b -> locked (emits e b).
Proof.
  intros Hl Hs Ho (H1 & H2 & H3 & H4). split_and!; cbn [emits fst snd].
  - by constructor.
  - intros bin env d [He|Hin]%elem_of_cons; [by destruct (Hs bin env d)|]. destruct (H2 _ _ _ Hin) as [? [pre ->]].
    split; [done|]. by exists (e :: pre).
  - intros origin. cbn. destruct (shown e) as [o|] eqn:He; [intros [->|Hin]%elem_of_cons; auto|auto].
  - intros Hr. destruct (H4 Hr) as (bin & env & d & Hin). exists bin, env, d. by right.
Qed.

Lemma locked_child res bin dir env tr r :
  (tr = [] /\ launcher_main r <> 0) \/
  (exists log mid, tr = LogOpened log :: ServerSpawned bin env dir :: mid ++ [ServerStopped; LogClosed] /\ Forall (telling res) mid) ->
  good (re_Origin res) -> spawned bin env dir -> locked (tr, r).
Proof.
  intros [[-> Hr]|(log & mid & -> & Hmid)] Hgood Hsp.
  { split_and!; [constructor|intros ? ? ? []%elem_of_nil|intros ? []%elem_of_nil|done]. }
  split_and!; cbn.
  - do 2 (constructor; [done|]). apply Forall_app. split; [|by repeat constructor].
    eapply Forall_impl; [exact Hmid|]. by intros e [? _].
  - intros bin' env' d'. rewrite !elem_of_cons, elem_of_app, !elem_of_cons.
    assert (ServerSpawned bin' env' d' ∉ mid) as Hno.
    { intros Hin. eapply Forall_forall in Hmid; [|exact Hin]. destruct Hmid as (_ & _ & Hn). by destruct (Hn bin' env' d'). }
    intros [?|[[= -> -> ->]|[?|[?|[?|[]%elem_of_nil]]]]]; try done. split; [done|].
    by exists (LogOpened log :: ServerSpawned bin env dir :: mid).
  - intros origin. rewrite omap_app. cbn. rewrite app_nil_r. intros (e & He & Hs)%list_elem_of_omap.
    eapply Forall_forall in Hmid; [|exact He]. destruct Hmid as (_ & Hs' & _). rewrite Hs' in Hs. by injection Hs as <-.
  - intros _. exists bin, env, dir. right. by left.
Qed.
End locked.

(** one launcher at a time provisions and serves: whatever fails, everything it
    does past making the data directory happens between the taking and the release
    of the lock, and the lock once taken is released, last; a server it spawned is
    stopped and its log closed before that; and every origin it prints, records,
    announces or opens a browser at is the PUBLIC_ORIGIN of the server it runs. *)
Theorem launcher_serves_under_lock `{Ext} os h ts environ pinned dd sb noOpen onReady o c :
  let '(tr, r) := Run os h ts environ pinned dd sb noOpen onReady o c in
  (tr = [] \/ (exists dir, tr = [DataDirMade dir]) \/
   exists dir mid, tr = DataDirMade dir :: LockTaken :: mid ++ [LockReleased] /\ Forall (fun e => is_lock e = false) mid /\
     (forall bin env d, ServerSpawned bin env d ∈ mid -> exists pre, mid = pre ++ [ServerStopped; LogClosed])) /\
  (forall origin, origin ∈ omap shown tr ->
     exists res, resolveOrigin (op_Origin o) (op_Port (withDefaults o)) (detectFunnel ts) = Ok res /\ origin = re_Origin res) /\
  (forall bin env d, ServerSpawned bin env d ∈ tr -> exists res pepper,
     resolveOrigin (op_Origin o) (op_Port (withDefaults o)) (detectFunnel ts) = Ok res /\ lc_provisionPepper c = Ok pepper /\
     env = composeEnv environ res pepper (ho_Join h d "aul.db") /\ DataDirMade d ∈ tr) /\
  (launcher_main r = 0 -> exists bin env d, ServerSpawned bin env d ∈ tr).
Proof.
  unfold Run. change (op_Origin (withDefaults o)) with (op_Origin o).
  destruct (resolveDataDir dd h) as [dir|e]; [|cbn; split_and!; [by left|set_solver..|done]].
  destruct (lc_acquireLock c); [|cbn; split_and!; [by eauto|set_solver..|done]].
  set (good := fun origin => exists res, resolveOrigin (op_Origin o) (op_Port (withDefaults o)) (detectFunnel ts) = Ok res /\ origin = re_Origin res).
  set (spawned := fun (bin : string) env d => d = dir /\ exists res pepper,
    resolveOrigin (op_Origin o) (op_Port (withDefaults o)) (detectFunnel ts) = Ok res /\ lc_provisionPepper c = Ok pepper /\
    env = composeEnv environ res pepper (ho_Join h d "aul.db")).
  match goal with |- context [defers LockReleased ?b] => assert (locked good spawned b) as Hb; [|revert Hb; generalize b] end.
  - destruct (resolveServerBin os sb h) as [bin|]; [|apply locked_stops]. destruct (lc_provisionPepper c) as [pepper|] eqn:Hp; [|apply locked_stops].
    apply locked_emits; [done..|]. destruct (resolveOrigin _ _ _) as [res|] eqn:Hres; [|apply locked_stops].
    assert (locked good spawned (serve_child os h environ noOpen onReady c dir bin pepper res)) as Hserve.
    { pose proof (serve_child_events os h environ noOpen onReady c dir bin pepper res) as Hev.
      destruct (serve_child _ _ _ _ _ _ _ _ _ _) as [tr r]. apply (locked_child good spawned res bin dir _ tr r Hev).
      - by exists res.
      - split; [done|]. by exists res, pepper. }
    cbv zeta. destruct (bool_decide _); [done|]. apply locked_emits; [done..| |done]. intros ? [= <-]. by exists res.
  - intros [tr r] (H1 & H2 & H3 & H4). cbn in *. split_and!.
    + right. right. exists dir, tr. split; [done|]. split; [done|]. intros ? ? ? Hin. by apply H2 in Hin as [_ ?].
    + intros origin Hin. apply H3. rewrite omap_app in Hin. cbn in Hin. by rewrite app_nil_r in Hin.
    + intros bin env d Hin. assert (ServerSpawned bin env d ∈ tr) as Htr by set_solver.
      apply H2 in Htr as [[-> (res & pepper & ? & ? & ?)] _]. exists res, pepper. split_and!; [done..|]. by left.
    + intros Hr. destruct (H4 Hr) as (bin & env & d & Hin). exists bin, env, d. set_solver.
Qed.
