(* ===== verification/Lock.v ===== *)
(** * The single-instance lock (internal/launcher/lock.go)

    Launchers compete for a pidfile.  Each system call is one instant, so that
    their calls interleave; the file is an inode with contents behind a path, so
    that a launcher which still writes to a file another one unlinked writes to
    no one's lock.  What the machine decides is explicit in the labels: who runs,
    which call fails, who dies, which other processes come and go.  The file
    system and process semantics are those of Unix. *)

From S2P Require Import Prelude GoTime Models Api Ext Config.
Local Open Scope Z_scope.

Inductive lock_error :=
| AlreadyRunning (pid : Z)
| NotAcquired           (** could not acquire the lock after the attempts *)
| LockIO.               (** create, write or reclaim failed *)

(** Where [acquireLock] is; [tries] counts the attempts from the current one on. *)
Inductive acquisition :=
| Opening (tries : nat)
| Writing (inode : nat)                       (** created, the pid not yet written *)
| Reading (tries : nat)                        (** the file exists: [readPid] *)
| Probing (tries : nat) (pid : option Z)       (** [processAlive] of what was read *)
| Removing (tries : nat)                       (** judged stale *)
| Holding (inode : nat)
| Failed (e : lock_error).

Record machine := mk_machine {
  m_path : option nat;               (** the inode behind launcher.lock *)
  m_inodes : gmap nat string;        (** their contents *)
  m_alive : gset Z;                  (** the live processes *)
  m_procs : gmap Z acquisition       (** the launchers, by pid *)
}.

Definition set_path (p : option nat) (m : machine) : machine :=
  mk_machine p (m_inodes m) (m_alive m) (m_procs m).
Definition set_inodes (f : gmap nat string) (m : machine) : machine :=
  mk_machine (m_path m) f (m_alive m) (m_procs m).
Definition set_alive (a : gset Z) (m : machine) : machine :=
  mk_machine (m_path m) (m_inodes m) a (m_procs m).
Definition set_proc (me : Z) (a : acquisition) (m : machine) : machine :=
  mk_machine (m_path m) (m_inodes m) (m_alive m) (<[me := a]> (m_procs m)).
Definition end_proc (me : Z) (m : machine) : machine :=
  mk_machine (m_path m) (m_inodes m) (m_alive m) (delete me (m_procs m)).

Definition attempts : nat := 3.

(** The pid in the file: None when it is missing or does not parse. *)
Definition readPid `{Ext} (m : machine) : option Z :=
  match m_path m with
  | Some i => Atoi (TrimSpace (default EmptyString (m_inodes m !! i)))
  | None => None
  end.

Definition processAlive (m : machine) (pid : Z) : bool := (0 <? pid) && bool_decide (pid ∈ m_alive m).

(** After [tries] attempts, counting the one that just failed. *)
Definition retry (tries : nat) : acquisition :=
  match tries with S (S l) => Opening (S l) | _ => Failed NotAcquired end.

(** The next call of the launcher [me], which succeeds. *)
Definition act `{Ext} (me : Z) (m : machine) : machine :=
  match m_procs m !! me with
  | Some (Opening tries) =>
      match m_path m with
      | Some _ => set_proc me (Reading tries) m
      | None =>
          let i := fresh (dom (m_inodes m)) in
          set_proc me (Writing i) (set_path (Some i) (set_inodes (<[i := EmptyString]> (m_inodes m)) m))
      end
  | Some (Writing i) => set_proc me (Holding i) (set_inodes (<[i := itoa me]> (m_inodes m)) m)
  | Some (Reading tries) => set_proc me (Probing tries (readPid m)) m
  | Some (Probing tries pid) =>
      match pid with
      | Some p => if processAlive m p then set_proc me (Failed (AlreadyRunning p)) m else set_proc me (Removing tries) m
      | None => set_proc me (Removing tries) m
      end
  | Some (Removing tries) => set_proc me (retry tries) (set_path None m)
  | Some (Holding _) | Some (Failed _) | None => m
  end.

(** The next call of [me] fails; a file that cannot be read counts as stale. *)
Definition fault (me : Z) (m : machine) : machine :=
  match m_procs m !! me with
  | Some (Opening _) => set_proc me (Failed LockIO) m
  | Some (Writing _) => set_proc me (Failed LockIO) (set_path None m)
  | Some (Reading tries) => set_proc me (Probing tries None) m
  | Some (Removing _) => set_proc me (Failed LockIO) m
  | _ => m
  end.

Definition release (me : Z) (m : machine) : machine :=
  match m_procs m !! me with
  | Some (Holding _) => end_proc me (set_path None m)
  | _ => m
  end.

Inductive event :=
| Start (pid : Z)       (** a launcher begins [acquireLock] *)
| Act (pid : Z)
| Fault (pid : Z)
| Release (pid : Z)
| Die (pid : Z)         (** any process ends, a launcher by a crash or after its release *)
| Spawn (pid : Z).      (** some other process starts *)

#[export] Instance event_eq_dec : EqDecision event.
Proof. solve_decision. Defined.

Definition happens `{Ext} (e : event) (m : machine) : machine :=
  match e with
  | Start pid =>
      if bool_decide (0 < pid /\ pid ∉ m_alive m /\ m_procs m !! pid = None)
      then set_proc pid (Opening attempts) (set_alive ({[pid]} ∪ m_alive m) m) else m
  | Act pid => act pid m
  | Fault pid => fault pid m
  | Release pid => release pid m
  | Die pid => end_proc pid (set_alive (m_alive m ∖ {[pid]}) m)
  | Spawn pid => set_alive ({[pid]} ∪ m_alive m) m
  end.

Definition history `{Ext} (l : list event) (m : machine) : machine := foldl (fun m e => happens e m) m l.

(** The machine before any launcher, with [file] in the data directory. *)
Definition quiet (file : option string) (alive : gset Z) : machine :=
  mk_machine ((fun _ => 0%nat) <$> file) (match file with Some c => {[0%nat := c]} | None => ∅ end) alive ∅.
