(* ===== verification/LockSpec.v ===== *)
(** * What the lock guarantees, and what it does not

    A written lock of a live launcher is respected; an attempt ends after at most
    twelve calls; an attempt without competitors succeeds or names the holder.
    But two launchers whose attempts overlap can both end up with the lock. *)

From S2P Require Import Prelude GoTime Base64 Models Api Ext Net Text World Demo Config Lock.
Local Open Scope Z_scope.

Definition holds (m : machine) (pid : Z) : bool :=
  match m_procs m !! pid with Some (Holding _) => bool_decide (pid ∈ m_alive m) | _ => false end.

(** ** The pid survives the file *)

Lemma Atoi_digits_pretty x s : Atoi_digits 0 (pretty_N_go x s) = Atoi_digits (Z.of_N x) s.
Proof.
  revert s. induction (N.lt_wf_0 x) as [x _ IH]; intros s.
  destruct (decide (x = 0)%N) as [->|Hx]; [by rewrite pretty_N_go_0|].
  rewrite pretty_N_go_step by lia. rewrite IH by (apply N.div_lt; lia). cbn [Atoi_digits].
  rewrite digit_value_char by (apply N.mod_lt; lia). f_equal.
  pose proof (N.div_mod x 10 ltac:(lia)). lia.
Qed.

Lemma Atoi_digit_first c s v : digit_value c = Some v ->
  Atoi (String c s) = match Atoi_digits 0 (String c s) with
                      | Some n => if bool_decide (in_int 64 n) then Some n else None
                      | None => None
                      end.
Proof. destruct c as [[] [] [] [] [] [] [] []]; try discriminate; reflexivity. Qed.

Lemma Atoi_itoa z : 0 < z < 2 ^ 63 -> Atoi (itoa z) = Some z.
Proof.
  intros Hz. rewrite itoa_pos by lia. destruct (pretty_N_go_digit (Z.to_N z) "" ltac:(lia)) as (c & s & Heq & v & Hv).
  rewrite Heq, (Atoi_digit_first _ _ _ Hv), <- Heq, Atoi_digits_pretty. cbn [Atoi_digits].
  rewrite Z2N.id by lia. rewrite bool_decide_eq_true_2; [done|]. unfold in_int. lia.
Qed.

Section lock.
Context `{Ext}.

(** ** A live holder is respected *)

(** What another launcher may have come to while [h] holds the lock. *)
Definition bystander (h : Z) (a : acquisition) : Prop :=
  match a with
  | Opening _ | Reading _ | Failed _ => True
  | Probing _ pid => pid = Some h
  | Writing _ | Removing _ | Holding _ => False
  end.

(** [h] is alive and holds the lock, its pid is in the file, and nobody is about
    to remove or write it. *)
Record guarded (h : Z) (m : machine) : Prop := {
  gu_pid : 0 < h < 2 ^ 63;
  gu_alive : h ∈ m_alive m;
  gu_file : exists i, m_path m = Some i /\ m_inodes m !! i = Some (itoa h) /\ m_procs m !! h = Some (Holding i);
  gu_others : forall p a, p <> h -> m_procs m !! p = Some a -> bystander h a
}.

(** Neither the end of [h], nor its release, nor a failing file call. *)
Definition spares (h : Z) (e : event) : Prop :=
  match e with Die p | Release p => p <> h | Fault _ => False | _ => True end.

Lemma guarded_read h m : guarded h m -> readPid m = Some h /\ processAlive m h = true.
Proof.
  intros [Hh Ha (i & Hp & Hi & _) _]. unfold readPid, processAlive. rewrite Hp, Hi. cbn.
  rewrite TrimSpace_graphic by apply itoa_graphic. rewrite Atoi_itoa by done. split; [done|].
  apply andb_true_iff. split; [apply Z.ltb_lt; lia|by apply bool_decide_eq_true].
Qed.

Lemma guarded_set_proc h p a m : p <> h -> bystander h a -> guarded h m -> guarded h (set_proc p a m).
Proof.
  intros Hne Hb [Hh Ha (i & Hp & Hi & Hq) Ho]. split; [done|done| |].
  - exists i. repeat split; try done. cbn. by rewrite lookup_insert_ne.
  - intros q b Hqh. cbn. intros [[<- <-]|[_ Hl]]%lookup_insert_Some; [done|by eapply Ho].
Qed.

Lemma guarded_alive h s m : guarded h m -> h ∈ s -> guarded h (set_alive s m).
Proof. by intros [Hh Ha Hf Ho] Hs; split. Qed.

Lemma guarded_end h p m : p <> h -> guarded h m -> guarded h (end_proc p m).
Proof.
  intros Hne [Hh Ha (i & Hp & Hi & Hq) Ho]. split; [done|done| |].
  - exists i. repeat split; try done. cbn. by rewrite lookup_delete_ne.
  - intros q b Hqh. cbn. intros [_ Hl]%lookup_delete_Some. by eapply Ho.
Qed.

(** What a bystander comes to next. *)
Definition refused_next (h : Z) (a : acquisition) : acquisition :=
  match a with
  | Opening n => Reading n
  | Reading n => Probing n (Some h)
  | Probing _ _ => Failed (AlreadyRunning h)
  | _ => a
  end.

Lemma guarded_act h p m a : guarded h m -> p <> h -> m_procs m !! p = Some a ->
  m_procs (act p m) !! p = Some (refused_next h a) /\ guarded h (act p m).
Proof.
  intros Hg Hne Ha. destruct (guarded_read h m Hg) as [Hread Halive].
  pose proof Hg as [_ _ (i & Hp & _) Ho]. pose proof (Ho p a Hne Ha) as Hb.
  assert (act p m = m /\ refused_next h a = a \/ act p m = set_proc p (refused_next h a) m /\ bystander h (refused_next h a))
    as [[-> ->]|[-> Hb']].
  - unfold act. rewrite Ha. destruct a as [n|n|n|n q|n|n|e]; cbn in Hb |- *; try done; subst; rewrite ?Hp, ?Hread, ?Halive; auto.
  - done.
  - split; [apply lookup_insert_eq|by apply guarded_set_proc].
Qed.

Lemma guarded_happens h e m : spares h e -> guarded h m -> guarded h (happens e m).
Proof.
  intros Hs Hg. pose proof Hg as [Hh Ha (i & Hp & Hi & Hq) Ho]. destruct (guarded_read h m Hg) as [Hread Halive].
  destruct e as [p|p|p|p|p|p]; cbn [happens spares] in *.
  - case_bool_decide as Hd; [|done]. destruct Hd as (_ & Hna & _).
    apply guarded_set_proc; [by intros ->|done|]. apply guarded_alive; [done|set_solver].
  - destruct (decide (p = h)) as [->|Hne]; [unfold act; by rewrite Hq|].
    destruct (m_procs m !! p) as [a|] eqn:Hpa; [by eapply guarded_act|]. unfold act. by rewrite Hpa.
  - done.
  - unfold release. destruct (m_procs m !! p) as [a|] eqn:Hpa; [|done]. pose proof (Ho p a Hs Hpa) as Hb. by destruct a.
  - apply guarded_end; [done|]. apply guarded_alive; [done|set_solver].
  - apply guarded_alive; [done|set_solver].
Qed.

Lemma guarded_history h l m : Forall (spares h) l -> guarded h m -> guarded h (history l m).
Proof. intros Hl. revert m. induction Hl as [|e l He _ IH]; intros m Hg; [done|]. by apply IH, guarded_happens. Qed.

Lemma guarded_only h m p : guarded h m -> holds m p = true -> p = h.
Proof.
  intros [_ _ _ Ho] Hp. destruct (decide (p = h)) as [|Hne]; [done|]. unfold holds in Hp.
  destruct (m_procs m !! p) as [a|] eqn:Ha; [|done]. specialize (Ho p a Hne Ha). by destruct a.
Qed.

(** A launcher that tries next to a guarded holder is told its pid. *)
Lemma guarded_refuses h p m : guarded h m -> 0 < p -> p ∉ m_alive m -> m_procs m !! p = None ->
  m_procs (history [Start p; Act p; Act p; Act p] m) !! p = Some (Failed (AlreadyRunning h)).
Proof.
  intros Hg Hp Hna Hnone. cbn [history foldl happens]. rewrite bool_decide_eq_true_2 by done.
  set (m1 := set_proc p (Opening attempts) _).
  assert (Hne : p <> h) by (intros ->; by destruct Hg).
  assert (Hg1 : guarded h m1).
  { subst m1. apply guarded_set_proc; [done|done|]. apply guarded_alive; [done|]. destruct Hg. set_solver. }
  assert (H1 : m_procs m1 !! p = Some (Opening attempts)) by apply lookup_insert_eq.
  clearbody m1. clear m Hg Hna Hnone.
  destruct (guarded_act h p m1 _ Hg1 Hne H1) as [H2 Hg2].
  destruct (guarded_act h p _ _ Hg2 Hne H2) as [H3 Hg3]. by apply (guarded_act h p _ _ Hg3 Hne H3).
Qed.

(** ** An attempt ends *)

Definition final (a : acquisition) : bool := match a with Holding _ | Failed _ => true | _ => false end.

(** The calls an attempt has left at most. *)
Definition calls_left (a : acquisition) : nat :=
  match a with
  | Opening n => 4 * n
  | Reading n => 4 * n - 1
  | Probing n _ => 4 * n - 2
  | Removing n => 4 * n - 3
  | Writing _ => 1
  | Holding _ | Failed _ => 0
  end.

Definition counted (a : acquisition) : Prop :=
  match a with Opening n | Reading n | Probing n _ | Removing n => (1 <= n)%nat | _ => True end.

Lemma retry_counted n : counted (retry n) /\ (calls_left (retry n) <= 4 * n - 4)%nat.
Proof. destruct n as [|[|n]]; cbn; lia. Qed.

Lemma act_progress p m a : m_procs m !! p = Some a -> counted a ->
  exists b, m_procs (act p m) !! p = Some b /\ counted b /\ (calls_left b <= calls_left a - 1)%nat.
Proof.
  intros Ha Hc. unfold act. rewrite Ha. destruct a as [n|i|n|n q|n|i|e]; cbn in Hc.
  - destruct (m_path m); eexists; (split; [apply lookup_insert_eq|]); cbn; lia.
  - eexists. split; [apply lookup_insert_eq|]. done.
  - eexists. split; [apply lookup_insert_eq|]. cbn. lia.
  - destruct q as [q|]; [destruct (processAlive m q)|]; eexists; (split; [apply lookup_insert_eq|]); cbn; lia.
  - destruct (retry_counted n) as [H1 H2]. eexists. split; [apply lookup_insert_eq|]. split; [done|]. cbn. lia.
  - exists (Holding i). cbn. auto.
  - exists (Failed e). cbn. auto.
Qed.

(** What may happen to [p] besides its own calls. *)
Definition leaves (p : Z) (e : event) : Prop :=
  match e with Die q | Release q | Fault q => q <> p | _ => True end.

Definition own_calls (p : Z) (l : list event) : nat := length (filter (fun e => e = Act p) l).

Lemma happens_other p e m a : m_procs m !! p = Some a -> leaves p e -> e <> Act p ->
  m_procs (happens e m) !! p = Some a.
Proof.
  intros Ha Hl Hne. destruct e as [q|q|q|q|q|q]; cbn in *; try done.
  - case_bool_decide as Hd; [|done]. destruct Hd as (_ & _ & Hq). cbn. rewrite lookup_insert_ne; [done|]. by intros ->; rewrite Ha in Hq.
  - unfold act. destruct (m_procs m !! q) as [b|]; [|done]. assert (q <> p) by by intros ->.
    destruct b as [n|i|n|n x|n|i|e]; repeat case_match; cbn; try done; by rewrite lookup_insert_ne.
  - unfold fault. destruct (m_procs m !! q) as [b|]; [|done]. destruct b; cbn; try done; by rewrite lookup_insert_ne.
  - unfold release. destruct (m_procs m !! q) as [b|]; [|done]. destruct b; cbn; try done; by rewrite lookup_delete_ne.
  - by rewrite lookup_delete_ne.
Qed.

Lemma calls_left_history p l m a : m_procs m !! p = Some a -> counted a -> Forall (leaves p) l ->
  exists b, m_procs (history l m) !! p = Some b /\ counted b /\ (calls_left b <= calls_left a - own_calls p l)%nat.
Proof.
  intros Ha Hc Hl. revert m a Ha Hc. induction Hl as [|e l He _ IH]; intros m a Ha Hc.
  { exists a. split; [done|]. split; [done|]. cbn. lia. }
  unfold own_calls. rewrite filter_cons. destruct (decide (e = Act p)) as [->|Hne].
  - destruct (act_progress p m a Ha Hc) as (b & Hb & Hcb & Hle). destruct (IH _ b Hb Hcb) as (c & Hc' & Hcc & Hle').
    exists c. split; [done|]. split; [done|]. unfold own_calls in Hle'. cbn [length]. lia.
  - apply (IH _ a); [by apply happens_other|done].
Qed.

(** an attempt ends, with the lock or with an error, after at most twelve calls of
    its own, whatever the other launchers do in between. *)
Theorem lock_attempt_ends p l m (Hp : m_procs m !! p = Some (Opening attempts)) (Hl : Forall (leaves p) l)
    (Hn : (12 <= own_calls p l)%nat) :
  exists a, m_procs (history l m) !! p = Some a /\ final a = true.
Proof.
  destruct (calls_left_history p l m _ Hp) as (a & Ha & Hc & Hle); [cbn; unfold attempts; lia|done|].
  exists a. split; [done|]. assert (calls_left a = 0%nat) as H0 by (cbn in Hle; lia).
  destruct a; cbn in *; try done; lia.
Qed.

(** ** Without competitors *)

(** No attempt is under way and nobody holds the lock. *)
Definition idle (m : machine) : Prop := forall p a, m_procs m !! p = Some a -> exists e, a = Failed e.

(** [p] does [n] calls in a row. *)
Definition runs (p : Z) (n : nat) : list event := repeat (Act p) n.

Lemma runs_S p n m : history (runs p (S n)) m = history (runs p n) (act p m).
Proof. done. Qed.

Lemma runs_2 p n m : history (runs p (S (S n))) m = history (runs p n) (history (runs p 2) m).
Proof. done. Qed.

Lemma free_acquire p m n : 0 < p < 2 ^ 63 -> p ∈ m_alive m -> m_path m = None ->
  (forall q a, q <> p -> m_procs m !! q = Some a -> exists e, a = Failed e) ->
  m_procs m !! p = Some (Opening (S n)) -> guarded p (history (runs p 2) m).
Proof.
  intros Hp Ha Hpath Hidle Hq. cbn [runs repeat history foldl happens]. unfold act at 2. rewrite Hq, Hpath.
  set (i := fresh _). set (m1 := set_proc p _ _).
  assert (H1 : m_procs m1 !! p = Some (Writing i)) by apply lookup_insert_eq.
  unfold act. rewrite H1. split; [done|done| |].
  - exists i. split; [done|]. split; [apply lookup_insert_eq|apply lookup_insert_eq].
  - intros q a Hne. cbn. rewrite !lookup_insert_ne by done. intros Hqa. by destruct (Hidle q a Hne Hqa) as [e ->].
Qed.

Lemma stale_acquire p m n : 0 < p < 2 ^ 63 -> p ∈ m_alive m ->
  (forall q a, q <> p -> m_procs m !! q = Some a -> exists e, a = Failed e) ->
  m_procs m !! p = Some (Removing (S (S n))) -> guarded p (history (runs p 3) m).
Proof.
  intros Hp Ha Hidle Hq. rewrite runs_S. unfold act. rewrite Hq. apply (free_acquire p _ n); try done; [|apply lookup_insert_eq].
  intros q a Hne. cbn. rewrite lookup_insert_ne by done. by apply Hidle.
Qed.

(** The first three calls of an attempt that finds a file. *)
Lemma probe_alone p m i : m_procs m !! p = Some (Opening attempts) -> m_path m = Some i ->
  let m' := history (runs p 2) m in
  m_procs m' !! p = Some (Probing attempts (readPid m)) /\ m_path m' = m_path m /\ m_inodes m' = m_inodes m /\
  m_alive m' = m_alive m /\ (forall q, q <> p -> m_procs m' !! q = m_procs m !! q).
Proof.
  intros Hq Hpath. change (history (runs p 2) m) with (act p (act p m)).
  assert (act p m = set_proc p (Reading attempts) m) as -> by (unfold act; by rewrite Hq, Hpath).
  assert (act p (set_proc p (Reading attempts) m) =
    set_proc p (Probing attempts (readPid m)) (set_proc p (Reading attempts) m)) as ->.
  { unfold act. cbn [set_proc m_procs]. by rewrite lookup_insert_eq. }
  split; [apply lookup_insert_eq|]. repeat (split; [done|]). intros q Hne. cbn. by rewrite !lookup_insert_ne.
Qed.

(** without competitors an attempt does what it is for: if the file names a live
    process (its own pid counts as one), the launcher is told so and the file
    stays; otherwise, with no file or whatever else it holds, the launcher
    acquires the lock: its pid is in the file and is respected. *)
Theorem lock_alone p m (Hp : 0 < p < 2 ^ 63) (Hnew : p ∉ m_alive m) (Hnone : m_procs m !! p = None) (Hidle : idle m) :
  let m' := happens (Start p) m in
  match m_path m, readPid m with
  | None, _ => guarded p (history (runs p 2) m')
  | Some _, pid =>
      if match pid with Some q => processAlive m' q | None => false end
      then let m'' := history (runs p 3) m' in
           (exists q, pid = Some q /\ m_procs m'' !! p = Some (Failed (AlreadyRunning q))) /\
           m_path m'' = m_path m /\ m_inodes m'' = m_inodes m
      else guarded p (history (runs p 6) m')
  end.
Proof.
  cbv zeta. cbn [happens]. rewrite bool_decide_eq_true_2 by by destruct Hp.
  set (m1 := set_proc p _ _). assert (H1 : m_procs m1 !! p = Some (Opening attempts)) by apply lookup_insert_eq.
  assert (Ha1 : p ∈ m_alive m1) by (cbn; set_solver).
  assert (Hidle1 : forall q a, q <> p -> m_procs m1 !! q = Some a -> exists e, a = Failed e).
  { intros q a Hne. cbn. rewrite lookup_insert_ne by done. apply Hidle. }
  change (m_path m) with (m_path m1). change (readPid m) with (readPid m1). change (m_inodes m) with (m_inodes m1).
  clearbody m1. destruct (m_path m1) as [i|] eqn:Hpath; [|by eapply free_acquire].
  destruct (probe_alone p m1 i H1 Hpath) as (H2 & Hp2 & Hi2 & Ha2 & Ho2).
  rewrite !(runs_2 p 1 m1), (runs_2 p 4 m1), !(runs_S p 0), (runs_S p 3).
  set (m2 := history (runs p 2) m1) in *. clearbody m2. rewrite <- Hpath, <- Hp2, <- Hi2.
  assert (Hal : forall q, processAlive m2 q = processAlive m1 q) by (intros q; unfold processAlive; by rewrite Ha2).
  assert (Hstale : act p m2 = set_proc p (Removing attempts) m2 -> guarded p (history (runs p 3) (act p m2))).
  { intros ->. eapply (stale_acquire p _ 1); [done|by rewrite <- Ha2 in Ha1|..|apply lookup_insert_eq].
    intros q a Hne. cbn. rewrite lookup_insert_ne by done. rewrite Ho2 by done. by apply Hidle1. }
  destruct (readPid m1) as [q|]; [destruct (processAlive m1 q) eqn:Hlive|].
  - assert (act p m2 = set_proc p (Failed (AlreadyRunning q)) m2) as -> by (unfold act; by rewrite H2, Hal, Hlive).
    split; [|done]. exists q. split; [done|apply lookup_insert_eq].
  - apply Hstale. unfold act. by rewrite H2, Hal, Hlive.
  - apply Hstale. unfold act. by rewrite H2.
Qed.
(** An attempt that has ended makes no further call. *)
Lemma act_final p m a : m_procs m !! p = Some a -> final a = true -> act p m = m.
Proof. intros Ha Hf. unfold act. rewrite Ha. by destruct a. Qed.

Lemma runs_final p n m a : m_procs m !! p = Some a -> final a = true -> history (runs p n) m = m.
Proof. intros Ha Hf. induction n as [|n IH]; [done|]. by rewrite runs_S, (act_final p m a). Qed.

Lemma runs_app p n k m : history (runs p (n + k)) m = history (runs p k) (history (runs p n) m).
Proof. unfold runs, history. by rewrite repeat_app, foldl_app. Qed.

Lemma holds_state m p : holds m p = true -> exists i, m_procs m !! p = Some (Holding i).
Proof. unfold holds. destruct (m_procs m !! p) as [[]|]; try done. eauto. Qed.

Lemma guarded_holds h m : guarded h m -> holds m h = true.
Proof. intros [_ Ha (i & _ & _ & Hq) _]. unfold holds. rewrite Hq. by apply bool_decide_eq_true. Qed.

(** A launcher that comes to hold the lock with nobody else trying meanwhile is guarded. *)
Lemma alone_guarded h n m0 : 0 < h < 2 ^ 63 -> h ∉ m_alive m0 -> m_procs m0 !! h = None -> idle m0 ->
  holds (history (Start h :: runs h n) m0) h = true -> guarded h (history (Start h :: runs h n) m0).
Proof.
  intros Hh Hnew Hnone Hidle. pose proof (lock_alone h m0 Hh Hnew Hnone Hidle) as Hl. cbv zeta in Hl.
  change (history (Start h :: runs h n) m0) with (history (runs h n) (happens (Start h) m0)).
  set (m1 := happens (Start h) m0) in *. clearbody m1. intros Hholds. destruct (holds_state _ _ Hholds) as [i Hi].
  assert (forall k, guarded h (history (runs h k) m1) -> guarded h (history (runs h n) m1)) as Hstep.
  { intros k Hk. destruct (holds_state _ _ (guarded_holds _ _ Hk)) as [j Hj].
    rewrite <- (runs_final h n _ _ Hj), <- runs_app, Nat.add_comm, runs_app, (runs_final h k _ _ Hi) in Hk by done. done. }
  destruct (m_path m0); [|by eapply Hstep]. destruct (readPid m0) as [q|]; [|by eapply Hstep].
  destruct (processAlive m1 q); [|by eapply Hstep]. destruct Hl as ((q' & _ & Hq) & _).
  pose proof (runs_final h 3 _ _ Hi eq_refl) as Heq. rewrite <- runs_app, Nat.add_comm, runs_app in Heq.
  rewrite (runs_final h n _ _ Hq) in Heq by done. rewrite <- Heq, Hq in Hi. done.
Qed.

(** C38: a live launcher keeps the lock it got while nobody else was after it. Let
    [h] start on a machine where no attempt is under way (with any file left in
    the data directory), make its calls with no other launcher's in between, and
    come to hold the lock.  From then on, whatever launchers start and however
    their calls interleave, whatever processes come and go, nobody else holds the
    lock as long as [h] neither ends nor releases it and no file call fails; and a
    launcher that tries on its own is told the pid of [h].  The same follows of any
    other moment at which [h] is alive, holds the lock with its pid in the file,
    and no other launcher holds it, writes it or has read anything but that pid
    ([guarded]).  Where the attempts overlap the acquisition itself, two
    launchers can both end up with the lock ([lock_race]). *)
Theorem live_holder_keeps_lock h n m0 l p (Hh : 0 < h < 2 ^ 63) (Hnew : h ∉ m_alive m0)
    (Hnone : m_procs m0 !! h = None) (Hidle : idle m0) (Hl : Forall (spares h) l) :
  let alone := history (Start h :: runs h n) m0 in
  (holds alone h = true -> guarded h alone) /\
  (forall m, guarded h m ->
    (holds (history l m) p = true <-> p = h) /\
    (0 < p -> p ∉ m_alive (history l m) -> m_procs (history l m) !! p = None ->
     m_procs (history [Start p; Act p; Act p; Act p] (history l m)) !! p = Some (Failed (AlreadyRunning h)))).
Proof.
  cbv zeta. split; [by apply alone_guarded|]. intros m Hg. pose proof (guarded_history h l m Hl Hg) as Hg'. split.
  - split; [by apply guarded_only|]. intros ->. by apply guarded_holds.
  - by apply guarded_refuses.
Qed.
End lock.

(** ** Examples *)

(** Launcher 10 alone, up to the lock. *)
Definition demo_held : machine := history (Start 10 :: runs 10 2) (quiet None ∅).

Lemma idle_quiet file alive : idle (quiet file alive).
Proof. intros p a. cbn. by rewrite lookup_empty. Qed.

Lemma live_holder_keeps_lock_witness :
  holds demo_held 10 = true /\
  holds (history [Start 20; Act 20; Spawn 30; Start 40; Act 40; Act 20; Act 40; Act 20; Die 30; Act 40] demo_held) 40 = false /\
  m_procs (history [Start 20; Act 20; Act 20; Act 20] demo_held) !! 20 = Some (Failed (AlreadyRunning 10)).
Proof.
  split; [reflexivity|]. split.
  - destruct (holds _ 40) eqn:Hh; [exfalso|done]. revert Hh.
    destruct (live_holder_keeps_lock 10 2 (quiet None ∅) [Start 20; Act 20; Spawn 30; Start 40; Act 40; Act 20; Act 40; Act 20; Die 30; Act 40]
      40 ltac:(lia) ltac:(set_solver) eq_refl (idle_quiet _ _) ltac:(repeat constructor; done)) as [Hg Hk].
    intros Hh. apply (Hk _ (Hg eq_refl)) in Hh. discriminate.
  - destruct (live_holder_keeps_lock 10 2 (quiet None ∅) [] 20 ltac:(lia) ltac:(set_solver) eq_refl (idle_quiet _ _) (Forall_nil_2 _)) as [Hg Hk].
    apply (Hk demo_held (Hg eq_refl)); [lia|vm_compute; discriminate|reflexivity].
Defined.

(** A stale file that another launcher reclaims first. *)
Lemma lock_attempt_ends_witness :
  let l := Start 20 :: Act 20 :: Spawn 30 :: runs 10 12 in
  let m := happens (Start 10) (quiet (Some "4711"%string) ∅) in
  exists a, m_procs (history l m) !! 10 = Some a /\ final a = true.
Proof.
  cbv zeta. apply lock_attempt_ends; [vm_compute; reflexivity| |vm_compute; lia].
  repeat constructor; done.
Defined.

Lemma lock_alone_witness :
  let m := quiet (Some "4711"%string) {[1]} in
  readPid m = Some 4711 /\ guarded 10 (history (runs 10 6) (happens (Start 10) m)).
Proof.
  cbv zeta. split; [reflexivity|].
  pose proof (lock_alone 10 (quiet (Some "4711"%string) {[1]}) ltac:(lia) ltac:(set_solver) eq_refl (idle_quiet _ _)) as Hl.
  cbv zeta in Hl. set (m' := happens (Start 10) _) in *.
  assert (Hs : match readPid (quiet (Some "4711"%string) {[1]}) with Some q => processAlive m' q | None => false end = false)
    by (vm_compute; reflexivity).
  rewrite Hs in Hl. exact Hl.
Defined.

(** overlapping attempts are not excluded. With no file: a launcher that looks
    between another's creation of the file and its write of the pid takes the
    empty file for stale, and both hold the lock.  After a crash: of two launchers
    that judge the dead one's file stale, the second removes the file the first
    has by then created, and both hold the lock.  And a file that cannot be read,
    of a live holder, is reclaimed. *)
Example lock_race :
  (let m := history (Start 10 :: Act 10 :: Start 20 :: runs 20 6 ++ [Act 10]) (quiet None ∅) in
   holds m 10 = true /\ holds m 20 = true) /\
  (let m := history ([Start 10; Start 20] ++ runs 10 3 ++ runs 20 6 ++ runs 10 3) (quiet (Some "4711"%string) ∅) in
   holds m 10 = true /\ holds m 20 = true) /\
  (let m := history ([Start 20; Act 20; Fault 20] ++ runs 20 4) demo_held in
   holds m 10 = true /\ holds m 20 = true).
Proof. vm_compute. auto. Qed.

(** A launcher that gets the pid of its crashed predecessor takes itself for a
    running one, and never starts. *)
Example own_stale_pid_refused :
  m_procs (history (Start 7 :: runs 7 3) (quiet (Some "7"%string) ∅)) !! 7 = Some (Failed (AlreadyRunning 7)).
Proof. reflexivity. Qed.
