(* ===== verification/Middleware.v ===== *)
(** * HTTP middleware (internal/middleware, internal/httpx/context.go)

    A handler answers a request with a sequence of operations on its response
    writer, and may panic after some of them; a middleware turns a handler into
    one, and the pages of the server's handlers are such sequences too.  The base writer is net/http's: headers are fixed by the first
    WriteHeader, a body write implies status 200, and a handler that wrote
    nothing answers 200.  What of the request is read is its method, its headers
    (the first value of each) and the address of the peer. *)

From S2P Require Import Prelude GoTime Models Api Ext Net Text Static.
Local Open Scope string_scope.
Local Open Scope Z_scope.

(** ** Requests and writers *)

Record HttpReq := mk_HttpReq {
  hr_Method : string; hr_Header : string -> string; hr_RemoteAddr : string;
  hr_BodyLimit : option Z   (** where reading the body stops with an error *) }.

(** The values of the request's context. *)
Record Ctx := mk_Ctx { cx_RequestID : string; cx_RealIP : string }.

Inductive wop :=
| PutHeader (key : string) (values : list string)   (** h[key] = values *)
| AddHeader (key value : string)
| DelHeader (key : string)
| WriteHeader (code : Z)
| Write (n : Z).                      (** a body of [n] bytes *)

(** [Header.Set]. *)
Definition SetHeader (key value : string) : wop := PutHeader key [value].

Record Writer := mk_Writer {
  wr_Header : gmap string (list string);
  wr_Sent : option (Z * gmap string (list string));
  wr_Bytes : Z }.

Definition new_writer : Writer := mk_Writer ∅ None 0.

(** net/http's response writer. *)
Definition base_op (w : Writer) (o : wop) : Writer :=
  match o with
  | PutHeader k l => mk_Writer (<[k := l]> (wr_Header w)) (wr_Sent w) (wr_Bytes w)
  | AddHeader k v => mk_Writer (<[k := (default [] (wr_Header w !! k) ++ [v])%list]> (wr_Header w)) (wr_Sent w) (wr_Bytes w)
  | DelHeader k => mk_Writer (delete k (wr_Header w)) (wr_Sent w) (wr_Bytes w)
  | WriteHeader code =>
      match wr_Sent w with
      | None => mk_Writer (wr_Header w) (Some (code, wr_Header w)) (wr_Bytes w)
      | Some _ => w
      end
  | Write n =>
      mk_Writer (wr_Header w) (Some (default (200, wr_Header w) (wr_Sent w))) (wr_Bytes w + n)
  end.

Definition base_ops (w : Writer) (l : list wop) : Writer := foldl base_op w l.

(** Status and headers of the response when the handler has returned. *)
Definition answered (w : Writer) : Z * gmap string (list string) := default (200, wr_Header w) (wr_Sent w).

(** One line of the access log. *)
Record logline := mk_logline { ll_Status : Z; ll_Bytes : Z; ll_RequestID : string; ll_IP : option string }.

Record outcome := mk_outcome { oc_ops : list wop; oc_panic : bool; oc_log : list logline }.

Definition handler : Type := Ctx -> HttpReq -> outcome.

(** Operations before those of [next]. *)
Definition before (l : list wop) (o : outcome) : outcome := mk_outcome (l ++ oc_ops o) (oc_panic o) (oc_log o).

(** ** middleware.go *)

(** [fresh] is what [uuid.NewString] answers. *)
Definition RequestID (fresh : string) (next : handler) : handler := fun cx rq =>
  let inbound := hr_Header rq "X-Request-Id" in
  let id := if empty inbound || (64 <? str_len inbound) then fresh else inbound in
  before [SetHeader "X-Request-Id" id] (next (mk_Ctx id (cx_RealIP cx)) rq).

Definition ClientIP `{Ext} (rq : HttpReq) (trustProxy : bool) : string :=
  let peer :=
    match SplitHostPort (hr_RemoteAddr rq) with Some (host, _) => host | None => hr_RemoteAddr rq end in
  if trustProxy then
    let xr := TrimSpace (hr_Header rq "X-Real-Ip") in
    if negb (empty xr) then xr else
    let xff := hr_Header rq "X-Forwarded-For" in
    if negb (empty xff) then
      let last := TrimSpace (default EmptyString (last (split_on "," xff))) in
      if negb (empty last) then last else peer
    else peer
  else peer.

Definition RealIP `{Ext} (trustProxy : bool) (next : handler) : handler := fun cx rq =>
  next (mk_Ctx (cx_RequestID cx) (ClientIP rq trustProxy)) rq.

(** [httpx.WriteJSON] of a value that is rendered in [n] bytes. *)
Definition WriteJSON_ops (status n : Z) : list wop :=
  [SetHeader "Content-Type" "application/json; charset=utf-8"; WriteHeader status; Write n].

(** [httpx.WriteError] of an internal error. *)
Definition internal_error_ops (n : Z) : list wop := WriteJSON_ops 500 n.

Definition Recoverer (n : Z) (next : handler) : handler := fun cx rq =>
  let o := next cx rq in
  if oc_panic o then mk_outcome (oc_ops o ++ internal_error_ops n) false (oc_log o) else o.

Definition BodyLimit (max : Z) (next : handler) : handler := fun cx rq =>
  next cx (mk_HttpReq (hr_Method rq) (hr_Header rq) (hr_RemoteAddr rq)
    (Some (match hr_BodyLimit rq with Some l => Z.min l max | None => max end))).

(** [recorder]: its state, and what an operation on it does to the writer below. *)
Record recorder := mk_recorder { rec_status : Z; rec_written : Z; rec_wroteHeader : bool }.

Definition rec_op (r : recorder) (o : wop) : recorder * list wop :=
  match o with
  | PutHeader _ _ | AddHeader _ _ | DelHeader _ => (r, [o])
  | WriteHeader code =>
      if rec_wroteHeader r then (r, []) else (mk_recorder code (rec_written r) true, [WriteHeader code])
  | Write n =>
      let '(r', below) := if rec_wroteHeader r then (r, []) else (mk_recorder 200 (rec_written r) true, [WriteHeader 200]) in
      (mk_recorder (rec_status r') (rec_written r' + n) (rec_wroteHeader r'), (below ++ [Write n])%list)
  end.

Fixpoint rec_ops (r : recorder) (l : list wop) : recorder * list wop :=
  match l with
  | [] => (r, [])
  | o :: rest =>
      let '(r1, below) := rec_op r o in let '(r2, below') := rec_ops r1 rest in (r2, (below ++ below')%list)
  end.

Definition AccessLog (logIP : bool) (next : handler) : handler := fun cx rq =>
  let o := next cx rq in
  let '(r, below) := rec_ops (mk_recorder 200 0 false) (oc_ops o) in
  mk_outcome below (oc_panic o)
    (if oc_panic o then oc_log o
     else (oc_log o ++ [mk_logline (rec_status r) (rec_written r) (cx_RequestID cx)
       (if logIP then Some (cx_RealIP cx) else None)])%list).

(** ** security.go *)

Definition buildCSP `{Ext} (cfg : Config) : string :=
  let tiles := TrimSpace (cfg_TilesOrigin cfg) in
  let connect := if empty tiles then "'self'" else "'self' " ++ tiles in
  let img := if empty tiles then "'self' data: blob:" else "'self' data: blob: " ++ tiles in
  Join ["default-src 'self'"; "base-uri 'none'"; "object-src 'none'"; "frame-ancestors 'none'"; "form-action 'self'";
    "script-src 'self' 'wasm-unsafe-eval'"; "style-src 'self' 'unsafe-inline'"; "img-src " ++ img; "font-src 'self'";
    "worker-src 'self' blob:"; "connect-src " ++ connect; "manifest-src 'self'"] "; ".

Definition hsts (cfg : Config) : bool :=
  cfg_SecureCookies cfg ||
  match cfg_PublicOrigin cfg with Some u => bool_decide (url_Scheme u = "https") | None => false end.

Definition security_headers `{Ext} (cfg : Config) : list (string * string) :=
  [("Content-Security-Policy", buildCSP cfg); ("X-Content-Type-Options", "nosniff"); ("Referrer-Policy", "no-referrer");
   ("X-Frame-Options", "DENY"); ("Cross-Origin-Opener-Policy", "same-origin");
   ("Permissions-Policy", "geolocation=(self), camera=(), microphone=(), interest-cohort=()")] ++
  (if hsts cfg then [("Strict-Transport-Security", "max-age=63072000; includeSubDomains")] else []).

Definition SecurityHeaders `{Ext} (cfg : Config) (next : handler) : handler := fun cx rq =>
  before ((fun kv => SetHeader kv.1 kv.2) <$> security_headers cfg) (next cx rq).

Definition allowed_origin (cfg : Config) : string :=
  match cfg_PublicOrigin cfg with Some u => url_Scheme u ++ "://" ++ url_Host u | None => "" end.

Definition CORS (cfg : Config) (next : handler) : handler := fun cx rq =>
  let origin := hr_Header rq "Origin" in
  let preflight := bool_decide (hr_Method rq = "OPTIONS") in
  if negb (empty origin) && bool_decide (origin = allowed_origin cfg) then
    let granted := [SetHeader "Access-Control-Allow-Origin" (allowed_origin cfg);
      SetHeader "Access-Control-Allow-Credentials" "true"; SetHeader "Vary" "Origin"] in
    if preflight then
      mk_outcome (granted ++ [SetHeader "Access-Control-Allow-Methods" "GET, POST, PATCH, PUT, DELETE, OPTIONS";
        SetHeader "Access-Control-Allow-Headers" "Authorization, Content-Type";
        SetHeader "Access-Control-Max-Age" "600"; WriteHeader 204]) false []
    else before granted (next cx rq)
  else if preflight && negb (empty origin) then mk_outcome [WriteHeader 403] false []
  else next cx rq.

(** ** The chain of [Server.Router], outermost first *)

Definition global_chain `{Ext} (cfg : Config) (fresh : string) (n : Z) (h : handler) : handler :=
  Recoverer n (RequestID fresh (RealIP (cfg_TrustProxyHeaders cfg) (SecurityHeaders cfg (CORS cfg
    (BodyLimit (cfg_BodyLimitBytes cfg) (AccessLog (0 <? cfg_IPLogRetentionDays cfg) h)))))).

(** The response the client gets. *)
Definition respond `{Ext} (cfg : Config) (fresh : string) (n : Z) (h : handler) (rq : HttpReq) : Z * gmap string (list string) :=
  answered (base_ops new_writer (oc_ops (global_chain cfg fresh n h (mk_Ctx "" "") rq))).

(** ** What the handlers write *)

(** [http.TimeoutHandler], [expired] if the deadline comes first: the handler
    writes to a buffer with headers of its own, which is copied when it returns;
    a panic of it goes on, with nothing written.  [n] is the length of the page. *)
Definition TimeoutHandler (expired : bool) (n : Z) (next : handler) : handler := fun cx rq =>
  if expired then mk_outcome [WriteHeader 503; Write n] false [] else
  let o := next cx rq in
  if oc_panic o then mk_outcome [] true (oc_log o) else
  let tw := base_ops new_writer (oc_ops o) in
  mk_outcome (((fun kv => PutHeader kv.1 kv.2) <$> map_to_list (wr_Header tw)) ++
    [WriteHeader (fst (answered tw)); Write (wr_Bytes tw)]) false (oc_log o).

(** What other code writes for the server: [http.ServeContent] of a file,
    [websocket.Accept], and chi for a path or method without a route. *)
Class Writes := {
  ServeContent_ops : HttpReq -> string -> time -> string -> list wop;
  Accept_ops : HttpReq -> list wop;
  unrouted_ops : HttpReq -> list wop }.

(** The answers of the server's handlers. *)
Inductive page :=
| RestPage (r : response)                            (** of a route under /v1: what [serve] answers *)
| JSONPage (status : Z) (retry : option Z) (n : Z)   (** healthz, readyz, and a refused upgrade *)
| MetricsPage (n : Z)
| StaticPage (h : staticHandler) (path : string)
| UpgradePage
| UnroutedPage.

Section pages.
Context `{Writes}.
(** [Cookie.String], the length of a rendered body, and the MIME table. *)
Context (cookie_line : cookie -> string) (encoded : Api.body -> Z) (TypeByExtension : string -> string).

Definition retry_ops (retry : option Z) : list wop :=
  match retry with Some s => [SetHeader "Retry-After" (itoa s)] | None => [] end.

(** The position of a share link must not stay in a cache. *)
Definition no_store_ops (b : Api.body) : list wop :=
  match b with BSharePosition _ _ => [SetHeader "Cache-Control" "no-store"] | _ => [] end.

Definition response_ops (r : response) : list wop :=
  ((fun c => AddHeader "Set-Cookie" (cookie_line c)) <$> resp_cookies r) ++ retry_ops (resp_retry r) ++
  no_store_ops (resp_body r) ++ WriteJSON_ops (resp_status r) (encoded (resp_body r)).

(** [http.Error]. *)
Definition Error_ops (status n : Z) : list wop :=
  [DelHeader "Content-Length"; SetHeader "Content-Type" "text/plain; charset=utf-8";
   SetHeader "X-Content-Type-Options" "nosniff"; WriteHeader status; Write n].

Definition static_ops (rq : HttpReq) (a : static_answer) : list wop :=
  match a with
  | ErrorPage status => Error_ops status 19
  | Served headers b =>
      ((fun kv => SetHeader kv.1 kv.2) <$> headers) ++
      match b with
      | ServeContent name modtime content => ServeContent_ops rq name modtime content
      | Copied content => [WriteHeader 200; Write (str_len content)]
      end
  end.

Definition page_ops (rq : HttpReq) (p : page) : list wop :=
  match p with
  | RestPage r => response_ops r
  | JSONPage status retry n => retry_ops retry ++ WriteJSON_ops status n
  | MetricsPage n => [SetHeader "Content-Type" "text/plain; version=0.0.4"; Write n]
  | StaticPage h path => static_ops rq (snd (ServeHTTP TypeByExtension h (hr_Method rq) path))
  | UpgradePage => Accept_ops rq
  | UnroutedPage => unrouted_ops rq
  end.

(** A handler that answers with a page, or panics after some of its writes. *)
Definition writes (stop : option nat) (p : page) : handler := fun _ rq =>
  match stop with
  | None => mk_outcome (page_ops rq p) false []
  | Some k => mk_outcome (take k (page_ops rq p)) true []
  end.

(** The handlers of [Server.Router]: those under /v1 have the timeout. *)
Definition router_handler (expired : bool) (stop : option nat) (p : page) : handler :=
  match p with
  | RestPage _ => TimeoutHandler expired 58 (writes stop p)
  | _ => writes stop p
  end.
End pages.
