(* ===== verification/MiddlewareSpec.v ===== *)
(** * What the middleware guarantees, whatever the handler does *)

From S2P Require Import Prelude GoTime Base64 Models Api Ext Net Text World Demo Static Middleware.
Local Open Scope string_scope.
Local Open Scope Z_scope.

(** ** Headers that stay *)

(** The header is set, in what was sent and in what will be. *)
Definition carries (k v : string) (w : Writer) : Prop :=
  wr_Header w !! k = Some [v] /\ forall s, wr_Sent w = Some s -> snd s !! k = Some [v].

(** If the operation touches the header [k], it sets it to values with [P]. *)
Definition touches (k : string) (P : list string -> Prop) (o : wop) : Prop :=
  match o with
  | PutHeader k' l => k' = k -> P l
  | AddHeader k' _ | DelHeader k' => k' <> k
  | WriteHeader _ | Write _ => True
  end.

Definition only (v : string) (l : list string) : Prop := l = [v].
Definition keeps (k : string) : wop -> Prop := touches k (fun _ => False).

Lemma touches_weaken k (P Q : list string -> Prop) l : (forall x, P x -> Q x) -> Forall (touches k P) l -> Forall (touches k Q) l.
Proof. intros HPQ Hl. eapply Forall_impl; [exact Hl|]. intros [] Ht; cbn in *; auto. Qed.

(** A write sends the headers there are. *)
Lemma send_carries k v w o : carries k v w -> match o with WriteHeader _ | Write _ => True | _ => False end -> carries k v (base_op w o).
Proof.
  intros [Hh Hs] Ho. destruct o as [| | |code|n]; try done; cbn.
  - destruct (wr_Sent w) as [s|] eqn:Hw; split; cbn; try done; [by rewrite Hw|]. by intros s [= <-].
  - split; [done|]. cbn. intros s [= <-]. destruct (wr_Sent w) as [s|]; [by apply Hs|done].
Qed.

Lemma carries_op k v w o : touches k (only v) o -> carries k v w -> carries k v (base_op w o).
Proof.
  intros Hk Hc. destruct o as [k' l|k' v'|k'|code|n]; [..|by apply send_carries|by apply send_carries];
    destruct Hc as [Hh Hs]; cbn in *; (split; [cbn|done]).
  - destruct (decide (k' = k)) as [->|Hne]; [by rewrite lookup_insert_eq, Hk|by rewrite lookup_insert_ne].
  - by rewrite lookup_insert_ne.
  - by rewrite lookup_delete_ne.
Qed.

Lemma carries_ops k v l w : Forall (touches k (only v)) l -> carries k v w -> carries k v (base_ops w l).
Proof. intros Hl. revert w. induction Hl as [|o l Ho _ IH]; intros w Hc; [done|]. by apply IH, carries_op. Qed.

Lemma carries_answered k v w : carries k v w -> snd (answered w) !! k = Some [v].
Proof. intros [Hh Hs]. unfold answered. destruct (wr_Sent w) as [s|]; [by apply Hs|done]. Qed.

Lemma carries_sets k v l w : wr_Sent w = None -> NoDup (fst <$> l) -> (k, v) ∈ l ->
  carries k v (base_ops w ((fun kv => SetHeader kv.1 kv.2) <$> l)).
Proof.
  revert w. induction l as [|[k' v'] l IH]; intros w Hw Hnd Hin; [by apply not_elem_of_nil in Hin|].
  cbn in Hnd. apply NoDup_cons in Hnd as [Hnk Hnd]. apply elem_of_cons in Hin as [[= <- <-]|Hin].
  - cbn. apply carries_ops.
    + apply Forall_forall. intros o (kv & -> & Hkv)%list_elem_of_fmap. cbn. intros <-. destruct Hnk. by apply list_elem_of_fmap_2.
    + split; cbn; [apply lookup_insert_eq|by rewrite Hw].
  - by apply (IH (base_op w (SetHeader k' v'))).
Qed.

(** Nobody sets it. *)
Definition lacks (k : string) (w : Writer) : Prop :=
  wr_Header w !! k = None /\ forall s, wr_Sent w = Some s -> snd s !! k = None.

Lemma lacks_op k w o : keeps k o -> lacks k w -> lacks k (base_op w o).
Proof.
  intros Hk [Hh Hs]. destruct o as [k' l|k' v'|k'|code|n]; cbn in *.
  - split; [|done]. cbn. by rewrite lookup_insert_ne.
  - split; [|done]. cbn. by rewrite lookup_insert_ne.
  - split; [|done]. cbn. by rewrite lookup_delete_ne.
  - destruct (wr_Sent w) as [s|] eqn:Hw; split; cbn; try done; [by rewrite Hw|]. by intros s [= <-].
  - split; [done|]. cbn. intros s [= <-]. destruct (wr_Sent w) as [s|]; [by apply Hs|done].
Qed.

Lemma lacks_ops k l w : Forall (keeps k) l -> lacks k w -> lacks k (base_ops w l).
Proof. intros Hl. revert w. induction Hl as [|o l Ho _ IH]; intros w Hc; [done|]. by apply IH, lacks_op. Qed.

Lemma lacks_answered k w : lacks k w -> snd (answered w) !! k = None.
Proof. intros [Hh Hs]. unfold answered. destruct (wr_Sent w) as [s|]; [by apply Hs|done]. Qed.

(** ** The recorder *)

(** What the recorder remembers is what the writer below did. *)
Record agrees (r : recorder) (w : Writer) : Prop := {
  ag_wrote : rec_wroteHeader r = bool_decide (is_Some (wr_Sent w));
  ag_status : rec_status r = default 200 (fst <$> wr_Sent w);
  ag_written : rec_written r = wr_Bytes w }.

Lemma rec_op_agrees r w o : agrees r w ->
  base_ops w (snd (rec_op r o)) = base_op w o /\ agrees (fst (rec_op r o)) (base_op w o).
Proof.
  destruct r as [status written wrote], w as [hd sent bytes]. intros [Hw Hs Hb]. cbn in Hw, Hs, Hb. subst.
  destruct sent as [[c h]|], o as [k v|k v|k|code|n]; cbn; (split; [done|split; reflexivity]).
Qed.

Lemma rec_ops_agrees r w l : agrees r w ->
  base_ops w (snd (rec_ops r l)) = base_ops w l /\ agrees (fst (rec_ops r l)) (base_ops w l).
Proof.
  revert r w. induction l as [|o l IH]; intros r w Ha; [done|]. cbn [rec_ops].
  destruct (rec_op_agrees r w o Ha) as [Hop Hag]. destruct (rec_op r o) as [r1 below] eqn:Hr. cbn [fst snd] in *.
  destruct (IH r1 _ Hag) as [Hops Hags]. destruct (rec_ops r1 l) as [r2 below'] eqn:Hr2. cbn [fst snd] in *.
  unfold base_ops in *. rewrite foldl_app, Hop. done.
Qed.

Lemma agrees_new w : wr_Sent w = None -> wr_Bytes w = 0 -> agrees (mk_recorder 200 0 false) w.
Proof. intros Hs Hb. split; cbn; rewrite ?Hs, ?Hb; done. Qed.

(** the access log is transparent and exact: whatever a handler writes, in
    whatever order, the client gets what it would get without the log, and the
    line reports the status and the bytes the client gets; it names the client's
    address only if addresses are logged. *)
Theorem access_log_transparent logIP h cx rq w (Hs : wr_Sent w = None) (Hb : wr_Bytes w = 0) :
  base_ops w (oc_ops (AccessLog logIP h cx rq)) = base_ops w (oc_ops (h cx rq)) /\
  oc_panic (AccessLog logIP h cx rq) = oc_panic (h cx rq) /\
  (oc_panic (h cx rq) = false -> oc_log (AccessLog logIP h cx rq) = (oc_log (h cx rq) ++
     [mk_logline (fst (answered (base_ops w (oc_ops (h cx rq))))) (wr_Bytes (base_ops w (oc_ops (h cx rq))))
        (cx_RequestID cx) (if logIP then Some (cx_RealIP cx) else None)])%list).
Proof.
  destruct (rec_ops_agrees _ w (oc_ops (h cx rq)) (agrees_new w Hs Hb)) as [Hops [_ Hst Hwr]]. unfold AccessLog.
  destruct (rec_ops _ (oc_ops (h cx rq))) as [r below]. cbn [fst snd oc_ops oc_panic oc_log] in *.
  split; [done|]. split; [done|]. intros ->. rewrite Hst, Hwr. unfold answered.
  by destruct (wr_Sent (base_ops w (oc_ops (h cx rq)))) as [[]|].
Qed.

(** A handler that sets a header, panics before it answers, or answers twice. *)
Definition demo_handler (panics : bool) : handler := fun cx rq =>
  mk_outcome (if panics then [SetHeader "X" "1"] else [SetHeader "X" "1"; WriteHeader 201; Write 10; WriteHeader 500]) panics [].

Definition demo_req (method origin : string) : HttpReq :=
  mk_HttpReq method (fun k => if bool_decide (k = "Origin") then origin
    else if bool_decide (k = "X-Forwarded-For") then "1.2.3.4, 203.0.113.9" else "") "10.0.0.2:5555" None.

Lemma access_log_transparent_witness :
  let o := AccessLog true (demo_handler false) (mk_Ctx "id" "203.0.113.9") (demo_req "GET" "") in
  answered (base_ops new_writer (oc_ops o)) = (201, {["X" := ["1"]]}) /\
  oc_log o = [mk_logline 201 10 "id" (Some "203.0.113.9")].
Proof.
  cbv zeta. destruct (access_log_transparent true (demo_handler false) (mk_Ctx "id" "203.0.113.9") (demo_req "GET" "")
    new_writer eq_refl eq_refl) as (Hops & _ & Hlog).
  split; [rewrite Hops; vm_compute; reflexivity|]. rewrite (Hlog eq_refl). vm_compute. reflexivity.
Defined.

(** ** The chain *)

Lemma Forall_keeps_sets k l : k ∉ (fst <$> l) -> Forall (keeps k) ((fun kv => SetHeader kv.1 kv.2) <$> l).
Proof.
  intros Hk. apply Forall_forall. intros o (kv & -> & Hkv)%list_elem_of_fmap. cbn. intros <-. apply Hk.
  by apply list_elem_of_fmap_2.
Qed.

(** A handler that leaves the header [k] alone, or sets it to values with [P]. *)
Definition touching (k : string) (P : list string -> Prop) (h : handler) : Prop :=
  forall cx rq, Forall (touches k P) (oc_ops (h cx rq)).
Definition respects (k : string) : handler -> Prop := touching k (fun _ => False).

Section touching.
Context (k : string) (P : list string -> Prop).

Lemma rec_ops_touches r l : Forall (touches k P) l -> Forall (touches k P) (snd (rec_ops r l)).
Proof.
  intros Hl. revert r. induction Hl as [|o l Ho _ IH]; intros r; [constructor|]. cbn [rec_ops].
  destruct (rec_op r o) as [r1 below] eqn:Hr. destruct (rec_ops r1 l) as [r2 below'] eqn:Hr2. cbn [snd].
  apply Forall_app. split; [|by specialize (IH r1); rewrite Hr2 in IH].
  destruct r as [st wn []], o as [k' v|k' v|k'|code|n]; injection Hr as <- <-; repeat constructor; done.
Qed.

Lemma touching_AccessLog b h : touching k P h -> touching k P (AccessLog b h).
Proof.
  intros Hh cx rq. unfold AccessLog. pose proof (rec_ops_touches (mk_recorder 200 0 false) _ (Hh cx rq)) as Hk.
  by destruct (rec_ops _ _).
Qed.

Definition cors_names : list string := ["Access-Control-Allow-Origin"; "Access-Control-Allow-Credentials"; "Vary";
  "Access-Control-Allow-Methods"; "Access-Control-Allow-Headers"; "Access-Control-Max-Age"].

Lemma touching_CORS cfg h : k ∉ cors_names -> touching k P h -> touching k P (CORS cfg h).
Proof.
  intros Hk Hh cx rq. specialize (Hh cx rq). unfold CORS. unfold cors_names in Hk. set_unfold.
  repeat match goal with |- context [if ?b then _ else _] => destruct b end; cbn;
    repeat first [exact Hh | constructor | (cbn; intros <-; naive_solver)].
Qed.

(** The buffer of a timeout ends with the values that were set. *)
Lemma buffered_touches l w : (forall x, wr_Header w !! k = Some x -> P x) -> Forall (touches k P) l ->
  forall x, wr_Header (base_ops w l) !! k = Some x -> P x.
Proof.
  intros Hw Hl. revert w Hw. induction Hl as [|o l Ho _ IH]; intros w Hw; [done|]. apply (IH (base_op w o)).
  intros x. destruct o as [k' v|k' v|k'|code|n]; cbn in *.
  - destruct (decide (k' = k)) as [->|Hne]; [rewrite lookup_insert_eq; intros [= <-]; auto|rewrite lookup_insert_ne by done; auto].
  - rewrite lookup_insert_ne by done. auto.
  - rewrite lookup_delete_ne by done. auto.
  - destruct (wr_Sent w); cbn; auto.
  - auto.
Qed.

Lemma touching_TimeoutHandler expired n h : touching k P h -> touching k P (TimeoutHandler expired n h).
Proof.
  intros Hh cx rq. unfold TimeoutHandler. destruct expired; [by repeat constructor|].
  destruct (oc_panic (h cx rq)); [constructor|]. cbn. apply Forall_app. split; [|by repeat constructor].
  apply Forall_forall. intros o ([k' x] & -> & Hx%elem_of_map_to_list)%list_elem_of_fmap. cbn. intros ->.
  revert x Hx. apply buffered_touches; [|done]. intros x. cbn. by rewrite lookup_empty.
Qed.
End touching.

Section chain.
Context `{Ext} (cfg : Config) (fresh : string) (n : Z).

(** The operations of the chain: the request id and the security headers first. *)
Lemma chain_ops h cx rq : exists id rest, let o := global_chain cfg fresh n h cx rq in
  oc_ops o = ([SetHeader "X-Request-Id" id] ++ ((fun kv => SetHeader kv.1 kv.2) <$> security_headers cfg) ++ rest)%list /\
  oc_panic o = false /\ (id = fresh \/ id = hr_Header rq "X-Request-Id" /\ 1 <= str_len id <= 64) /\
  forall k P, touching k P h -> k <> "Content-Type" -> k ∉ cors_names -> Forall (touches k P) rest.
Proof.
  set (inner := CORS cfg (BodyLimit (cfg_BodyLimitBytes cfg) (AccessLog (0 <? cfg_IPLogRetentionDays cfg) h))).
  set (id := if empty (hr_Header rq "X-Request-Id") || (64 <? str_len (hr_Header rq "X-Request-Id")) then fresh
             else hr_Header rq "X-Request-Id").
  set (o1 := inner (mk_Ctx id (ClientIP rq (cfg_TrustProxyHeaders cfg))) rq).
  assert (Hinner : forall k P, touching k P h -> k ∉ cors_names -> Forall (touches k P) (oc_ops o1)).
  { intros k P Hk Hnk. apply touching_CORS; [done|]. intros cx' rq'. by apply (touching_AccessLog k P _ h). }
  exists id, (oc_ops o1 ++ (if oc_panic o1 then internal_error_ops n else []))%list. cbv zeta.
  assert (Hid : id = fresh \/ id = hr_Header rq "X-Request-Id" /\ 1 <= str_len id <= 64).
  { subst id. destruct (empty _) eqn:He; [by left|]. destruct (64 <? str_len _) eqn:Hl; [by left|]. right. cbn.
    apply Z.ltb_ge in Hl. split; [done|]. split; [|done]. unfold str_len in *.
    destruct (hr_Header rq "X-Request-Id"); [done|]. cbn. lia. }
  split; [|split; [|split; [exact Hid|]]].
  - unfold global_chain, Recoverer, RequestID, RealIP, SecurityHeaders, before. cbn [oc_panic oc_ops cx_RealIP cx_RequestID].
    fold id. fold inner. fold o1. destruct (oc_panic o1); cbn [oc_ops]; by rewrite ?app_nil_r, <- ?app_assoc.
  - unfold global_chain, Recoverer. destruct (oc_panic (RequestID fresh _ cx rq)) eqn:Hp; [done|exact Hp].
  - intros k P Hk Hct Hnk. apply Forall_app. split; [by apply Hinner|].
    destruct (oc_panic o1); repeat constructor; cbn; congruence.
Qed.

Lemma security_names : NoDup (fst <$> security_headers cfg) /\
  forall k, k ∈ (fst <$> security_headers cfg) -> k <> "X-Request-Id" /\ k <> "Content-Type" /\ k ∉ cors_names.
Proof.
  unfold security_headers. destruct (hsts cfg); cbn [app fmap list_fmap fst]; (split; [apply (bool_decide_unpack _); reflexivity|]);
    intros k Hk; repeat (apply elem_of_cons in Hk as [->|Hk]; [split; [done|split; [done|unfold cors_names; set_solver]]|]);
    by apply not_elem_of_nil in Hk.
Qed.

(** What the client gets has the security headers and a request id, and no panic
    leaves the chain. *)
Definition secured (h : handler) (rq : HttpReq) : Prop :=
  oc_panic (global_chain cfg fresh n h (mk_Ctx "" "") rq) = false /\
  (forall k v, (k, v) ∈ security_headers cfg -> snd (respond cfg fresh n h rq) !! k = Some [v]) /\
  (exists id, snd (respond cfg fresh n h rq) !! "X-Request-Id" = Some [id] /\
     (id = fresh \/ id = hr_Header rq "X-Request-Id" /\ 1 <= str_len id <= 64)).

(** A handler that leaves the request id alone and sets a security header, if at
    all, to the value it has. *)
Definition tame (h : handler) : Prop :=
  respects "X-Request-Id" h /\ forall k v, (k, v) ∈ security_headers cfg -> touching k (only v) h.

Lemma tame_secured h rq : tame h -> secured h rq.
Proof.
  intros [Hreq Hsec].
  destruct (chain_ops h (mk_Ctx "" "") rq) as (id & rest & Hops & Hp & Hid & Hrest). destruct security_names as [Hnd Hnames].
  split; [done|]. unfold respond. rewrite Hops. unfold base_ops. rewrite !foldl_app. split.
  - intros k v Hin. assert (Hk : k ∈ (fst <$> security_headers cfg)) by by apply (list_elem_of_fmap_2 fst) in Hin.
    destruct (Hnames k Hk) as (H1 & H2 & H3). apply carries_answered, carries_ops.
    + by apply Hrest; [apply Hsec|..].
    + by apply carries_sets.
  - exists id. split; [|done]. apply carries_answered, carries_ops, carries_ops.
    + apply (touches_weaken _ (fun _ => False)); [done|]. apply Hrest; [apply Hreq|done|unfold cors_names; set_solver].
    + apply (touches_weaken _ (fun _ => False)); [done|]. apply Forall_keeps_sets. intros Hin. by destruct (Hnames _ Hin) as [[] _].
    + split; cbn; [apply lookup_insert_eq|done].
Qed.

(** *** The server's handlers *)

(** The headers that the server and the code it calls set. *)
Definition own_names : list string :=
  ["Content-Type"; "Content-Length"; "Content-Range"; "Content-Encoding"; "Content-Disposition"; "Accept-Ranges";
   "Last-Modified"; "Etag"; "Cache-Control"; "Set-Cookie"; "Retry-After"; "Allow"; "Connection"; "Upgrade";
   "Sec-Websocket-Accept"; "Sec-Websocket-Protocol"; "Sec-Websocket-Version"; "Sec-Websocket-Extensions"].

(** An operation on those headers; [http.Error] also sets nosniff. *)
Definition own (o : wop) : Prop :=
  match o with
  | PutHeader k l => k ∈ own_names \/ k = "X-Content-Type-Options" /\ l = ["nosniff"]
  | AddHeader k _ | DelHeader k => k ∈ own_names
  | WriteHeader _ | Write _ => True
  end.

Lemma security_nosniff v : ("X-Content-Type-Options", v) ∈ security_headers cfg -> v = "nosniff".
Proof.
  unfold security_headers. destruct (hsts cfg); cbn [app]; intros Hin;
    repeat (apply elem_of_cons in Hin as [Hin|Hin]; [first [discriminate Hin|by injection Hin]|]); by apply not_elem_of_nil in Hin.
Qed.

Lemma security_not_own k : k ∈ (fst <$> security_headers cfg) -> k ∉ own_names.
Proof.
  unfold security_headers, own_names. destruct (hsts cfg); cbn [app fmap list_fmap fst];
    intros Hk; repeat (apply elem_of_cons in Hk as [->|Hk]; [set_solver|]); by apply not_elem_of_nil in Hk.
Qed.

Lemma own_touches k v l : (k, v) ∈ security_headers cfg -> Forall own l -> Forall (touches k (only v)) l.
Proof.
  intros Hin. pose proof (security_not_own k ltac:(by apply (list_elem_of_fmap_2 fst) in Hin)) as Hno.
  intros Hl. eapply Forall_impl; [exact Hl|]. intros [k' x|k' x|k'|code|m]; cbn; try done; [|by intros Hk ->..].
  intros [Hk|[-> ->]] <-; [done|]. apply security_nosniff in Hin as ->. done.
Qed.

Lemma own_keeps_id l : Forall own l -> Forall (keeps "X-Request-Id") l.
Proof.
  intros Hl. eapply Forall_impl; [exact Hl|]. intros [k' x|k' x|k'|code|m]; cbn; try done; unfold own_names; [|intros Hk ->; set_solver..].
  intros [Hk|[-> _]] Heq; [subst k'; set_solver|done].
Qed.

(** What the other code promises: its operations are on the headers it is for. *)
Class WritesLaws `{Writes} := {
  ServeContent_own rq name modtime content : Forall own (ServeContent_ops rq name modtime content);
  Accept_own rq : Forall own (Accept_ops rq);
  unrouted_own rq : Forall own (unrouted_ops rq) }.

Section pages.
Context `{WritesLaws} (cookie_line : cookie -> string) (encoded : Api.body -> Z) (TypeByExtension : string -> string).

(** The headers a static answer is given. *)
Definition static_own (a : static_answer) : Prop :=
  match a with ErrorPage _ => True | Served headers _ => Forall (fun kv => kv.1 ∈ own_names) headers end.

Lemma serveFSFile_own fsys name fb : match snd (serveFSFile TypeByExtension fsys name fb) with Some a => static_own a | None => True end.
Proof.
  unfold serveFSFile. cbn [snd]. destruct (fsys _) as [f|]; [|done]. destruct (f_IsDir f); [done|]. cbn.
  repeat constructor; cbn; unfold own_names; set_solver.
Qed.

Lemma ServeHTTP_own h method path : static_own (snd (ServeHTTP TypeByExtension h method path)).
Proof.
  unfold ServeHTTP. destruct (negb _); [done|]. cbv zeta. destruct (if HasPrefix _ _ then _ else _) as [dir|].
  - unfold serveAPK. destruct (_ || _); [done|]. cbn [snd]. destruct (Dir_Open dir _) as [f|]; [|done]. destruct (f_IsDir f); [done|].
    cbn. destruct (HasSuffix _ _); repeat constructor; cbn; unfold own_names; set_solver.
  - destruct (web h) as [fsys|]; [|done]. pose proof (serveFSFile_own fsys (TrimPrefix (Clean ("/" ++ TrimPrefix path "/")) "/") false) as Hf1.
    destruct (serveFSFile _ _ _ false) as [l [a|]]; [done|]. destruct (_ && _); [done|].
    pose proof (serveFSFile_own fsys "index.html" true) as Hf2. by destruct (serveFSFile _ _ _ true) as [l' [a|]].
Qed.

Lemma page_own rq p : Forall own (page_ops cookie_line encoded TypeByExtension rq p).
Proof.
  assert (forall (l : list string) k, bool_decide (k ∈ l) = true -> k ∈ l) as Hin by (intros l k; apply bool_decide_eq_true).
  assert (forall status m, Forall own (WriteJSON_ops status m)) as Hjson by (intros; repeat constructor).
  assert (forall retry, Forall own (retry_ops retry)) as Hretry by (intros []; repeat constructor).
  destruct p as [r|status retry m|m|h path| |]; cbn [page_ops].
  - unfold response_ops. rewrite !Forall_app. repeat split; [|done| |done].
    + apply Forall_forall. intros o (c & -> & _)%list_elem_of_fmap. by apply Hin.
    + destruct (resp_body r); repeat constructor.
  - by apply Forall_app.
  - repeat constructor.
  - pose proof (ServeHTTP_own h (hr_Method rq) path) as Ha. destruct (snd (ServeHTTP _ _ _ _)) as [status|headers b]; cbn in *.
    + repeat (apply Forall_cons; split); cbn; [by apply Hin|left; by apply Hin|by right|done..].
    + apply Forall_app. split; [|destruct b; [apply ServeContent_own|by repeat constructor]].
      apply Forall_fmap. eapply Forall_impl; [exact Ha|]. intros kv Hk. by left.
  - apply Accept_own.
  - apply unrouted_own.
Qed.

Lemma tame_router expired stop p : tame (router_handler cookie_line encoded TypeByExtension expired stop p).
Proof.
  assert (forall k P, (forall l, Forall own l -> Forall (touches k P) l) ->
    touching k P (router_handler cookie_line encoded TypeByExtension expired stop p)) as Ht.
  { intros k P Hk. assert (touching k P (writes cookie_line encoded TypeByExtension stop p)) as Hw.
    { intros cx rq. unfold writes. destruct stop as [m|]; cbn; apply Hk; [apply Forall_take|]; apply page_own. }
    unfold router_handler. destruct p; [by apply touching_TimeoutHandler|exact Hw..]. }
  split; [apply Ht, own_keeps_id|]. intros k v Hin. apply Ht. intros l. by apply own_touches.
Qed.

(** C39: every response is secured. Whatever the server's handlers answer — any
    response of a route under /v1, in time, late or cut short by the timeout, a
    health, metrics or static page or APK, an upgrade or its refusal, a path or
    method without a route — and wherever they panic, or if CORS answers in their
    place, the client gets the content security policy and the other security
    headers, each with the one value it is configured with, strict transport
    security with an https origin, and a request id; no panic leaves the chain.
    The same holds of any other handler that does not touch the request id and
    sets a security header to nothing but that value ([tame]).  Of the code
    outside (http.ServeContent, websocket.Accept, chi's own answers) it assumes
    that it sets none but the headers of its purpose, or nosniff as http.Error
    does ([WritesLaws]). *)
Theorem responses_secured expired stop p h rq :
  secured (router_handler cookie_line encoded TypeByExtension expired stop p) rq /\ (tame h -> secured h rq).
Proof. split; [apply tame_secured, tame_router|apply tame_secured]. Qed.
End pages.
End chain.

(** A server whose file answers, upgrades and refusals are these. *)
#[local] Instance demo_writes : Writes := {
  ServeContent_ops _ _ _ content := [SetHeader "Last-Modified" "Thu, 01 Jan 1970 00:00:00 GMT"; WriteHeader 200; Write (str_len content)];
  Accept_ops _ := [SetHeader "Upgrade" "websocket"; SetHeader "Connection" "Upgrade"; WriteHeader 101];
  unrouted_ops _ := Error_ops 404 19 }.

#[local] Instance demo_writes_laws : WritesLaws.
Proof.
  split; intros; repeat (apply Forall_cons; split); cbn; try done;
    first [by right | left; refine (bool_decide_unpack _ _); exact I | refine (bool_decide_unpack _ _); exact I].
Qed.

(** The login page, a login that panics after its first cookie, and a missing file. *)
Definition demo_login : page :=
  RestPage (mk_response 200 (BStatus "ok") [mk_cookie "aul_at" "t" "/" true None 0; mk_cookie "aul_rt" "u" "/" true None 0] None).

Definition demo_page (stop : option nat) (p : page) : Z * gmap string (list string) :=
  @respond demo_ext demo_cfg "fresh" 60
    (router_handler cookie_Value (fun _ => 15) (fun _ => "") false stop p) (demo_req "GET" "").

Lemma responses_secured_witness :
  (fst (demo_page None demo_login) = 200 /\ snd (demo_page None demo_login) !! "Set-Cookie" = Some ["t"; "u"] /\
   snd (demo_page None demo_login) !! "X-Frame-Options" = Some ["DENY"]) /\
  (fst (demo_page (Some 1%nat) demo_login) = 500 /\ snd (demo_page (Some 1%nat) demo_login) !! "Set-Cookie" = None /\
   snd (demo_page (Some 1%nat) demo_login) !! "X-Frame-Options" = Some ["DENY"]) /\
  (let p := StaticPage (mkStaticHandler None None) "/x" in
   fst (demo_page None p) = 404 /\ snd (demo_page None p) !! "X-Content-Type-Options" = Some ["nosniff"]) /\
  snd (@respond demo_ext demo_cfg "fresh" 60 (demo_handler true) (demo_req "GET" "")) !! "X-Frame-Options" = Some ["DENY"].
Proof.
  pose proof (fun stop p => @responses_secured demo_ext demo_cfg "fresh" 60 _ _ cookie_Value (fun _ => 15) (fun _ => "") false stop p
    (demo_handler true) (demo_req "GET" "")) as Hs.
  assert (forall k v, bool_decide ((k, v) ∈ @security_headers demo_ext demo_cfg) = true -> (k, v) ∈ @security_headers demo_ext demo_cfg)
    as Hin by (intros k v; apply bool_decide_eq_true).
  assert (forall stop p k v, bool_decide ((k, v) ∈ @security_headers demo_ext demo_cfg) = true ->
    snd (demo_page stop p) !! k = Some [v]) as Hpage.
  { intros stop p k v Hk. destruct (Hs stop p) as [(_ & Hsec & _) _]. by apply Hsec, Hin. }
  split; [|split; [|split]].
  - split; [vm_compute; reflexivity|]. split; [vm_compute; reflexivity|]. apply Hpage. vm_compute. reflexivity.
  - split; [vm_compute; reflexivity|]. split; [vm_compute; reflexivity|]. apply Hpage. vm_compute. reflexivity.
  - split; [vm_compute; reflexivity|]. apply Hpage. vm_compute. reflexivity.
  - destruct (Hs None (MetricsPage 0)) as [_ Ht]. apply Ht; [|apply Hin; vm_compute; reflexivity].
    assert (forall k, k <> "X" -> respects k (demo_handler true)) as Hr.
    { intros k Hk cx rq. cbn. repeat constructor. cbn. congruence. }
    split; [by apply Hr|]. intros k v Hk cx rq. apply (touches_weaken _ (fun _ => False)); [done|]. apply Hr. intros ->.
    apply (list_elem_of_fmap_2 fst) in Hk. revert Hk. apply (bool_decide_unpack _). vm_compute. reflexivity.
Defined.

(** ** Origins *)

Definition acao : string := "Access-Control-Allow-Origin".
Definition acac : string := "Access-Control-Allow-Credentials".

(** The chain up to CORS only sets headers. *)
Lemma sets_unsent l w : wr_Sent w = None -> wr_Sent (base_ops w ((fun kv => SetHeader kv.1 kv.2) <$> l)) = None.
Proof. revert w. induction l as [|kv l IH]; intros w Hw; [done|]. by apply (IH (base_op w _)). Qed.

(** What follows the request id and the security headers: what CORS answers or lets in. *)
Lemma chain_cors `{Ext} cfg fresh n rq : exists cx id, forall h,
  oc_ops (global_chain cfg fresh n h (mk_Ctx "" "") rq) =
  (((fun kv => SetHeader kv.1 kv.2) <$> ("X-Request-Id", id) :: security_headers cfg) ++
   let o := CORS cfg (BodyLimit (cfg_BodyLimitBytes cfg) (AccessLog (0 <? cfg_IPLogRetentionDays cfg) h)) cx rq in
   oc_ops o ++ (if oc_panic o then internal_error_ops n else []))%list.
Proof.
  set (id := if empty (hr_Header rq "X-Request-Id") || (64 <? str_len (hr_Header rq "X-Request-Id")) then fresh
             else hr_Header rq "X-Request-Id").
  exists (mk_Ctx id (ClientIP rq (cfg_TrustProxyHeaders cfg))), id. intros h. unfold global_chain, Recoverer, RequestID, RealIP, SecurityHeaders, before. cbn [oc_panic oc_ops cx_RealIP cx_RequestID].
  fold id. set (o := CORS _ _ _ _). cbv zeta. destruct (oc_panic o); cbn [oc_ops]; by rewrite ?app_nil_r, <- ?app_assoc.
Qed.

(** The response before CORS has neither header, and nothing is sent. *)
Lemma before_cors `{Ext} cfg id k : k ∈ cors_names ->
  let w := base_ops new_writer ((fun kv => SetHeader kv.1 kv.2) <$> ("X-Request-Id", id) :: security_headers cfg) in
  lacks k w /\ wr_Sent w = None.
Proof.
  intros Hk. cbv zeta. split; [|by apply sets_unsent]. apply lacks_ops; [|by split].
  apply Forall_keeps_sets. cbn [fmap list_fmap fst]. intros [->|Hin]%elem_of_cons; [unfold cors_names in Hk; set_solver|].
  by destruct (security_names cfg) as [_ Hn]; destruct (Hn k Hin) as (_ & _ & []).
Qed.

(** A header set on an unsent response, after others, and not again. *)
Lemma set_answered k v pre rest w : wr_Sent w = None -> (forall o, o ∈ pre -> exists k' v', o = SetHeader k' v') ->
  Forall (keeps k) rest -> snd (answered (base_ops w (pre ++ SetHeader k v :: rest))) !! k = Some [v].
Proof.
  intros Hw Hpre Hr. unfold base_ops. rewrite foldl_app. cbn [foldl]. apply carries_answered, carries_ops; [by apply (touches_weaken _ (fun _ => False))|].
  split; [apply lookup_insert_eq|]. cbn. assert (wr_Sent (foldl base_op w pre) = None) as ->; [|done].
  revert w Hw. induction pre as [|o pre IH]; intros w Hw; [done|]. cbn. apply IH; [set_solver|].
  by destruct (Hpre o ltac:(by left)) as (k' & v' & ->).
Qed.

(** only the configured origin is let in: the response carries the CORS headers,
    with credentials, exactly if the request names that origin (and names one);
    a preflight is answered without reaching the handler, 204 for that origin and
    403 for any other. *)
Theorem cors_exact `{Ext} cfg fresh n h rq (Ha : respects acao h) (Hc : respects acac h) :
  let origin := hr_Header rq "Origin" in
  let r := respond cfg fresh n h rq in
  (if negb (empty origin) && bool_decide (origin = allowed_origin cfg)
   then snd r !! acao = Some [origin] /\ snd r !! acac = Some ["true"]
   else snd r !! acao = None /\ snd r !! acac = None) /\
  (hr_Method rq = "OPTIONS" -> origin <> "" ->
   fst r = (if bool_decide (origin = allowed_origin cfg) then 204 else 403) /\
   forall h', respond cfg fresh n h' rq = r).
Proof.
  cbv zeta. unfold respond. destruct (chain_cors cfg fresh n rq) as (cx & id & Hchain). rewrite Hchain. cbv zeta.
  destruct (before_cors cfg id acao) as [Hla Hsent]; [by left|].
  destruct (before_cors cfg id acac) as [Hlc _]; [by right; left|].
  set (inner := fun h => BodyLimit (cfg_BodyLimitBytes cfg) (AccessLog (0 <? cfg_IPLogRetentionDays cfg) h)).
  assert (Hin : forall k, respects k h -> k <> "Content-Type" -> Forall (keeps k)
    (oc_ops (inner h cx rq) ++ (if oc_panic (inner h cx rq) then internal_error_ops n else []))).
  { intros k Hk Hct. apply Forall_app. split; [by apply (touching_AccessLog k _ _ h)|].
    destruct (oc_panic _); repeat constructor; cbn; congruence. }
  set (w := base_ops new_writer _) in *.
  assert (Happ : forall h', base_ops new_writer (((fun kv => SetHeader kv.1 kv.2) <$> ("X-Request-Id", id) :: security_headers cfg) ++
     oc_ops (CORS cfg (inner h') cx rq) ++ (if oc_panic (CORS cfg (inner h') cx rq) then internal_error_ops n else [])) =
     base_ops w (oc_ops (CORS cfg (inner h') cx rq) ++ (if oc_panic (CORS cfg (inner h') cx rq) then internal_error_ops n else []))).
  { intros h'. unfold base_ops. by rewrite foldl_app. }
  change (BodyLimit _ _) with (inner h). rewrite Happ.
  assert (Hany : forall h', answered (base_ops new_writer (oc_ops (global_chain cfg fresh n h' (mk_Ctx "" "") rq))) =
    answered (base_ops w (oc_ops (CORS cfg (inner h') cx rq) ++
      (if oc_panic (CORS cfg (inner h') cx rq) then internal_error_ops n else [])))).
  { intros h'. rewrite Hchain. cbv zeta. change (BodyLimit _ _) with (inner h'). by rewrite Happ. }
  clear Happ Hchain. clearbody w. unfold CORS in *. set (origin := hr_Header rq "Origin") in *.
  assert (Hnil : forall l : list wop, (l ++ [])%list = l) by apply app_nil_r.
  destruct (empty origin) eqn:Ho; cbn [negb andb] in *.
  - apply empty_true in Ho. rewrite andb_false_r in *. split; [|done].
    split; apply lacks_answered; (apply lacks_ops; [by apply Hin|done]).
  - apply empty_false in Ho. destruct (bool_decide_reflect (origin = allowed_origin cfg)) as [->|Hno].
    + destruct (bool_decide_reflect (hr_Method rq = "OPTIONS")) as [Hm|Hm].
      * cbn [oc_ops oc_panic] in *. rewrite Hnil. split; [split|].
        -- apply (set_answered _ _ []); [done|set_solver|repeat constructor; done].
        -- apply (set_answered _ _ [SetHeader acao _]); [done|set_solver|repeat constructor; done].
        -- intros _ _. split; [|intros h'; rewrite Hany; by rewrite Hnil].
           unfold answered. cbn. by rewrite Hsent.
      * split; [|done]. cbn [before oc_ops oc_panic app]. split.
        -- apply (set_answered _ _ []); [done|set_solver|]. repeat (constructor; [done|]). by apply Hin.
        -- apply (set_answered _ _ [SetHeader acao _]); [done|set_solver|]. repeat (constructor; [done|]). by apply Hin.
    + rewrite andb_true_r in *. destruct (bool_decide_reflect (hr_Method rq = "OPTIONS")) as [Hm|Hm].
      * cbn [oc_ops oc_panic] in *. rewrite Hnil. split; [split; apply lacks_answered; apply lacks_ops; (done || by repeat constructor)|].
        intros _ _. split; [|intros h'; rewrite Hany; by rewrite Hnil].
        unfold answered. cbn. by rewrite Hsent.
      * split; [|done]. split; apply lacks_answered; (apply lacks_ops; [by apply Hin|done]).
Qed.

Lemma cors_exact_witness :
  let ask m o := @respond demo_ext demo_cfg "fresh" 60 (demo_handler false) (demo_req m o) in
  snd (ask "GET" "https://aul.example.com") !! acac = Some ["true"] /\
  snd (ask "GET" "https://evil.example") !! acao = None /\ fst (ask "OPTIONS" "https://evil.example") = 403.
Proof.
  assert (Hr : forall k, k <> "X" -> respects k (demo_handler false)).
  { intros k Hk cx rq. cbn. repeat constructor. cbn. congruence. }
  pose proof (fun m o => @cors_exact demo_ext demo_cfg "fresh" 60 (demo_handler false) (demo_req m o)
    (Hr acao ltac:(discriminate)) (Hr acac ltac:(discriminate))) as Hc. cbv zeta. split; [|split].
  - exact (proj2 (proj1 (Hc "GET" "https://aul.example.com"))).
  - exact (proj1 (proj1 (Hc "GET" "https://evil.example"))).
  - exact (proj1 (proj2 (Hc "OPTIONS" "https://evil.example") eq_refl ltac:(discriminate))).
Defined.

(** ** The client's address *)

(** C40: a client cannot choose its address.  Without a trusted proxy no header
    counts, only the peer of the connection.  Behind one that appends the peer it
    sees to X-Forwarded-For and lets no X-Real-IP through, the address is the one
    it appended, whatever the client sent before it; behind one that overwrites
    X-Real-IP, it is that one, whatever else the client sent.  A header is read as
    the code reads it, its first line only, so that the proxy is taken to append
    to the client's X-Forwarded-For line, not to add one of its own. *)
Theorem client_ip_unspoofable `{Ext} rq forged proxied
    (Hp : all_chars graphic proxied = true) (Hc : no_char "," proxied = true) (Hne : proxied <> "") :
  (forall rq', hr_RemoteAddr rq' = hr_RemoteAddr rq -> ClientIP rq' false = ClientIP rq false) /\
  (hr_Header rq "X-Real-Ip" = "" -> hr_Header rq "X-Forwarded-For" = forged ++ "," ++ " " ++ proxied -> ClientIP rq true = proxied) /\
  (hr_Header rq "X-Real-Ip" = "" -> hr_Header rq "X-Forwarded-For" = proxied -> ClientIP rq true = proxied) /\
  (hr_Header rq "X-Real-Ip" = proxied -> ClientIP rq true = proxied).
Proof.
  assert (Hep : empty proxied = false) by by apply bool_decide_eq_false.
  assert (Hsp : TrimSpace (" " ++ proxied) = proxied).
  { unfold TrimSpace. rewrite is_ascii_app, (graphic_ascii proxied) by done. change (is_ascii " " && true) with true. cbv iota.
    rewrite list_ascii_app. change (String.list_ascii_of_string " ") with [" "%char]. cbn [app drop_space].
    change (is_space " ") with true. cbv iota.
    rewrite (drop_space_clear (String.list_ascii_of_string proxied)) by by apply graphic_clear.
    rewrite drop_space_clear by by apply graphic_rev_clear.
    by rewrite rev_involutive, String.string_of_list_ascii_of_string. }
  split; [by intros rq' Hr; unfold ClientIP; rewrite Hr|]. split; [|split].
  - intros Hx Hf. unfold ClientIP. rewrite Hx, Hf. change (TrimSpace "") with "". rewrite string_app_cons, (string_app_nil (" " ++ proxied)).
    destruct (split_on_tail "," forged (" " ++ proxied)) as (p & ps & ->).
    { rewrite no_char_app, Hc. done. }
    rewrite app_comm_cons, last_snoc. unfold default, id. rewrite Hsp.
    assert (empty (forged ++ String "," (" " ++ proxied)) = false) as ->.
    { apply bool_decide_eq_false. by destruct forged. }
    change (negb (empty "")) with false. cbv zeta iota. by rewrite Hep.
  - intros Hx Hf. unfold ClientIP. rewrite Hx, Hf, split_on_last by done. change (TrimSpace "") with "".
    change (negb (empty "")) with false. cbv zeta iota. rewrite Hep. unfold default, id; cbn [negb last].
    by rewrite TrimSpace_graphic, Hep by done.
  - intros Hx. unfold ClientIP. rewrite Hx, TrimSpace_graphic by done. cbv zeta. by rewrite Hep.
Qed.

Lemma client_ip_unspoofable_witness :
  @ClientIP demo_ext (demo_req "GET" "") true = "203.0.113.9" /\
  @ClientIP demo_ext (demo_req "GET" "") false = "10.0.0.2".
Proof.
  destruct (@client_ip_unspoofable demo_ext (demo_req "GET" "") "1.2.3.4" "203.0.113.9" eq_refl eq_refl ltac:(discriminate))
    as (_ & H & _).
  split; [exact (H eq_refl eq_refl)|reflexivity].
Defined.
